(* ===== verification/_CoqProject ===== *)
-Q . S2P
Prelude.v
GoStrings.v
Errors.v
Logger.v
Utils.v
Params.v
Base.v
Uri.v
Header.v
Headers.v
Auth.v
HeaderParse.v
HeaderRoundTrip.v
Message.v
DefaultHeader.v
ElasticChan.v
Parser.v
ParserBuffer.v
MessageRoundTrip.v
ParserLife.v
ParseMessage.v
ConnHandler.v
Pool.v
ListenHandler.v
ConnPool.v
TxKey.v
Fsm.v
Transport.v
NoticeLoop.v
Protocols.v
ConnIO.v
TxCommon.v
ClientTx.v
ServerTx.v
TxLayer.v
TxHandlers.v
TxInterleave.v
AckMatch.v
Challenge.v
ClientSpec.v
ClientRaces.v
ServerRaces.v
Service.v
Options.v
EndToEnd.v
Wire.v
WireTcp.v
