(* ===== verification/Prelude.v ===== *)
(** * gsip: a verification development

    gsip is a SIP stack: messages and their grammar (package sip), transactions and the
    transaction layer (transaction), connections, protocols and the transport layer
    (transport), callbacks (callback) and the service (the root package).  This library
    models these packages and proves what they promise each other and their user.

    ** How the program hangs together

    Bytes that arrive on a socket go to a connection handler (connection_handler.go),
    which writes them to a parser (parser.go) and passes the messages that come out up to
    a pool (connection_pool.go); a pool of a protocol (udp.go, tcp.go) hands them to the
    transport layer (transport.go), and this one to the transaction layer
    (transaction.go), which matches them with transactions by their keys (tx.go), runs the
    state machines of client and server transactions (client_tx.go, server_tx.go), and
    passes new requests and responses up to the service (service.go), which starts the
    callbacks of the user (callback/default.go).  What the user sends goes the other way:
    the service completes the headers, the transaction layer makes a transaction or finds
    one, the transport layer rewrites the Via header and picks a protocol, the protocol
    finds a connection and writes the text of the message.

    ** How the code is modelled

    A Go call returns a value, an error or panics: the type [res] below.  A pointer or
    interface that may be nil is an option, using a nil one is a panic.  Strings are
    sequences of bytes; integers are N or Z with their range written out where the code
    converts.  A map is a gmap; where its order is visible (printing, [All]) the order is
    an argument.  A value of the interface MaybeString that is not nil is a String or a
    pointer to one ([Base.boxed]) where the code tells them apart (display names, users,
    passwords); for a parameter the text is kept, and the comparison of parameters takes
    the addresses of the pointers.  Transactions, sessions, connections and handlers are
    objects of heaps, referred to by index.  Random strings, identifiers and the clock are
    arguments.  A goroutine is
    a state that says where it is, and an event is one step of one goroutine or one
    communication of two; theorems quantify over all sequences of events, hence over all
    interleavings at this grain.  A lock is held within one event.  The package net, the
    resolver and the state machine package github.com/discoviking/fsm are parameters, the
    last one with the laws of [Fsm.FsmSpin] and a machine that satisfies them.

    ** The files

    - Prelude.v: results, panics, folds over lists in the result monad, hints.
    - GoStrings.v: the functions of strings, strconv, fmt and net that the sources call.
    - Errors.v: the error types of the three layers, their predicates and texts
      (sip/error.go, transport/error.go, transaction/error.go).
    - Logger.v, Utils.v: the global logger and its options (logger/, options.go), the
      helpers [Coalesce] and [MergeErrs] (utils/helpers.go).
    - Params.v, Base.v, Uri.v, Header.v, Headers.v, Auth.v: the values of package sip:
      parameters, addresses and methods, URIs, headers, the container of headers, digest
      authorization with MD5 (headers.go, base.go, status.go, auth.go).
    - HeaderParse.v, HeaderRoundTrip.v: the parsers of headers and of start lines
      (parser.go), and that they read back what is rendered.
    - Message.v, Challenge.v: requests, responses, sessions (message.go, request.go,
      response.go, session.go), and a request that answers a 401 (auth.go).
    - DefaultHeader.v: the container over headers that may be nil, for [DefaultHeader]
      (headers.go), which makes such headers.
    - ElasticChan.v: the unbounded channel (utils/elasticchan.go).
    - Parser.v, MessageRoundTrip.v, ParserLife.v: the parsing goroutine (parser.go), what
      it makes of whole messages, its life from the first [Write] to [Stop].
    - ParserBuffer.v, ParseMessage.v: lines and chunks over a buffered reader of limited
      size (parserbuffer.go), and a caller that parses one datagram, as two goroutines.
    - ConnHandler.v, ListenHandler.v: connections, listeners and their handlers
      (connection.go, connection_handler.go, listener_handler.go).
    - Pool.v, ConnPool.v: the pool of handlers over the class [PoolHandler], and its two
      instances (connection_pool.go, listener_pool.go).
    - ConnIO.v: reading, writing and deadlines of a connection (connection.go).
    - TxKey.v: the keys of transactions (tx.go).
    - Fsm.v: what the transactions rely on of their state machine.
    - Transport.v, NoticeLoop.v, Protocols.v: the transport layer with its pool of protocols
      (transport.go, protocolPool.go, protocolFactory.go), the goroutine that passes what
      was received up, and the protocols (udp.go, tcp.go).  The class [TransportLayer] is
      what the transaction layer is proved against; the layer of Transport.v is an
      instance.
    - TxCommon.v, ClientTx.v, ServerTx.v, TxLayer.v: timers, client and server
      transactions, and the layer (transaction/), whose handlers are one step each.
    - TxHandlers.v, TxInterleave.v: the same handlers as goroutines, with a program point
      between any two accesses to what they share; the layer in all their interleavings.
    - AckMatch.v: the ACK of a client at the server.
    - ClientSpec.v: what a client transaction promises, as an abstract step relation, and
      that the transaction refines it.
    - ClientRaces.v, ServerRaces.v: the calls of one transaction as goroutines, with a
      program point between the locked sections of [Receive] and [SendResponse] and the
      spinning of the machine (client_tx.go, server_tx.go).
    - Service.v, Options.v: callbacks, the service, its configuration (callback/,
      service.go, options.go, transport/options.go, utils/).
    - EndToEnd.v, Wire.v, WireTcp.v: the parts composed: from the socket to the callback,
      from a request to its answer, from an answer to the socket over UDP and over TCP.

    ** What the theorems show

    - Grammar: what the parsers make of rendered parameters, URIs, headers, start lines and
      whole messages on a stream ([Params.ParseParams_ToString], [Uri.ParseUri_String],
      [HeaderRoundTrip.ParseHeader_String], [MessageRoundTrip.stream_round_trip]): the same
      again, but for the kinds of headers that come back changed, the Request-URI, of which
      only host and port are kept, and bodies of white space; what the header parsers
      return is well formed ([HeaderParse.ParseHeader_parsed_ok]), and where they can panic
      ([HeaderParse.ParseHeader_no_panic]).
    - One datagram: [ParseMessage] returns its message in every order of its goroutines
      ([ParseMessage.ParseMessage_returns]), and the data for which it never returns.
    - Parser: it comes to rest, the cut of a stream into segments does not matter, a
      datagram is framed exactly, and the causes of a panic are listed
      ([MessageRoundTrip.reachable_panic]).
    - Header container: an invariant of all that its operations build, and the part of it
      that [ReplaceHeader] of an absent name breaks.
    - Transactions: the full runs of client and server transactions for INVITE and other
      requests, retransmission times and how many copies go out before timer B
      ([ClientSpec.timerA_bounds]), the ACK, CANCEL; when calls do not overlap, one final
      response at most reaches the user ([ClientSpec.client_refines]); keys match exactly
      the messages of RFC 3261, 17.2.3.
    - Transaction layer, each handler running alone: its invariant over all sequences of
      handlers and other events, a new request is delivered once and its retransmissions go
      to the transaction, closing ends everything; sessions, and how an old one drops the
      new one ([TxLayer.old_session_drops_new]).  For handlers that interleave: alone, a goroutine does what the one
      step does ([TxInterleave.handler_alone]) and it always returns; whatever they do, a
      message goes to a transaction of its key and no transaction goes up with two requests
      ([TxInterleave.interleavings_safe]); and three races ([TxInterleave.duplicates_race],
      [early_retransmission], [offer_after_close]).
    - Calls of one transaction that overlap: what the user is passed came in, and what is
      sent was handed in, in every interleaving ([ClientRaces.receives_safe],
      [ServerRaces.answers_safe]); calls of a client transaction whose stores do not fall
      into one another are whole calls ([ClientRaces.receives_serialise]); and what happens
      when they do ([ClientRaces.final_passed_twice], [ServerRaces.answer_replaced]).
    - Authorization: what a request carries after a 401, and that the server which made the
      challenge verifies it ([Challenge.challenge_answered]).
    - Connections: in any interleaving of reader, parser, server and pool the messages of
      a stream are passed up in order, each once ([ConnHandler.tcp_delivery],
      [ConnPool.pool_delivery]); a handler can panic only in its parser and, after a [Put]
      that was overtaken by the end of the pool, on the closed channels of the pool
      ([ConnPool.handler_safe]); a pool refines a map, and closes what it was given.  The elastic channel refines a queue.
    - Service: what completing a message adds, the 405 for an unknown method, the callback
      for a known one ([EndToEnd.request_reaches_callback] from the bytes on); an answer to
      what was sent finds its transaction ([EndToEnd.answer_finds_transaction]), and an
      answer over UDP goes to the address of the Via header of its request
      ([Wire.answer_on_the_wire]), over TCP through the connection to this address, which is
      not always the one of the request ([WireTcp.answer_over_tcp]).
    - Many theorems show where the code falls short of its purpose: a request to an
      address without a port makes the answer panic, a service cannot be closed, a dead TCP
      connection is used for ever, a closed handler leaks its goroutines, the ACK of a
      failed INVITE does not match it ([AckMatch.failure_ack_unmatched]), and others.

    ** Fuel and bounds

    [MessageRoundTrip.parser_terminates] gives the fuel of the parser: one more than its
    measure, which counts unread bytes twice.  Elsewhere runs are relations or lists of
    events, so no fuel occurs but in the samples of the witnesses and in the loops of
    ParserBuffer.v, where twice the bytes at hand are enough
    ([ParserBuffer.NextLine_spec]).  [ClientSpec.timerA_bounds] shows that 64 bits are
    enough for the doubled timer while timer B has not fired.

    ** Not modelled

    - What the package zap-logger does with a configuration: a parameter of Logger.v.
    - [Noop] (helpers.go), and methods that only return a field or the text of a pointer
      for the log.
    - What interleaves inside [Spin]: the actions of a machine run as one step, also where
      they give up the lock of the transaction; and [Spin] called from an action of its own
      machine, which ends the model of a run.
    - Operating system: sockets, dialling, resolution, interfaces are parameters. *)

From stdpp Require Export base tactics option list strings gmap.
From Stdlib Require Export Ascii.

(** ** Results of Go functions

    A Go call either returns a value with a nil error, returns a non-nil error,
    or panics.  The error is identified by the format string the source passes to
    [fmt.Errorf]; the panics are the run-time panics of the language. *)

Inductive panic_kind : Set :=
  | IndexOutOfRange
  | SliceOutOfRange
  | NilDereference
  | TypeAssertion
  | NilMapWrite
  | SendOnClosed
  | CloseOfNil
  | Panicked.

Inductive res (A : Type) : Type :=
  | Ok (a : A)
  | Err (e : string)
  | Panic (p : panic_kind).
Arguments Ok {A} a.
Arguments Err {A} e.
Arguments Panic {A} p.

#[export] Instance panic_kind_eq_dec : EqDecision panic_kind.
Proof. solve_decision. Defined.

#[export] Instance res_eq_dec {A} `{EqDecision A} : EqDecision (res A).
Proof. solve_decision. Defined.

#[export] Instance Ok_inj {A} : Inj (=) (=) (@Ok A).
Proof. by intros x y [= ->]. Qed.

#[export] Instance res_ret : MRet res := fun A a => Ok a.
#[export] Instance res_bind : MBind res := fun A B f m =>
  match m with
  | Ok a => f a
  | Err e => Err e
  | Panic p => Panic p
  end.
#[export] Instance res_fmap : FMap res := fun A B f m =>
  match m with
  | Ok a => Ok (f a)
  | Err e => Err e
  | Panic p => Panic p
  end.

Definition is_ok {A} (r : res A) : bool :=
  match r with Ok _ => true | _ => false end.

Definition is_panic {A} (r : res A) : bool :=
  match r with Panic _ => true | _ => false end.

Definition ok_or {A} (e : string) (o : option A) : res A :=
  match o with Some a => Ok a | None => Err e end.

Definition deref {A} (o : option A) : res A :=
  match o with Some a => Ok a | None => Panic NilDereference end.

Fixpoint mapM_res {A B} (f : A -> res B) (l : list A) : res (list B) :=
  match l with
  | [] => Ok []
  | a :: l' => b ← f a; bs ← mapM_res f l'; Ok (b :: bs)
  end.

Fixpoint foldM_res {S A} (f : S -> A -> res S) (s : S) (l : list A) : res S :=
  match l with
  | [] => Ok s
  | a :: l' => s' ← f s a; foldM_res f s' l'
  end.

(** ** Automation *)

#[global] Arguments String.append !_ _ : simpl nomatch.

Create HintDb gsip.

(** Case analysis on every test of a hypothesis or of the goal, closing the
    branches that are contradictory. *)
Ltac split_matches :=
  repeat match goal with
    | |- context [match ?x with _ => _ end] => destruct x eqn:?; try discriminate
    | H : context [match ?x with _ => _ end] |- _ => destruct x eqn:?; try discriminate
    end.

(** Unfold one bind whose first action is known. *)
Ltac res_simpl := cbn [mbind res_bind mret res_ret fmap res_fmap is_panic is_ok].

Lemma bind_ok {A B} (m : res A) (f : A -> res B) b :
  (m ≫= f) = Ok b <-> exists a, m = Ok a /\ f a = Ok b.
Proof.
  destruct m; cbn; split; intros H.
  - eauto.
  - by destruct H as (? & [= ->] & ?).
  - discriminate.
  - by destruct H as (? & ? & ?).
  - discriminate.
  - by destruct H as (? & ? & ?).
Qed.

(** A composition does not panic when neither part does. *)
Lemma bind_no_panic {A B} (m : res A) (f : A -> res B) :
  is_panic m = false ->
  (forall a, m = Ok a -> is_panic (f a) = false) ->
  is_panic (m ≫= f) = false.
Proof. destruct m; cbn; auto. Qed.

Lemma mapM_res_no_panic {A B} (f : A -> res B) l :
  (forall a, a ∈ l -> is_panic (f a) = false) ->
  is_panic (mapM_res f l) = false.
Proof.
  induction l as [|a l IH]; intros H; [done|]. cbn.
  apply bind_no_panic; [apply H; left|intros b _].
  apply bind_no_panic; [|done].
  apply IH. intros. apply H. by right.
Qed.

Lemma mapM_res_ok_map {A B} (f : A -> res B) (g : A -> B) l :
  (forall a, a ∈ l -> f a = Ok (g a)) ->
  mapM_res f l = Ok (map g l).
Proof.
  induction l as [|a l IH]; intros H; [done|]. cbn.
  rewrite (H a) by left. cbn. rewrite IH; [done|].
  intros. apply H. by right.
Qed.

Lemma foldM_res_ok {S A} (f : S -> A -> res S) (P : S -> Prop) (Q : A -> Prop) l :
  (forall s a, P s -> Q a -> exists s', f s a = Ok s' /\ P s') ->
  Forall Q l ->
  forall s, P s -> exists s', foldM_res f s l = Ok s' /\ P s'.
Proof.
  intros Hf Hl. induction Hl as [|a l Ha _ IH]; intros s Hs; cbn; [eauto|].
  destruct (Hf s a Hs Ha) as (s' & -> & Hs'). cbn. auto.
Qed.

Lemma foldM_res_app {S A} (f : S -> A -> res S) l1 l2 s :
  foldM_res f s (l1 ++ l2) = (foldM_res f s l1 ≫= fun s' => foldM_res f s' l2).
Proof.
  revert s. induction l1 as [|a l1 IH]; intros s; [done|].
  cbn. destruct (f s a); cbn; auto.
Qed.

#[export] Hint Resolve bind_no_panic mapM_res_no_panic : gsip.
