(* ===== verification/GoStrings.v ===== *)
(** * The Go strings, numbers and address functions that gsip calls

    A Go string is a sequence of bytes; here a [String.string].  The functions
    of the packages [strings], [strconv], [fmt], [unicode/utf8] and [net] that the
    sources call are defined as the Go documentation describes them.
    [strings.ToLower] and [strings.ToUpper] map the ASCII letters and leave every
    other byte unchanged. *)

From S2P Require Import Prelude.
From Stdlib Require Import Decimal DecimalString DecimalN DecimalPos NArith ZArith Lia.

Open Scope string_scope.

(** ** Bytes *)

Definition byte_of (n : N) : ascii := ascii_of_N n.
Definition NUL : ascii := byte_of 0.
Definition HTAB : ascii := byte_of 9.
Definition LF : ascii := byte_of 10.
Definition CR : ascii := byte_of 13.
Definition SP : ascii := byte_of 32.
Definition QUOTE : ascii := byte_of 34.

Definition CRLF : string := String CR (String LF "").
Definition DQ : string := String QUOTE "".

(** [abnfWs = " \t"] in parser.go, [cAbaftWs] in headers.go. *)
Definition is_abnf_ws (c : ascii) : bool := Ascii.eqb c SP || Ascii.eqb c HTAB.

Definition is_digit (c : ascii) : bool :=
  (48 <=? N_of_ascii c)%N && (N_of_ascii c <=? 57)%N.
Definition is_upper (c : ascii) : bool :=
  (65 <=? N_of_ascii c)%N && (N_of_ascii c <=? 90)%N.
Definition is_lower (c : ascii) : bool :=
  (97 <=? N_of_ascii c)%N && (N_of_ascii c <=? 122)%N.
Definition is_ascii (c : ascii) : bool := (N_of_ascii c <? 128)%N.

Definition lower_byte (c : ascii) : ascii :=
  if is_upper c then byte_of (N_of_ascii c + 32) else c.
Definition upper_byte (c : ascii) : ascii :=
  if is_lower c then byte_of (N_of_ascii c - 32) else c.

(** [string(b)] for a byte [b]: the UTF-8 encoding of the code point [b], one
    byte below 0x80 and two bytes from 0x80 on. *)
Definition string_of_byte (c : ascii) : string :=
  if is_ascii c then String c ""
  else String (byte_of (192 + N.shiftr (N_of_ascii c) 6))
         (String (byte_of (128 + N.land (N_of_ascii c) 63)) "").

#[global] Arguments Ascii.eqb : simpl never.
#[global] Arguments String.eqb : simpl never.
#[global] Arguments is_ascii : simpl never.
#[global] Arguments is_abnf_ws : simpl never.
#[global] Arguments string_of_byte : simpl never.

(** ** Slicing *)

Fixpoint str_take (n : nat) (s : string) : string :=
  match n, s with
  | S n', String c s' => String c (str_take n' s')
  | _, _ => ""
  end.

Fixpoint str_drop (n : nat) (s : string) : string :=
  match n, s with
  | S n', String c s' => str_drop n' s'
  | _, _ => s
  end.

#[global] Arguments str_take !n !s : simpl nomatch.
#[global] Arguments str_drop !n !s : simpl nomatch.

(** [s[:n]] and [s[n:]]: a slice bound past the end panics. *)
Definition slice_to (n : nat) (s : string) : res string :=
  if (n <=? String.length s)%nat then Ok (str_take n s) else Panic SliceOutOfRange.
Definition slice_from (n : nat) (s : string) : res string :=
  if (n <=? String.length s)%nat then Ok (str_drop n s) else Panic SliceOutOfRange.
(** [s[0]] *)
Definition first_byte (s : string) : res ascii :=
  match s with String c _ => Ok c | "" => Panic IndexOutOfRange end.

(** ** Searching *)

(** [strings.Index(s, c)] for a one-byte pattern; [None] is the result -1. *)
Fixpoint index_by (p : ascii -> bool) (s : string) : option nat :=
  match s with
  | "" => None
  | String a s' => if p a then Some 0 else S <$> index_by p s'
  end.
Definition index_byte (c : ascii) (s : string) : option nat := index_by (Ascii.eqb c) s.

Fixpoint HasPrefix (p s : string) : bool :=
  match p, s with
  | "", _ => true
  | String a p', String b s' => Ascii.eqb a b && HasPrefix p' s'
  | _, _ => false
  end.
Definition TrimPrefix (p s : string) : string :=
  if HasPrefix p s then str_drop (String.length p) s else s.

(** [strings.Index(s, p)] *)
Fixpoint index_str (p s : string) : option nat :=
  if HasPrefix p s then Some 0
  else match s with
       | "" => None
       | String _ s' => S <$> index_str p s'
       end.

(** The last occurrence of a byte. *)
Fixpoint last_index_byte (c : ascii) (s : string) : option nat :=
  match s with
  | "" => None
  | String a s' =>
      match last_index_byte c s' with
      | Some i => Some (S i)
      | None => if Ascii.eqb c a then Some 0 else None
      end
  end.

Fixpoint sforall (p : ascii -> bool) (s : string) : bool :=
  match s with "" => true | String a s' => p a && sforall p s' end.

(** [strings.Contains(s, c)] and [strings.ContainsAny(s, set)] *)
Definition contains_by (p : ascii -> bool) (s : string) : bool := negb (sforall (fun a => negb (p a)) s).
Definition contains_byte (c : ascii) (s : string) : bool := contains_by (Ascii.eqb c) s.

Fixpoint count_byte (c : ascii) (s : string) : nat :=
  match s with
  | "" => 0
  | String a s' => (if Ascii.eqb c a then 1 else 0) + count_byte c s'
  end.

(** ** Splitting, joining and changing case *)

(** [strings.Split(s, c)] *)
Fixpoint split_byte (c : ascii) (s : string) : list string :=
  match s with
  | "" => [""]
  | String a s' =>
      if Ascii.eqb c a then "" :: split_byte c s'
      else match split_byte c s' with
           | w :: ws => String a w :: ws
           | [] => [String a ""]
           end
  end.

(** [strings.Join] *)
Fixpoint join (sep : string) (l : list string) : string :=
  match l with
  | [] => ""
  | [w] => w
  | w :: l' => w +:+ sep +:+ join sep l'
  end.

Fixpoint smap (f : ascii -> ascii) (s : string) : string :=
  match s with "" => "" | String a s' => String (f a) (smap f s') end.
Definition ToLower (s : string) : string := smap lower_byte s.
Definition ToUpper (s : string) : string := smap upper_byte s.

Fixpoint srev (s : string) : string :=
  match s with "" => "" | String a s' => srev s' +:+ String a "" end.

(** ** Trimming *)

(** [unicode.IsSpace] on the UTF-8 encoding of a code point: the ASCII spaces,
    U+0085 and U+00A0 (two bytes), and U+1680, U+2000..U+200A, U+2028, U+2029,
    U+202F, U+205F and U+3000 (three bytes). *)
Definition space1 (a : ascii) : bool :=
  let n := N_of_ascii a in ((9 <=? n) && (n <=? 13) || (n =? 32))%N.
Definition space2 (a b : ascii) : bool :=
  let m := N_of_ascii a in let n := N_of_ascii b in
  ((m =? 194) && ((n =? 133) || (n =? 160)))%N.
Definition space3 (a b c : ascii) : bool :=
  let l := N_of_ascii a in let m := N_of_ascii b in let n := N_of_ascii c in
  ((l =? 225) && (m =? 154) && (n =? 128)
   || (l =? 226) && (m =? 128)
      && ((128 <=? n) && (n <=? 138) || (n =? 168) || (n =? 169) || (n =? 175))
   || (l =? 226) && (m =? 129) && (n =? 159)
   || (l =? 227) && (m =? 128) && (n =? 128))%N.

Fixpoint trim_space_left (s : string) : string :=
  match s with
  | "" => ""
  | String a s1 =>
      if space1 a then trim_space_left s1
      else match s1 with
           | "" => s
           | String b s2 =>
               if space2 a b then trim_space_left s2
               else match s2 with
                    | "" => s
                    | String c s3 => if space3 a b c then trim_space_left s3 else s
                    end
           end
  end.

(** The same on the reversed bytes: UTF-8 is self-synchronising, so the last
    code point is a space exactly when the last bytes spell one. *)
Fixpoint trim_space_left_rev (s : string) : string :=
  match s with
  | "" => ""
  | String a s1 =>
      if space1 a then trim_space_left_rev s1
      else match s1 with
           | "" => s
           | String b s2 =>
               if space2 b a then trim_space_left_rev s2
               else match s2 with
                    | "" => s
                    | String c s3 => if space3 c b a then trim_space_left_rev s3 else s
                    end
           end
  end.

Definition TrimSpace (s : string) : string :=
  srev (trim_space_left_rev (srev (trim_space_left s))).

(** [strings.TrimLeft(s, abnfWs)] *)
Fixpoint trim_left_ws (s : string) : string :=
  match s with
  | "" => ""
  | String a s' => if is_abnf_ws a then trim_left_ws s' else s
  end.

(** ** Numbers *)

(** [fmt.Sprint] and [%d] of an unsigned integer. *)
Definition itoa (n : N) : string := NilZero.string_of_uint (N.to_uint n).

Definition digit_value (c : ascii) : N := N_of_ascii c - 48.

Fixpoint parse_digits (acc : N) (s : string) : option N :=
  match s with
  | "" => Some acc
  | String c s' => if is_digit c then parse_digits (10 * acc + digit_value c)%N s' else None
  end.

(** [strconv.ParseUint(s, 10, bits)].  On an error the value is 0 or the
    largest one; no caller uses it. *)
Definition ParseUint (s : string) (bits : N) : res N :=
  if String.eqb s "" then Err "strconv.ParseUint: invalid syntax"
  else match parse_digits 0 s with
       | None => Err "strconv.ParseUint: invalid syntax"
       | Some n => if (n <? 2 ^ bits)%N then Ok n else Err "strconv.ParseUint: value out of range"
       end.

(** [strconv.Atoi] on a 64-bit platform. *)
Definition Atoi (s : string) : res Z :=
  let '(neg, ds) :=
    match s with
    | String "-" s' => (true, s')
    | String "+" s' => (false, s')
    | _ => (false, s)
    end in
  if String.eqb ds "" then Err "strconv.Atoi: invalid syntax"
  else match parse_digits 0 ds with
       | None => Err "strconv.Atoi: invalid syntax"
       | Some n =>
           let v := if neg then (- Z.of_N n)%Z else Z.of_N n in
           if ((- 2 ^ 63 <=? v) && (v <? 2 ^ 63))%Z then Ok v
           else Err "strconv.Atoi: value out of range"
       end.

(** Conversion of an [int] to [uint16]. *)
Definition to_uint16 (z : Z) : N := Z.to_N (z mod 2 ^ 16).

(** ** [net.SplitHostPort] *)

Definition SplitHostPort (hostport : string) : res (string * string) :=
  match last_index_byte ":" hostport with
  | None => Err "missing port in address"
  | Some i =>
      let finish host j k :=
        if contains_byte "[" (str_drop j hostport) then Err "unexpected '[' in address"
        else if contains_byte "]" (str_drop k hostport) then Err "unexpected ']' in address"
        else Ok (host, str_drop (S i) hostport) in
      match hostport with
      | String "[" _ =>
          match index_byte "]" hostport with
          | None => Err "missing ']' in address"
          | Some e =>
              if (S e =? String.length hostport)%nat then Err "missing port in address"
              else if (S e =? i)%nat then finish (str_drop 1 (str_take e hostport)) 1 (S e)
              else match str_drop (S e) hostport with
                   | String ":" _ => Err "too many colons in address"
                   | _ => Err "missing port in address"
                   end
          end
      | _ =>
          let host := str_take i hostport in
          if contains_byte ":" host then Err "too many colons in address"
          else finish host 0 0
      end
  end.

(** ** Lemmas *)

#[local] Open Scope list_scope.

Lemma sapp_nil_r s : s +:+ "" = s.
Proof. induction s; cbn; congruence. Qed.

Lemma sapp_assoc s1 s2 s3 : (s1 +:+ s2) +:+ s3 = s1 +:+ s2 +:+ s3.
Proof. induction s1; cbn; congruence. Qed.

Lemma slength_app s1 s2 :
  String.length (s1 +:+ s2) = (String.length s1 + String.length s2)%nat.
Proof. induction s1; cbn; congruence. Qed.

Lemma sapp_String_one a s : String a "" +:+ s = String a s.
Proof. done. Qed.

Lemma sforall_app p s1 s2 : sforall p (s1 +:+ s2) = sforall p s1 && sforall p s2.
Proof. induction s1; cbn; [done|]. rewrite IHs1. by rewrite andb_assoc. Qed.

Lemma sforall_weaken (p q : ascii -> bool) s :
  (forall a, p a = true -> q a = true) -> sforall p s = true -> sforall q s = true.
Proof.
  intros H. induction s as [|a s IH]; cbn; [done|].
  intros [Ha Hs]%andb_prop. by rewrite (H a Ha), IH.
Qed.

Lemma str_take_app s1 s2 : str_take (String.length s1) (s1 +:+ s2) = s1.
Proof. induction s1; cbn; [by destruct s2|congruence]. Qed.

Lemma str_drop_app s1 s2 : str_drop (String.length s1) (s1 +:+ s2) = s2.
Proof. induction s1; cbn; [by destruct s2|done]. Qed.

Lemma str_drop_S_app s1 a s2 : str_drop (S (String.length s1)) (s1 +:+ String a s2) = s2.
Proof. induction s1 as [|b s1 IH]; [by destruct s2|exact IH]. Qed.

Lemma str_take_all s : str_take (String.length s) s = s.
Proof. induction s; cbn; congruence. Qed.

Lemma str_drop_all s : str_drop (String.length s) s = "".
Proof. induction s; cbn; congruence. Qed.

Lemma str_take_drop n s : str_take n s +:+ str_drop n s = s.
Proof. revert s; induction n; intros [|a s]; cbn; [done..|]. by rewrite IHn. Qed.

Lemma slength_take n s : String.length (str_take n s) = Nat.min n (String.length s).
Proof. revert s; induction n; intros [|a s]; cbn; [done..|]. by rewrite IHn. Qed.

Lemma slength_drop n s : String.length (str_drop n s) = (String.length s - n)%nat.
Proof. revert s; induction n; intros [|a s]; cbn; [done|done|done|apply IHn]. Qed.

Lemma slice_to_app s1 s2 : slice_to (String.length s1) (s1 +:+ s2) = Ok s1.
Proof.
  unfold slice_to. rewrite slength_app, str_take_app.
  by rewrite (proj2 (Nat.leb_le _ _)) by lia.
Qed.

Lemma slice_from_app s1 s2 : slice_from (String.length s1) (s1 +:+ s2) = Ok s2.
Proof.
  unfold slice_from. rewrite slength_app, str_drop_app.
  by rewrite (proj2 (Nat.leb_le _ _)) by lia.
Qed.

Lemma slice_to_no_panic n s : (n <= String.length s)%nat -> slice_to n s = Ok (str_take n s).
Proof. intros H. unfold slice_to. by rewrite (proj2 (Nat.leb_le _ _) H). Qed.

Lemma slice_from_no_panic n s : (n <= String.length s)%nat -> slice_from n s = Ok (str_drop n s).
Proof. intros H. unfold slice_from. by rewrite (proj2 (Nat.leb_le _ _) H). Qed.

(** *** Searching *)

Lemma index_by_app p s1 s2 :
  sforall (fun a => negb (p a)) s1 = true ->
  index_by p (s1 +:+ s2) = Nat.add (String.length s1) <$> index_by p s2.
Proof.
  induction s1 as [|a s1 IH]; cbn; intros H.
  - by destruct (index_by p s2).
  - apply andb_prop in H as [Ha Hs]. apply negb_true_iff in Ha. rewrite Ha, IH by done.
    by destruct (index_by p s2).
Qed.

Lemma index_by_none p s :
  sforall (fun a => negb (p a)) s = true -> index_by p s = None.
Proof.
  intros H. rewrite <- (sapp_nil_r s), index_by_app by done. done.
Qed.

(** The index found splits the string around the first matching byte. *)
Lemma index_by_some p s i :
  index_by p s = Some i ->
  exists s1 a s2, s = s1 +:+ String a s2 /\ String.length s1 = i /\ p a = true
    /\ sforall (fun b => negb (p b)) s1 = true.
Proof.
  revert i. induction s as [|a s IH]; cbn; intros i H; [done|].
  destruct (p a) eqn:Ha.
  - injection H as <-. by exists "", a, s.
  - destruct (index_by p s) as [j|]; [|done]. injection H as <-.
    destruct (IH j eq_refl) as (s1 & b & s2 & -> & <- & Hb & Hs1).
    exists (String a s1), b, s2. cbn. by rewrite Ha, Hs1.
Qed.

Lemma index_by_none_inv p s :
  index_by p s = None -> sforall (fun a => negb (p a)) s = true.
Proof.
  induction s as [|a s IH]; cbn; [done|]. destruct (p a); [done|].
  destruct (index_by p s); [done|]. auto.
Qed.

Lemma index_by_lt p s i : index_by p s = Some i -> (i < String.length s)%nat.
Proof.
  intros (s1 & a & s2 & -> & <- & _)%index_by_some. rewrite slength_app. cbn. lia.
Qed.

(** *** Splitting *)

Lemma split_byte_cons_inv c s : exists w ws, split_byte c s = w :: ws.
Proof.
  induction s as [|a s (w & ws & IH)]; cbn; [eauto|].
  destruct (Ascii.eqb c a); [eauto|]. rewrite IH. eauto.
Qed.

Lemma split_byte_app c s1 s2 :
  sforall (fun a => negb (Ascii.eqb c a)) s1 = true ->
  split_byte c (s1 +:+ String c s2) = s1 :: split_byte c s2.
Proof.
  induction s1 as [|a s1 IH]; cbn; intros H.
  - by rewrite Ascii.eqb_refl.
  - apply andb_prop in H as [Ha Hs]. apply negb_true_iff in Ha. by rewrite Ha, IH.
Qed.

Lemma split_byte_none c s :
  sforall (fun a => negb (Ascii.eqb c a)) s = true -> split_byte c s = [s].
Proof.
  induction s as [|a s IH]; cbn; intros H; [done|].
  apply andb_prop in H as [Ha Hs]. apply negb_true_iff in Ha. by rewrite Ha, IH.
Qed.

Lemma split_byte_length c s : length (split_byte c s) = S (count_byte c s).
Proof.
  induction s as [|a s IH]; cbn; [done|].
  destruct (Ascii.eqb c a); cbn; [congruence|].
  destruct (split_byte_cons_inv c s) as (w & ws & E). rewrite E in *. done.
Qed.

(** [strings.Join] undoes [strings.Split]. *)
Lemma join_split c s : join (String c "") (split_byte c s) = s.
Proof.
  induction s as [|a s IH]; cbn; [done|].
  destruct (Ascii.eqb_spec c a) as [->|Hne].
  - cbn. destruct (split_byte_cons_inv a s) as (w & ws & E). rewrite E in *. cbn in *. congruence.
  - destruct (split_byte_cons_inv c s) as (w & ws & E). rewrite E in *.
    destruct ws; cbn in *; congruence.
Qed.

(** [strings.Split] undoes [strings.Join] on words without the separator. *)
Lemma split_join c l :
  l <> [] -> Forall (fun w => sforall (fun a => negb (Ascii.eqb c a)) w = true) l ->
  split_byte c (join (String c "") l) = l.
Proof.
  intros Hne Hl. induction Hl as [|w l Hw Hl IH]; [done|].
  destruct l as [|w' l']; [by apply split_byte_none|].
  change (join (String c "") (w :: w' :: l')) with (w +:+ String c (join (String c "") (w' :: l'))).
  rewrite split_byte_app by done. by rewrite IH.
Qed.

(** *** Trimming *)

Lemma srev_app s1 s2 : srev (s1 +:+ s2) = srev s2 +:+ srev s1.
Proof. induction s1; cbn; [by rewrite sapp_nil_r|]. by rewrite IHs1, sapp_assoc. Qed.

Lemma srev_involutive s : srev (srev s) = s.
Proof. induction s; cbn; [done|]. by rewrite srev_app, IHs. Qed.

Lemma slength_srev s : String.length (srev s) = String.length s.
Proof. induction s; cbn; [done|]. rewrite slength_app, IHs. cbn. lia. Qed.

(** An ASCII byte that is not a space. *)
Definition is_graph (c : ascii) : bool := is_ascii c && negb (space1 c).

Lemma graph_not_space2 a b : is_graph a = true -> space2 a b = false.
Proof.
  unfold is_graph, is_ascii, space2. intros [H _]%andb_prop. apply N.ltb_lt in H.
  by rewrite (proj2 (N.eqb_neq _ _)) by lia.
Qed.

Lemma graph_not_space2_r a b : is_graph b = true -> space2 a b = false.
Proof.
  unfold is_graph, is_ascii, space2. intros [H _]%andb_prop. apply N.ltb_lt in H.
  rewrite (proj2 (N.eqb_neq (N_of_ascii b) 133)), (proj2 (N.eqb_neq (N_of_ascii b) 160)) by lia.
  by rewrite andb_false_r.
Qed.

Lemma graph_not_space3 a b c : is_graph a = true -> space3 a b c = false.
Proof.
  unfold is_graph, is_ascii, space3. intros [H _]%andb_prop. apply N.ltb_lt in H.
  rewrite !(proj2 (N.eqb_neq (N_of_ascii a) _)) by lia. done.
Qed.

Lemma graph_not_space3_r a b c : is_graph c = true -> space3 a b c = false.
Proof.
  unfold is_graph, is_ascii, space3. intros [H _]%andb_prop. apply N.ltb_lt in H.
  rewrite (proj2 (N.leb_gt 128 (N_of_ascii c))) by lia.
  rewrite !(proj2 (N.eqb_neq (N_of_ascii c) _)) by lia. cbn. by rewrite !andb_false_r.
Qed.

Lemma trim_left_graph a s : is_graph a = true -> trim_space_left (String a s) = String a s.
Proof.
  intros H. cbn. pose proof H as [_ ->%negb_true_iff]%andb_prop.
  destruct s as [|b s2]; [done|]. rewrite graph_not_space2 by done.
  destruct s2 as [|c s3]; [done|]. by rewrite graph_not_space3.
Qed.

Lemma trim_left_rev_graph a s : is_graph a = true -> trim_space_left_rev (String a s) = String a s.
Proof.
  intros H. cbn. pose proof H as [_ ->%negb_true_iff]%andb_prop.
  destruct s as [|b s2]; [done|]. rewrite graph_not_space2_r by done.
  destruct s2 as [|c s3]; [done|]. by rewrite graph_not_space3_r.
Qed.

(** A text whose first and last bytes are graphic is left alone. *)
Definition trimmed (s : string) : bool :=
  match s, srev s with
  | String a _, String b _ => is_graph a && is_graph b
  | _, _ => true
  end.

Lemma TrimSpace_trimmed s : trimmed s = true -> TrimSpace s = s.
Proof.
  unfold trimmed, TrimSpace. destruct s as [|a s]; [done|].
  destruct (srev (String a s)) as [|b t] eqn:E; intros H.
  - apply (f_equal String.length) in E. rewrite slength_srev in E. done.
  - apply andb_prop in H as [Ha Hb]. rewrite trim_left_graph by done.
    rewrite E, trim_left_rev_graph by done. rewrite <- E. apply srev_involutive.
Qed.

Lemma sforall_srev p s : sforall p (srev s) = sforall p s.
Proof.
  induction s as [|a s IH]; cbn; [done|]. rewrite sforall_app, IH. cbn.
  by rewrite andb_true_r, andb_comm.
Qed.

Lemma graph_trimmed s : sforall is_graph s = true -> trimmed s = true.
Proof.
  unfold trimmed. intros H. pose proof H as H'. rewrite <- sforall_srev in H'.
  destruct s as [|a s]; [done|]. destruct (srev (String a s)) as [|b t]; [done|].
  cbn in H, H'. apply andb_prop in H as [-> _], H' as [-> _]. done.
Qed.

(** *** Numbers *)

Lemma parse_digits_uint d acc :
  exists n, parse_digits acc (NilEmpty.string_of_uint d) = Some n /\
            forall p, acc = Npos p -> n = Npos (Pos.of_uint_acc d p).
Proof.
  revert acc. induction d; intros acc;
    [by exists acc; split; [|intros p ->]|..]; cbn [NilEmpty.string_of_uint parse_digits is_digit];
    match goal with
      |- exists n, (if _ then parse_digits ?a _ else _) = Some n /\ _ =>
        destruct (IHd a) as (n & Hn & Hp); exists n; split; [exact Hn|]
    end; intros p ->; apply Hp;
    match goal with |- (_ + digit_value ?c)%N = _ => change (digit_value c) with (ltac:(let v := eval vm_compute in (digit_value c) in exact v)) end; lia.
Qed.

Lemma parse_digits_zero d n :
  parse_digits 0 (NilEmpty.string_of_uint d) = Some n -> n = N.of_uint d.
Proof.
  unfold N.of_uint.
  induction d; [cbn; congruence|exact IHd|..];
    intros H; cbn [NilEmpty.string_of_uint parse_digits] in H;
    match type of H with
    | (if _ then parse_digits ?a _ else _) = _ =>
        destruct (parse_digits_uint d a) as (m & Hm & Hp);
        change (parse_digits a (NilEmpty.string_of_uint d) = Some n) in H;
        rewrite Hm in H; injection H as <-; apply Hp; reflexivity
    end.
Qed.

Lemma parse_digits_itoa n : parse_digits 0 (itoa n) = Some n.
Proof.
  unfold itoa, NilZero.string_of_uint.
  destruct (N.to_uint n) eqn:E.
  1: { apply (f_equal N.of_uint) in E. rewrite DecimalN.Unsigned.of_to in E. subst. done. }
  all: rewrite <- E; destruct (parse_digits_uint (N.to_uint n) 0) as (m & Hm & _);
    rewrite Hm; f_equal; rewrite (parse_digits_zero _ _ Hm); apply DecimalN.Unsigned.of_to.
Qed.

Lemma itoa_digits n : sforall is_digit (itoa n) = true.
Proof.
  unfold itoa, NilZero.string_of_uint. destruct (N.to_uint n) as [|d|d|d|d|d|d|d|d|d|d]; [done|..];
    cbn; induction d; cbn; auto.
Qed.

Lemma itoa_nonempty n : itoa n <> "".
Proof. unfold itoa, NilZero.string_of_uint. by destruct (N.to_uint n). Qed.

Lemma itoa_inj n m : itoa n = itoa m -> n = m.
Proof.
  intros H. apply (f_equal (parse_digits 0)) in H. rewrite !parse_digits_itoa in H. congruence.
Qed.

(** [strconv.ParseUint] reads back what [%d] printed, at the width it fits. *)
Lemma ParseUint_itoa n bits : (n < 2 ^ bits)%N -> ParseUint (itoa n) bits = Ok n.
Proof.
  intros H. unfold ParseUint.
  destruct (String.eqb_spec (itoa n) "") as [E|_]; [by apply itoa_nonempty in E|].
  by rewrite parse_digits_itoa, (proj2 (N.ltb_lt _ _) H).
Qed.

Lemma ParseUint_bound s bits n : ParseUint s bits = Ok n -> (n < 2 ^ bits)%N.
Proof.
  unfold ParseUint. destruct (String.eqb s ""), (parse_digits 0 s) as [m|]; try discriminate.
  destruct (N.ltb_spec m (2 ^ bits)); [congruence|discriminate].
Qed.

Lemma ParseUint_no_panic s bits : is_panic (ParseUint s bits) = false.
Proof. unfold ParseUint. by split_matches. Qed.

Lemma to_uint16_bound z : (to_uint16 z < 2 ^ 16)%N.
Proof. unfold to_uint16. pose proof (Z.mod_pos_bound z (2 ^ 16)). lia. Qed.

Lemma to_uint16_small n : (n < 2 ^ 16)%N -> to_uint16 (Z.of_N n) = n.
Proof. intros H. unfold to_uint16. rewrite Z.mod_small by lia. lia. Qed.

Lemma SplitHostPort_no_panic s : is_panic (SplitHostPort s) = false.
Proof. unfold SplitHostPort. by split_matches. Qed.

Create Rewrite HintDb gostr.
#[export] Hint Rewrite sapp_nil_r sapp_assoc slength_app sforall_app : gostr.
#[export] Hint Resolve ParseUint_no_panic SplitHostPort_no_panic : gsip.

(** *** Last index, prefixes of trimmed texts *)

Lemma last_index_app c s1 s2 :
  sforall (fun a => negb (Ascii.eqb c a)) s2 = true ->
  last_index_byte c (s1 +:+ String c s2) = Some (String.length s1).
Proof.
  intros H. assert (Hn : last_index_byte c s2 = None).
  { induction s2 as [|a s2 IH]; cbn in *; [done|].
    apply andb_prop in H as [Ha%negb_true_iff Hs]. by rewrite IH, Ha. }
  induction s1 as [|a s1 IH]; cbn; [by rewrite Hn, Ascii.eqb_refl|]. by rewrite IH.
Qed.

Lemma contains_by_false p s : sforall (fun a => negb (p a)) s = true -> contains_by p s = false.
Proof. unfold contains_by. by intros ->. Qed.

Lemma trim_rev_keeps_aux n a t :
  (String.length t <= n)%nat -> is_graph a = true ->
  exists t', trim_space_left_rev (t +:+ String a "") = t' +:+ String a "".
Proof.
  revert t. induction n as [|n IH]; intros t Hn Ha.
  { destruct t; cbn in Hn; [|lia]. exists "". by apply trim_left_rev_graph. }
  destruct t as [|b t1]; [exists ""; by apply trim_left_rev_graph|].
  cbn in Hn. cbn [String.append trim_space_left_rev].
  destruct (space1 b); [apply IH; [lia|done]|].
  destruct t1 as [|c t2]; cbn [String.append].
  { rewrite graph_not_space2 by done. by exists (String b ""). }
  cbn in Hn. destruct (space2 c b); [apply IH; [lia|done]|].
  destruct t2 as [|d t3]; cbn [String.append].
  { rewrite graph_not_space3 by done. by exists (String b (String c "")). }
  cbn in Hn. destruct (space3 d c b); [apply IH; [lia|done]|].
  by exists (String b (String c (String d t3))).
Qed.

(** Trimming a text that begins with a graphic byte keeps that byte in front. *)
Lemma TrimSpace_head a s :
  is_graph a = true -> exists s', TrimSpace (String a s) = String a s'.
Proof.
  intros Ha. unfold TrimSpace. rewrite trim_left_graph by done. cbn [srev].
  destruct (trim_rev_keeps_aux _ a (srev s) (Nat.le_refl _) Ha) as (t & ->).
  rewrite srev_app. cbn. eauto.
Qed.

(** *** Case *)

Lemma slength_smap f s : String.length (smap f s) = String.length s.
Proof. induction s; cbn; congruence. Qed.

Lemma smap_app f s1 s2 : smap f (s1 +:+ s2) = smap f s1 +:+ smap f s2.
Proof. induction s1; cbn; congruence. Qed.

Lemma lower_byte_colon c : lower_byte c = ":"%char -> c = ":"%char.
Proof.
  unfold lower_byte, is_upper. destruct ((65 <=? N_of_ascii c)%N && (N_of_ascii c <=? 90)%N) eqn:E; [|done].
  apply andb_prop in E as [E1%N.leb_le E2%N.leb_le]. intros H.
  apply (f_equal N_of_ascii) in H. unfold byte_of in H.
  rewrite N_ascii_embedding in H by lia. cbn in H. lia.
Qed.

Lemma ToLower_idem s : ToLower (ToLower s) = ToLower s.
Proof.
  unfold ToLower. induction s as [|c s IH]; cbn; [done|]. rewrite IH. f_equal.
  unfold lower_byte at 1. destruct (is_upper (lower_byte c)) eqn:E; [|done]. exfalso.
  unfold lower_byte in E. destruct (is_upper c) eqn:Ec; [|congruence].
  unfold is_upper, byte_of in *.
  apply andb_prop in Ec as [E1%N.leb_le E2%N.leb_le].
  rewrite N_ascii_embedding in E by lia.
  apply andb_prop in E as [E3%N.leb_le E4%N.leb_le]. lia.
Qed.

Lemma byte_eqb_all (f g : ascii -> ascii) :
  forallb (fun n => Ascii.eqb (f (ascii_of_nat n)) (g (ascii_of_nat n))) (seq 0 256) = true -> forall c, f c = g c.
Proof.
  intros H c. rewrite forallb_forall in H. rewrite <- (ascii_nat_embedding c).
  apply Ascii.eqb_eq, H, in_seq. pose proof (nat_ascii_bounded c). lia.
Qed.

Lemma smap_compose f g s : smap f (smap g s) = smap (fun c => f (g c)) s.
Proof. induction s as [|c s IH]; cbn; [done|]. by rewrite IH. Qed.

Lemma smap_ext f g s : (forall c, f c = g c) -> smap f s = smap g s.
Proof. intros H. induction s as [|c s IH]; cbn; [done|]. by rewrite H, IH. Qed.

Lemma ToUpper_idem s : ToUpper (ToUpper s) = ToUpper s.
Proof. unfold ToUpper. rewrite smap_compose. apply smap_ext, byte_eqb_all. by vm_compute. Qed.

Lemma ToUpper_ToLower s : ToUpper (ToLower s) = ToUpper s.
Proof. unfold ToUpper, ToLower. rewrite smap_compose. apply smap_ext, byte_eqb_all. by vm_compute. Qed.

Lemma last_index_byte_none c s : sforall (fun a => negb (Ascii.eqb c a)) s = true -> last_index_byte c s = None.
Proof.
  induction s as [|a s IH]; [done|]. cbn. intros [Ha Hs]%andb_prop. rewrite IH by done.
  by destruct (Ascii.eqb c a).
Qed.
