(* ===== verification/Errors.v ===== *)
(** * Error values (transport/error.go, sip/error.go, transaction/error.go)

    The error types of the three layers with their predicates and texts.  An error that is
    not of these types (from the net package, or made by [fmt.Errorf]) is a record of what
    the predicates can ask about it; none of these wraps another error.  The texts print a
    map of fields, which [fmt] does in the order of the keys. *)

From S2P Require Import Prelude GoStrings.
From Stdlib Require Import Lia.

#[local] Open Scope string_scope.
#[local] Open Scope list_scope.

(** ** Printing *)

(** [%s] of a map: the entries in the order of their keys, as [map[k:v k:v]]. *)
Fixpoint insert_field (kv : string * string) (l : list (string * string)) : list (string * string) :=
  match l with
  | [] => [kv]
  | kv' :: l' => if String.leb (fst kv) (fst kv') then kv :: l else kv' :: insert_field kv l'
  end.
Definition sorted_fields (l : list (string * string)) : list (string * string) := foldr insert_field [] l.
Definition sprint_fields (l : list (string * string)) : string :=
  "map[" +:+ join " " (map (fun kv => fst kv +:+ ":" +:+ snd kv) (sorted_fields l)) +:+ "]".

(** A field enters the map when it is not empty. *)
Definition field (key value : string) : list (string * string) :=
  if String.eqb value "" then [] else [(key, value)].

(** ** Errors of the transport layer *)

Module TransportErrors.

(** An error of another package: its text; [Timeout] and [Temporary] if it is a net.Error;
    whether it is [io.EOF] or [io.ErrClosedPipe]. *)
Record foreign := mkForeign {
  text : string;
  net_error : option (bool * bool);
  is_EOF : bool;
  is_ErrClosedPipe : bool
}.

(** The wrapped error may be nil. *)
Inductive error : Type :=
  | Foreign (f : foreign)
  | ConnectionError (Err : option error) (Op Net Source Dest ConnPtr : string)
  | ExpireError (s : string)
  | ProtocolError (Err : option error) (Op ProtoPtr : string)
  | ConnectionHandlerError (Err : option error) (Key HandlerPtr Net LAddr RAddr : string)
  | ListenerHandlerError (Err : option error) (Key HandlerPtr Net Addr : string)
  | PoolError (Err : option error) (Op Pool : string)
  | UnsupportedProtocolError (s : string).

Definition Unwrap (e : error) : option error :=
  match e with
  | ConnectionError err _ _ _ _ _ | ProtocolError err _ _ | ConnectionHandlerError err _ _ _ _ _
  | ListenerHandlerError err _ _ _ _ | PoolError err _ _ => err
  | Foreign _ | ExpireError _ | UnsupportedProtocolError _ => None
  end.

(** [errors.As] for net.Error finds the first error of the chain with [Timeout] and
    [Temporary]; every type of the program has them. *)
Definition as_net_error (err : option error) : option error :=
  match err with
  | Some (Foreign f) => if bool_decide (is_Some (net_error f)) then err else None
  | _ => err
  end.

Definition isNetwork (err : option error) : bool :=
  match as_net_error err with
  | Some _ => true
  | None => match err with Some (Foreign f) => is_EOF f || is_ErrClosedPipe f | _ => false end
  end.

(** The methods and the functions [isTimeout] and so on call each other; [errors.As] has
    stopped at the error itself, see [as_net_error]. *)
Fixpoint Timeout (e : error) : bool :=
  let isTimeout err := match err with Some e => Timeout e | None => false end in
  match e with
  | Foreign f => match net_error f with Some (t, _) => t | None => false end
  | ConnectionError err _ _ _ _ _ | ProtocolError err _ _ | ConnectionHandlerError err _ _ _ _ _
  | ListenerHandlerError err _ _ _ _ | PoolError err _ _ => isTimeout err
  | ExpireError _ => true
  | UnsupportedProtocolError _ => false
  end.
Definition isTimeout (err : option error) : bool := match err with Some e => Timeout e | None => false end.

Fixpoint Temporary (e : error) : bool :=
  let isTemporary err := match err with Some e => Temporary e | None => false end in
  match e with
  | Foreign f => match net_error f with Some (_, t) => t | None => false end
  | ConnectionError err _ _ _ _ _ | ProtocolError err _ _ | ConnectionHandlerError err _ _ _ _ _
  | ListenerHandlerError err _ _ _ _ | PoolError err _ _ => isTemporary err
  | ExpireError _ | UnsupportedProtocolError _ => false
  end.
Definition isTemporary (err : option error) : bool := match err with Some e => Temporary e | None => false end.

Definition Network (e : error) : bool :=
  match e with
  | ExpireError _ | UnsupportedProtocolError _ => false
  | Foreign _ => false  (* no method *)
  | _ => isNetwork (Unwrap e)
  end.

(** [isCanceled] and [isExpired]: [errors.As] goes through the types without the method
    to the first one that has it; [canceled] and [expired] are the method, where there is
    one, else what [errors.As] finds below. *)
Fixpoint expired (e : error) : bool :=
  let isExpired err := match err with Some e => expired e | None => false end in
  match e with
  | ExpireError _ => true
  | ConnectionHandlerError err _ _ _ _ _ | ListenerHandlerError err _ _ _ _ => isExpired err
  | ConnectionError err _ _ _ _ _ | ProtocolError err _ _ | PoolError err _ _ => isExpired err
  | Foreign _ | UnsupportedProtocolError _ => false
  end.
Definition isExpired (err : option error) : bool := match err with Some e => expired e | None => false end.

Fixpoint canceled (e : error) : bool :=
  let isCanceled err := match err with Some e => canceled e | None => false end in
  match e with
  | ConnectionHandlerError err _ _ _ _ _ | ListenerHandlerError err _ _ _ _ => isCanceled err
  | ConnectionError err _ _ _ _ _ | ProtocolError err _ _ | PoolError err _ _ => isCanceled err
  | ExpireError _ | Foreign _ | UnsupportedProtocolError _ => false
  end.
Definition isCanceled (err : option error) : bool := match err with Some e => canceled e | None => false end.

(** The texts. *)
Fixpoint Error (e : error) : string :=
  let sprint err := match err with Some e => Error e | None => "%!s(<nil>)" end in
  match e with
  | Foreign f => text f
  | ConnectionError err op net source dest ptr =>
      "transport.ConnectionError<"
      +:+ sprint_fields (field "net" net ++ field "connection_ptr" ptr ++ field "source" source ++ field "destination" dest)
      +:+ "> " +:+ op +:+ " failed: " +:+ sprint err
  | ExpireError s => "transport.ExpireError: " +:+ s
  | ProtocolError err op ptr =>
      "transport.ProtocolError<" +:+ sprint_fields (field "protocol_ptr" ptr) +:+ "> " +:+ op +:+ " failed: " +:+ sprint err
  | ConnectionHandlerError err _ ptr net laddr raddr =>
      "transport.ConnectionHandlerError<"
      +:+ sprint_fields (field "handler_ptr" ptr ++ field "network" net ++ field "local_addr" laddr ++ field "remote_addr" raddr)
      +:+ ">: " +:+ sprint err
  | ListenerHandlerError err _ ptr net addr =>
      "transport.ListenerHandlerError<"
      +:+ sprint_fields (field "handler_ptr" ptr ++ field "network" net ++ field "local_addr" addr) +:+ ">: " +:+ sprint err
  | PoolError err op pool =>
      "transport.PoolError<" +:+ sprint_fields (field "pool" pool) +:+ "> " +:+ op +:+ " failed: " +:+ sprint err
  | UnsupportedProtocolError s => "transport.UnsupportedProtocolError: " +:+ s
  end.

(** The expression [(?i)eof] somewhere in the text. *)
Definition eof_text (s : string) : bool := bool_decide (is_Some (index_str "eof" (ToLower s))).

(** [EOF] of a ConnectionHandlerError; a nil cause panics. *)
Definition EOF (Err : option error) : res bool :=
  match Err with
  | Some (Foreign f) => mret (is_EOF f || eof_text (text f))
  | Some e => mret (eof_text (Error e))
  | None => Panic NilDereference
  end.

End TransportErrors.

(** ** Errors of the parser and of messages *)

Module SipErrors.

(** The causes are given by their texts. *)
Inductive error : Set :=
  | InvalidStartLineError (s : string)
  | InvalidMessageFormat (s : string)
  | WriteError (s : string)
  | BrokenMessageError (Err Msg : string)
  | MalformedMessageError (Err Msg : string)
  | UnsupportedMessageError (Err Msg : string)
  | UnexpectedMessageError (Err Msg : string).

(** [None]: the type does not have the method. *)
Definition Syntax (e : error) : option bool :=
  match e with
  | InvalidStartLineError _ | InvalidMessageFormat _ => Some true
  | WriteError _ => Some false
  | _ => None
  end.
Definition Malformed (e : error) : option bool :=
  match e with
  | InvalidStartLineError _ | BrokenMessageError _ _ | UnexpectedMessageError _ _ => Some false
  | InvalidMessageFormat _ | MalformedMessageError _ _ | UnsupportedMessageError _ _ => Some true
  | WriteError _ => None
  end.
Definition Broken (e : error) : option bool :=
  match e with
  | InvalidStartLineError _ | InvalidMessageFormat _ | BrokenMessageError _ _ => Some true
  | MalformedMessageError _ _ | UnsupportedMessageError _ _ | UnexpectedMessageError _ _ => Some false
  | WriteError _ => None
  end.

Definition dumped (name err msg : string) : string :=
  let s := name +:+ ": " +:+ err in
  if String.eqb msg "" then s else s +:+ String LF ("Message dump:" +:+ String LF msg).

Definition Error (e : error) : string :=
  match e with
  | InvalidStartLineError s => "parser.InvalidStartLineError: " +:+ s
  | InvalidMessageFormat s => "parser.InvalidMessageFormat: " +:+ s
  | WriteError s => "parser.WriteError: " +:+ s
  | BrokenMessageError err msg => dumped "BrokenMessageError" err msg
  | MalformedMessageError err msg => dumped "MalformedMessageError" err msg
  | UnsupportedMessageError err msg => dumped "UnsupportedMessageError" err msg
  | UnexpectedMessageError err msg => dumped "UnexpectedMessageError" err msg
  end.

End SipErrors.

(** ** Errors of transactions *)

Module TransactionErrors.

(** The three types differ in their name and predicates only. *)
Inductive error_kind : Set := TxTerminatedError | TxTimeoutError | TxTransportError.

Record error := mkError { kind : error_kind; Err : string; TxKey : string; TxPtr : string }.

Definition Terminated (e : error) : bool := match kind e with TxTerminatedError => true | _ => false end.
Definition Timeout (e : error) : bool := match kind e with TxTimeoutError => true | _ => false end.
Definition Transport (e : error) : bool := match kind e with TxTransportError => true | _ => false end.
Definition Key (e : error) : string := TxKey e.

Definition type_name (k : error_kind) : string :=
  match k with
  | TxTerminatedError => "TxTerminatedError"
  | TxTimeoutError => "TxTimeoutError"
  | TxTransportError => "TxTransportError"
  end.

(** A field that is empty is printed as question marks. *)
Definition shown (value : string) : string := if String.eqb value "" then "???" else value.

Definition Error (e : error) : string :=
  "transaction." +:+ type_name (kind e) +:+ "<"
  +:+ sprint_fields [("transaction_key", shown (TxKey e)); ("transaction_ptr", shown (TxPtr e))]
  +:+ ">: " +:+ Err e.

End TransactionErrors.

(** ** Lemmas *)

Lemma index_str_app p a s : is_Some (index_str p s) -> is_Some (index_str p (a +:+ s)).
Proof.
  intros H. induction a as [|c a IH]; [done|]. cbn [index_str String.append].
  change (String.app (String c a) s) with (String c (a +:+ s)). cbn [index_str].
  destruct (HasPrefix p (String c (a +:+ s))); [by eexists|]. destruct IH as [n ->]. by eexists.
Qed.

Section Wrapping.
Import TransportErrors.

(** The end of the chain of wrapped errors; [None] when it ends in a nil error. *)
Fixpoint root (e : error) : option error :=
  match e with
  | Foreign _ | ExpireError _ | UnsupportedProtocolError _ => Some e
  | ConnectionError err _ _ _ _ _ | ProtocolError err _ _ | ConnectionHandlerError err _ _ _ _ _
  | ListenerHandlerError err _ _ _ _ | PoolError err _ _ =>
      match err with Some e => root e | None => None end
  end.

(** Induction through the wrapped error. *)
Lemma error_wrap_ind (P : error -> Prop) :
  (forall f, P (Foreign f)) -> (forall s, P (ExpireError s)) -> (forall s, P (UnsupportedProtocolError s)) ->
  (forall e, (forall e', Unwrap e = Some e' -> P e') -> (forall f, e <> Foreign f) ->
     (forall s, e <> ExpireError s) -> (forall s, e <> UnsupportedProtocolError s) -> P e) ->
  forall e, P e.
Proof.
  intros Hf He Hu Hw. fix IH 1. intros e.
  destruct e as [f|err ? ? ? ? ?|s|err ? ?|err ? ? ? ? ?|err ? ? ? ?|err ? ?|s]; [apply Hf| |apply He| | | | |apply Hu];
    (assert (He' : match err with Some e2 => P e2 | None => True end)
       by (destruct err as [e2|]; [exact (IH e2)|exact I]);
     clear IH; apply Hw; [|done..]; intros e' [= ->]; exact He').
Qed.

(** The cause is at the end of the text. *)
Lemma Error_ends_in_root e r : root e = Some r -> exists a, Error e = a +:+ Error r.
Proof.
  revert e. refine (error_wrap_ind _ _ _ _ _).
  - intros f [= <-]. by exists "".
  - intros s [= <-]. by exists "".
  - intros s [= <-]. by exists "".
  - intros e IH Hf He Hu Hr.
    destruct e as [f|err ? ? ? ? ?|s|err ? ?|err ? ? ? ? ?|err ? ? ? ?|err ? ?|s];
      [by destruct (Hf f)| |by destruct (He s)| | | | |by destruct (Hu s)];
      (cbn [root] in Hr; destruct err as [e'|]; [|done];
       destruct (IH e' eq_refl Hr) as [a Ha]; cbn [Error]; rewrite Ha, <- ?sapp_assoc; by eexists).
Qed.

(** wrapping keeps what the predicates say: however often an error is wrapped by the
    types of the transport layer, [Timeout], [Temporary], [Expired] and [Canceled] are
    those of the cause at the end of the chain, its text ends in the text of the cause, and
    a cause whose text mentions EOF is an EOF of a ConnectionHandlerError around it.
    [Network] is not kept: it is true around every error of the program, even one that
    says it is no network error. *)
Theorem wrapping_transparent (e r : error) :
  root e = Some r ->
  Timeout e = Timeout r /\ Temporary e = Temporary r /\ expired e = expired r /\ canceled e = false
  /\ (exists a, Error e = a +:+ Error r)
  /\ (eof_text (Error r) = true -> EOF (Some e) = Ok true)
  /\ ((forall f, e <> Foreign f) -> isNetwork (Some e) = true).
Proof.
  intros Hr.
  assert (H1 : Timeout e = Timeout r /\ Temporary e = Temporary r /\ expired e = expired r /\ canceled e = false).
  { revert e Hr. refine (error_wrap_ind _ _ _ _ _); [by intros ? [= <-]..|].
    intros e IH Hf He Hu Hr.
    destruct e as [f|err ? ? ? ? ?|s|err ? ?|err ? ? ? ? ?|err ? ? ? ?|err ? ?|s];
      [by destruct (Hf f)| |by destruct (He s)| | | | |by destruct (Hu s)];
      (cbn [root] in Hr; destruct err as [e'|]; [|done]; exact (IH e' eq_refl Hr)). }
  destruct H1 as (? & ? & ? & ?). do 4 (split; [done|]).
  split; [by apply Error_ends_in_root|]. split.
  - intros Ht. destruct (Error_ends_in_root _ _ Hr) as [a Ha].
    assert (Ht' : eof_text (Error e) = true).
    { unfold eof_text in *. apply bool_decide_eq_true in Ht. apply bool_decide_eq_true.
      unfold ToLower in *. rewrite Ha, smap_app. by apply index_str_app. }
    destruct e as [f| | | | | | |]; cbn [EOF]; [|by rewrite Ht'..].
    change (text f) with (Error (Foreign f)). by rewrite Ht', orb_true_r.
  - intros Hf. destruct e as [f| | | | | | |]; [by destruct (Hf f)|done..].
Qed.

End Wrapping.

Definition net_eof : TransportErrors.error := TransportErrors.Foreign (TransportErrors.mkForeign "EOF" None true false).

Lemma wrapping_transparent_witness :
  TransportErrors.EOF (Some (TransportErrors.ConnectionError (Some net_eof) "read" "TCP" "10.0.0.1:5060" "10.0.0.9:5060" "0x1")) = Ok true.
Proof. apply (wrapping_transparent _ net_eof); reflexivity. Defined.

(** The text with its fields. *)
Example ConnectionError_text :
  TransportErrors.Error (TransportErrors.ConnectionError (Some net_eof) "read" "TCP" "10.0.0.1:5060" "" "0x1")
  = "transport.ConnectionError<map[connection_ptr:0x1 net:TCP source:10.0.0.1:5060]> read failed: EOF".
Proof. reflexivity. Qed.

(** An address that mentions eof makes a refused connection an EOF. *)
Example address_reads_as_EOF :
  TransportErrors.EOF (Some (TransportErrors.ConnectionError
    (Some (TransportErrors.Foreign (TransportErrors.mkForeign "connection refused" (Some (false, false)) false false)))
    "write" "TCP" "" "geoffrey:5060" "")) = Ok true.
Proof. reflexivity. Qed.

(** An expired connection, wrapped, is reported as a network error. *)
Example expiry_is_network :
  TransportErrors.Network (TransportErrors.ExpireError "idle") = false
  /\ TransportErrors.Network (TransportErrors.ConnectionHandlerError (Some (TransportErrors.ExpireError "idle")) "k" "" "" "" "") = true.
Proof. done. Qed.

(** A transport error about a transaction without a pointer. *)
Example tx_error_text :
  TransactionErrors.Error (TransactionErrors.mkError TransactionErrors.TxTimeoutError "late" "k1" "")
  = "transaction.TxTimeoutError<map[transaction_key:k1 transaction_ptr:???]>: late".
Proof. reflexivity. Qed.
