(* ===== verification/Logger.v ===== *)
(** * Logging (logger/*.go, the logger options of options.go)

    The package keeps one global variable [logger], nil until some [defaultLogger] is
    initialised; the functions [Debug] ... [Panicf] go through it.  A [defaultLogger] is an
    object with its own options and a [sync.Once]; every service has one, all set the same
    variable.  The package zap-logger, which does the logging, is not in the repository:
    what [InitLog] makes of a configuration is the configuration itself here, and what a
    call on the made logger does is the parameter [zap]. *)

From S2P Require Import Prelude GoStrings.
From Stdlib Require Import NArith ZArith Lia.

#[local] Open Scope string_scope.
#[local] Open Scope list_scope.

(** ** Options *)

Definition LogLevel : Type := string.

Module Log.
Record Options := mkOptions {
  Name : string;
  Dir : string;
  Level : LogLevel;
  EnvMode : string;
  Skip : Z
}.
End Log.
Import Log.

Definition Option : Type := Options -> Options.

Definition set_Name (name : string) : Option := fun o => mkOptions name (Dir o) (Level o) (EnvMode o) (Skip o).
Definition set_Dir (dir : string) : Option := fun o => mkOptions (Name o) dir (Level o) (EnvMode o) (Skip o).
Definition set_Level (level : string) : Option := fun o => mkOptions (Name o) (Dir o) level (EnvMode o) (Skip o).
Definition set_EnvMode (env : string) : Option := fun o => mkOptions (Name o) (Dir o) (Level o) env (Skip o).
Definition set_Skip (skip : Z) : Option := fun o => mkOptions (Name o) (Dir o) (Level o) (EnvMode o) skip.

Definition apply_options (o : Options) (opts : list Option) : Options := foldl (fun o f => f o) o opts.

Section Logger.

(** The name that the logging package gives to its error level. *)
Variable ErrorLevel : LogLevel.
(** The loggers of the package, and what a method of one does: nothing to the program, or
    a panic or an exit. *)
Inductive log_effect : Type := Logged | LogPanics | LogExits.
Variable zap : Options -> string -> list string -> log_effect.

(** ** A default logger *)

Record defaultLogger := mkDefaultLogger { opts : Options; once : bool }.

Definition default_options : Options := mkOptions "gsip" "" ErrorLevel "prod" 2.

Definition NewLogger (os : list Option) : defaultLogger := mkDefaultLogger (apply_options default_options os) false.

(** The global variable: nil, or a logger with the configuration it was made from. *)
Definition global : Type := option Options.

(** [Init]: the options are applied at every call, the variable is set at the first. *)
Definition logger_Init (d : defaultLogger) (logger : global) (os : list Option) : defaultLogger * global :=
  let o := apply_options (opts d) os in
  if once d then (mkDefaultLogger o true, logger) else (mkDefaultLogger o true, Some o).

Definition logger_String (d : defaultLogger) : string := Name (opts d) +:+ "-" +:+ EnvMode (opts d).

(** ** The functions of the package *)

Inductive log_call : Set :=
  | Debug | Debugf | Info | Infof | Warn | Warnf | Error | Errorf | Fatal | Fatalf | LogPanic | LogPanicf.

Definition method_name (c : log_call) : string :=
  match c with
  | Debug => "Debug" | Debugf => "Debugf" | Info => "Info" | Infof => "Infof" | Warn => "Warn" | Warnf => "Warnf"
  | Error => "Error" | Errorf => "Errorf" | Fatal => "Fatal" | Fatalf => "Fatalf" | LogPanic => "Panic"
  | LogPanicf => "Panicf"
  end.

(** Every one of them: nothing without a logger, else the method of the same name. *)
Definition log (logger : global) (c : log_call) (args : list string) : log_effect :=
  match logger with
  | None => Logged
  | Some o => zap o (method_name c) args
  end.

(** ** The logger options of a service *)

(** A [LoggerOption] changes the options of the service's logger in place. *)
Inductive LoggerOption : Type :=
  | LoggerName (name : string)
  | LoggerDir (dir : string)
  | LoggerLevel (level : string)
  | LoggerEnv (env : string)
  | LoggerSkip (skip : Z).

Definition option_of (o : LoggerOption) : Option :=
  match o with
  | LoggerName name => set_Name name
  | LoggerDir dir => set_Dir dir
  | LoggerLevel level => set_Level level
  | LoggerEnv env => set_EnvMode env
  | LoggerSkip skip => set_Skip skip
  end.

(** [LoggerConfig]: the options through the pointer [Options()], then [Init()]. *)
Definition LoggerConfig (os : list LoggerOption) (d : defaultLogger) (logger : global) : defaultLogger * global :=
  logger_Init (mkDefaultLogger (apply_options (opts d) (map option_of os)) (once d)) logger [].

(** ** A program with several services

    Each service is made with a logger of its own; then its options are applied. *)
Record log_program := mkLogProgram { services : list defaultLogger; variable : global }.

Inductive log_event : Type :=
  | NewService (configs : list (list LoggerOption))
  | InitLogger (i : nat) (os : list Option).

Definition configure (p : defaultLogger * global) (os : list LoggerOption) : defaultLogger * global :=
  LoggerConfig os p.1 p.2.

Definition log_step (p : log_program) (e : log_event) : log_program :=
  match e with
  | NewService configs =>
      let '(d, g) := foldl configure (NewLogger [], variable p) configs in
      mkLogProgram (services p ++ [d]) g
  | InitLogger i os =>
      match services p !! i with
      | Some d => let '(d, g) := logger_Init d (variable p) os in mkLogProgram (<[i := d]> (services p)) g
      | None => p
      end
  end.

Definition log_run (p : log_program) (es : list log_event) : log_program := foldl log_step p es.

Definition no_services : log_program := mkLogProgram [] None.

(** ** Lemmas *)

Lemma apply_options_app o os1 os2 : apply_options o (os1 ++ os2) = apply_options (apply_options o os1) os2.
Proof. apply foldl_app. Qed.

Lemma LoggerConfig_eq os d g :
  LoggerConfig os d g
  = (mkDefaultLogger (apply_options (opts d) (map option_of os)) true,
     if once d then g else Some (apply_options (opts d) (map option_of os))).
Proof. unfold LoggerConfig, logger_Init. cbn. by destruct (once d). Qed.

(** What several configurations leave: all options, and the variable from the first. *)
Lemma configure_all configs : forall d g,
  foldl configure (d, g) configs
  = (mkDefaultLogger (apply_options (opts d) (map option_of (concat configs)))
       (once d || negb (bool_decide (configs = []))),
     match configs with
     | c :: _ => if once d then g else Some (apply_options (opts d) (map option_of c))
     | [] => g
     end).
Proof.
  induction configs as [|c configs IH]; intros d g; cbn [foldl].
  { cbn. rewrite orb_false_r. by destruct d. }
  unfold configure at 2. cbn [fst snd]. rewrite LoggerConfig_eq, IH. cbn [opts once concat map].
  rewrite map_app, apply_options_app, orb_true_r. by destruct configs.
Qed.

Lemma log_run_snoc p es e : log_run p (es ++ [e]) = log_step (log_run p es) e.
Proof. unfold log_run. by rewrite foldl_app. Qed.

(** The variable is nil as long as no logger was initialised. *)
Lemma variable_nil es :
  (variable (log_run no_services es) = None <-> forall d, d ∈ services (log_run no_services es) -> once d = false).
Proof.
  induction es as [|e es IH] using rev_ind.
  { split; [|done]. intros _ d Hd. by apply not_elem_of_nil in Hd. }
  rewrite log_run_snoc. destruct (log_run no_services es) as [ds g]. cbn [services variable] in *.
  destruct e as [configs|i os]; cbn [log_step services variable].
  - rewrite configure_all. cbn [once NewLogger orb services variable]. split.
    + destruct configs; [|done]. intros ->. intros d [Hd|Hd]%elem_of_app; [by apply IH|].
      apply list_elem_of_singleton in Hd as ->. done.
    + intros Hall. destruct configs as [|c configs].
      * apply IH. intros d Hd. apply Hall, elem_of_app. by left.
      * specialize (Hall _ (proj2 (elem_of_app _ _ _) (or_intror (list_elem_of_here _ _)))). done.
  - destruct (ds !! i) as [d|] eqn:Hi; [|exact IH]. unfold logger_Init.
    assert (Hin : mkDefaultLogger (apply_options (opts d) os) true ∈ <[i := mkDefaultLogger (apply_options (opts d) os) true]> ds)
      by (eapply list_elem_of_lookup_2, list_lookup_insert_eq, lookup_lt_Some, Hi).
    destruct (once d) eqn:Ho; cbn [services variable]; split; try done.
    + intros ->. exfalso. assert (Hd : once d = false) by (apply IH; [done|by eapply list_elem_of_lookup_2]). congruence.
    + intros Hall. by apply Hall in Hin.
    + intros Hall. by apply Hall in Hin.
Qed.

End Logger.

(** ** The property *)

(** the state of logging after any sequence of new services and initialisations.  The
    global logger is nil exactly as long as no service configured one, and until then every
    function of the package does nothing, [Fatal] and [Panic] included.  A new service that
    is configured by several groups of options replaces the logger of all services by one
    made from the first group only, although its [Options] tell of all groups; a service
    without such options leaves the logger of the others. *)
Theorem logger_state (ErrorLevel : LogLevel) (zap : Options -> string -> list string -> log_effect)
    (es : list log_event) (c : list LoggerOption) (cs : list (list LoggerOption)) :
  let p := log_run ErrorLevel no_services es in
  let base := default_options ErrorLevel in
  (variable p = None <-> forall d, d ∈ services p -> once d = false)
  /\ (variable p = None -> forall call args, log zap (variable p) call args = Logged)
  /\ log_step ErrorLevel p (NewService (c :: cs))
     = mkLogProgram
         (services p ++ [mkDefaultLogger (apply_options base (map option_of (c ++ concat cs))) true])
         (Some (apply_options base (map option_of c)))
  /\ log_step ErrorLevel p (NewService []) = mkLogProgram (services p ++ [mkDefaultLogger base false]) (variable p).
Proof.
  intros p base. split; [apply variable_nil|]. split; [by intros ->|].
  split; cbn [log_step]; by rewrite configure_all.
Qed.

(** Two groups: the level of the second is reported, and not used. *)
Lemma logger_state_witness :
  let p := log_run "error" no_services [NewService []] in
  log (fun _ _ _ => LogPanics) (variable p) LogPanicf ["%s"] = Logged
  /\ exists d, log_step "error" p (NewService [[LoggerName "a"]; [LoggerLevel "debug"]])
      = mkLogProgram (services p ++ [d]) (Some (mkOptions "a" "" "error" "prod" 2))
      /\ Level (opts d) = "debug".
Proof.
  destruct (logger_state "error" (fun _ _ _ => LogPanics) [NewService []] [LoggerName "a"] [[LoggerLevel "debug"]])
    as (_ & Hs & Hc & _).
  split; [by apply Hs|]. eexists. split; [exact Hc|reflexivity].
Defined.
