(* ===== verification/Utils.v ===== *)
(** * Helpers (utils/helpers.go: [Coalesce], [MergeErrs])

    [MergeErrs] starts a goroutine for each input channel and one that closes the output
    when all have returned.  An input channel is what its senders put on it before they
    close it; the output is read as it is filled.  An event is one step of one goroutine. *)

From S2P Require Import Prelude.
From Stdlib Require Import Lia.

#[local] Open Scope list_scope.

(** The first argument that is not nil. *)
Definition Coalesce {A : Type} (arg1 arg2 : option A) (args : list (option A)) : option A :=
  head (omap id (arg1 :: arg2 :: args)).

Section Merge.
Context {E : Type}.

(** [pipe]: about to receive, with what is still to come, or to send what it received, or
    behind its loop; on a nil channel it waits for ever. *)
Inductive pipe : Type :=
  | Receiving (rest : list E)
  | Sending (err : E) (rest : list E)
  | Piped
  | OnNil.

Record merge := mkMerge { pipes : list pipe; out : list E; out_closed : bool }.

Definition MergeErrs (chs : list (option (list E))) : merge :=
  mkMerge (map (fun ch => match ch with Some l => Receiving l | None => OnNil end) chs) [] false.

Inductive merge_event : Type :=
  | Pipes (i : nat)
  | WaitEnds.

Definition is_piped (p : pipe) : bool := match p with Piped => true | _ => false end.

(** [None]: the event is not enabled. *)
Definition merge_step (m : merge) (ev : merge_event) : option merge :=
  match ev with
  | Pipes i =>
      match pipes m !! i with
      | Some (Receiving (e :: l)) => Some (mkMerge (<[i := Sending e l]> (pipes m)) (out m) (out_closed m))
      | Some (Receiving []) => Some (mkMerge (<[i := Piped]> (pipes m)) (out m) (out_closed m))
      | Some (Sending e l) => Some (mkMerge (<[i := Receiving l]> (pipes m)) (out m ++ [e]) (out_closed m))
      | _ => None
      end
  | WaitEnds => if forallb is_piped (pipes m) && negb (out_closed m) then Some (mkMerge (pipes m) (out m) true) else None
  end.

Definition merge_run (m : merge) (evs : list merge_event) : option merge :=
  foldl (fun r ev => m ← r; merge_step m ev) (Some m) evs.

(** ** The specification: interleavings of lists *)

Inductive shuffle : list (list E) -> list E -> Prop :=
  | shuffle_nil ls : Forall (fun l => l = []) ls -> shuffle ls []
  | shuffle_cons ls i e l r : ls !! i = Some (e :: l) -> shuffle (<[i := l]> ls) r -> shuffle ls (e :: r).

(** ** Lemmas *)

(** What a goroutine still has to send, and how many steps it takes. *)
Definition pending (p : pipe) : list E :=
  match p with Receiving l => l | Sending e l => e :: l | _ => [] end.
Definition pipe_steps (p : pipe) : nat :=
  match p with Receiving l => S (2 * length l) | Sending _ l => S (S (2 * length l)) | _ => 0 end.
Definition merge_steps (m : merge) : nat :=
  sum_list_with pipe_steps (pipes m) + if out_closed m then 0 else 1.

Lemma merge_run_cons m ev evs m' :
  merge_run m (ev :: evs) = Some m' <-> exists m1, merge_step m ev = Some m1 /\ merge_run m1 evs = Some m'.
Proof.
  unfold merge_run. cbn. destruct (merge_step m ev) as [m1|]; [naive_solver|].
  split; [|by intros (? & ? & _)]. intros H. exfalso. revert H. by induction evs.
Qed.

Lemma insert_steps ps i p p' :
  ps !! i = Some p -> sum_list_with pipe_steps (<[i := p']> ps) + pipe_steps p = sum_list_with pipe_steps ps + pipe_steps p'.
Proof.
  revert i. induction ps as [|q ps IH]; intros [|i]; cbn; try done; [intros [= ->]; lia|].
  intros Hi. specialize (IH _ Hi). rewrite <- !Nat.add_assoc. f_equal. exact IH.
Qed.

(** Every step is one towards the end. *)
Lemma merge_step_steps m ev m' : merge_step m ev = Some m' -> merge_steps m = S (merge_steps m').
Proof.
  destruct ev as [i|]; cbn.
  - assert (Hs : forall p p' o, pipes m !! i = Some p -> pipe_steps p = S (pipe_steps p') ->
              merge_steps m = S (merge_steps (mkMerge (<[i := p']> (pipes m)) o (out_closed m)))).
    { intros p p' o Hi Hp. unfold merge_steps. cbn [pipes out_closed]. pose proof (insert_steps _ _ _ p' Hi). lia. }
    destruct (pipes m !! i) as [[[|e l]|e l| |]|] eqn:Hi; try done; intros [= <-];
      (eapply Hs; [reflexivity|cbn; lia]).
  - destruct (forallb _ _), (out_closed m) eqn:Hc; try done. intros [= <-]. unfold merge_steps. cbn. rewrite Hc. lia.
Qed.

Lemma merge_run_steps m evs m' : merge_run m evs = Some m' -> merge_steps m = length evs + merge_steps m'.
Proof.
  revert m. induction evs as [|ev evs IH]; intros m; [by intros [= ->]|].
  rewrite merge_run_cons. intros (m1 & Hs & Hr). apply merge_step_steps in Hs. apply IH in Hr. cbn. lia.
Qed.

(** A nil channel stays. *)
Lemma step_nil m ev m' : merge_step m ev = Some m' -> OnNil ∈ pipes m -> OnNil ∈ pipes m' /\ out_closed m' = out_closed m.
Proof.
  intros Hs (j & Hj)%list_elem_of_lookup. destruct ev as [i|]; cbn in Hs.
  - destruct (decide (i = j)) as [->|Hne]; [by rewrite Hj in Hs|].
    assert (Hk : forall p, OnNil ∈ <[i := p]> (pipes m))
      by (intros p; apply list_elem_of_lookup; exists j; by rewrite list_lookup_insert_ne).
    destruct (pipes m !! i) as [[[|e l]|e l| |]|]; try done; injection Hs as <-; (split; [apply Hk|done]).
  - destruct (forallb is_piped (pipes m)) eqn:Hf; [|done]. exfalso.
    rewrite forallb_forall in Hf. apply list_elem_of_lookup_2, list_elem_of_In in Hj. by apply Hf in Hj.
Qed.

Lemma run_nil m evs m' : merge_run m evs = Some m' -> OnNil ∈ pipes m -> out_closed m' = out_closed m.
Proof.
  revert m. induction evs as [|ev evs IH]; intros m; [by intros [= ->]|].
  rewrite merge_run_cons. intros (m1 & Hs & Hr) Hn. destruct (step_nil _ _ _ Hs Hn) as [Hn1 <-]. by apply IH.
Qed.

(** Without a nil channel some goroutine can go on until the output is closed. *)
Lemma merge_progress m : OnNil ∉ pipes m -> out_closed m = false -> exists ev m', merge_step m ev = Some m'.
Proof.
  intros Hn Hc. destruct (forallb is_piped (pipes m)) eqn:Hf.
  { exists WaitEnds. cbn. rewrite Hf, Hc. eauto. }
  assert (Hex : exists p, p ∈ pipes m /\ is_piped p = false).
  { clear Hn Hc. induction (pipes m) as [|p ps IH]; [done|]. cbn in Hf. destruct (is_piped p) eqn:Hp.
    - destruct (IH Hf) as (q & Hq & ?). exists q. split; [by right|done].
    - exists p. split; [left|done]. }
  destruct Hex as (p & Hin & Hp). destruct (proj1 (list_elem_of_lookup _ _) Hin) as [i Hi].
  exists (Pipes i). cbn. rewrite Hi.
  destruct p as [[|e l]|e l| |]; eauto; done.
Qed.

Lemma shuffle_insert ps i p e l r :
  ps !! i = Some p -> pending p = e :: l -> shuffle (map pending (<[i := Receiving l]> ps)) r ->
  shuffle (map pending ps) (e :: r).
Proof.
  intros Hi Hp Hs. apply (shuffle_cons _ i e l).
  - change (pending <$> ps !! i = Some (e :: l)) with (pending <$> ps !! i = Some (e :: l)).
    rewrite <- Hp. change (map pending ps) with (pending <$> ps). rewrite list_lookup_fmap, Hi. done.
  - change (map pending ps) with (pending <$> ps). change l with (pending (Receiving l)) at 1. by rewrite <- list_fmap_insert.
Qed.

(** What is sent from now on. *)
Lemma run_shuffle m evs m' :
  merge_run m evs = Some m' -> forallb is_piped (pipes m') = true ->
  exists r, out m' = out m ++ r /\ shuffle (map pending (pipes m)) r.
Proof.
  revert m. induction evs as [|ev evs IH]; intros m.
  - intros [= <-] Hf. exists []. rewrite app_nil_r. split; [done|]. constructor. apply Forall_forall.
    intros l (p & -> & Hp)%list_elem_of_fmap. apply list_elem_of_In in Hp.
    rewrite forallb_forall in Hf. specialize (Hf p Hp). by destruct p.
  - rewrite merge_run_cons. intros (m1 & Hs & Hr) Hf. destruct (IH _ Hr Hf) as (r & Ho & Hsh).
    destruct ev as [i|]; cbn in Hs.
    + destruct (pipes m !! i) as [[[|e l]|e l| |]|] eqn:Hi; try done; injection Hs as <-; cbn in Ho, Hsh.
      * exists r. split; [done|]. change (map pending (<[i := Piped]> (pipes m))) with (pending <$> <[i := Piped]> (pipes m)) in Hsh.
        rewrite list_fmap_insert in Hsh. by rewrite list_insert_id in Hsh by (by rewrite list_lookup_fmap, Hi).
      * exists r. split; [done|]. change (map pending (<[i := Sending e l]> (pipes m))) with (pending <$> <[i := Sending e l]> (pipes m)) in Hsh.
        rewrite list_fmap_insert in Hsh. by rewrite list_insert_id in Hsh by (by rewrite list_lookup_fmap, Hi).
      * exists (e :: r). rewrite Ho, <- app_assoc. split; [done|]. by eapply shuffle_insert.
    + destruct (forallb is_piped (pipes m)), (out_closed m); try done. injection Hs as <-. by exists r.
Qed.

End Merge.

(** The output is closed behind the last goroutine. *)
Lemma closed_piped {E} (m m' : @merge E) evs :
  merge_run m evs = Some m' -> (out_closed m = true -> forallb is_piped (pipes m) = true) ->
  out_closed m' = true -> forallb is_piped (pipes m') = true.
Proof.
  revert m. induction evs as [|ev evs IH]; intros m; [by intros [= ->]|].
  rewrite merge_run_cons. intros (m1 & Hs & Hr) Hm. apply (IH _ Hr). destruct ev as [i|]; cbn in Hs.
  - destruct (pipes m !! i) as [p|] eqn:Hi; [|done].
    assert (Hp : out_closed m = true -> is_piped p = true).
    { intros Hc. specialize (Hm Hc). rewrite forallb_forall in Hm. apply Hm, list_elem_of_In. by eapply list_elem_of_lookup_2. }
    destruct p as [[|e l]|e l| |]; try done; injection Hs as <-; cbn; intros Hc; by specialize (Hp Hc).
  - destruct (forallb is_piped (pipes m)) eqn:Hf, (out_closed m); try done. by injection Hs as <-.
Qed.

Lemma MergeErrs_steps {E} (ls : list (list E)) :
  merge_steps (MergeErrs (map Some ls)) = (2 * length (concat ls) + length ls + 1)%nat.
Proof.
  unfold merge_steps, MergeErrs. cbn. rewrite map_map. f_equal.
  induction ls as [|l ls IH]; [done|]. cbn. rewrite length_app. cbn in IH. rewrite IH. lia.
Qed.

(** merging error channels.  Without a nil channel every run ends, within two steps for
    every error and one for every goroutine; until then some goroutine can go on; and what
    was put out when the output is closed is an interleaving of the inputs: every error
    once, those of one channel in their order.  With a nil channel the output is never
    closed. *)
Theorem merge_errs_spec {E : Type} (evs : list merge_event) (m : @merge E) :
  (forall ls, merge_run (MergeErrs (map Some ls)) evs = Some m ->
     (length evs <= 2 * length (concat ls) + length ls + 1)%nat
     /\ (out_closed m = false -> exists ev m', merge_step m ev = Some m')
     /\ (out_closed m = true -> shuffle ls (out m)))
  /\ (forall chs, None ∈ chs -> merge_run (MergeErrs chs) evs = Some m -> out_closed m = false).
Proof.
  split.
  - intros ls Hr. split; [|split].
    + rewrite <- MergeErrs_steps. rewrite (merge_run_steps _ _ _ Hr). lia.
    + apply merge_progress. revert Hr.
      assert (Hn : OnNil ∉ pipes (MergeErrs (map Some ls))).
      { cbn. rewrite map_map. intros (l & [=] & _)%list_elem_of_fmap. }
      revert Hn. generalize (MergeErrs (map Some ls)). induction evs as [|ev evs' IH]; intros m0 Hn; [by intros [= <-]|].
      rewrite merge_run_cons. intros (m1 & Hs & Hr). apply (IH m1); [|done]. destruct ev as [i|]; cbn in Hs.
      * destruct (pipes m0 !! i) as [[[|e l]|e l| |]|]; try done; injection Hs as <-; cbn;
          intros (j & Hj)%list_elem_of_lookup; apply list_lookup_insert_Some in Hj as [(_ & [=] & _)|[_ Hj]];
          apply Hn; by eapply list_elem_of_lookup_2.
      * destruct (_ && _); [|done]. by injection Hs as <-.
    + intros Hc. pose proof (closed_piped _ _ _ Hr ltac:(done) Hc) as Hf.
      destruct (run_shuffle _ _ _ Hr Hf) as (r & Ho & Hs). cbn in Ho, Hs. rewrite !map_map in Hs. cbn in Hs.
      rewrite map_id in Hs. by rewrite Ho.
  - intros chs Hin Hr. rewrite (run_nil _ _ _ Hr); [done|]. cbn. apply list_elem_of_fmap. by exists None.
Qed.

Lemma merge_errs_spec_witness :
  exists m, merge_run (MergeErrs (map Some [[1; 2]; [3]])) [Pipes 0; Pipes 1; Pipes 1; Pipes 0; Pipes 0; Pipes 0; Pipes 0; Pipes 1; WaitEnds]
              = Some m
    /\ out m = [3; 1; 2] /\ shuffle [[1; 2]; [3]] (out m).
Proof.
  eexists. split; [reflexivity|]. split; [reflexivity|].
  apply (merge_errs_spec [Pipes 0; Pipes 1; Pipes 1; Pipes 0; Pipes 0; Pipes 0; Pipes 0; Pipes 1; WaitEnds]);
    reflexivity.
Defined.

Lemma Coalesce_first {A} (args : list (option A)) (a b : option A) x :
  Coalesce a b args = Some x <->
  exists l1 l2, a :: b :: args = l1 ++ Some x :: l2 /\ Forall (fun o => o = None) l1.
Proof.
  unfold Coalesce. generalize (a :: b :: args). clear. intros l. induction l as [|[y|] l IH]; cbn.
  - split; [done|]. by intros ([|] & ? & [=] & _).
  - split; [intros [= ->]; exists [], l; by split|]. intros ([|o l1] & l2 & [= E1 E2] & Hf); [congruence|].
    inversion Hf; congruence.
  - rewrite IH. split.
    + intros (l1 & l2 & -> & Hf). exists (None :: l1), l2. split; [done|by constructor].
    + intros ([|o l1] & l2 & [= <- ->] & Hf). exists l1, l2. split; [done|]. by inversion Hf.
Qed.
