(* ===== verification/Params.v ===== *)
(** * Parameters: [headerParams] (sip/headers.go) and [ParseParams] (sip/parser.go)

    The ordered key/value map that URIs and headers carry, its printer and its
    parser.  A value is nil ([None]) or a text: rendering, copying and looking up are
    the same for a [String] and for a pointer to one.  Only [Equals] asks which of them
    a value is; it takes the addresses of the pointers as arguments. *)

From S2P Require Import Prelude GoStrings.
From Stdlib Require Import Lia.

#[local] Open Scope string_scope.
#[local] Open Scope list_scope.

Abbreviation MaybeString := (option string).

Record headerParams := mkParams {
  params : gmap string MaybeString;
  paramOrder : list string
}.

#[export] Instance headerParams_eq_dec : EqDecision headerParams.
Proof. solve_decision. Defined.

Definition NewParams : headerParams := mkParams ∅ [].

Definition Items (ps : headerParams) : gmap string MaybeString := params ps.
Definition Keys (ps : headerParams) : list string := paramOrder ps.

(** [Some v] is the result [(v, true)], [None] the result [(nil, false)]. *)
Definition Get (ps : headerParams) (key : string) : option MaybeString := params ps !! key.

Definition Has (ps : headerParams) (key : string) : bool := bool_decide (is_Some (params ps !! key)).

Definition Add (ps : headerParams) (key : string) (val : MaybeString) : headerParams :=
  let order := match params ps !! key with
               | Some _ => paramOrder ps
               | None => paramOrder ps ++ [key]
               end in
  mkParams (<[key := val]> (params ps)) order.

Definition Params_Copy (ps : headerParams) : headerParams :=
  foldl (fun dup key => match Get ps key with
                        | Some val => Add dup key val
                        | None => dup
                        end) NewParams (Keys ps).

Definition Length (ps : headerParams) : nat := size (params ps).

(** One parameter of the rendering of [ToString]. *)
Definition param_text (key : string) (val : MaybeString) : string :=
  match val with
  | None => key
  | Some v =>
      if contains_by is_abnf_ws v then key +:+ "=" +:+ DQ +:+ v +:+ DQ
      else key +:+ "=" +:+ v
  end.

Definition ToString (ps : headerParams) (sep : ascii) : string :=
  snd (foldl (fun '(first, buffer) key =>
                match Get ps key with
                | None => (first, buffer)
                | Some val =>
                    (false, buffer +:+ (if (first : bool) then "" else String sep "")
                              +:+ param_text key val)
                end) (true, "") (Keys ps)).

Definition Params_String (ps : headerParams) : string := ToString ps "&".

(** The address that the value of a key points to; [None] where the value is nil or a
    [String].  The program stores pointers only as the tags of From and To headers. *)
Definition pointers : Type := string -> option nat.
Definition no_pointers : pointers := fun _ => None.

(** [pVal == qVal] of two interface values. *)
Definition same_value (p q : option nat) (pVal qVal : MaybeString) : bool :=
  match p, q with
  | None, None => bool_decide (pVal = qVal)
  | Some a, Some b => (a =? b)%nat
  | _, _ => false
  end.

Definition Params_Equals (pp qq : pointers) (ps qs : headerParams) : bool :=
  if (Length ps =? 0)%nat && (Length qs =? 0)%nat then true
  else if negb (Length ps =? Length qs)%nat then false
  else forallb (fun '(key, pVal) =>
                  match Get qs key with
                  | None => false
                  | Some qVal => same_value (pp key) (qq key) pVal qVal
                  end) (map_to_list (Items ps)).

(** ** The parser of [key=value] lists *)

Record pstate := mkPstate {
  buffer : string;
  pkey : string;
  parsingKey : bool;
  inQuotes : bool;
  pparams : headerParams
}.

Inductive pstep : Type :=
  | PContinue (st : pstate)
  | PBreak (st : pstate)
  | PError (st : pstate) (e : string).

Definition put (st : pstate) (s : string) : pstate :=
  mkPstate (buffer st +:+ s) (pkey st) (parsingKey st) (inQuotes st) (pparams st).

(** The end of one parameter: the body of [case sep] and of the code after the loop. *)
Definition store (permitSingletons : bool) (st : pstate) : headerParams * option string :=
  if parsingKey st then
    if permitSingletons then (Add (pparams st) (buffer st) None, None)
    else (pparams st, Some "singleton param '%s' when parsing params which disallow singletons")
  else (Add (pparams st) (pkey st) (Some (buffer st)), None).

(** One turn of the loop on the byte [c], where [rest] follows [c]. *)
Definition ParseParams_step (sep end_ : ascii) (quoteValues permitSingletons : bool)
    (st : pstate) (c : ascii) (rest : string) : pstep :=
  if Ascii.eqb c end_ then
    if inQuotes st then PContinue (put st (string_of_byte end_)) else PBreak st
  else if Ascii.eqb c sep then
    if inQuotes st then PContinue (put st (string_of_byte sep))
    else
      match store permitSingletons st with
      | (ps, Some e) => PError (mkPstate (buffer st) (pkey st) (parsingKey st) (inQuotes st) ps) e
      | (ps, None) => PContinue (mkPstate "" (pkey st) true (inQuotes st) ps)
      end
  else if Ascii.eqb c QUOTE then
    if negb quoteValues then PContinue (put st DQ)
    else if parsingKey st then PError st "unexpected quote in parameter key in params"
    else if negb (inQuotes st) && negb (String.eqb (buffer st) "") then
      PError st "unexpected quote in params"
    else if inQuotes st && (match rest with "" => false | String d _ => negb (Ascii.eqb d sep) end) then
      PError st "unexpected character %c after quoted param in"
    else PContinue (mkPstate (buffer st) (pkey st) (parsingKey st) (negb (inQuotes st)) (pparams st))
  else if Ascii.eqb c "=" then
    if String.eqb (buffer st) "" then PError st "key of length 0 in params"
    else if negb (parsingKey st) then PError st "unexpected '=' char in value token"
    else PContinue (mkPstate "" (buffer st) false (inQuotes st) (pparams st))
  else if negb (inQuotes st) && is_abnf_ws c then PContinue st
  else PContinue (put st (string_of_byte c)).

Fixpoint ParseParams_loop (sep end_ : ascii) (quoteValues permitSingletons : bool)
    (source : string) (consumed : nat) (st : pstate) : pstate * nat * option string :=
  match source with
  | "" => (st, consumed, None)
  | String c rest =>
      match ParseParams_step sep end_ quoteValues permitSingletons st c rest with
      | PContinue st' =>
          ParseParams_loop sep end_ quoteValues permitSingletons rest (S consumed) st'
      | PBreak st' => (st', consumed, None)
      | PError st' e => (st', consumed, Some e)
      end
  end.

Definition pstate0 : pstate := mkPstate "" "" true false NewParams.

(** The code after the loop. *)
Definition ParseParams_finish (permitSingletons : bool) (st : pstate) : headerParams * option string :=
  if inQuotes st then (pparams st, Some "unclosed quotes in parameter string")
  else store permitSingletons st.

(** The three results of the Go function: the parameters (also on an error), the
    number of bytes consumed and the error. *)
Definition ParseParams (source : string) (start sep end_ : ascii)
    (quoteValues permitSingletons : bool) : headerParams * nat * option string :=
  match source with
  | "" => (NewParams, 0, None)
  | String c rest =>
      let run src consumed :=
        match ParseParams_loop sep end_ quoteValues permitSingletons src consumed pstate0 with
        | (st, n, Some e) => (pparams st, n, Some e)
        | (st, n, None) =>
            let (ps, err) := ParseParams_finish permitSingletons st in (ps, n, err)
        end in
      if Ascii.eqb start NUL then run source 0
      else if Ascii.eqb c start then run rest 1
      else (NewParams, 0, Some "expected %c at start of key-value section; got %c. section was %s")
  end.

(** ** The order list holds the keys of the map, once each *)

Definition params_ok (ps : headerParams) : Prop :=
  NoDup (paramOrder ps) /\ forall k, k ∈ paramOrder ps <-> is_Some (params ps !! k).

Lemma NewParams_ok : params_ok NewParams.
Proof.
  split; [constructor|]. intros k. cbn. rewrite lookup_empty, elem_of_nil.
  split; [done|by intros [? ?]].
Qed.

Lemma Add_ok ps k v : params_ok ps -> params_ok (Add ps k v).
Proof.
  intros [Hnd Hdom]. unfold Add. split; cbn.
  - destruct (params ps !! k) eqn:E; [done|].
    apply NoDup_app. split_and!; [done| |apply NoDup_singleton].
    intros x Hx Hx'. apply list_elem_of_singleton in Hx' as ->.
    apply Hdom in Hx. rewrite E in Hx. by destruct Hx.
  - intros k'. destruct (decide (k = k')) as [<-|Hne].
    + rewrite lookup_insert_eq. split; [eauto|intros _].
      destruct (params ps !! k) eqn:E; [apply Hdom; eauto|set_solver].
    + rewrite lookup_insert_ne, <- Hdom by done.
      destruct (params ps !! k); set_solver.
Qed.

Lemma Get_Add ps k v k' :
  Get (Add ps k v) k' = if decide (k = k') then Some v else Get ps k'.
Proof.
  unfold Get, Add. cbn. case_decide as E; [subst; apply lookup_insert_eq|by apply lookup_insert_ne].
Qed.

(** Adding the pairs of a list of fresh keys appends them in that order. *)
Lemma foldl_Add (v : string -> MaybeString) ks acc :
  NoDup ks -> (forall k, k ∈ ks -> params acc !! k = None) ->
  let r := foldl (fun a k => Add a k (v k)) acc ks in
  paramOrder r = paramOrder acc ++ ks /\
  forall k, params r !! k = if decide (k ∈ ks) then Some (v k) else params acc !! k.
Proof.
  revert acc. induction ks as [|k ks IH]; cbn; intros acc Hnd Hfresh.
  - split; [by rewrite app_nil_r|]. intros k. by rewrite decide_False by set_solver.
  - apply NoDup_cons in Hnd as [Hk Hnd].
    assert (Hacc : params acc !! k = None) by (apply Hfresh; left).
    destruct (IH (Add acc k (v k)) Hnd) as [Ho Hp].
    { intros k' Hk'. cbn. rewrite lookup_insert_ne by (intros ->; done). apply Hfresh. by right. }
    split.
    + rewrite Ho. unfold Add. cbn. by rewrite Hacc, <- app_assoc.
    + intros k'. rewrite Hp. unfold Add. cbn.
      destruct (decide (k' ∈ ks)), (decide (k' ∈ k :: ks)), (decide (k = k')) as [->|];
        rewrite ?lookup_insert_eq, ?lookup_insert_ne by done; try set_solver; done.
Qed.

Lemma foldl_Add_rebuild ps (v : string -> MaybeString) :
  params_ok ps -> (forall k, k ∈ paramOrder ps -> params ps !! k = Some (v k)) ->
  foldl (fun a k => Add a k (v k)) NewParams (paramOrder ps) = ps.
Proof.
  intros [Hnd Hdom] Hv. destruct (foldl_Add v (paramOrder ps) NewParams Hnd) as [Ho Hp];
    [intros; apply lookup_empty|].
  destruct (foldl _ NewParams _) as [m o] eqn:E. destruct ps as [m' o']. cbn in *. subst o.
  f_equal. apply map_eq. intros k. rewrite Hp. case_decide as Hk; [by rewrite Hv|].
  rewrite lookup_empty. rewrite Hdom in Hk. symmetry. by apply eq_None_not_Some.
Qed.

Definition val_of (ps : headerParams) (k : string) : MaybeString := default None (params ps !! k).

Lemma val_of_lookup ps k :
  params_ok ps -> k ∈ paramOrder ps -> params ps !! k = Some (val_of ps k).
Proof.
  intros [_ Hdom] Hk. apply Hdom in Hk as [v Hv]. unfold val_of. rewrite Hv. done.
Qed.

(** A copy has the same parameters in the same order. *)
Lemma Params_Copy_id ps : params_ok ps -> Params_Copy ps = ps.
Proof.
  intros Hok. rewrite <- (foldl_Add_rebuild ps (val_of ps)) at 2 by eauto using val_of_lookup.
  unfold Params_Copy, Keys.
  assert (H : forall k, k ∈ paramOrder ps -> Get ps k = Some (val_of ps k))
    by (intros; by apply val_of_lookup).
  revert H. generalize NewParams. generalize (paramOrder ps). clear Hok.
  intros ks. induction ks as [|k ks IH]; intros acc H; [done|].
  cbn. rewrite (H k) by left. apply IH. intros. apply H. by right.
Qed.

(** Without pointers, [Equals] compares the maps and ignores the order. *)
Lemma Params_Equals_spec ps qs :
  Params_Equals no_pointers no_pointers ps qs = true <-> params ps = params qs.
Proof.
  unfold Params_Equals, Length, Items, no_pointers. cbn [same_value].
  destruct (Nat.eqb_spec (size (params ps)) 0) as [E1|E1], (Nat.eqb_spec (size (params qs)) 0) as [E2|E2]; cbn.
  1: { apply map_size_empty_iff in E1, E2. rewrite E1, E2. done. }
  all: destruct (Nat.eqb_spec (size (params ps)) (size (params qs))) as [E|E]; cbn; try lia;
    try (split; [done|intros E'; rewrite E' in *; lia]).
  rewrite forallb_forall. split.
  - intros H. assert (Hsub : params ps ⊆ params qs).
    { apply map_subseteq_spec. intros k v Hk. apply elem_of_map_to_list, list_elem_of_In in Hk.
      specialize (H _ Hk). unfold Get in H. destruct (params qs !! k) as [w|]; [|done].
      apply bool_decide_eq_true in H as ->. done. }
    by apply map_subseteq_size_eq in Hsub; [|lia].
  - intros H [k v] Hk. apply list_elem_of_In, elem_of_map_to_list in Hk.
    unfold Get. rewrite <- H, Hk. by apply bool_decide_eq_true.
Qed.

(** ** Every parse keeps the invariant and stays within the text *)

Lemma store_ok permit st :
  params_ok (pparams st) -> params_ok (fst (store permit st)).
Proof. unfold store. intros H. destruct (parsingKey st), permit; cbn; auto using Add_ok. Qed.

Lemma ParseParams_step_ok sep end_ q permit st c rest :
  params_ok (pparams st) ->
  match ParseParams_step sep end_ q permit st c rest with
  | PContinue st' | PBreak st' | PError st' _ => params_ok (pparams st')
  end.
Proof.
  intros H. unfold ParseParams_step.
  pose proof (store_ok permit st H) as Hst.
  destruct (store permit st) as [ps [e|]]; cbn in Hst; split_matches; simplify_eq; cbn; done.
Qed.

Lemma ParseParams_loop_ok sep end_ q permit src n st st' n' e :
  ParseParams_loop sep end_ q permit src n st = (st', n', e) ->
  params_ok (pparams st) ->
  params_ok (pparams st') /\ (n <= n' <= n + String.length src)%nat.
Proof.
  revert n st. induction src as [|c rest IH]; cbn; intros n st Hl Hok.
  - injection Hl as <- <- <-. split; [done|lia].
  - pose proof (ParseParams_step_ok sep end_ q permit st c rest Hok) as Hs.
    destruct (ParseParams_step _ _ _ _ st c rest) as [st1|st1|st1 e1].
    + apply IH in Hl as [? ?]; [|done]. split; [done|lia].
    + injection Hl as <- <- <-. split; [done|lia].
    + injection Hl as <- <- <-. split; [done|lia].
Qed.

Lemma ParseParams_bounds src start sep end_ q permit ps n e :
  ParseParams src start sep end_ q permit = (ps, n, e) ->
  params_ok ps /\ (n <= String.length src)%nat.
Proof.
  unfold ParseParams. destruct src as [|c rest].
  { intros [= <- <- <-]. split; [apply NewParams_ok|done]. }
  assert (Hrun : forall src n0,
    match ParseParams_loop sep end_ q permit src n0 pstate0 with
    | (st, n, Some e) => (pparams st, n, Some e)
    | (st, n, None) => let (ps, err) := ParseParams_finish permit st in (ps, n, err)
    end = (ps, n, e) -> params_ok ps /\ (n <= n0 + String.length src)%nat).
  { intros src n0 H. destruct (ParseParams_loop _ _ _ _ src n0 pstate0) as [[st m] [e'|]] eqn:E;
      apply ParseParams_loop_ok in E as [Hok Hm]; try apply NewParams_ok.
    - injection H as <- <- <-. split; [done|lia].
    - unfold ParseParams_finish in H. pose proof (store_ok permit st Hok).
      destruct (inQuotes st), (store permit st); injection H as <- <- <-; (split; [done|lia]). }
  destruct (Ascii.eqb start NUL); [apply (Hrun (String c rest) 0)|].
  destruct (Ascii.eqb c start); [intros H; apply (Hrun rest 1) in H; cbn; lia || tauto|].
  intros [= <- <- <-]. split; [apply NewParams_ok|lia].
Qed.

(** ** Round trip: printing with [ToString] and parsing back *)

Section RoundTrip.
Variables sep end_ : ascii.
Variable permit : bool.  (* permitSingletons *)

(** A byte that stands for itself outside quotes. *)
Definition plain (c : ascii) : bool :=
  is_ascii c && negb (Ascii.eqb c end_) && negb (Ascii.eqb c sep)
  && negb (Ascii.eqb c QUOTE) && negb (Ascii.eqb c "=") && negb (is_abnf_ws c).

(** A byte that stands for itself inside quotes. *)
Definition quotable (c : ascii) : bool :=
  is_ascii c && negb (Ascii.eqb c QUOTE) && negb (Ascii.eqb c "=").

Definition value_safe (v : MaybeString) : bool :=
  match v with
  | None => true
  | Some w => if contains_by is_abnf_ws w then sforall quotable w else sforall plain w
  end.

Definition unquoted (v : MaybeString) : bool :=
  match v with None => true | Some w => negb (contains_by is_abnf_ws w) end.

Definition param_safe (k : string) (v : MaybeString) : bool :=
  negb (String.eqb k "") && sforall plain k && value_safe v
  && (permit || bool_decide (is_Some v)).

Definition delims_ok : bool :=
  negb (Ascii.eqb sep end_) && negb (Ascii.eqb sep QUOTE) && negb (Ascii.eqb sep "=")
  && negb (Ascii.eqb end_ QUOTE) && negb (Ascii.eqb end_ "=").

Hypothesis Hdelims : delims_ok = true.

#[local] Abbreviation loop := (ParseParams_loop sep end_ true permit).

Lemma string_of_ascii_byte c : is_ascii c = true -> string_of_byte c = String c "".
Proof. unfold string_of_byte. by intros ->. Qed.

Lemma put_put st s1 s2 : put (put st s1) s2 = put st (s1 +:+ s2).
Proof. unfold put. cbn. by rewrite sapp_assoc. Qed.

Lemma put_nil st : put st "" = st.
Proof. unfold put. rewrite sapp_nil_r. by destruct st. Qed.

(** The delimiters, one equation each. *)
Lemma delims :
  Ascii.eqb sep end_ = false /\ Ascii.eqb QUOTE sep = false /\ Ascii.eqb "=" sep = false
  /\ Ascii.eqb QUOTE end_ = false /\ Ascii.eqb "=" end_ = false.
Proof.
  pose proof Hdelims as Hd. unfold delims_ok in Hd.
  repeat apply andb_prop in Hd as [Hd ?%negb_true_iff]. apply negb_true_iff in Hd.
  by rewrite !(Ascii.eqb_sym QUOTE), !(Ascii.eqb_sym "=").
Qed.

#[local] Abbreviation step := (ParseParams_step sep end_ true permit).

Lemma step_plain st c rest :
  plain c = true -> inQuotes st = false -> step st c rest = PContinue (put st (String c "")).
Proof.
  unfold plain. intros Hc Hq.
  repeat apply andb_prop in Hc as [Hc ?%negb_true_iff].
  unfold ParseParams_step. rewrite H3, H2, H1, H0, H, Hq. cbn [negb andb].
  by rewrite string_of_ascii_byte.
Qed.

Lemma step_quotable st c rest :
  quotable c = true -> inQuotes st = true -> step st c rest = PContinue (put st (String c "")).
Proof.
  unfold quotable. intros Hc Hq.
  repeat apply andb_prop in Hc as [Hc ?%negb_true_iff].
  unfold ParseParams_step. rewrite H0, H, Hq. cbn [negb andb].
  destruct (Ascii.eqb_spec c end_) as [<-|_]; [|destruct (Ascii.eqb_spec c sep) as [<-|_]];
    by rewrite string_of_ascii_byte.
Qed.

Lemma step_eq st rest :
  buffer st <> "" -> parsingKey st = true ->
  step st "=" rest = PContinue (mkPstate "" (buffer st) false (inQuotes st) (pparams st)).
Proof.
  intros Hb Hk. destruct delims as (_ & _ & Hs & _ & He).
  unfold ParseParams_step. rewrite He, Hs, Hk, (proj2 (String.eqb_neq _ _) Hb). done.
Qed.

Lemma step_open st rest :
  buffer st = "" -> parsingKey st = false -> inQuotes st = false ->
  step st QUOTE rest = PContinue (mkPstate (buffer st) (pkey st) false true (pparams st)).
Proof.
  intros Hb Hk Hq. destruct delims as (_ & Hs & _ & He & _).
  unfold ParseParams_step. by rewrite He, Hs, Hk, Hq, Hb.
Qed.

Lemma step_close st rest :
  parsingKey st = false -> inQuotes st = true ->
  (match rest with "" => True | String d _ => d = sep end) ->
  step st QUOTE rest = PContinue (mkPstate (buffer st) (pkey st) false false (pparams st)).
Proof.
  intros Hk Hq Hr. destruct delims as (_ & Hs & _ & He & _).
  unfold ParseParams_step. rewrite He, Hs, Hk, Hq.
  destruct rest as [|d rest]; [done|]. subst d. by rewrite !Ascii.eqb_refl.
Qed.

Lemma step_sep st ps rest :
  inQuotes st = false -> store permit st = (ps, None) ->
  step st sep rest = PContinue (mkPstate "" (pkey st) true false ps).
Proof.
  intros Hq Hst. destruct delims as (Hse & _).
  unfold ParseParams_step. by rewrite Hse, Ascii.eqb_refl, Hq, Hst.
Qed.

Lemma loop_cons c rest n st st' :
  step st c rest = PContinue st' -> loop (String c rest) n st = loop rest (S n) st'.
Proof. cbn. by intros ->. Qed.

Lemma loop_plain w rest n st :
  sforall plain w = true -> inQuotes st = false ->
  loop (w +:+ rest) n st = loop rest (n + String.length w) (put st w).
Proof.
  revert n st. induction w as [|c w IH]; intros n st Hw Hq.
  - cbn. by rewrite put_nil, Nat.add_0_r.
  - cbn in Hw. apply andb_prop in Hw as [Hc Hw].
    cbn [String.append]. rewrite (loop_cons _ _ _ _ _ (step_plain st c _ Hc Hq)), IH by done.
    rewrite put_put. cbn [String.length]. by rewrite Nat.add_succ_r.
Qed.

Lemma loop_quoted w rest n st :
  sforall quotable w = true -> inQuotes st = true ->
  loop (w +:+ rest) n st = loop rest (n + String.length w) (put st w).
Proof.
  revert n st. induction w as [|c w IH]; intros n st Hw Hq.
  - cbn. by rewrite put_nil, Nat.add_0_r.
  - cbn in Hw. apply andb_prop in Hw as [Hc Hw].
    cbn [String.append]. rewrite (loop_cons _ _ _ _ _ (step_quotable st c _ Hc Hq)), IH by done.
    rewrite put_put. cbn [String.length]. by rewrite Nat.add_succ_r.
Qed.

(** What may follow one rendered parameter. *)
Definition follows (v : MaybeString) (tail : string) : Prop :=
  match tail with
  | "" => True
  | String d _ => d = sep \/ unquoted v = true
  end.

(** One rendered parameter is read into a state that stores it. *)
Lemma loop_param k v tail n key ps :
  param_safe k v = true -> follows v tail ->
  exists st, loop (param_text k v +:+ tail) n (mkPstate "" key true false ps)
             = loop tail (n + String.length (param_text k v)) st
    /\ store permit st = (Add ps k v, None) /\ inQuotes st = false.
Proof.
  unfold param_safe. intros [[[Hne Hk]%andb_prop Hv]%andb_prop Hp]%andb_prop Hf.
  apply negb_true_iff, String.eqb_neq in Hne.
  destruct v as [w|]; cbn [param_text value_safe] in *.
  2: { exists (mkPstate k key true false ps). rewrite loop_plain by done.
       unfold store. cbn. by destruct permit. }
  exists (mkPstate w k false false ps). split; [|done].
  destruct (contains_by is_abnf_ws w) eqn:Hws;
    rewrite !sapp_assoc, loop_plain by done; cbn [String.append];
    erewrite loop_cons by (by apply step_eq).
  - unfold DQ. cbn [String.append]. erewrite loop_cons by (by apply step_open). cbn [buffer pkey put pparams].
    rewrite loop_quoted by done. erewrite loop_cons.
    2: { apply step_close; [done..|]. destruct tail as [|d tail]; [done|].
         destruct Hf as [->|Hf]; [done|]. cbn in Hf. by rewrite Hws in Hf. }
    f_equal. rewrite !slength_app. cbn. rewrite slength_app. cbn. lia.
  - cbn [buffer pkey put pparams]. rewrite loop_plain by done.
    f_equal. rewrite !slength_app. cbn. lia.
Qed.

(** The rendering of several parameters. *)
Lemma loop_params (v : string -> MaybeString) ks tail n key ps :
  ks <> [] -> Forall (fun k => param_safe k (v k) = true) ks ->
  (tail = "" \/ (exists r, tail = String end_ r) /\ Forall (fun k => unquoted (v k) = true) ks) ->
  exists st, loop (join (String sep "") (map (fun k => param_text k (v k)) ks) +:+ tail) n
               (mkPstate "" key true false ps)
             = (st, (n + String.length (join (String sep "") (map (fun k => param_text k (v k)) ks)))%nat, None)
    /\ store permit st = (foldl (fun a k => Add a k (v k)) ps ks, None) /\ inQuotes st = false.
Proof.
  intros Hne Hks Htail. revert n key ps. induction Hks as [|k ks Hk Hks IH]; [done|intros n key ps].
  destruct ks as [|k' ks].
  - cbn [map join foldl]. destruct (loop_param k (v k) tail n key ps Hk) as (st & Hl & Hst & Hq).
    { destruct Htail as [->|[[r ->] Hu]]; [done|]. right. by inversion Hu. }
    exists st. rewrite Hl. split; [|done]. destruct Htail as [->|[[r ->] _]]; [done|].
    cbn. unfold ParseParams_step. by rewrite Ascii.eqb_refl, Hq.
  - set (k2 := k' :: ks) in *.
    assert (Hj : join (String sep "") (map (fun k => param_text k (v k)) (k :: k2))
      = param_text k (v k) +:+ String sep (join (String sep "") (map (fun k => param_text k (v k)) k2)))
      by done.
    rewrite Hj, sapp_assoc.
    destruct (loop_param k (v k)
      (String sep (join (String sep "") (map (fun k => param_text k (v k)) k2) +:+ tail)) n key ps Hk)
      as (st & Hl & Hst & Hq); [by left|].
    cbn [String.append]. rewrite Hl. rewrite (loop_cons _ _ _ _ _ (step_sep st _ _ Hq Hst)).
    destruct (IH ltac:(done) ltac:(by destruct Htail as [|[? Hu]]; [left|right; split; [|by inversion Hu]])
      (S (n + String.length (param_text k (v k)))) (pkey st) (Add ps k (v k))) as (st' & Hl' & Hst' & Hq').
    exists st'. rewrite Hl'. split; [|done].
    f_equal. f_equal. rewrite slength_app. cbn. lia.
Qed.
End RoundTrip.

(** ** [ToString] is a join *)

Lemma ToString_join ps sep :
  params_ok ps ->
  ToString ps sep = join (String sep "") (map (fun k => param_text k (val_of ps k)) (paramOrder ps)).
Proof.
  intros Hok. unfold ToString, Keys.
  assert (H : forall k, k ∈ paramOrder ps -> Get ps k = Some (val_of ps k))
    by (intros; by apply val_of_lookup).
  destruct (paramOrder ps) as [|k ks]; [done|].
  cbn [foldl]. rewrite (H k) by left.
  assert (Hacc : forall acc ks, (forall k, k ∈ ks -> Get ps k = Some (val_of ps k)) ->
    snd (foldl (fun '(first, buffer) key =>
                match Get ps key with
                | None => (first, buffer)
                | Some val =>
                    (false, buffer +:+ (if (first : bool) then "" else String sep "")
                              +:+ param_text key val)
                end) (false, acc) ks)
    = acc +:+ (match ks with [] => "" | _ => String sep "" end)
      +:+ join (String sep "") (map (fun k => param_text k (val_of ps k)) ks)).
  { clear. intros acc ks. revert acc. induction ks as [|k ks IH]; intros acc H; cbn [foldl].
    - cbn. by rewrite sapp_nil_r.
    - rewrite (H k) by left. rewrite IH by (intros; apply H; by right).
      rewrite !sapp_assoc. destruct ks; cbn [map join]; cbn; [by rewrite sapp_nil_r|done]. }
  cbn [String.append]. rewrite Hacc by (intros; apply H; by right).
  destruct ks; cbn; [by rewrite sapp_nil_r|done].
Qed.

Definition all_params (P : string -> MaybeString -> bool) (ps : headerParams) : bool :=
  forallb (fun k => P k (val_of ps k)) (paramOrder ps).

Lemma all_params_Forall P ps :
  all_params P ps = true -> Forall (fun k => P k (val_of ps k) = true) (paramOrder ps).
Proof.
  unfold all_params. rewrite forallb_forall, Forall_forall.
  intros H k Hk. apply H. by apply list_elem_of_In.
Qed.

(** Reading back a rendered list, whatever follows its end delimiter. *)
Lemma ParseParams_ToString_tail ps start sep end_ permit tail :
  delims_ok sep end_ = true -> Ascii.eqb start NUL = false ->
  params_ok ps -> paramOrder ps <> [] -> all_params (param_safe sep end_ permit) ps = true ->
  (tail = "" \/ (exists r, tail = String end_ r) /\ all_params (fun _ v => unquoted v) ps = true) ->
  ParseParams (String start (ToString ps sep +:+ tail)) start sep end_ true permit
  = (ps, S (String.length (ToString ps sep)), None).
Proof.
  intros Hd Hnul Hok Hne Hsafe Htail. unfold ParseParams. rewrite Hnul, Ascii.eqb_refl.
  rewrite ToString_join by done.
  destruct (loop_params sep end_ permit Hd (val_of ps) (paramOrder ps) tail 1 "" NewParams Hne)
    as (st & Hl & Hst & Hq).
  - by apply all_params_Forall in Hsafe.
  - destruct Htail as [|[? Hu]]; [by left|right]. split; [done|].
    by apply (all_params_Forall (fun _ v => unquoted v)) in Hu.
  - unfold pstate0. rewrite Hl. unfold ParseParams_finish. rewrite Hq, Hst.
    rewrite (foldl_Add_rebuild ps) by eauto using val_of_lookup. done.
Qed.

(** An empty order list means an empty list. *)
Lemma params_empty ps : params_ok ps -> paramOrder ps = [] -> ps = NewParams.
Proof.
  destruct ps as [m o]. intros [_ Hdom] E. cbn in *. subst o. unfold NewParams. f_equal.
  apply map_eq. intros k. rewrite lookup_empty. apply eq_None_not_Some. rewrite <- Hdom. set_solver.
Qed.

Lemma Length_zero ps : params_ok ps -> (Length ps =? 0)%nat = bool_decide (paramOrder ps = []).
Proof.
  intros Hok. unfold Length. destruct (Nat.eqb_spec (size (params ps)) 0) as [E|E].
  - apply map_size_empty_iff in E. symmetry. apply bool_decide_eq_true.
    destruct (paramOrder ps) as [|k o] eqn:Eo; [done|]. exfalso.
    destruct Hok as [_ Hdom]. assert (Hk : k ∈ paramOrder ps) by (rewrite Eo; left).
    apply Hdom in Hk. rewrite E, lookup_empty in Hk. by destruct Hk.
  - symmetry. apply bool_decide_eq_false. intros Eo. apply E.
    rewrite (params_empty ps) by done. apply map_size_empty.
Qed.

(** ** Concrete parameters for the witnesses *)

Definition sample_params : headerParams :=
  Add (Add (Add NewParams "transport" (Some "udp")) "lr" None) "note" (Some "a b").

Definition sample_params_text : string :=
  "transport=udp;lr;note=" +:+ DQ +:+ "a b" +:+ DQ.

Example ToString_sample : ToString sample_params ";" = sample_params_text.
Proof. vm_compute. reflexivity. Qed.

Example ParseParams_sample :
  ParseParams (String ";" sample_params_text) ";" ";" "?" true true
  = (sample_params, 28, None).
Proof. vm_compute. reflexivity. Qed.

Lemma sample_params_ok : params_ok sample_params.
Proof. unfold sample_params. repeat apply Add_ok. apply NewParams_ok. Qed.

(** ** Properties *)

(** a parameter list printed by [ToString] and read back by [ParseParams] is the
    same list, in the same order, and the whole text is consumed; keys and
    unquoted values avoid the delimiters, a value with white space is quoted by
    the printer and may hold any separator; where singletons are not permitted
    every key has a value. *)
Theorem ParseParams_ToString (ps : headerParams) (start sep end_ : ascii) (permit : bool) :
  delims_ok sep end_ = true -> Ascii.eqb start NUL = false ->
  params_ok ps -> paramOrder ps <> [] -> all_params (param_safe sep end_ permit) ps = true ->
  ParseParams (String start (ToString ps sep)) start sep end_ true permit
  = (ps, S (String.length (ToString ps sep)), None).
Proof.
  intros. rewrite <- (sapp_nil_r (ToString ps sep)) at 1. apply ParseParams_ToString_tail; auto.
Qed.

Lemma ParseParams_ToString_witness :
  ParseParams (String ";" (ToString sample_params ";")) ";" ";" "?" true true
  = (sample_params, S (String.length (ToString sample_params ";")), None).
Proof.
  apply (ParseParams_ToString sample_params ";" ";" "?" true);
    [reflexivity|reflexivity|apply sample_params_ok|discriminate|vm_compute; reflexivity].
Defined.

(** whatever the text, [ParseParams] returns a well-formed parameter list (no
    key twice, exactly the keys of the map in the order list), also when it
    reports an error, and never claims to have consumed more than the text. *)
Theorem ParseParams_wf (src : string) (start sep end_ : ascii) (quoteValues permitSingletons : bool) :
  let '(ps, consumed, _) := ParseParams src start sep end_ quoteValues permitSingletons in
  params_ok ps /\ (consumed <= String.length src)%nat.
Proof.
  destruct (ParseParams src start sep end_ quoteValues permitSingletons) as [[ps n] e] eqn:E.
  by apply ParseParams_bounds in E.
Qed.

(** [Equals] decides equality of the maps, so it does not depend on the order
    in which the parameters were added. *)
Theorem Params_Equals_iff (ps qs : headerParams) :
  Params_Equals no_pointers no_pointers ps qs = true <-> forall key, Get ps key = Get qs key.
Proof.
  rewrite Params_Equals_spec. unfold Get. split; [by intros ->|apply map_eq].
Qed.

(** Tags drawn by the program are pointers: the same text at two addresses is not equal. *)
Example same_tag_differs :
  let ps := Add NewParams "tag" (Some "a") in
  let at_address n : pointers := fun _ => Some n in
  Params_Equals (at_address 0) (at_address 1) ps ps = false
  /\ Params_Equals (at_address 0) no_pointers ps ps = false.
Proof. vm_compute. split; reflexivity. Qed.

(** A quoted value can neither hold '=' nor stand before the end delimiter. *)
Example quoted_equals_rejected :
  snd (ParseParams (";a=" +:+ DQ +:+ "b=c" +:+ DQ) ";" ";" "?" true true)
  = Some "unexpected '=' char in value token".
Proof. vm_compute. reflexivity. Qed.

Example quoted_before_end_rejected :
  snd (ParseParams (";a=" +:+ DQ +:+ "b" +:+ DQ +:+ "?h=1") ";" ";" "?" true true)
  = Some "unexpected character %c after quoted param in".
Proof. vm_compute. reflexivity. Qed.
