(* ===== verification/Base.v ===== *)
(** * Base types: sip/base.go, sip/status.go and utils/helpers.go

    Methods, ports, addresses, status codes, and the values of [MaybeString].  A [*Port] is
    an [option N] whose value is below 2^16; a method is its string. *)

From S2P Require Import Prelude GoStrings.
From Stdlib Require Import NArith ZArith Lia.

#[local] Open Scope string_scope.
#[local] Open Scope list_scope.

(** ** Constants *)

Definition SipVersion : string := "SIP/2.0".

Definition RequestMethod : Type := string.
Definition INVITE : RequestMethod := "INVITE".
Definition ACK : RequestMethod := "ACK".
Definition CANCEL : RequestMethod := "CANCEL".
Definition MESSAGE : RequestMethod := "MESSAGE".
Definition BYE : RequestMethod := "BYE".
Definition REGISTER : RequestMethod := "REGISTER".
Definition OPTIONS : RequestMethod := "OPTIONS".
Definition SUBSCRIBE : RequestMethod := "SUBSCRIBE".
Definition NOTIFY : RequestMethod := "NOTIFY".
Definition REFER : RequestMethod := "REFER".
Definition INFO : RequestMethod := "INFO".

Definition DefaultProtocol : string := "UDP".
Definition DefaultHost : string := "0.0.0.0".

Definition Port : Type := N.
Definition DefaultUdpPort : Port := 5060%N.
Definition DefaultTcpPort : Port := 5060%N.
Definition DefaultTlsPort : Port := 5061%N.

Definition RFC3261BranchMagicCookie : string := "z9hG4bK".

(** What a [MaybeString] that is not nil holds: a [String], or a pointer to the one at an
    address. *)
Inductive boxed : Type :=
  | Str (s : string)
  | StrPtr (address : nat) (s : string).

#[export] Instance boxed_eq_dec : EqDecision boxed.
Proof. solve_decision. Defined.

Definition String_String (v : boxed) : string := match v with Str s | StrPtr _ s => s end.

(** [Equals], which a pointer has too; the type assertion takes a [String] only. *)
Definition String_Equals (str : boxed) (other : option boxed) : bool :=
  match other with Some (Str v) => String.eqb (String_String str) v | _ => false end.

(** The type assertion [v.(String)], which fails for nil and for a pointer. *)
Definition as_String (v : option boxed) : option string :=
  match v with Some (Str s) => Some s | _ => None end.

(** [a == b] of two interface values: pointers are compared by address. *)
Definition boxed_eqb (a b : option boxed) : bool :=
  match a, b with
  | None, None => true
  | Some (Str s), Some (Str t) => String.eqb s t
  | Some (StrPtr i _), Some (StrPtr j _) => (i =? j)%nat
  | _, _ => false
  end.

(** [Equals] of a method pointer: [strings.EqualFold] of two non-nil methods. *)
Definition RequestMethod_Equals (m other : option RequestMethod) : bool :=
  match m, other with
  | Some a, Some b => String.eqb (ToLower a) (ToLower b)
  | None, None => true
  | _, _ => false
  end.

Definition Port_Copy (p : option Port) : option Port :=
  match p with None => None | Some n => Some n end.

(** [utils.Uint16PtrEq] *)
Definition Uint16PtrEq (a b : option N) : bool :=
  match a, b with
  | Some x, Some y => N.eqb x y
  | None, None => true
  | _, _ => false
  end.

(** [utils.StrPtrEq], up to the identity of two non-nil pointers. *)
Definition StrPtrEq (a b : option string) : bool :=
  match a, b with
  | Some x, Some y => String.eqb x y
  | None, None => true
  | _, _ => false
  end.

(** ** Addresses *)

Record Addr := mkAddr { Host : string; APort : option Port }.

#[export] Instance Addr_eq_dec : EqDecision Addr.
Proof. solve_decision. Defined.

Definition Addr_String (trg : Addr) : string :=
  match APort trg with
  | Some p => Host trg +:+ ":" +:+ itoa p
  | None => Host trg
  end.

Definition Addr_Addr (trg : Addr) : string :=
  let host := if String.eqb (TrimSpace (Host trg)) "" then DefaultHost else Host trg in
  let port := match APort trg with Some p => p | None => 0%N end in
  host +:+ ":" +:+ itoa port.

Definition NewAddr (host : string) (port : Z) : Addr := mkAddr host (Some (to_uint16 port)).

Definition NewTargetFromAddr (addr : string) : res Addr :=
  '(host, port) ← SplitHostPort addr;
  sipPort ← Atoi port;
  mret (NewAddr host sipPort).

Definition DefaultPort (protocol : string) : Port :=
  let p := ToLower protocol in
  if String.eqb p "tls" then DefaultTlsPort
  else if String.eqb p "tcp" then DefaultTcpPort
  else if String.eqb p "udp" then DefaultUdpPort
  else DefaultTcpPort.

Definition FillTargetHostAndPort (network : string) (target : Addr) : Addr :=
  let host := if String.eqb (TrimSpace (Host target)) "" then DefaultHost else Host target in
  let port := match APort target with
              | None => Some (DefaultPort network)
              | Some p => Some p
              end in
  mkAddr host port.

(** [GenerateBranch], where [rnd] is the random string drawn. *)
Definition GenerateBranch (rnd : string) : string := join "" [RFC3261BranchMagicCookie; rnd].

(** ** Status codes *)

Definition StatusCode : Type := N.

(** The named codes. *)
Definition status_codes : list (string * StatusCode) :=
  [ ("StatusTrying", 100); ("StatusRinging", 180); ("StatusCallIsBeingForwarded", 181); ("StatusQueued", 182);
    ("StatusSessionProgress", 183); ("StatusOK", 200); ("StatusMultipleChoices", 300); ("StatusMovedPermanently",
    301); ("StatusMovedTemporarily", 302); ("StatusUseProxy", 305); ("StatusAlternativeService", 380);
    ("StatusBadRequest", 400); ("StatusUnauthorized", 401); ("StatusPaymentRequired", 402); ("StatusForbidden",
    403); ("StatusNotFound", 404); ("StatusMethodNotAllowed", 405); ("StatusNotAcceptable", 406);
    ("StatusProxyAuthenticationRequired", 407); ("StatusRequestTimeout", 408); ("StatusGone", 410);
    ("StatusRequestEntityTooLarge", 413); ("StatusRequestURITooLong", 414); ("StatusUnsupportedMediaType", 415);
    ("StatusUnsupportedURIScheme", 416); ("StatusBadExtension", 420); ("StatusExtensionRequired", 421);
    ("StatusIntervalTooBrief", 423); ("StatusNoResponse", 480); ("StatusCallTransactionDoesNotExist", 481);
    ("StatusLoopDetected", 482); ("StatusTooManyHops", 483); ("StatusAddressIncomplete", 484);
    ("StatusAmbiguously", 485); ("StatusBusyHere", 486); ("StatusRequestTerminated", 487);
    ("StatusNotAcceptableHere", 488); ("StatusRequestPending", 491); ("StatusUndecipherable", 493);
    ("StatusServerInternalError", 500); ("StatusNotImplemented", 501); ("StatusBadGateway", 502);
    ("StatusServiceUnavailable", 503); ("StatusServerTimeout", 504); ("StatusVersionNotSupported", 505);
    ("StatusMessageTooLarge", 513); ("StatusBusyEverywhere", 600); ("StatusDecline", 603);
    ("StatusDoesNotExistAnywhere", 604); ("StatusUnacceptable", 606) ]%N.

Definition statusTexts : list (StatusCode * string) :=
  [ (100, "Trying"); (180, "Ringing"); (181, "Call Is Being Forwarded"); (182, "Queued");
    (183, "Session Progress"); (200, "OK"); (300, "Multiple Choices"); (301, "Moved Permanently");
    (302, "Moved Temporarily"); (305, "Use Proxy"); (380, "Alternative Service");
    (400, "Bad Request"); (401, "Unauthorized"); (402, "Payment Required"); (403, "Forbidden");
    (404, "Not Found"); (405, "Method Not Allowed"); (406, "Not Acceptable");
    (407, "Proxy Authentication Required"); (408, "Request Timeout"); (410, "Gone");
    (413, "Request Entity Too Large"); (414, "Request-URI Too Long");
    (415, "Unsupported Media Type"); (416, "Unsupported URI Scheme"); (420, "Bad Extension");
    (421, "Extension Required"); (423, "Interval Too Brief"); (480, "No Response");
    (481, "Call/Transaction Does Not Exist"); (482, "Loop Detected"); (483, "Too Many Hops");
    (484, "Address Incomplete"); (485, "Ambiguous"); (486, "Busy Here");
    (487, "Request Terminated"); (488, "Not Acceptable Here"); (491, "Request Pending");
    (493, "Undecipherable"); (500, "Server Internal Error"); (501, "Not Implemented");
    (502, "Bad Gateway"); (503, "Service Unavailable"); (504, "Server Timeout");
    (505, "Version Not Supported"); (513, "Message Too Large"); (600, "Busy Everywhere");
    (603, "Decline"); (604, "Does Not Exist Anywhere"); (606, "Not Acceptable") ]%N.

(** [StatusText]: the map lookup, the empty string for an unknown code. *)
Definition StatusText (code : StatusCode) : string :=
  match find (fun '(c, _) => N.eqb c code) statusTexts with
  | Some (_, t) => t
  | None => ""
  end.

(** ** Properties *)

Lemma Port_Copy_id p : Port_Copy p = p.
Proof. by destruct p. Qed.

Lemma Uint16PtrEq_true a b : Uint16PtrEq a b = true <-> a = b.
Proof.
  destruct a, b; cbn; try (split; congruence). rewrite N.eqb_eq. split; congruence.
Qed.

Lemma NewTargetFromAddr_no_panic addr : is_panic (NewTargetFromAddr addr) = false.
Proof.
  unfold NewTargetFromAddr. apply bind_no_panic; [apply SplitHostPort_no_panic|].
  intros [h p] _. apply bind_no_panic; [|done]. unfold Atoi. by split_matches.
Qed.

(** The port of a target is the decimal number modulo 2^16. *)
Lemma NewTargetFromAddr_port addr host port n :
  SplitHostPort addr = Ok (host, port) -> Atoi port = Ok n ->
  NewTargetFromAddr addr = Ok (mkAddr host (Some (to_uint16 n))).
Proof. intros Hs Ha. unfold NewTargetFromAddr. rewrite Hs. cbn. by rewrite Ha. Qed.

(** Every code of the table has a non-empty text. *)
Lemma StatusText_known : forallb (fun '(c, t) => String.eqb (StatusText c) t) statusTexts = true.
Proof. vm_compute. reflexivity. Qed.

(** The named codes are the codes that have a text, each named once. *)
Lemma status_codes_known : map snd status_codes = map fst statusTexts /\ NoDup (map fst status_codes) /\ NoDup (map snd status_codes).
Proof. split; [reflexivity|]. split; apply (bool_decide_unpack _); vm_compute; exact I. Qed.

(** An out-of-range port is not refused: it wraps. *)
Example NewTargetFromAddr_wraps : NewTargetFromAddr "h:70000" = Ok (mkAddr "h" (Some 4464%N)).
Proof. vm_compute. reflexivity. Qed.

Example NewTargetFromAddr_negative : NewTargetFromAddr "h:-1" = Ok (mkAddr "h" (Some 65535%N)).
Proof. vm_compute. reflexivity. Qed.

#[export] Hint Resolve NewTargetFromAddr_no_panic : gsip.

(** ** Printing an address and reading it back *)

(** A host name: not blank, without the delimiters of an address. *)
Definition host_name (h : string) : bool :=
  negb (String.eqb (TrimSpace h) "")
  && sforall (fun c => negb (Ascii.eqb ":" c) && negb (Ascii.eqb "[" c) && negb (Ascii.eqb "]" c)) h.

Lemma itoa_no_byte c n : is_digit c = false -> sforall (fun a => negb (Ascii.eqb c a)) (itoa n) = true.
Proof.
  intros Hc. apply (sforall_weaken is_digit); [|apply itoa_digits].
  intros a Ha. apply negb_true_iff, Ascii.eqb_neq. intros <-. congruence.
Qed.

Lemma Atoi_itoa n : (Z.of_N n < 2 ^ 63)%Z -> Atoi (itoa n) = Ok (Z.of_N n).
Proof.
  intros Hn. unfold Atoi. pose proof (itoa_digits n) as Hd. pose proof (itoa_nonempty n) as Hne.
  pose proof (parse_digits_itoa n) as Hp.
  destruct (itoa n) as [|c s] eqn:E; [done|].
  assert (Hnosign : match String c s with
    | String "-" s' => (true, s') | String "+" s' => (false, s') | _ => (false, String c s) end
    = (false, String c s)).
  { cbn in Hd. apply andb_prop in Hd as [Hd _].
    destruct c as [[] [] [] [] [] [] [] []]; try done; vm_compute in Hd; discriminate. }
  rewrite Hnosign, (proj2 (String.eqb_neq _ _) Hne), Hp.
  rewrite (proj2 (Z.leb_le _ _)), (proj2 (Z.ltb_lt _ _)) by lia. done.
Qed.

Lemma SplitHostPort_join h n :
  sforall (fun c => negb (Ascii.eqb ":" c) && negb (Ascii.eqb "[" c) && negb (Ascii.eqb "]" c)) h = true ->
  SplitHostPort (h +:+ ":" +:+ itoa n) = Ok (h, itoa n).
Proof.
  intros H.
  assert (Hc : sforall (fun c => negb (Ascii.eqb ":" c)) h = true)
    by (eapply sforall_weaken, H; by intros a [[? _]%andb_prop _]%andb_prop).
  assert (Ho : sforall (fun c => negb (Ascii.eqb "[" c)) h = true)
    by (eapply sforall_weaken, H; by intros a [[_ ?]%andb_prop _]%andb_prop).
  assert (He : sforall (fun c => negb (Ascii.eqb "]" c)) h = true)
    by (eapply sforall_weaken, H; by intros a [_ ?]%andb_prop).
  unfold SplitHostPort.
  change (h +:+ ":" +:+ itoa n) with (h +:+ String ":" (itoa n)).
  rewrite last_index_app by (by apply itoa_no_byte).
  assert (Hnb : forall b, is_digit b = false -> Ascii.eqb b ":" = false ->
    sforall (fun c => negb (Ascii.eqb b c)) h = true ->
    contains_byte b (h +:+ String ":" (itoa n)) = false).
  { intros b Hb Hb' Hh. apply contains_by_false. rewrite sforall_app, Hh. cbn.
    by rewrite Hb', itoa_no_byte. }
  assert (Hfin : (if contains_byte ":" (str_take (String.length h) (h +:+ String ":" (itoa n)))
     then Err "too many colons in address"
     else if contains_byte "[" (str_drop 0 (h +:+ String ":" (itoa n)))
          then Err "unexpected '[' in address"
          else if contains_byte "]" (str_drop 0 (h +:+ String ":" (itoa n)))
               then Err "unexpected ']' in address"
               else Ok (str_take (String.length h) (h +:+ String ":" (itoa n)),
                        str_drop (S (String.length h)) (h +:+ String ":" (itoa n))))
     = Ok (h, itoa n)).
  { rewrite !str_take_app, str_drop_S_app.
    change (str_drop 0 (h +:+ String ":" (itoa n))) with (h +:+ String ":" (itoa n)).
    rewrite !Hnb by done. unfold contains_byte. by rewrite contains_by_false by done. }
  destruct h as [|c h]; [exact Hfin|]. cbn [String.append].
  destruct (Ascii.eqb_spec c "[") as [->|Hne]; [cbn in Ho; discriminate|].
  destruct c as [[] [] [] [] [] [] [] []]; try exact Hfin; done.
Qed.

(** the text [Addr] gives for a target (host name and port) is read back by
    [NewTargetFromAddr] as that target: the address a message carries as its
    destination denotes the host and the port it was made from. *)
Theorem NewTargetFromAddr_Addr (h : string) (p : Port) :
  host_name h = true -> (p < 2 ^ 16)%N ->
  NewTargetFromAddr (Addr_Addr (mkAddr h (Some p))) = Ok (mkAddr h (Some p)).
Proof.
  unfold host_name. intros [Hb%negb_true_iff Hh]%andb_prop Hp. unfold Addr_Addr. cbn [Host APort].
  rewrite Hb. rewrite (NewTargetFromAddr_port _ h (itoa p) (Z.of_N p)).
  - by rewrite to_uint16_small.
  - by apply SplitHostPort_join.
  - apply Atoi_itoa. change (2 ^ 16)%N with 65536%N in Hp. lia.
Qed.

Lemma NewTargetFromAddr_Addr_witness :
  NewTargetFromAddr (Addr_Addr (mkAddr "example.com" (Some 5060%N)))
  = Ok (mkAddr "example.com" (Some 5060%N)).
Proof. apply (NewTargetFromAddr_Addr "example.com" 5060%N); vm_compute; reflexivity. Defined.
