(* ===== verification/Uri.v ===== *)
(** * URIs: [SipUri] and [WildcardUri] (sip/headers.go), [ParseUri], [ParseSipUri]
    and [ParseHostPort] (sip/parser.go)

    A [Params] field may hold the nil interface, hence the [option].  User and password
    are nil, a [String] or a pointer to one.  A [Uri] is always a pointer to one of the
    two structs. *)

From S2P Require Import Prelude GoStrings Params Base.
From Stdlib Require Import NArith Lia.

#[local] Open Scope string_scope.
#[local] Open Scope list_scope.

Record SipUri := mkSipUri {
  FIsEncrypted : bool;
  FUser : option boxed;
  FPassword : option boxed;
  FDomain : Addr;
  FUriParams : option headerParams;
  FHeaders : option headerParams
}.

Inductive Uri : Type :=
  | USip (u : SipUri)
  | UWildcard.

#[export] Instance SipUri_eq_dec : EqDecision SipUri.
Proof. solve_decision. Defined.
#[export] Instance Uri_eq_dec : EqDecision Uri.
Proof. solve_decision. Defined.

(** ** The [Uri] interface *)

Definition IsEncrypted (u : Uri) : bool :=
  match u with USip s => FIsEncrypted s | UWildcard => false end.
Definition User (u : Uri) : option boxed :=
  match u with USip s => FUser s | UWildcard => None end.
Definition Password (u : Uri) : option boxed :=
  match u with USip s => FPassword s | UWildcard => None end.
Definition Domain (u : Uri) : Addr :=
  match u with USip s => FDomain s | UWildcard => mkAddr "" None end.
Definition IsWildcard (u : Uri) : bool :=
  match u with USip _ => false | UWildcard => true end.

(** The methods that only a [SipUri] has. *)
Definition SetEncrypted (s : SipUri) (flag : bool) : SipUri :=
  mkSipUri flag (FUser s) (FPassword s) (FDomain s) (FUriParams s) (FHeaders s).
Definition SetUser (s : SipUri) (user : option boxed) : SipUri :=
  mkSipUri (FIsEncrypted s) user (FPassword s) (FDomain s) (FUriParams s) (FHeaders s).
Definition SetUriPassword (s : SipUri) (pass : option boxed) : SipUri :=
  mkSipUri (FIsEncrypted s) (FUser s) pass (FDomain s) (FUriParams s) (FHeaders s).
Definition UriParams (s : SipUri) : option headerParams := FUriParams s.
Definition UriHeaders (s : SipUri) : option headerParams := FHeaders s.

Definition SetDomain (u : Uri) (d : Addr) : Uri :=
  match u with
  | USip s => USip (mkSipUri (FIsEncrypted s) (FUser s) (FPassword s) d (FUriParams s) (FHeaders s))
  | UWildcard => UWildcard
  end.
Definition SetUriParams (u : Uri) (p : option headerParams) : Uri :=
  match u with
  | USip s => USip (mkSipUri (FIsEncrypted s) (FUser s) (FPassword s) (FDomain s) p (FHeaders s))
  | UWildcard => UWildcard
  end.
Definition SetHeaders (u : Uri) (p : option headerParams) : Uri :=
  match u with
  | USip s => USip (mkSipUri (FIsEncrypted s) (FUser s) (FPassword s) (FDomain s) (FUriParams s) p)
  | UWildcard => UWildcard
  end.

Definition CopyWithNil (ps : option headerParams) : headerParams :=
  match ps with None => NewParams | Some p => Params_Copy p end.

Definition SipUri_Copy (u : SipUri) : SipUri :=
  mkSipUri (FIsEncrypted u) (FUser u) (FPassword u)
    (mkAddr (Host (FDomain u)) (match APort (FDomain u) with Some p => Port_Copy (Some p) | None => None end))
    (Some (CopyWithNil (FUriParams u))) (Some (CopyWithNil (FHeaders u))).

Definition Uri_Copy (u : Uri) : Uri :=
  match u with USip s => USip (SipUri_Copy s) | UWildcard => UWildcard end.

(** A method call on a [Params] interface that may be nil; of lists into which the program
    stores no pointers. *)
Definition MaybeParams_Equals (ps qs : option headerParams) : res bool :=
  p ← deref ps;
  mret (match qs with None => false | Some q => Params_Equals no_pointers no_pointers p q end).

Definition SipUri_Equals (u : SipUri) (val : Uri) : res bool :=
  match val with
  | UWildcard => Ok false
  | USip other =>
      let result := Bool.eqb (FIsEncrypted u) (FIsEncrypted other)
        && boxed_eqb (FUser u) (FUser other)
        && boxed_eqb (FPassword u) (FPassword other)
        && String.eqb (Host (FDomain u)) (Host (FDomain other))
        && Uint16PtrEq (APort (FDomain u)) (APort (FDomain other)) in
      if negb result then Ok false
      else
        b ← MaybeParams_Equals (FUriParams u) (FUriParams other);
        if negb b then Ok false
        else
          b' ← MaybeParams_Equals (FHeaders u) (FHeaders other);
          if negb b' then Ok false else Ok true
  end.

(** [WildcardUri.Equals]: the type switch asks for a [WildcardUri] value, and every
    [Uri] in the program is a pointer. *)
Definition WildcardUri_Equals (other : Uri) : bool := false.

Definition Uri_Equals (u other : Uri) : res bool :=
  match u with USip s => SipUri_Equals s other | UWildcard => Ok (WildcardUri_Equals other) end.

(** The optional parts of the rendering. *)
Definition userinfo_text (u : SipUri) : string :=
  match as_String (FUser u) with
  | Some user =>
      if String.eqb user "" then ""
      else user +:+ (match as_String (FPassword u) with
                     | Some pass => if String.eqb pass "" then "" else ":" +:+ pass
                     | None => ""
                     end) +:+ "@"
  | None => ""
  end.

Definition params_text (intro sep : ascii) (ps : option headerParams) : string :=
  match ps with
  | Some p => if (0 <? Length p)%nat then String intro (ToString p sep) else ""
  | None => ""
  end.

Definition SipUri_String (u : SipUri) : string :=
  (if FIsEncrypted u then "sips:" else "sip:")
  +:+ userinfo_text u
  +:+ Addr_String (FDomain u)
  +:+ params_text ";" ";" (FUriParams u)
  +:+ params_text "?" "&" (FHeaders u).

Definition Uri_String (u : Uri) : string :=
  match u with USip s => SipUri_String s | UWildcard => "*" end.

(** ** Parsing *)

(** On an error the Go function also returns the host and a port; no caller
    reads them. *)
Definition ParseHostPort (rawText : string) : res (string * option Port) :=
  match index_byte ":" rawText with
  | None => Ok (rawText, None)
  | Some colonIdx =>
      let host := str_take colonIdx rawText in
      portRaw ← ParseUint (str_drop (S colonIdx) rawText) 16;
      mret (host, Some portRaw)
  end.

(** The user-info part: user, password and the text after the '@'. *)
Definition split_userinfo (uriStr : string) : option boxed * option boxed * string :=
  match index_byte "@" uriStr with
  | None => (None, None, uriStr)
  | Some endOfUserInfoPart =>
      let endOfUsernamePart :=
        match index_byte ":" uriStr with
        | Some i => if (endOfUserInfoPart <? i)%nat then None else Some i
        | None => None
        end in
      match endOfUsernamePart with
      | None => (Some (Str (str_take endOfUserInfoPart uriStr)), None, str_drop (S endOfUserInfoPart) uriStr)
      | Some i =>
          (Some (Str (str_take i uriStr)),
           Some (Str (str_take (endOfUserInfoPart - S i) (str_drop (S i) uriStr))),
           str_drop (S endOfUserInfoPart) uriStr)
      end
  end.

Definition endOfUriPart (uriStr : string) : nat :=
  match index_byte ";" uriStr with
  | Some i => i
  | None => match index_byte "?" uriStr with
            | Some i => i
            | None => String.length uriStr
            end
  end.

(** The URI parameters and the URI headers that follow the host part. *)
Definition parse_uri_tail (uriStr : string) : res (headerParams * headerParams) :=
  if String.eqb uriStr "" then Ok (NewParams, NewParams)
  else
    c ← first_byte uriStr;
    let '(uriParams, n, err) :=
      if Ascii.eqb c ";" then ParseParams uriStr ";" ";" "?" true true
      else (NewParams, 0, None) in
    match err with
    | Some e => Err e
    | None =>
        uriStr ← slice_from n uriStr;
        let '(headers, n, err) := ParseParams uriStr "?" "&" NUL true false in
        match err with
        | Some e => Err e
        | None =>
            uriStr ← slice_from n uriStr;
            if (0 <? String.length uriStr)%nat
            then Err "internal error: parse of SIP uri ended early! '%s'"
            else mret (uriParams, headers)
        end
    end.

(** The code of [ParseSipUri] after the protocol name and its ':'. *)
Definition ParseSipUri_rest (encrypted : bool) (uriStr : string) : res SipUri :=
  let '(user, pass, uriStr) := split_userinfo uriStr in
  let e := endOfUriPart uriStr in
  '(host, port) ← ParseHostPort (str_take e uriStr);
  '(uriParams, headers) ← parse_uri_tail (str_drop e uriStr);
  mret (mkSipUri encrypted user pass (mkAddr host port) (Some uriParams) (Some headers)).

Definition ParseSipUri (uriStr : string) : res SipUri :=
  p3 ← slice_to 3 uriStr;
  if negb (String.eqb (ToLower p3) "sip") then Err "invalid SIP uri protocol name in '%s'"
  else
    uriStr ← slice_from 3 uriStr;
    c1 ← slice_to 1 uriStr;
    let encrypted := String.eqb (ToLower c1) "s" in
    uriStr ← (if encrypted then slice_from 1 uriStr else Ok uriStr);
    c ← first_byte uriStr;
    if negb (Ascii.eqb c ":") then Err "no ':' after protocol name in SIP uri '%s'"
    else
      uriStr ← slice_from 1 uriStr;
      ParseSipUri_rest encrypted uriStr.

Definition ParseUri (uriStr : string) : res Uri :=
  if String.eqb (TrimSpace uriStr) "*" then Ok UWildcard
  else
    match index_byte ":" uriStr with
    | None => Err "no ':' in URI %s"
    | Some colonIdx =>
        let schema := ToLower (str_take colonIdx uriStr) in
        if String.eqb schema "sip" || String.eqb schema "sips" then
          USip <$> ParseSipUri uriStr
        else Err "unsupported URI schema %s"
    end.

(** ** No panic *)

Lemma ParseHostPort_no_panic s : is_panic (ParseHostPort s) = false.
Proof.
  unfold ParseHostPort. destruct (index_byte ":" s); [|done].
  apply bind_no_panic; [apply ParseUint_no_panic|done].
Qed.

Lemma parse_uri_tail_no_panic s : is_panic (parse_uri_tail s) = false.
Proof.
  unfold parse_uri_tail. destruct s as [|c s]; [done|].
  change (String.eqb (String c s) "") with false. cbn [first_byte mbind res_bind].
  destruct (if Ascii.eqb c ";" then ParseParams (String c s) ";" ";" "?" true true else (NewParams, 0, None))
    as [[ps n] [e|]] eqn:E; [done|].
  assert (Hn : (n <= String.length (String c s))%nat).
  { destruct (Ascii.eqb c ";"); [by apply ParseParams_bounds in E as [_ ?]|]. injection E as <- <-. lia. }
  rewrite slice_from_no_panic by done. cbn [mbind res_bind].
  destruct (ParseParams (str_drop n (String c s)) "?" "&" NUL true false) as [[hs m] [e|]] eqn:E2; [done|].
  apply ParseParams_bounds in E2 as [_ Hm]. rewrite slice_from_no_panic by done.
  cbn [mbind res_bind]. by destruct (0 <? _)%nat.
Qed.

Lemma ParseSipUri_rest_no_panic enc r : is_panic (ParseSipUri_rest enc r) = false.
Proof.
  unfold ParseSipUri_rest. destruct (split_userinfo r) as [[user pass] u].
  apply bind_no_panic; [apply ParseHostPort_no_panic|intros [h p] _].
  apply bind_no_panic; [apply parse_uri_tail_no_panic|by intros [? ?] _].
Qed.

(** What [ParseSipUri] does with the two schemas. *)
Lemma ParseSipUri_schema t r :
  ToLower t = "sip" \/ ToLower t = "sips" ->
  ParseSipUri (t +:+ String ":" r) = ParseSipUri_rest (String.eqb (ToLower t) "sips") r.
Proof.
  intros Ht. unfold ParseSipUri.
  assert (Hlen : String.length t = 3 \/ String.length t = 4).
  { unfold ToLower in Ht. rewrite <- !(slength_smap lower_byte t).
    destruct Ht as [-> | ->]; cbn; auto. }
  destruct t as [|a [|b [|c t]]]; cbn in Hlen; try lia. cbn [String.append].
  change (slice_to 3 _) with (Ok (String a (String b (String c "")))).
  change (slice_from 3 (String a (String b (String c ?s)))) with (Ok s).
  cbn [mbind res_bind].
  assert (Hp : ToLower (String a (String b (String c ""))) = "sip").
  { unfold ToLower in *. cbn in *. destruct Ht as [Ht|Ht]; injection Ht; congruence. }
  rewrite Hp. cbn [negb].
  destruct t as [|d [|? ?]]; cbn in Hlen; try lia; cbn [String.append].
  - destruct Ht as [Ht|Ht]; [|unfold ToLower in Ht; cbn in Ht; congruence].
    rewrite Ht. change (slice_to 1 (String ":" r)) with (Ok ":"). cbn [mbind res_bind].
    change (slice_from 1 (String ":" r)) with (Ok r). reflexivity.
  - destruct Ht as [Ht|Ht]; [unfold ToLower in Ht; cbn in Ht; congruence|].
    assert (Hd : ToLower (String d "") = "s").
    { unfold ToLower in *. cbn in *. injection Ht. intros -> _ _ _. done. }
    rewrite Ht. change (slice_to 1 (String d _)) with (Ok (String d "")). cbn [mbind res_bind].
    rewrite Hd. change (slice_from 1 (String d (String ":" r))) with (Ok (String ":" r)).
    change (slice_from 1 (String ":" r)) with (Ok r). reflexivity.
Qed.

(** [ParseUri] only calls [ParseSipUri] on texts long enough for its slices. *)
Lemma ParseUri_total s : is_panic (ParseUri s) = false.
Proof.
  unfold ParseUri. destruct (String.eqb (TrimSpace s) "*"); [done|].
  destruct (index_byte ":" s) as [i|] eqn:Ei; [|done].
  destruct (_ || _) eqn:Hs; [|done].
  apply index_by_some in Ei as (t & a & r & -> & <- & Ha & _).
  apply Ascii.eqb_eq in Ha as <-. rewrite str_take_app in Hs.
  rewrite ParseSipUri_schema.
  - pose proof (ParseSipUri_rest_no_panic (String.eqb (ToLower t) "sips") r) as H.
    revert H. by destruct (ParseSipUri_rest _ r).
  - by apply orb_prop in Hs as [?%String.eqb_eq|?%String.eqb_eq]; [left|right].
Qed.

(** ** Round trip *)

Definition none_of (cs : list ascii) (c : ascii) : bool := forallb (fun d => negb (Ascii.eqb d c)) cs.

Definition user_chars : string -> bool := sforall (none_of [":"; "@"]%char).
Definition password_chars : string -> bool := sforall (none_of ["@"]%char).
Definition host_chars : string -> bool := sforall (none_of [":"; ";"; "?"; "@"]%char).

(** The URIs that [String] renders faithfully: user and password are no pointers (which
    are not rendered), a password needs a user, the parts
    avoid the delimiters that end them, neither URI parameters nor headers hold an
    '@', headers hold no ';' and have values; a quoted value may not stand
    before the headers. *)
Definition userinfo_wf (u : SipUri) : bool :=
  match FUser u, FPassword u with
  | None, None => true
  | Some (Str user), None => negb (String.eqb user "") && user_chars user
  | Some (Str user), Some (Str pass) =>
      negb (String.eqb user "") && user_chars user
      && negb (String.eqb pass "") && password_chars pass
  | _, _ => false
  end.

Definition port_wf (p : option Port) : bool :=
  match p with None => true | Some n => (n <? 2 ^ 16)%N end.

Definition uri_wf (u : SipUri) : Prop :=
  userinfo_wf u = true /\ host_chars (Host (FDomain u)) = true /\ port_wf (APort (FDomain u)) = true
  /\ exists ps hs, FUriParams u = Some ps /\ FHeaders u = Some hs
     /\ params_ok ps /\ params_ok hs
     /\ all_params (param_safe ";" "?" true) ps = true
     /\ all_params (param_safe "&" NUL false) hs = true
     /\ sforall (none_of ["@"]%char) (ToString ps ";") = true
     /\ sforall (none_of ["@"; ";"]%char) (ToString hs "&") = true
     /\ (paramOrder hs = [] \/ all_params (fun _ v => unquoted v) ps = true).

Lemma none_of_byte cs c s :
  sforall (none_of cs) s = true -> existsb (fun d => Ascii.eqb d c) cs = true ->
  sforall (fun a => negb (Ascii.eqb c a)) s = true.
Proof.
  intros H Hc. revert H. apply sforall_weaken. intros a. unfold none_of. rewrite forallb_forall.
  apply existsb_exists in Hc as (d & Hd & ->%Ascii.eqb_eq). intros H. by apply H.
Qed.

Lemma index_byte_app c s1 s2 :
  sforall (fun a => negb (Ascii.eqb c a)) s1 = true ->
  index_byte c (s1 +:+ String c s2) = Some (String.length s1).
Proof.
  intros H. unfold index_byte. rewrite index_by_app by done. cbn. rewrite Ascii.eqb_refl. cbn.
  by rewrite Nat.add_0_r.
Qed.

Lemma index_byte_none c s : sforall (fun a => negb (Ascii.eqb c a)) s = true -> index_byte c s = None.
Proof. apply index_by_none. Qed.

Lemma split_userinfo_text u rest :
  userinfo_wf u = true -> sforall (fun a => negb (Ascii.eqb "@" a)) rest = true ->
  split_userinfo (userinfo_text u +:+ rest) = (FUser u, FPassword u, rest).
Proof.
  unfold userinfo_wf, userinfo_text, split_userinfo, user_chars, password_chars.
  intros Hw Hr. destruct (FUser u) as [[user|]|], (FPassword u) as [[pass|]|]; try done; cbn [as_String].
  - apply andb_prop in Hw as [[[Hne Hu]%andb_prop Hpne]%andb_prop Hp].
    apply negb_true_iff in Hne, Hpne. rewrite Hne, Hpne.
    assert (Hat : sforall (fun a => negb (Ascii.eqb "@" a)) (user +:+ String ":" pass) = true).
    { rewrite sforall_app. cbn. rewrite !(none_of_byte _ "@" _ Hu eq_refl) by done.
      by rewrite (none_of_byte _ "@" _ Hp eq_refl). }
    assert (E : (user +:+ (":" +:+ pass) +:+ "@") +:+ rest = (user +:+ String ":" pass) +:+ String "@" rest)
      by (by rewrite !sapp_assoc).
    rewrite E, index_byte_app by done. clear E. rewrite str_drop_S_app.
    rewrite sapp_assoc. cbn [String.append].
    rewrite index_byte_app by (by apply (none_of_byte _ ":" _ Hu eq_refl)).
    rewrite slength_app. cbn [String.length].
    rewrite (proj2 (Nat.ltb_ge _ _)) by lia.
    rewrite str_take_app, str_drop_S_app.
    replace (String.length user + S (String.length pass) - S (String.length user))%nat
      with (String.length pass) by lia.
    by rewrite str_take_app.
  - apply andb_prop in Hw as [Hne Hu]. apply negb_true_iff in Hne. rewrite Hne.
    cbn [String.append]. rewrite sapp_assoc. cbn [String.append].
    rewrite index_byte_app by (by apply (none_of_byte _ "@" _ Hu eq_refl)).
    unfold index_byte at 1. rewrite index_by_app by (by apply (none_of_byte _ ":" _ Hu eq_refl)).
    cbn [index_by]. change (Ascii.eqb ":" "@") with false. rewrite str_take_app, str_drop_S_app.
    destruct (index_by (Ascii.eqb ":") rest) as [j|]; cbn [fmap option_fmap option_map]; [|done].
    by rewrite (proj2 (Nat.ltb_lt _ _)) by lia.
  - cbn [String.append]. by rewrite index_byte_none.
Qed.

Lemma Addr_String_no_byte a c :
  is_digit c = false -> Ascii.eqb c ":" = false ->
  sforall (fun b => negb (Ascii.eqb c b)) (Host a) = true ->
  sforall (fun b => negb (Ascii.eqb c b)) (Addr_String a) = true.
Proof.
  intros Hd Hc Hh. unfold Addr_String. destruct (APort a) as [p|]; [|done].
  rewrite sforall_app, Hh. cbn. by rewrite Hc, itoa_no_byte.
Qed.

Lemma ParseHostPort_text a :
  host_chars (Host a) = true -> port_wf (APort a) = true ->
  ParseHostPort (Addr_String a) = Ok (Host a, APort a).
Proof.
  unfold host_chars, ParseHostPort, Addr_String, port_wf. intros Hh Hp.
  apply none_of_byte with (c := ":"%char) in Hh; [|reflexivity].
  destruct (APort a) as [p|]; [|by rewrite index_byte_none].
  apply N.ltb_lt in Hp. cbn [String.append]. rewrite index_byte_app by done.
  rewrite str_take_app, str_drop_S_app, ParseUint_itoa by done. done.
Qed.

Lemma params_text_some intro sep ps :
  params_ok ps ->
  params_text intro sep (Some ps) =
  if decide (paramOrder ps = []) then "" else String intro (ToString ps sep).
Proof.
  intros Hok. unfold params_text. pose proof (Length_zero ps Hok) as H.
  case_decide as E.
  - rewrite bool_decide_eq_true_2 in H by done. apply Nat.eqb_eq in H. by rewrite H.
  - rewrite bool_decide_eq_false_2 in H by done. apply Nat.eqb_neq in H.
    by rewrite (proj2 (Nat.ltb_lt _ _)) by lia.
Qed.

(** The end of the host part is found, and the parameters and headers after it are read back. *)
Lemma parse_uri_tail_text ps hs hp :
  params_ok ps -> params_ok hs ->
  all_params (param_safe ";" "?" true) ps = true ->
  all_params (param_safe "&" NUL false) hs = true ->
  sforall (none_of ["@"; ";"]%char) (ToString hs "&") = true ->
  (paramOrder hs = [] \/ all_params (fun _ v => unquoted v) ps = true) ->
  sforall (none_of [";"; "?"]%char) hp = true ->
  let tail := params_text ";" ";" (Some ps) +:+ params_text "?" "&" (Some hs) in
  endOfUriPart (hp +:+ tail) = String.length hp /\ parse_uri_tail tail = Ok (ps, hs).
Proof.
  intros Hps Hhs Sps Shs Hhc Hq Hhp. cbn zeta. rewrite !params_text_some by done.
  pose proof (none_of_byte _ ";" _ Hhp eq_refl) as Hhp1.
  pose proof (none_of_byte _ "?" _ Hhp eq_refl) as Hhp2.
  pose proof (none_of_byte _ ";" _ Hhc eq_refl) as Hhc1.
  assert (Hhead : paramOrder hs <> [] ->
    ParseParams (String "?" (ToString hs "&")) "?" "&" NUL true false
    = (hs, S (String.length (ToString hs "&")), None)).
  { intros Hne. rewrite <- (sapp_nil_r (ToString hs "&")) at 1.
    apply ParseParams_ToString_tail; auto. }
  assert (Hslice : forall s, slice_from (S (String.length s)) (String "?" s) = Ok "").
  { intros s. rewrite slice_from_no_panic by (cbn; lia). cbn. by rewrite str_drop_all. }
  case_decide as E1; case_decide as E2; cbn [String.append].
  - rewrite (params_empty ps), (params_empty hs), sapp_nil_r by done. split; [|done].
    unfold endOfUriPart. by rewrite !index_byte_none.
  - rewrite (params_empty ps) by done. split.
    + unfold endOfUriPart. rewrite (index_byte_none ";"), index_byte_app; [done|done|].
      rewrite sforall_app, Hhp1. cbn. by rewrite Hhc1.
    + unfold parse_uri_tail. change (String.eqb (String "?" _) "") with false.
      cbn [first_byte mbind res_bind]. change (Ascii.eqb "?" ";") with false. cbn iota.
      change (slice_from 0 ?s) with (Ok s). cbn [mbind res_bind].
      rewrite Hhead by done. rewrite Hslice. done.
  - rewrite (params_empty hs), sapp_nil_r by done. split.
    + unfold endOfUriPart. by rewrite index_byte_app.
    + unfold parse_uri_tail. change (String.eqb (String ";" _) "") with false.
      cbn [first_byte mbind res_bind]. rewrite Ascii.eqb_refl.
      rewrite <- (sapp_nil_r (ToString ps ";")) at 1.
      rewrite ParseParams_ToString_tail by auto.
      rewrite slice_from_no_panic by (cbn; lia). cbn [str_drop mbind res_bind].
      by rewrite str_drop_all.
  - destruct Hq as [|Hq]; [done|]. split.
    + unfold endOfUriPart. by rewrite index_byte_app.
    + unfold parse_uri_tail. change (String.eqb (String ";" _) "") with false.
      cbn [first_byte mbind res_bind]. rewrite Ascii.eqb_refl.
      rewrite ParseParams_ToString_tail by (auto; right; eauto).
      rewrite slice_from_no_panic by (cbn; rewrite slength_app; lia). cbn [str_drop mbind res_bind].
      rewrite str_drop_app, Hhead, Hslice by done. done.
Qed.

Lemma sforall_none_of_Addr a :
  host_chars (Host a) = true -> sforall (none_of [";"; "?"]%char) (Addr_String a) = true
  /\ sforall (fun b => negb (Ascii.eqb "@" b)) (Addr_String a) = true.
Proof.
  unfold host_chars. intros H. split.
  - assert (H1 := Addr_String_no_byte a ";" eq_refl eq_refl (none_of_byte _ ";" _ H eq_refl)).
    assert (H2 := Addr_String_no_byte a "?" eq_refl eq_refl (none_of_byte _ "?" _ H eq_refl)).
    revert H1 H2. generalize (Addr_String a). clear. intros s. induction s as [|c s IH]; cbn; [done|].
    intros [? ?]%andb_prop [? ?]%andb_prop. rewrite IH by done. cbn. by rewrite H, H1.
  - apply Addr_String_no_byte; [done|done|]. by apply (none_of_byte _ "@" _ H eq_refl).
Qed.

Lemma params_text_no_at intro sep ps :
  params_ok ps -> Ascii.eqb "@" intro = false ->
  sforall (fun b => negb (Ascii.eqb "@" b)) (ToString ps sep) = true ->
  sforall (fun b => negb (Ascii.eqb "@" b)) (params_text intro sep (Some ps)) = true.
Proof.
  intros Hok Hi H. rewrite params_text_some by done. case_decide; [done|]. cbn. by rewrite Hi.
Qed.

(** The part of a SIP URI after the schema is read back. *)
Lemma ParseSipUri_rest_text u :
  uri_wf u ->
  ParseSipUri_rest (FIsEncrypted u)
    (userinfo_text u +:+ Addr_String (FDomain u)
     +:+ params_text ";" ";" (FUriParams u) +:+ params_text "?" "&" (FHeaders u)) = Ok u.
Proof.
  intros (Hu & Hh & Hp & ps & hs & Eps & Ehs & Ops & Ohs & Sps & Shs & Aps & Ahs & Hq).
  rewrite Eps, Ehs. unfold ParseSipUri_rest.
  destruct (sforall_none_of_Addr _ Hh) as [Hhp Hat].
  destruct (parse_uri_tail_text ps hs (Addr_String (FDomain u)) Ops Ohs Sps Shs Ahs Hq Hhp) as [Hend Htail].
  rewrite split_userinfo_text; [|done|].
  - rewrite Hend, str_take_app, str_drop_app, ParseHostPort_text by done.
    cbn [mbind res_bind]. rewrite Htail. cbn [mbind res_bind mret res_ret].
    rewrite <- Eps, <- Ehs. by destruct u as [? ? ? [? ?] ? ?].
  - rewrite !sforall_app, Hat. cbn [andb]. rewrite !params_text_no_at; try done.
    + by apply (none_of_byte _ "@" _ Ahs eq_refl).
    + by apply (none_of_byte _ "@" _ Aps eq_refl).
Qed.

Definition sample_uri : SipUri :=
  mkSipUri true (Some (Str "alice")) (Some (Str "secret")) (mkAddr "example.com" (Some 5061%N))
    (Some (Add (Add NewParams "transport" (Some "tls")) "lr" None))
    (Some (Add NewParams "subject" (Some "hi"))).

Example sample_uri_text :
  SipUri_String sample_uri = "sips:alice:secret@example.com:5061;transport=tls;lr?subject=hi".
Proof. vm_compute. reflexivity. Qed.

Lemma sample_uri_wf : uri_wf sample_uri.
Proof.
  unfold uri_wf. do 3 (split; [vm_compute; reflexivity|]).
  eexists _, _. split; [reflexivity|]. split; [reflexivity|].
  split; [repeat apply Add_ok; apply NewParams_ok|].
  split; [repeat apply Add_ok; apply NewParams_ok|].
  do 4 (split; [vm_compute; reflexivity|]). right. vm_compute. reflexivity.
Qed.

(** The text of a URI in normal form is read back. *)
Lemma ParseUri_text (u : SipUri) : uri_wf u -> ParseUri (SipUri_String u) = Ok (USip u).
Proof.
  intros Hwf. unfold ParseUri, SipUri_String.
  set (r := userinfo_text u +:+ _).
  assert (Hr : ParseSipUri_rest (FIsEncrypted u) r = Ok u) by (by apply ParseSipUri_rest_text).
  clearbody r. destruct (FIsEncrypted u); cbn [String.append].
  all: match goal with |- context [TrimSpace (String "s" ?t)] =>
         destruct (TrimSpace_head "s" t eq_refl) as (t' & ->) end.
  all: change (String.eqb (String "s" t') "*") with false; cbn iota.
  - change (String "s" (String "i" (String "p" (String "s" (String ":" r))))) with ("sips" +:+ String ":" r).
    rewrite index_byte_app by done. rewrite str_take_app.
    change (String.eqb (ToLower "sips") "sip" || String.eqb (ToLower "sips") "sips") with true. cbn iota.
    rewrite ParseSipUri_schema by (by right).
    change (String.eqb (ToLower "sips") "sips") with true. by rewrite Hr.
  - change (String "s" (String "i" (String "p" (String ":" r)))) with ("sip" +:+ String ":" r).
    rewrite index_byte_app by done. rewrite str_take_app.
    change (String.eqb (ToLower "sip") "sip" || String.eqb (ToLower "sip") "sips") with true. cbn iota.
    rewrite ParseSipUri_schema by (by left).
    change (String.eqb (ToLower "sip") "sips") with false. by rewrite Hr.
Qed.

(** ** Properties *)

(** every SIP or SIPS URI in normal form is read back from its own rendering:
    [ParseUri] after [String] gives the URI, with its user-info, host, port,
    parameters and headers. *)
Theorem ParseUri_String (u : SipUri) :
  uri_wf u -> ParseUri (SipUri_String u) = Ok (USip u).
Proof. apply ParseUri_text. Qed.

Lemma ParseUri_String_witness : ParseUri (SipUri_String sample_uri) = Ok (USip sample_uri).
Proof. apply (ParseUri_String sample_uri). apply sample_uri_wf. Defined.

(** [ParseUri] never panics: the unchecked slices and byte accesses of
    [ParseSipUri] are only reached on texts that are long enough. *)
Theorem ParseUri_no_panic (uriStr : string) : is_panic (ParseUri uriStr) = false.
Proof. apply ParseUri_total. Qed.

(** Called directly, [ParseSipUri] does panic on a short text. *)
Example ParseSipUri_short_panics : ParseSipUri "si" = Panic SliceOutOfRange.
Proof. reflexivity. Qed.

(** Equality of URIs with parameters set is equality of the visible parts. *)
Lemma MaybeParams_Equals_some ps qs :
  MaybeParams_Equals (Some ps) (Some qs) = Ok (Params_Equals no_pointers no_pointers ps qs).
Proof. done. Qed.

(** on parsed URIs (parameters and headers set) [Equals] decides equality of
    every component, parameters and headers compared as maps. *)
Theorem SipUri_Equals_iff (u v : SipUri) (ps hs qs ks : headerParams) :
  FUriParams u = Some ps -> FHeaders u = Some hs ->
  FUriParams v = Some qs -> FHeaders v = Some ks ->
  Uri_Equals (USip u) (USip v) =
  Ok (bool_decide (FIsEncrypted u = FIsEncrypted v /\ boxed_eqb (FUser u) (FUser v) = true
      /\ boxed_eqb (FPassword u) (FPassword v) = true
      /\ FDomain u = FDomain v /\ params ps = params qs /\ params hs = params ks)).
Proof.
  intros Eps Ehs Eqs Eks. unfold Uri_Equals, SipUri_Equals. rewrite Eps, Ehs, Eqs, Eks.
  rewrite !MaybeParams_Equals_some.
  set (b := _ && Uint16PtrEq _ _).
  assert (Hb : b = true <-> FIsEncrypted u = FIsEncrypted v /\ boxed_eqb (FUser u) (FUser v) = true
    /\ boxed_eqb (FPassword u) (FPassword v) = true /\ FDomain u = FDomain v).
  { subst b. rewrite !andb_true_iff, eqb_true_iff, String.eqb_eq, Uint16PtrEq_true.
    destruct (FDomain u), (FDomain v). cbn. naive_solver. }
  pose proof (Params_Equals_spec ps qs) as H1. pose proof (Params_Equals_spec hs ks) as H2.
  destruct b, (Params_Equals _ _ ps qs), (Params_Equals _ _ hs ks); cbn; f_equal; symmetry;
    (apply bool_decide_eq_true || apply bool_decide_eq_false); naive_solver.
Qed.

Lemma SipUri_Equals_iff_witness :
  Uri_Equals (USip sample_uri) (USip sample_uri) = Ok true.
Proof.
  refine (eq_trans (SipUri_Equals_iff sample_uri sample_uri _ _ _ _ eq_refl eq_refl eq_refl eq_refl) _).
  vm_compute. reflexivity.
Defined.

(** no URI of the program equals a wildcard URI, not even the wildcard URI
    itself: the type switch of [WildcardUri.Equals] names the struct, and every
    wildcard URI is a pointer to it. *)
Theorem wildcard_never_equal (u : Uri) : Uri_Equals UWildcard u = Ok false /\ Uri_Equals u UWildcard = Ok false.
Proof. split; [done|by destruct u]. Qed.

(** a copy of a URI with well-formed parameters prints as the original; the
    nil parameter lists become empty ones. *)
Theorem Uri_Copy_String (u : SipUri) :
  (forall ps, FUriParams u = Some ps \/ FHeaders u = Some ps -> params_ok ps) ->
  SipUri_String (SipUri_Copy u) = SipUri_String u.
Proof.
  intros H. destruct u as [enc user pass [h p] ps hs]. cbn in H.
  unfold SipUri_String, SipUri_Copy. cbn [FIsEncrypted FUser FPassword FDomain FUriParams FHeaders Host APort].
  assert (E : forall intro sep o, (forall qs, o = Some qs -> params_ok qs) ->
    params_text intro sep (Some (CopyWithNil o)) = params_text intro sep o).
  { intros intro sep [qs|] Hq; [|done]. cbn. by rewrite Params_Copy_id by auto. }
  rewrite !E by naive_solver. by destruct p.
Qed.

Lemma Uri_Copy_String_witness :
  SipUri_String (SipUri_Copy sample_uri) = SipUri_String sample_uri.
Proof.
  apply (Uri_Copy_String sample_uri). intros ps [E|E]; injection E as <-;
    repeat apply Add_ok; apply NewParams_ok.
Defined.

#[export] Hint Resolve ParseUri_total ParseHostPort_no_panic : gsip.
