(* ===== verification/Header.v ===== *)
(** * The SIP headers (sip/headers.go, sip/auth.go)

    The inductive type [Header] has one constructor per Go type that implements
    the [Header] interface, with its [Name], [String], [Copy] and [Equals]: a definition
    per type, and one that dispatches as the call on the interface does.
    A field of interface type that may be nil is an [option]; calling a method on
    a nil interface is a [Panic].  [Equals] takes [None] for the nil interface. *)

From S2P Require Import Prelude GoStrings Params Base Uri.
From Stdlib Require Import NArith Lia.

#[local] Open Scope string_scope.
#[local] Open Scope list_scope.

(** [FromHeader], [ToHeader] and [ContactHeader] have the same fields. *)
Record AddressHeader := mkAddress {
  DisplayName : option boxed;
  Address : option Uri;
  HParams : option headerParams
}.

Record ViaHop := mkViaHop {
  ProtocolName : string;
  ProtocolVersion : string;
  Transport : string;
  VHost : string;
  VPort : option Port;
  VParams : option headerParams
}.

Record Authorization := mkAuthorization {
  auth_name : string;
  auth_mode : string;
  Realm : string;
  Nonce : string;
  Algorithm : string;
  Username : string;
  Password : string;
  AUri : string;
  Response : string;
  Method : string;
  Other : option headerParams
}.

Inductive Header : Type :=
  | HAccept (value : string)
  | HAllow (methods : list RequestMethod)
  | HAuthorization (auth : Authorization)
  | HCSeq (SeqNo : N) (MethodName : RequestMethod)
  | HCallID (value : string)
  | HContact (contact : AddressHeader)
  | HContentLength (value : N)
  | HContentType (value : string)
  | HExpires (value : N)
  | HFrom (from : AddressHeader)
  | HGeneric (HeaderName Contents : string)
  | HMaxForwards (value : N)
  | HProxyRequire (Options : list string)
  | HRecordRoute (Addresses : list Uri)
  | HRequire (Options : list string)
  | HRoute (Addresses : list Uri)
  | HSupported (Options : list string)
  | HTo (to : AddressHeader)
  | HUnsupported (Options : list string)
  | HUserAgent (value : string)
  | HVia (hops : list ViaHop).

#[export] Instance AddressHeader_eq_dec : EqDecision AddressHeader.
Proof. solve_decision. Defined.
#[export] Instance ViaHop_eq_dec : EqDecision ViaHop.
Proof. solve_decision. Defined.
#[export] Instance Authorization_eq_dec : EqDecision Authorization.
Proof. solve_decision. Defined.
#[export] Instance Header_eq_dec : EqDecision Header.
Proof. solve_decision. Defined.

(** ** [Name] *)

Definition Authorization_Name (a : Authorization) : string :=
  if String.eqb (auth_name a) "proxy-authorization" then "Proxy-Authorization" else "Authorization".

Definition Name (h : Header) : string :=
  match h with
  | HAccept _ => "Accept"
  | HAllow _ => "Allow"
  | HAuthorization a => Authorization_Name a
  | HCSeq _ _ => "CSeq"
  | HCallID _ => "Call-ID"
  | HContact _ => "Contact"
  | HContentLength _ => "Content-Length"
  | HContentType _ => "Content-Type"
  | HExpires _ => "Expires"
  | HFrom _ => "From"
  | HGeneric name _ => name
  | HMaxForwards _ => "Max-Forwards"
  | HProxyRequire _ => "Proxy-Require"
  | HRecordRoute _ => "Record-Route"
  | HRequire _ => "Require"
  | HRoute _ => "Route"
  | HSupported _ => "Supported"
  | HTo _ => "To"
  | HUnsupported _ => "Unsupported"
  | HUserAgent _ => "User-Agent"
  | HVia _ => "Via"
  end.

(** ** [String] *)

(** [fmt.Sprintf("%s", v)] of an interface value that may be nil. *)
Definition sprint_uri (u : option Uri) : string :=
  match u with Some u => Uri_String u | None => "%!s(<nil>)" end.

(** The name is rendered when it is a [String], not when it is a pointer to one. *)
Definition display_text (d : option boxed) : string :=
  match as_String d with
  | Some s => if String.eqb s "" then "" else DQ +:+ s +:+ DQ +:+ " "
  | None => ""
  end.

Definition semi_params (ps : headerParams) : string :=
  if (0 <? Length ps)%nat then ";" +:+ ToString ps ";" else "".

Definition From_String (from : AddressHeader) : res string :=
  ps ← deref (HParams from);
  mret ("From: " +:+ display_text (DisplayName from) +:+ "<" +:+ sprint_uri (Address from) +:+ ">"
        +:+ semi_params ps).

Definition To_String (to : AddressHeader) : res string :=
  mret ("To: " +:+ display_text (DisplayName to) +:+ "<" +:+ sprint_uri (Address to) +:+ ">"
        +:+ match HParams to with Some ps => semi_params ps | None => "" end).

Definition Contact_String (contact : AddressHeader) : res string :=
  addr ← match Address contact with
         | Some UWildcard => Ok "*"
         | a => u ← deref a; mret ("<" +:+ Uri_String u +:+ ">")
         end;
  mret ("Contact: " +:+ display_text (DisplayName contact) +:+ addr
        +:+ match HParams contact with Some ps => semi_params ps | None => "" end).

Definition SentBy (hop : ViaHop) : string :=
  VHost hop +:+ match VPort hop with Some p => ":" +:+ itoa p | None => "" end.

Definition ViaHop_String (hop : ViaHop) : res string :=
  ps ← deref (VParams hop);
  mret (ProtocolName hop +:+ "/" +:+ ProtocolVersion hop +:+ "/" +:+ Transport hop +:+ " "
        +:+ VHost hop +:+ match VPort hop with Some p => ":" +:+ itoa p | None => "" end
        +:+ semi_params ps).

Definition Via_String (via : list ViaHop) : res string :=
  hops ← mapM_res ViaHop_String via;
  mret ("Via: " +:+ join ", " hops).

Definition addrs_text (name : string) (addrs : list Uri) : string :=
  name +:+ ": " +:+ join ", " (map (fun u => "<" +:+ Uri_String u +:+ ">") addrs).

Definition Mode (a : Authorization) : string :=
  if String.eqb (auth_mode a) "" then "Digest" else auth_mode a.

Definition quoted (key value : string) : string := key +:+ "=" +:+ DQ +:+ value +:+ DQ.

Definition Authorization_String (a : Authorization) : string :=
  if negb (String.eqb (ToLower (Mode a)) "digest") then
    Authorization_Name a +:+ ": " +:+ Mode a +:+ " algorithm=" +:+ Algorithm a
  else
    Authorization_Name a +:+ ": " +:+ Mode a +:+ " "
    +:+ join "," [ quoted "username" (Username a); quoted "realm" (Realm a);
                   quoted "nonce" (Nonce a); quoted "uri" (AUri a);
                   quoted "response" (Response a); "algorithm=" +:+ Algorithm a ].

Definition Accept_String (ct : string) : string := "Accept: " +:+ ct.
Definition Allow_String (allow : list RequestMethod) : string := "Allow: " +:+ join ", " allow.
Definition CSeq_String (SeqNo : N) (MethodName : RequestMethod) : string :=
  "CSeq: " +:+ itoa SeqNo +:+ " " +:+ MethodName.
Definition CallID_String (callId : string) : string := "Call-ID: " +:+ callId.
Definition ContentLength_String (contentLength : N) : string := "Content-Length: " +:+ itoa contentLength.
Definition ContentType_String (ct : string) : string := "Content-Type: " +:+ ct.
Definition Expires_String (expires : N) : string := "Expires: " +:+ itoa expires.
Definition Generic_String (HeaderName Contents : string) : string := HeaderName +:+ ": " +:+ Contents.
Definition MaxForwards_String (maxForwards : N) : string := "Max-Forwards: " +:+ itoa maxForwards.
Definition ProxyRequire_String (Options : list string) : string := "Proxy-Require: " +:+ join ", " Options.
Definition RecordRoute_String (Addresses : list Uri) : string := addrs_text "Record-Route" Addresses.
Definition Require_String (Options : list string) : string := "Require: " +:+ join ", " Options.
Definition Route_String (Addresses : list Uri) : string := addrs_text "Route" Addresses.
Definition Supported_String (Options : list string) : string := "Supported: " +:+ join ", " Options.
Definition Unsupported_String (Options : list string) : string := "Unsupported: " +:+ join ", " Options.
Definition UserAgent_String (ua : string) : string := "User-Agent: " +:+ ua.

(** The call [h.String()] on the interface. *)
Definition Header_String (h : Header) : res string :=
  match h with
  | HAccept v => Ok (Accept_String v)
  | HAllow ms => Ok (Allow_String ms)
  | HAuthorization a => Ok (Authorization_String a)
  | HCSeq n m => Ok (CSeq_String n m)
  | HCallID v => Ok (CallID_String v)
  | HContact c => Contact_String c
  | HContentLength n => Ok (ContentLength_String n)
  | HContentType v => Ok (ContentType_String v)
  | HExpires n => Ok (Expires_String n)
  | HFrom f => From_String f
  | HGeneric name v => Ok (Generic_String name v)
  | HMaxForwards n => Ok (MaxForwards_String n)
  | HProxyRequire os => Ok (ProxyRequire_String os)
  | HRecordRoute us => Ok (RecordRoute_String us)
  | HRequire os => Ok (Require_String os)
  | HRoute us => Ok (Route_String us)
  | HSupported os => Ok (Supported_String os)
  | HTo t => To_String t
  | HUnsupported os => Ok (Unsupported_String os)
  | HUserAgent v => Ok (UserAgent_String v)
  | HVia hops => Via_String hops
  end.

(** ** [Copy] *)

(** [FromHeader.Copy] and [ContactHeader.Copy] call [Copy] on both fields. *)
Definition Address_Copy (a : AddressHeader) : res AddressHeader :=
  u ← deref (Address a);
  ps ← deref (HParams a);
  mret (mkAddress (DisplayName a) (Some (Uri_Copy u)) (Some (Params_Copy ps))).

(** [ToHeader.Copy] tests both fields for nil. *)
Definition To_Copy (to : AddressHeader) : AddressHeader :=
  mkAddress (DisplayName to)
    (match Address to with Some u => Some (Uri_Copy u) | None => None end)
    (match HParams to with Some ps => Some (Params_Copy ps) | None => None end).

Definition ViaHop_Copy (hop : ViaHop) : res ViaHop :=
  ps ← deref (VParams hop);
  mret (mkViaHop (ProtocolName hop) (ProtocolVersion hop) (Transport hop) (VHost hop)
          (Port_Copy (VPort hop)) (Some (Params_Copy ps))).

Definition Authorization_Copy (a : Authorization) : Authorization :=
  mkAuthorization (Authorization_Name a) (Mode a) (Realm a) (Nonce a) (Algorithm a) (Username a)
    (Password a) (AUri a) (Response a) (Method a)
    (match Other a with Some ps => Some (Params_Copy ps) | None => None end).

(** The types behind a pointer return the pointer itself; the lists are copied into new
    slices with the same elements. *)
Definition Accept_Copy (ct : string) : string := ct.
Definition Allow_Copy (allow : list RequestMethod) : list RequestMethod := allow.
Definition CSeq_Copy (SeqNo : N) (MethodName : RequestMethod) : N * RequestMethod := (SeqNo, MethodName).
Definition CallID_Copy (callId : string) : string := callId.
Definition Contact_Copy (contact : AddressHeader) : res AddressHeader := Address_Copy contact.
Definition ContentLength_Copy (contentLength : N) : N := contentLength.
Definition ContentType_Copy (ct : string) : string := ct.
Definition Expires_Copy (expires : N) : N := expires.
Definition Generic_Copy (HeaderName Contents : string) : string * string := (HeaderName, Contents).
Definition MaxForwards_Copy (maxForwards : N) : N := maxForwards.
Definition ProxyRequire_Copy (Options : list string) : list string := Options.
Definition RecordRoute_Copy (Addresses : list Uri) : list Uri := map Uri_Copy Addresses.
Definition Require_Copy (Options : list string) : list string := Options.
Definition Route_Copy (Addresses : list Uri) : list Uri := map Uri_Copy Addresses.
Definition Supported_Copy (Options : list string) : list string := Options.
Definition Unsupported_Copy (Options : list string) : list string := Options.
Definition UserAgent_Copy (ua : string) : string := ua.
Definition Via_Copy (via : list ViaHop) : res (list ViaHop) := mapM_res ViaHop_Copy via.

(** The call [h.Copy()] on the interface. *)
Definition Header_Copy (h : Header) : res Header :=
  match h with
  | HAccept v => Ok (HAccept (Accept_Copy v))
  | HAllow ms => Ok (HAllow (Allow_Copy ms))
  | HAuthorization a => Ok (HAuthorization (Authorization_Copy a))
  | HCSeq n m => Ok (let '(n, m) := CSeq_Copy n m in HCSeq n m)
  | HCallID v => Ok (HCallID (CallID_Copy v))
  | HContact c => HContact <$> Contact_Copy c
  | HContentLength n => Ok (HContentLength (ContentLength_Copy n))
  | HContentType v => Ok (HContentType (ContentType_Copy v))
  | HExpires n => Ok (HExpires (Expires_Copy n))
  | HFrom f => HFrom <$> Address_Copy f
  | HGeneric name v => Ok (let '(name, v) := Generic_Copy name v in HGeneric name v)
  | HMaxForwards n => Ok (HMaxForwards (MaxForwards_Copy n))
  | HProxyRequire os => Ok (HProxyRequire (ProxyRequire_Copy os))
  | HRecordRoute us => Ok (HRecordRoute (RecordRoute_Copy us))
  | HRequire os => Ok (HRequire (Require_Copy os))
  | HRoute us => Ok (HRoute (Route_Copy us))
  | HSupported os => Ok (HSupported (Supported_Copy os))
  | HTo t => Ok (HTo (To_Copy t))
  | HUnsupported os => Ok (HUnsupported (Unsupported_Copy os))
  | HUserAgent v => Ok (HUserAgent (UserAgent_Copy v))
  | HVia hops => HVia <$> Via_Copy hops
  end.

(** ** [Equals] *)

(** Go's [&&] on calls that may panic. *)
Definition and_then (a : bool) (b : res bool) : res bool := if a then b else Ok false.

(** [u.Equals(v)] on URI interfaces that may be nil. *)
Definition MaybeUri_Equals (u v : option Uri) : res bool :=
  u ← deref u;
  match v with None => Ok false | Some v => Uri_Equals u v end.

(** [Params.Equals] of the headers' own lists, whose tags may be pointers. *)
Definition HParams_Equals (pp qq : pointers) (a b : AddressHeader) : res bool :=
  p ← deref (HParams a);
  mret (match HParams b with None => false | Some q => Params_Equals pp qq p q end).

Definition Address_Equals (pp qq : pointers) (a b : AddressHeader) : res bool :=
  and_then (boxed_eqb (DisplayName a) (DisplayName b))
    (e ← MaybeUri_Equals (Address a) (Address b);
     and_then e (HParams_Equals pp qq a b)).

Definition Contact_Equals (pp qq : pointers) (contact h : AddressHeader) : res bool := Address_Equals pp qq contact h.

(** [ToHeader.Equals] calls [Equals] on the display name instead of [==]. *)
Definition To_Equals (pp qq : pointers) (a b : AddressHeader) : res bool :=
  d ← deref (DisplayName a);
  and_then (String_Equals d (DisplayName b))
    (e ← MaybeUri_Equals (Address a) (Address b);
     and_then e (HParams_Equals pp qq a b)).

Definition ViaHop_Equals (hop h : ViaHop) : res bool :=
  and_then (String.eqb (ProtocolName hop) (ProtocolName h)
            && String.eqb (ProtocolVersion hop) (ProtocolVersion h)
            && String.eqb (Transport hop) (Transport h)
            && String.eqb (VHost hop) (VHost h)
            && Uint16PtrEq (VPort hop) (VPort h))
    (MaybeParams_Equals (VParams hop) (VParams h)).

(** The loop of [ViaHeader.Equals], the lengths having been compared. *)
Fixpoint hops_Equals (via h : list ViaHop) : res bool :=
  match via, h with
  | hop :: via', hop' :: h' =>
      e ← ViaHop_Equals hop hop';
      if (e : bool) then hops_Equals via' h' else Ok false
  | _, _ => Ok true
  end.

(** The loop of [RouteHeader.Equals] and [RecordRouteHeader.Equals]: no test of
    the lengths, [h.Addresses[i]] may be out of range. *)
Fixpoint route_Equals (route h : list Uri) : res bool :=
  match route with
  | [] => Ok true
  | uri :: route' =>
      match h with
      | [] => Panic IndexOutOfRange
      | uri' :: h' =>
          e ← Uri_Equals uri uri';
          if (e : bool) then route_Equals route' h' else Ok false
      end
  end.

Definition strings_Equals (a b : list string) : bool := bool_decide (a = b).

Definition Authorization_Equals (a h : Authorization) : res bool :=
  and_then (String.eqb (auth_name a) (auth_name h) && String.eqb (Realm a) (Realm h)
            && String.eqb (Nonce a) (Nonce h) && String.eqb (Algorithm a) (Algorithm h)
            && String.eqb (Username a) (Username h) && String.eqb (Password a) (Password h)
            && String.eqb (AUri a) (AUri h) && String.eqb (Response a) (Response h)
            && String.eqb (Method a) (Method h))
    (MaybeParams_Equals (Other a) (Other h)).

Definition Accept_Equals (ct h : string) : bool := String.eqb ct h.
Definition Allow_Equals (allow h : list RequestMethod) : bool := strings_Equals allow h.
Definition CSeq_Equals (SeqNo : N) (MethodName : RequestMethod) (SeqNo' : N) (MethodName' : RequestMethod) : bool :=
  N.eqb SeqNo SeqNo' && String.eqb MethodName MethodName'.
Definition CallID_Equals (callId h : string) : bool := String.eqb callId h.
Definition ContentLength_Equals (contentLength h : N) : bool := N.eqb contentLength h.
Definition ContentType_Equals (ct h : string) : bool := String.eqb ct h.
Definition Expires_Equals (expires h : N) : bool := N.eqb expires h.
Definition Generic_Equals (HeaderName Contents HeaderName' Contents' : string) : bool :=
  String.eqb HeaderName HeaderName' && String.eqb Contents Contents'.
Definition MaxForwards_Equals (maxForwards h : N) : bool := N.eqb maxForwards h.
Definition ProxyRequire_Equals (Options h : list string) : bool := strings_Equals Options h.
Definition RecordRoute_Equals (Addresses h : list Uri) : res bool := route_Equals Addresses h.
Definition Require_Equals (Options h : list string) : bool := strings_Equals Options h.
Definition Supported_Equals (Options h : list string) : bool := strings_Equals Options h.
Definition Unsupported_Equals (Options h : list string) : bool := strings_Equals Options h.
Definition UserAgent_Equals (ua h : string) : bool := String.eqb ua h.
Definition Via_Equals (via h : list ViaHop) : res bool :=
  if negb (length via =? length h)%nat then Ok false else hops_Equals via h.

(** The call [h.Equals(other)] on the interface: [false] for another type and for nil. *)
Definition Header_Equals (pp qq : pointers) (h : Header) (other : option Header) : res bool :=
  match h, other with
  | HAccept v, Some (HAccept w) => Ok (Accept_Equals v w)
  | HAllow ms, Some (HAllow ns) => Ok (Allow_Equals ms ns)
  | HAuthorization a, Some (HAuthorization b) => Authorization_Equals a b
  | HCSeq n m, Some (HCSeq n' m') => Ok (CSeq_Equals n m n' m')
  | HCallID v, Some (HCallID w) => Ok (CallID_Equals v w)
  | HContact a, Some (HContact b) => Contact_Equals pp qq a b
  | HContentLength n, Some (HContentLength m) => Ok (ContentLength_Equals n m)
  | HContentType v, Some (HContentType w) => Ok (ContentType_Equals v w)
  | HExpires n, Some (HExpires m) => Ok (Expires_Equals n m)
  | HFrom a, Some (HFrom b) => Address_Equals pp qq a b
  | HGeneric n v, Some (HGeneric m w) => Ok (Generic_Equals n v m w)
  | HMaxForwards n, Some (HMaxForwards m) => Ok (MaxForwards_Equals n m)
  | HProxyRequire a, Some (HProxyRequire b) => Ok (ProxyRequire_Equals a b)
  | HRecordRoute a, Some (HRecordRoute b) => RecordRoute_Equals a b
  | HRequire a, Some (HRequire b) => Ok (Require_Equals a b)
  | HRoute a, Some (HRoute b) => route_Equals a b
  | HSupported a, Some (HSupported b) => Ok (Supported_Equals a b)
  | HTo a, Some (HTo b) => To_Equals pp qq a b
  | HUnsupported a, Some (HUnsupported b) => Ok (Unsupported_Equals a b)
  | HUserAgent v, Some (HUserAgent w) => Ok (UserAgent_Equals v w)
  | HVia a, Some (HVia b) => Via_Equals a b
  | _, _ => Ok false
  end.

(** ** Well-formed headers

    What the constructors and the parser build: interface fields are set and the
    parameter lists keep their invariant. *)

Definition uri_ok (u : Uri) : Prop :=
  match u with
  | USip s => (exists ps, FUriParams s = Some ps /\ params_ok ps)
              /\ (exists hs, FHeaders s = Some hs /\ params_ok hs)
  | UWildcard => True
  end.

Definition address_ok (a : AddressHeader) : Prop :=
  (exists u, Address a = Some u /\ uri_ok u) /\ (exists ps, HParams a = Some ps /\ params_ok ps).

Definition hop_ok (hop : ViaHop) : Prop := exists ps, VParams hop = Some ps /\ params_ok ps.

Definition header_ok (h : Header) : Prop :=
  match h with
  | HContact a | HFrom a | HTo a => address_ok a
  | HRecordRoute us | HRoute us => Forall uri_ok us
  | HVia hops => Forall hop_ok hops
  | HAuthorization a => exists ps, Other a = Some ps /\ params_ok ps
  | _ => True
  end.

Lemma Uri_Copy_id u : uri_ok u -> Uri_Copy u = u.
Proof.
  destruct u as [[enc us pw [h p] ps hs]|]; [|done]. cbn.
  intros [(ps' & -> & Hps) (hs' & -> & Hhs)]. unfold SipUri_Copy. cbn.
  rewrite !Params_Copy_id by done. by destruct p.
Qed.

Lemma Address_Copy_ok a : address_ok a -> Address_Copy a = Ok a.
Proof.
  intros [(u & Hu & Hok) (ps & Hps & Hpok)]. unfold Address_Copy. rewrite Hu, Hps.
  cbn. rewrite Uri_Copy_id, Params_Copy_id by done. rewrite <- Hu, <- Hps. by destruct a.
Qed.

Lemma To_Copy_ok a : address_ok a -> To_Copy a = a.
Proof.
  intros [(u & Hu & Hok) (ps & Hps & Hpok)]. unfold To_Copy. rewrite Hu, Hps.
  rewrite Uri_Copy_id, Params_Copy_id by done. rewrite <- Hu, <- Hps. by destruct a.
Qed.

Lemma ViaHop_Copy_ok hop : hop_ok hop -> ViaHop_Copy hop = Ok hop.
Proof.
  intros (ps & Hps & Hok). unfold ViaHop_Copy. rewrite Hps. cbn.
  rewrite Params_Copy_id, Port_Copy_id, <- Hps by done. by destruct hop.
Qed.

Lemma map_Uri_Copy_id us : Forall uri_ok us -> map Uri_Copy us = us.
Proof. induction 1; cbn; [done|]. by rewrite Uri_Copy_id, IHForall. Qed.

(** A name that [Copy] gives to an authorization header. *)
Definition canonical_auth (a : Authorization) : Prop :=
  auth_name a = Authorization_Name a /\ auth_mode a = Mode a.

Lemma Header_String_ok h : header_ok h -> exists s, Header_String h = Ok s.
Proof.
  destruct h; cbn; intros H; eauto.
  - destruct H as [(u & Hu & _) (ps & Hps & _)]. unfold Contact_String. rewrite Hu.
    destruct u; cbn; eexists; reflexivity.
  - destruct H as [(u & Hu & _) (ps & Hps & _)]. unfold From_String. rewrite Hps. cbn. eauto.
  - unfold Via_String. assert (Hh : exists ss, mapM_res ViaHop_String hops = Ok ss).
    { induction H as [|hop hops (ps & Hps & _) _ (ss & IH)]; cbn; [eauto|].
      assert (Hs : exists s, ViaHop_String hop = Ok s)
        by (unfold ViaHop_String; rewrite Hps; cbn; eauto).
      destruct Hs as (s & ->). cbn. rewrite IH. cbn. eauto. }
    destruct Hh as (ss & ->). cbn. eauto.
Qed.

Lemma Header_Equals_nil pp qq h : Header_Equals pp qq h None = Ok false.
Proof. by destruct h. Qed.

(** The copy of a well-formed header. *)
Lemma Header_Copy_canonical (h : Header) :
  header_ok h ->
  Header_Copy h = Ok (match h with HAuthorization a => HAuthorization (Authorization_Copy a) | _ => h end).
Proof.
  destruct h; cbn; intros H; try done.
  - by rewrite Address_Copy_ok.
  - by rewrite Address_Copy_ok.
  - by rewrite map_Uri_Copy_id.
  - by rewrite map_Uri_Copy_id.
  - by rewrite To_Copy_ok.
  - unfold Via_Copy. rewrite (mapM_res_ok_map _ id); [by rewrite map_id|].
    intros hop Hhop. apply ViaHop_Copy_ok. by rewrite Forall_forall in H; apply H.
Qed.

(** ** Properties *)

(** the copy of a well-formed header is the same header, with nothing shared
    that the program later writes through; only an authorization header is
    normalised (its name and mode are filled in). *)
Theorem Header_Copy_ok (h : Header) :
  header_ok h ->
  Header_Copy h = Ok (match h with HAuthorization a => HAuthorization (Authorization_Copy a) | _ => h end).
Proof. apply Header_Copy_canonical. Qed.

Lemma sample_from_ok : address_ok (mkAddress None (Some (USip sample_uri)) (Some sample_params)).
Proof.
  split.
  - exists (USip sample_uri). split; [done|]. split; (eexists; split; [reflexivity|]);
      repeat apply Add_ok; apply NewParams_ok.
  - exists sample_params. split; [done|apply sample_params_ok].
Qed.

Lemma Header_Copy_ok_witness :
  Header_Copy (HFrom (mkAddress None (Some (USip sample_uri)) (Some sample_params)))
  = Ok (HFrom (mkAddress None (Some (USip sample_uri)) (Some sample_params))).
Proof. apply (Header_Copy_ok (HFrom _)). apply sample_from_ok. Defined.

(** comparing a To header without a display name panics, whatever it is
    compared with. *)
Theorem To_Equals_nil_display (pp qq : pointers) (a b : AddressHeader) :
  DisplayName a = None -> Header_Equals pp qq (HTo a) (Some (HTo b)) = Panic NilDereference.
Proof. cbn. unfold To_Equals. by intros ->. Qed.

Lemma To_Equals_nil_display_witness :
  Header_Equals no_pointers no_pointers (HTo (mkAddress None (Some UWildcard) (Some NewParams)))
    (Some (HTo (mkAddress None (Some UWildcard) (Some NewParams)))) = Panic NilDereference.
Proof. apply (To_Equals_nil_display no_pointers no_pointers (mkAddress None (Some UWildcard) (Some NewParams))). reflexivity. Defined.

(** Comparing routes: a longer route panics, a longer argument is accepted. *)
Example route_Equals_longer :
  Header_Equals no_pointers no_pointers (HRoute [USip sample_uri]) (Some (HRoute [])) = Panic IndexOutOfRange.
Proof. reflexivity. Qed.

(** A display name that is a pointer to a [String] is left out of the text. *)
Example pointer_name_dropped :
  From_String (mkAddress (Some (StrPtr 0 "Alice")) (Some (USip sample_uri)) (Some NewParams))
  = From_String (mkAddress None (Some (USip sample_uri)) (Some NewParams)).
Proof. reflexivity. Qed.

Example route_Equals_shorter :
  Header_Equals no_pointers no_pointers (HRoute []) (Some (HRoute [USip sample_uri])) = Ok true.
Proof. reflexivity. Qed.
