(* ===== verification/Headers.v ===== *)
(** * The header container [headers] (sip/headers.go)

    A map from the lower-case header name to the headers of that name, with the
    order in which the names are printed.  Header values are immutable here: the
    code that writes through a shared header pointer is modelled where it occurs,
    as a replacement in the container. *)

From S2P Require Import Prelude GoStrings Params Base Uri Header.
From Stdlib Require Import NArith Lia.

#[local] Open Scope string_scope.
#[local] Open Scope list_scope.

Record headers := mkHeaders {
  hmap : gmap string (list Header);
  headerOrder : list string
}.

#[export] Instance headers_eq_dec : EqDecision headers.
Proof. solve_decision. Defined.

Definition emptyHeaders : headers := mkHeaders ∅ [].

(** ** Operations *)

(** The key of a header in the container. *)
Definition key_of (header : Header) : string := ToLower (Name header).

(** The indexing, [Equals] and [String] calls of the logging statements are part of
    the code: each may panic. *)
Definition AddHeader (hs : headers) (header : Header) : res headers :=
  let name := key_of header in
  match hmap hs !! name with
  | Some headerList =>
      match headerList with
      | [] => Panic IndexOutOfRange
      | a :: _ =>
          _ ← Header_Equals no_pointers no_pointers a None;
          _ ← Header_String a;
          e ← Header_Equals no_pointers no_pointers a None;
          mret (mkHeaders
                  (<[name := if (negb e) then headerList ++ [header] else [header]]> (hmap hs))
                  (headerOrder hs))
      end
  | None => mret (mkHeaders (<[name := [header]]> (hmap hs)) (headerOrder hs ++ [name]))
  end.

Definition newHeaders (hers : list Header) : res headers := foldM_res AddHeader emptyHeaders hers.

(** The test of the order runs after the insertion, as in the source. *)
Definition ReplaceHeader (hs : headers) (header : Header) : headers :=
  let name := key_of header in
  let m := <[name := [header]]> (hmap hs) in
  mkHeaders m (match m !! name with
               | Some _ => headerOrder hs
               | None => headerOrder hs ++ [name]
               end).

Definition PrependHeader (hs : headers) (header : Header) : headers :=
  let name := key_of header in
  match hmap hs !! name with
  | Some hers => mkHeaders (<[name := header :: hers]> (hmap hs)) (headerOrder hs)
  | None => mkHeaders (<[name := [header]]> (hmap hs)) (name :: headerOrder hs)
  end.

(** The last position of a name in the order: the loop that sets [afterIdx] and
    [headerIdx]; [None] is -1. *)
Definition last_position (n : string) (order : list string) : option nat :=
  snd (foldl (fun '(i, found) name => (S i, if String.eqb name n then Some i else found))
         (0%nat, None) order).

(** Go's [s[i:j]] for indices the code knows to be in range. *)
Definition slice {A} (i j : nat) (l : list A) : list A := take (j - i) (drop i l).

Definition PrependHeaderAfter (hs : headers) (header : Header) (afterName : string) : headers :=
  let headerName := key_of header in
  let afterName := ToLower afterName in
  let order := headerOrder hs in
  match hmap hs !! afterName with
  | Some _ =>
      (* [afterIdx + 1] *)
      let afterEnd := match last_position afterName order with Some i => S i | None => 0%nat end in
      match last_position headerName order with
      | None =>
          mkHeaders (<[headerName := [header]]> (hmap hs))
            (take afterEnd order ++ [headerName] ++ drop afterEnd order)
      | Some headerIdx =>
          mkHeaders
            (<[headerName := header :: default [] (hmap hs !! headerName)]> (hmap hs))
            (if (afterEnd <=? headerIdx)%nat then
               take afterEnd order ++ [headerName] ++ slice afterEnd headerIdx order
               ++ drop (S headerIdx) order
             else
               take headerIdx order ++ slice (S headerIdx) afterEnd order ++ [headerName]
               ++ drop afterEnd order)
      end
  | None => PrependHeader hs header
  end.

Definition Headers (hs : headers) : list Header :=
  concat (map (fun key => default [] (hmap hs !! key)) (headerOrder hs)).

Definition GetHeaders (hs : headers) (name : string) : list Header :=
  default [] (hmap hs !! ToLower name).

(** Remove the first occurrence of a name from the order. *)
Fixpoint remove_first (name : string) (order : list string) : list string :=
  match order with
  | [] => []
  | entry :: order' => if String.eqb entry name then order' else entry :: remove_first name order'
  end.

Definition DelHeader (hs : headers) (names : list string) : headers :=
  match names with
  | [] => emptyHeaders
  | _ => foldl (fun hs name =>
                  let name := ToLower name in
                  mkHeaders (delete name (hmap hs)) (remove_first name (headerOrder hs))) hs names
  end.

Definition CloneHeaders (hs : headers) : res (list Header) := mapM_res Header_Copy (Headers hs).

(** [String]: each header of each name of the order, followed by CRLF (the test on
    the indices always holds). *)
Definition headers_String (hs : headers) : res string :=
  foldM_res (fun buffer name =>
    foldM_res (fun buffer header => s ← Header_String header; mret (buffer +:+ s +:+ CRLF))
      buffer (default [] (hmap hs !! name))) "" (headerOrder hs).

(** [strings.Split(s, sep)[1]] for a nonempty separator. *)
Definition split_second (s sep : string) : res string :=
  match index_str sep s with
  | None => Panic IndexOutOfRange
  | Some i =>
      let rest := str_drop (i + String.length sep) s in
      mret (match index_str sep rest with None => rest | Some j => str_take j rest end)
  end.

Definition GetHeaderString (hs : headers) (name : string) : res (list string) :=
  mapM_res (fun header =>
    s ← Header_String header;
    v ← split_second s (Name header +:+ ":");
    mret (TrimSpace v)) (GetHeaders hs name).

(** ** Typed accessors: the first header of the name, if it has the expected type *)

Definition first_header (hs : headers) (name : string) : option Header :=
  match GetHeaders hs name with [] => None | h :: _ => Some h end.

Definition headers_CallID (hs : headers) : option string :=
  match first_header hs "Call-ID" with Some (HCallID v) => Some v | _ => None end.
Definition headers_Expires (hs : headers) : option N :=
  match first_header hs "Expires" with Some (HExpires v) => Some v | _ => None end.
Definition headers_Authorization (hs : headers) : option Authorization :=
  match first_header hs "Authorization" with Some (HAuthorization v) => Some v | _ => None end.
Definition headers_Via (hs : headers) : option (list ViaHop) :=
  match first_header hs "Via" with Some (HVia v) => Some v | _ => None end.
Definition headers_ViaHop (hs : headers) : option ViaHop :=
  match headers_Via hs with Some (hop :: _) => Some hop | _ => None end.
Definition headers_From (hs : headers) : option AddressHeader :=
  match first_header hs "From" with Some (HFrom v) => Some v | _ => None end.
Definition headers_To (hs : headers) : option AddressHeader :=
  match first_header hs "To" with Some (HTo v) => Some v | _ => None end.
Definition headers_CSeq (hs : headers) : option (N * RequestMethod) :=
  match first_header hs "CSeq" with Some (HCSeq n m) => Some (n, m) | _ => None end.
Definition headers_ContentLength (hs : headers) : option N :=
  match first_header hs "Content-Length" with Some (HContentLength v) => Some v | _ => None end.
Definition headers_ContentType (hs : headers) : option string :=
  match first_header hs "Content-Type" with Some (HContentType v) => Some v | _ => None end.
Definition headers_Contact (hs : headers) : option AddressHeader :=
  match first_header hs "Contact" with Some (HContact v) => Some v | _ => None end.

(** ** Well-formed containers *)

Record headers_ok (hs : headers) : Prop := mkHeadersOk {
  order_nodup : NoDup (headerOrder hs);
  order_dom : forall n, n ∈ headerOrder hs <-> is_Some (hmap hs !! n);
  entries_ok : map_Forall (fun n l => l <> [] /\ Forall (fun h => key_of h = n /\ header_ok h) l)
                 (hmap hs)
}.

Lemma ToLower_key h : ToLower (key_of h) = key_of h.
Proof. apply ToLower_idem. Qed.

Lemma emptyHeaders_ok : headers_ok emptyHeaders.
Proof.
  split; cbn.
  - constructor.
  - intros n. rewrite lookup_empty. split; [by intros ?%elem_of_nil|by intros [? ?]].
  - apply map_Forall_empty.
Qed.

(** The headers of one name, with an absent name read as no header. *)
Definition entry (hs : headers) (n : string) : list Header := default [] (hmap hs !! n).

Lemma Headers_entry hs : Headers hs = concat (map (entry hs) (headerOrder hs)).
Proof. done. Qed.

Lemma entry_keys hs n h : headers_ok hs -> h ∈ entry hs n -> key_of h = n /\ header_ok h.
Proof.
  intros Hok. unfold entry. destruct (hmap hs !! n) as [l|] eqn:E; cbn.
  - apply (entries_ok _ Hok) in E as [_ Hl]. rewrite Forall_forall in Hl. auto.
  - by intros ?%elem_of_nil.
Qed.

(** [AddHeader] never panics on a well-formed container: it appends to the entry
    of the name, and to the order when the name is new. *)
Definition added (hs : headers) (h : Header) : headers :=
  mkHeaders (<[key_of h := entry hs (key_of h) ++ [h]]> (hmap hs))
    (if decide (is_Some (hmap hs !! key_of h)) then headerOrder hs else headerOrder hs ++ [key_of h]).

Lemma AddHeader_weak hs h :
  map_Forall (fun n l => l <> [] /\ Forall (fun h => key_of h = n /\ header_ok h) l) (hmap hs) ->
  AddHeader hs h = Ok (added hs h).
Proof.
  intros Hok. unfold AddHeader, added, entry.
  destruct (hmap hs !! key_of h) as [l|] eqn:E; cbn.
  - destruct (Hok _ _ E) as [Hne Hl].
    destruct l as [|a l]; [done|]. inversion Hl as [|? ? [_ Ha] _]; subst.
    rewrite Header_Equals_nil. cbn. destruct (Header_String_ok a Ha) as (s & ->). cbn.
    by rewrite decide_True by eauto.
  - by rewrite decide_False by (by intros [? ?]).
Qed.

Lemma AddHeader_added hs h : headers_ok hs -> AddHeader hs h = Ok (added hs h).
Proof. intros Hok. apply AddHeader_weak, Hok. Qed.

(** Replacing the entry of [n], with a new order that has the same names and [n]. *)
Lemma headers_ok_insert hs n l order :
  headers_ok hs -> l <> [] -> Forall (fun h => key_of h = n /\ header_ok h) l ->
  NoDup order -> (forall m, m ∈ order <-> m = n \/ m ∈ headerOrder hs) ->
  headers_ok (mkHeaders (<[n := l]> (hmap hs)) order).
Proof.
  intros Hok Hne Hl Hnd Hin. split; cbn; [done| |].
  - intros m. rewrite Hin, (order_dom _ Hok). destruct (decide (m = n)) as [->|Hmn].
    + rewrite lookup_insert_eq. naive_solver.
    + rewrite lookup_insert_ne by done. naive_solver.
  - apply map_Forall_insert_2; [done|apply (entries_ok _ Hok)].
Qed.

Lemma entry_forall hs n :
  headers_ok hs -> Forall (fun h => key_of h = n /\ header_ok h) (entry hs n).
Proof. intros Hok. apply Forall_forall. intros h. by apply entry_keys. Qed.

Lemma NoDup_snoc {A} (l : list A) x : NoDup l -> x ∉ l -> NoDup (l ++ [x]).
Proof.
  intros Hl Hx. apply NoDup_app. split; [done|]. split.
  - intros y Hy Hyx. apply list_elem_of_singleton in Hyx as ->. done.
  - apply NoDup_singleton.
Qed.

Lemma added_ok hs h : headers_ok hs -> header_ok h -> headers_ok (added hs h).
Proof.
  intros Hok Hh. apply headers_ok_insert; [done| | | |].
  - by destruct (entry hs (key_of h)).
  - apply Forall_app. split; [by apply entry_forall|by constructor].
  - case_decide as Hd; [apply order_nodup, Hok|].
    apply NoDup_snoc; [apply order_nodup, Hok|by rewrite (order_dom _ Hok)].
  - intros m. case_decide as Hd.
    + split; [auto|intros [->|?]; [by apply (order_dom _ Hok)|done]].
    + rewrite elem_of_app, list_elem_of_singleton. tauto.
Qed.

Lemma entry_insert m order n l k :
  entry (mkHeaders (<[n := l]> m) order) k = if decide (k = n) then l else default [] (m !! k).
Proof.
  unfold entry. cbn. case_decide as Hd; subst.
  - by rewrite lookup_insert_eq.
  - by rewrite lookup_insert_ne.
Qed.

Lemma entry_added hs h k :
  entry (added hs h) k = entry hs k ++ (if decide (k = key_of h) then [h] else []).
Proof.
  unfold added. rewrite entry_insert. case_decide; subst; [done|]. by rewrite app_nil_r.
Qed.

Lemma PrependHeader_entry hs h k :
  entry (PrependHeader hs h) k = (if decide (k = key_of h) then [h] else []) ++ entry hs k.
Proof.
  unfold PrependHeader. destruct (hmap hs !! key_of h) as [l|] eqn:E;
    rewrite entry_insert; case_decide; subst; unfold entry; rewrite ?E; done.
Qed.

Lemma PrependHeader_ok hs h : headers_ok hs -> header_ok h -> headers_ok (PrependHeader hs h).
Proof.
  intros Hok Hh. unfold PrependHeader. destruct (hmap hs !! key_of h) as [l|] eqn:E.
  - apply headers_ok_insert; [done|done| |apply order_nodup, Hok|].
    + constructor; [done|]. apply (entries_ok _ Hok _ _ E).
    + intros m. split; [auto|intros [->|?]; [|done]]. apply (order_dom _ Hok). eauto.
  - apply headers_ok_insert; [done|done|by constructor| |].
    + constructor; [|apply order_nodup, Hok]. rewrite (order_dom _ Hok), E. by intros [? ?].
    + intros m. by rewrite elem_of_cons.
Qed.

(** *** Positions in the order *)

Lemma last_position_spec n order :
  NoDup order ->
  match last_position n order with
  | None => n ∉ order
  | Some i => exists l1 l2, order = l1 ++ n :: l2 /\ length l1 = i
  end.
Proof.
  unfold last_position.
  set (f := fun '(i, found) name => (S i, if String.eqb name n then Some i else found)).
  enough (Hgen : forall l i0 found,
    NoDup l ->
    snd (foldl f (i0, found) l) =
      match list_find (eq n) l with Some (i, _) => Some (i0 + i)%nat | None => found end).
  { intros Hnd. rewrite (Hgen order 0%nat None Hnd).
    destruct (list_find (eq n) order) as [[i x]|] eqn:E.
    - apply list_find_Some in E as (Hi & <- & _). exists (take i order), (drop (S i) order).
      split; [by rewrite take_drop_middle|]. apply length_take_le.
      apply lookup_lt_Some in Hi. lia.
    - apply list_find_None in E. rewrite Forall_forall in E. intros Hin. by apply (E n Hin). }
  induction l as [|x l IH]; intros i0 found Hnd; [done|].
  inversion Hnd as [|? ? Hx Hl]; subst. cbn [foldl]. unfold f at 2. rewrite IH by done.
  cbn [list_find]. destruct (String.eqb_spec x n) as [->|Hne].
  - rewrite decide_True by done. rewrite (proj2 (list_find_None (eq n) l)).
    + f_equal. lia.
    + apply Forall_forall. by intros y Hy <-.
  - rewrite decide_False by done. destruct (list_find (eq n) l) as [[i y]|]; cbn; [|done].
    f_equal. lia.
Qed.

Lemma remove_first_middle n l1 l2 :
  n ∉ l1 -> remove_first n (l1 ++ n :: l2) = l1 ++ l2.
Proof.
  induction l1 as [|x l1 IH]; intros Hn; cbn.
  - by rewrite String.eqb_refl.
  - apply not_elem_of_cons in Hn as [Hne Hn]. destruct (String.eqb_spec x n); [congruence|].
    by rewrite IH.
Qed.

Lemma remove_first_absent n l : n ∉ l -> remove_first n l = l.
Proof.
  induction l as [|x l IH]; intros Hn; cbn; [done|].
  apply not_elem_of_cons in Hn as [Hne Hn]. destruct (String.eqb_spec x n); [congruence|].
  by rewrite IH.
Qed.

Lemma remove_first_filter n l : NoDup l -> remove_first n l = filter (fun m => m <> n) l.
Proof.
  induction 1 as [|x l Hx Hl IH]; [done|]. rewrite filter_cons. cbn [remove_first].
  destruct (String.eqb_spec x n) as [->|Hne].
  - rewrite decide_False by tauto. rewrite <- IH. by rewrite remove_first_absent.
  - rewrite decide_True by done. by rewrite IH.
Qed.

(** Cutting a list whose parts are known. *)
Lemma take_at {A} (l pre post : list A) n : l = pre ++ post -> n = length pre -> take n l = pre.
Proof. intros -> ->. apply take_app_length. Qed.

Lemma drop_at {A} (l pre post : list A) n : l = pre ++ post -> n = length pre -> drop n l = post.
Proof. intros -> ->. apply drop_app_length. Qed.

Lemma slice_at {A} (l pre mid post : list A) i j :
  l = pre ++ mid ++ post -> i = length pre -> j = (i + length mid)%nat -> slice i j l = mid.
Proof.
  intros -> -> ->. unfold slice. rewrite drop_app_length. apply take_app_length'. lia.
Qed.

(** The side conditions of the three lemmas above. *)
Ltac list_parts :=
  solve [ rewrite ?length_app; cbn; rewrite ?length_app; cbn; lia
        | rewrite <- ?app_assoc; cbn; rewrite <- ?app_assoc; cbn; done ].

(** The two orders of the names [a] and [k] in a duplicate-free list. *)
Lemma two_positions {A} (a k : A) l1 l2 m1 m2 :
  a <> k -> l1 ++ a :: l2 = m1 ++ k :: m2 ->
  (exists mid, l1 = m1 ++ k :: mid /\ m2 = mid ++ a :: l2)
  \/ (exists mid, m1 = l1 ++ a :: mid /\ l2 = mid ++ k :: m2).
Proof.
  intros Hne. revert m1. induction l1 as [|x l1 IH]; intros [|y m1] H; cbn in H; injection H.
  - congruence.
  - intros -> <-. right. eauto.
  - intros <- ->. left. eauto.
  - intros Heq <-. destruct (IH _ Heq) as [(mid & -> & ->)|(mid & -> & ->)]; [left|right];
      exists mid; done.
Qed.

Lemma NoDup_middle {A} (l1 l2 : list A) x : NoDup (l1 ++ x :: l2) -> x ∉ l1.
Proof. intros (_ & Hd & _)%NoDup_app Hx. apply (Hd x Hx). left. Qed.

(** The order after [PrependHeaderAfter], when the reference name is present. *)
Lemma PrependHeaderAfter_order hs h after :
  headers_ok hs -> is_Some (hmap hs !! ToLower after) -> key_of h <> ToLower after ->
  exists pre post,
    headerOrder (PrependHeaderAfter hs h after) = pre ++ [ToLower after; key_of h] ++ post
    /\ remove_first (key_of h) (headerOrder hs) = pre ++ [ToLower after] ++ post.
Proof.
  intros Hok [la Ea] Hne. unfold PrependHeaderAfter. rewrite Ea.
  set (a := ToLower after) in *. set (k := key_of h) in *.
  pose proof (order_nodup _ Hok) as Hnd.
  assert (Hin : a ∈ headerOrder hs) by (apply (order_dom _ Hok); eauto).
  pose proof (last_position_spec a _ Hnd) as Hpa. pose proof (last_position_spec k _ Hnd) as Hpk.
  destruct (last_position a (headerOrder hs)) as [i|]; [|done].
  destruct Hpa as (l1 & l2 & Ho & <-).
  destruct (last_position k (headerOrder hs)) as [j|]; cbn [headerOrder].
  - destruct Hpk as (m1 & m2 & Hm & <-). rewrite Hm.
    rewrite (remove_first_middle k) by (eapply NoDup_middle; by rewrite <- Hm).
    destruct (two_positions a k l1 l2 m1 m2) as [(mid & -> & ->)|(mid & -> & ->)];
      [done|congruence| |]; case_match eqn:Hle;
      [apply Nat.leb_le in Hle; rewrite length_app in Hle; cbn in Hle; lia| |
      |apply Nat.leb_gt in Hle; rewrite length_app in Hle; cbn in Hle; lia].
    + exists (m1 ++ mid), l2. split; [|by rewrite <- app_assoc].
      rewrite (take_at _ m1 (k :: mid ++ a :: l2)) by list_parts.
      rewrite (slice_at _ (m1 ++ [k]) (mid ++ [a]) l2) by list_parts.
      rewrite (drop_at _ (m1 ++ k :: mid ++ [a]) l2) by list_parts.
      by rewrite <- !app_assoc.
    + exists l1, (mid ++ m2). split; [|by rewrite <- app_assoc].
      rewrite (take_at _ (l1 ++ [a]) (mid ++ k :: m2)) by list_parts.
      rewrite (slice_at _ (l1 ++ [a]) mid (k :: m2)) by list_parts.
      rewrite (drop_at _ (l1 ++ a :: mid ++ [k]) m2) by list_parts.
      by rewrite <- !app_assoc.
  - exists l1, l2. rewrite remove_first_absent by done. split; [|done]. rewrite Ho.
    rewrite (take_at _ (l1 ++ [a]) l2), (drop_at _ (l1 ++ [a]) l2) by list_parts.
    by rewrite <- app_assoc.
Qed.

Lemma PrependHeaderAfter_same hs h after :
  headers_ok hs -> key_of h = ToLower after ->
  is_Some (hmap hs !! key_of h) -> headerOrder (PrependHeaderAfter hs h after) = headerOrder hs.
Proof.
  intros Hok Heq [l Hl]. unfold PrependHeaderAfter. rewrite <- Heq, Hl.
  pose proof (last_position_spec (key_of h) _ (order_nodup _ Hok)) as Hp.
  destruct (last_position (key_of h) (headerOrder hs)) as [i|]; cbn [headerOrder].
  - destruct Hp as (l1 & l2 & Ho & <-). rewrite (proj2 (Nat.leb_gt _ _)) by lia.
    unfold slice. rewrite Nat.sub_diag, take_0. cbn. rewrite Ho.
    rewrite (take_at _ l1 (key_of h :: l2)), (drop_at _ (l1 ++ [key_of h]) l2) by list_parts. done.
  - destruct Hp. apply (order_dom _ Hok). eauto.
Qed.

Lemma PrependHeaderAfter_hmap hs h after :
  headers_ok hs -> hmap (PrependHeaderAfter hs h after) = <[key_of h := h :: entry hs (key_of h)]> (hmap hs).
Proof.
  intros Hok. unfold PrependHeaderAfter, PrependHeader, entry.
  pose proof (last_position_spec (key_of h) _ (order_nodup _ Hok)) as Hp.
  destruct (hmap hs !! ToLower after).
  - destruct (last_position (key_of h) (headerOrder hs)); [done|cbn].
    rewrite (order_dom _ Hok), <- eq_None_not_Some in Hp. by rewrite Hp.
  - by destruct (hmap hs !! key_of h).
Qed.

Lemma PrependHeaderAfter_entry hs h after k :
  headers_ok hs ->
  entry (PrependHeaderAfter hs h after) k = (if decide (k = key_of h) then [h] else []) ++ entry hs k.
Proof.
  intros Hok. unfold entry at 1. rewrite PrependHeaderAfter_hmap by done.
  case_decide; subst; [by rewrite lookup_insert_eq|by rewrite lookup_insert_ne].
Qed.

Lemma PrependHeaderAfter_ok hs h after :
  headers_ok hs -> header_ok h -> headers_ok (PrependHeaderAfter hs h after).
Proof.
  intros Hok Hh. destruct (hmap hs !! ToLower after) as [la|] eqn:Ea.
  2:{ unfold PrependHeaderAfter. rewrite Ea. by apply PrependHeader_ok. }
  pose proof (PrependHeaderAfter_hmap hs h after Hok) as Hm.
  assert (NoDup (headerOrder (PrependHeaderAfter hs h after))
    /\ forall m, m ∈ headerOrder (PrependHeaderAfter hs h after)
                 <-> m = key_of h \/ m ∈ headerOrder hs) as [Hnd Hin].
  { destruct (decide (key_of h = ToLower after)) as [Heq|Hne].
    - rewrite PrependHeaderAfter_same by (try done; rewrite Heq; eauto).
      split; [apply Hok|]. intros m. split; [auto|intros [->|?]; [|done]].
      apply (order_dom _ Hok). rewrite Heq. eauto.
    - destruct (PrependHeaderAfter_order hs h after) as (pre & post & -> & Hr); [done|eauto|done|].
      rewrite remove_first_filter in Hr by apply Hok.
      assert (Hp : pre ++ [ToLower after; key_of h] ++ post
                   ≡ₚ key_of h :: filter (fun m => m <> key_of h) (headerOrder hs)).
      { rewrite Hr. cbn. by rewrite <- !Permutation_middle, Permutation_swap. }
      split.
      + rewrite Hp. constructor; [by rewrite list_elem_of_filter; intros []|].
        apply NoDup_filter, Hok.
      + intros m. rewrite Hp, elem_of_cons, list_elem_of_filter.
        destruct (decide (m = key_of h)); naive_solver. }
  destruct (PrependHeaderAfter hs h after) as [m order]. cbn in *. subst m.
  apply headers_ok_insert; [done|done| |done|done].
  constructor; [done|by apply entry_forall].
Qed.

(** *** Deletion *)

Definition deleted (hs : headers) (n : string) : headers :=
  mkHeaders (delete n (hmap hs)) (remove_first n (headerOrder hs)).

Lemma deleted_ok hs n : headers_ok hs -> headers_ok (deleted hs n).
Proof.
  intros Hok. unfold deleted. rewrite remove_first_filter by apply Hok. split; cbn.
  - apply NoDup_filter, Hok.
  - intros m. rewrite list_elem_of_filter, (order_dom _ Hok).
    destruct (decide (m = n)) as [->|Hmn].
    + rewrite lookup_delete_eq. split; [tauto|by intros [? ?]].
    + rewrite lookup_delete_ne by done. tauto.
  - apply map_Forall_delete, Hok.
Qed.

Lemma Headers_elem hs h : headers_ok hs -> h ∈ Headers hs <-> h ∈ entry hs (key_of h).
Proof.
  intros Hok. unfold Headers. rewrite list_elem_of_In, in_concat. split.
  - intros (l & Hl & Hh%list_elem_of_In). apply in_map_iff in Hl as (k & <- & _).
    pose proof (entry_keys hs k h Hok Hh) as [-> _]. done.
  - intros Hh. exists (entry hs (key_of h)). split; [|by apply list_elem_of_In].
    apply in_map_iff. exists (key_of h). split; [done|]. apply list_elem_of_In, (order_dom _ Hok).
    unfold entry in Hh. destruct (hmap hs !! key_of h); [eauto|]. by apply elem_of_nil in Hh.
Qed.

Lemma filter_none {A} (P : A -> Prop) `{!forall x, Decision (P x)} l :
  Forall (fun x => ~ P x) l -> filter P l = [].
Proof. induction 1; [done|]. rewrite filter_cons, decide_False by done. done. Qed.

Lemma filter_all {A} (P : A -> Prop) `{!forall x, Decision (P x)} l :
  Forall P l -> filter P l = l.
Proof. induction 1; [done|]. rewrite filter_cons, decide_True by done. by f_equal. Qed.

Lemma Headers_deleted hs n :
  headers_ok hs -> Headers (deleted hs n) = filter (fun h => key_of h <> n) (Headers hs).
Proof.
  intros Hok. unfold Headers, deleted. cbn [hmap headerOrder].
  rewrite remove_first_filter by apply Hok. induction (headerOrder hs) as [|k order IH]; [done|].
  cbn [map concat]. rewrite filter_app, <- IH, filter_cons. fold (entry hs k).
  destruct (decide (k = n)) as [->|Hne].
  - rewrite decide_False by tauto. rewrite (filter_none _ (entry hs n)); [done|].
    eapply Forall_impl; [apply entry_forall, Hok|]. intros h [Hk _] Hf. by apply Hf.
  - rewrite decide_True by done. cbn. rewrite lookup_delete_ne by done. fold (entry hs k).
    f_equal. symmetry. apply filter_all.
    eapply Forall_impl; [apply entry_forall, Hok|]. by intros h [-> _].
Qed.

Lemma DelHeader_deleted hs name names :
  DelHeader hs (name :: names) = foldl (fun hs n => deleted hs (ToLower n)) hs (name :: names).
Proof. done. Qed.

Lemma foldl_deleted_ok hs names :
  headers_ok hs -> headers_ok (foldl (fun hs n => deleted hs (ToLower n)) hs names).
Proof. revert hs. induction names; cbn; auto using deleted_ok. Qed.

Lemma DelHeader_wf hs names : headers_ok hs -> headers_ok (DelHeader hs names).
Proof.
  destruct names; [by intros; apply emptyHeaders_ok|]. rewrite DelHeader_deleted.
  apply foldl_deleted_ok.
Qed.

(** *** Building a container from a list *)

(** The names of a list of headers in the order of their first occurrence. *)
Definition first_keys (l : list Header) : list string :=
  foldl (fun ks h => if decide (key_of h ∈ ks) then ks else ks ++ [key_of h]) [] l.

(** The abstract view of a container: the list, stably grouped by name. *)
Definition grouped (l : list Header) : list Header :=
  concat (map (fun k => filter (fun h => key_of h = k) l) (first_keys l)).

Lemma first_keys_snoc l h :
  first_keys (l ++ [h])
  = if decide (key_of h ∈ first_keys l) then first_keys l else first_keys l ++ [key_of h].
Proof. unfold first_keys. by rewrite foldl_app. Qed.

Lemma newHeaders_built l :
  Forall header_ok l ->
  exists hs, newHeaders l = Ok hs /\ headers_ok hs /\ headerOrder hs = first_keys l
    /\ forall k, entry hs k = filter (fun h => key_of h = k) l.
Proof.
  induction l as [|h l IH] using rev_ind; intros Hl.
  - exists emptyHeaders. split; [done|]. split; [apply emptyHeaders_ok|done].
  - apply Forall_app in Hl as [Hl Hh]. inversion Hh as [|? ? Hh' _]; subst.
    destruct (IH Hl) as (hs & Hnew & Hok & Ho & He).
    exists (added hs h). unfold newHeaders in *. rewrite foldM_res_app, Hnew. cbn.
    rewrite AddHeader_added by done. cbn. split; [done|]. split; [by apply added_ok|]. split.
    + rewrite first_keys_snoc, <- Ho. unfold added. cbn. apply decide_ext.
      symmetry. apply (order_dom _ Hok).
    + intros k. rewrite entry_added, He, filter_app. f_equal. rewrite filter_cons, filter_nil.
      by destruct (decide (k = key_of h)), (decide (key_of h = k)); try congruence.
Qed.

Lemma foldM_AddHeader_more hs n l L :
  headers_ok hs -> hmap hs !! n = Some l -> Forall (fun h => key_of h = n /\ header_ok h) L ->
  foldM_res AddHeader hs L = Ok (mkHeaders (<[n := l ++ L]> (hmap hs)) (headerOrder hs)).
Proof.
  intros Hok Hn HL. revert hs l Hok Hn. induction HL as [|h L [Hk Hh] HL IH]; intros hs l Hok Hn; cbn.
  - rewrite app_nil_r, insert_id by done. by destruct hs.
  - rewrite AddHeader_added by done. cbn.
    assert (He : added hs h = mkHeaders (<[n := l ++ [h]]> (hmap hs)) (headerOrder hs)).
    { unfold added, entry. rewrite Hk, Hn. cbn. by rewrite decide_True by eauto. }
    rewrite (IH _ (l ++ [h])).
    + rewrite He. cbn. by rewrite insert_insert_eq, <- app_assoc.
    + by apply added_ok.
    + rewrite He. cbn. by rewrite lookup_insert_eq.
Qed.

Lemma foldM_AddHeader_new hs n L :
  headers_ok hs -> hmap hs !! n = None -> L <> [] ->
  Forall (fun h => key_of h = n /\ header_ok h) L ->
  foldM_res AddHeader hs L = Ok (mkHeaders (<[n := L]> (hmap hs)) (headerOrder hs ++ [n])).
Proof.
  intros Hok Hn Hne HL. destruct HL as [|h L [Hk Hh] HL]; [done|]. cbn.
  rewrite AddHeader_added by done. cbn.
  assert (He : added hs h = mkHeaders (<[n := [h]]> (hmap hs)) (headerOrder hs ++ [n])).
  { unfold added, entry. rewrite Hk, Hn. cbn. rewrite decide_False by (by intros [? ?]). done. }
  rewrite (foldM_AddHeader_more _ n [h]).
  - rewrite He. cbn. by rewrite insert_insert_eq.
  - by apply added_ok.
  - rewrite He. cbn. by rewrite lookup_insert_eq.
  - done.
Qed.

Lemma foldM_AddHeader_rebuild hs ks acc :
  headers_ok hs -> headers_ok acc -> NoDup ks ->
  (forall k, k ∈ ks -> is_Some (hmap hs !! k) /\ hmap acc !! k = None) ->
  exists m, foldM_res AddHeader acc (concat (map (entry hs) ks)) = Ok (mkHeaders m (headerOrder acc ++ ks))
    /\ forall k, m !! k = if decide (k ∈ ks) then hmap hs !! k else hmap acc !! k.
Proof.
  intros Hok Hacc Hnd. revert acc Hacc.
  induction Hnd as [|n ks Hn Hnd IH]; intros acc Hacc Hks; cbn.
  - exists (hmap acc). rewrite app_nil_r. split; [by destruct acc|done].
  - destruct (Hks n) as [[l Hl] Hnone]; [left|].
    assert (Hen : entry hs n = l) by (unfold entry; by rewrite Hl).
    destruct (entries_ok _ Hok _ _ Hl) as [Hne Hf].
    rewrite foldM_res_app, Hen, (foldM_AddHeader_new _ n) by done. cbn.
    edestruct IH as (m & Hm & Hlk).
    3:{ exists m. rewrite Hm. cbn. rewrite <- app_assoc. split; [done|].
        intros k. rewrite Hlk. cbn. destruct (decide (k = n)) as [->|Hkn].
        - rewrite decide_False by done. rewrite decide_True by left. by rewrite lookup_insert_eq.
        - rewrite lookup_insert_ne by done. apply decide_ext. rewrite elem_of_cons. tauto. }
    + apply headers_ok_insert; [done|done|done| |].
      * apply NoDup_snoc; [apply Hacc|]. rewrite (order_dom _ Hacc), Hnone. by intros [? ?].
      * intros k. rewrite elem_of_app, list_elem_of_singleton. tauto.
    + intros k Hk. destruct (Hks k) as [? ?]; [by right|]. split; [done|]. cbn.
      rewrite lookup_insert_ne; [done|]. by intros <-.
Qed.

Lemma newHeaders_Headers_id hs : headers_ok hs -> newHeaders (Headers hs) = Ok hs.
Proof.
  intros Hok. unfold newHeaders. rewrite Headers_entry.
  destruct (foldM_AddHeader_rebuild hs (headerOrder hs) emptyHeaders) as (m & -> & Hm).
  - done.
  - apply emptyHeaders_ok.
  - apply Hok.
  - intros k Hk. split; [by apply (order_dom _ Hok)|done].
  - destruct hs as [hm order]. cbn in *. do 2 f_equal. apply map_eq. intros k. rewrite Hm.
    case_decide as Hd; [done|]. rewrite lookup_empty. symmetry. apply eq_None_not_Some.
    by rewrite <- (order_dom _ Hok k).
Qed.

(** *** Rendering *)

Fixpoint lines_text (lines : list string) : string :=
  match lines with [] => "" | s :: lines' => s +:+ CRLF +:+ lines_text lines' end.

Lemma lines_text_app l1 l2 : lines_text (l1 ++ l2) = lines_text l1 +:+ lines_text l2.
Proof. induction l1 as [|s l1 IH]; cbn; [done|]. by rewrite IH, !sapp_assoc. Qed.

Lemma Headers_ok_elem hs h : headers_ok hs -> h ∈ Headers hs -> header_ok h.
Proof. intros Hok Hh. apply Headers_elem in Hh; [|done]. by apply (entry_keys hs (key_of h)). Qed.

Lemma foldM_lines {A} (f : A -> res string) l buf lines :
  mapM_res f l = Ok lines ->
  foldM_res (fun buffer a => s ← f a; mret (buffer +:+ s +:+ CRLF)) buf l
  = Ok (buf +:+ lines_text lines).
Proof.
  revert buf lines. induction l as [|a l IH]; intros buf lines; cbn.
  - intros [= <-]. cbn. by rewrite sapp_nil_r.
  - destruct (f a) as [s| |]; cbn; try done. destruct (mapM_res f l) as [ss| |]; cbn; try done.
    intros [= <-]. rewrite (IH _ ss) by done. cbn. by rewrite !sapp_assoc.
Qed.

Lemma mapM_res_app {A B} (f : A -> res B) l1 l2 :
  mapM_res f (l1 ++ l2) = (b1 ← mapM_res f l1; b2 ← mapM_res f l2; mret (b1 ++ b2)).
Proof.
  induction l1 as [|a l1 IH]; cbn.
  - by destruct (mapM_res f l2).
  - destruct (f a); cbn; [|done|done]. rewrite IH. destruct (mapM_res f l1); cbn; [|done|done].
    by destruct (mapM_res f l2).
Qed.

Lemma headers_String_lines hs lines :
  mapM_res Header_String (Headers hs) = Ok lines -> headers_String hs = Ok (lines_text lines).
Proof.
  unfold headers_String. rewrite Headers_entry.
  enough (Hgen : forall order buf lines,
    mapM_res Header_String (concat (map (entry hs) order)) = Ok lines ->
    foldM_res (fun buffer name =>
      foldM_res (fun buffer header => s ← Header_String header; mret (buffer +:+ s +:+ CRLF))
        buffer (entry hs name)) buf order = Ok (buf +:+ lines_text lines))
    by (intros H; exact (Hgen _ "" _ H)).
  induction order as [|n order IH]; intros buf lines'; cbn.
  - intros [= <-]. cbn. by rewrite sapp_nil_r.
  - rewrite mapM_res_app. destruct (mapM_res Header_String (entry hs n)) as [l1| |] eqn:E1;
      cbn; try done.
    destruct (mapM_res _ (concat _)) as [l2| |] eqn:E2; cbn; try done. intros [= <-].
    rewrite (foldM_lines _ _ _ l1) by done. cbn. rewrite (IH _ l2) by done.
    by rewrite lines_text_app, !sapp_assoc.
Qed.

Lemma mapM_String_ok l :
  (forall h, h ∈ l -> header_ok h) -> exists lines, mapM_res Header_String l = Ok lines.
Proof.
  induction l as [|h l IH]; intros Hl; cbn; [eauto|].
  destruct (Header_String_ok h) as (s & ->); [apply Hl; left|]. cbn.
  destruct IH as (ss & ->); [intros; apply Hl; by right|]. cbn. eauto.
Qed.

(** *** Reachable containers *)

(** A container built from the empty one by the operations; when [careful], with
    [ReplaceHeader] only of names that are present (see [ReplaceHeader_hides]). *)
Inductive built (careful : bool) : headers -> Prop :=
  | built_empty : built careful emptyHeaders
  | built_add hs hs' h : built careful hs -> header_ok h -> AddHeader hs h = Ok hs' -> built careful hs'
  | built_prepend hs h : built careful hs -> header_ok h -> built careful (PrependHeader hs h)
  | built_after hs h name : built careful hs -> header_ok h -> built careful (PrependHeaderAfter hs h name)
  | built_replace hs h :
      built careful hs -> header_ok h -> (careful = true -> is_Some (hmap hs !! key_of h)) ->
      built careful (ReplaceHeader hs h)
  | built_del hs names : built careful hs -> built careful (DelHeader hs names).

Lemma ReplaceHeader_ok hs h :
  headers_ok hs -> header_ok h -> is_Some (hmap hs !! key_of h) -> headers_ok (ReplaceHeader hs h).
Proof.
  intros Hok Hh Hin. unfold ReplaceHeader. rewrite lookup_insert_eq.
  apply headers_ok_insert; [done|done|by constructor|apply Hok|].
  intros m. split; [auto|intros [->|?]; [|done]]. by apply (order_dom _ Hok).
Qed.

Lemma built_headers_ok hs : built true hs -> headers_ok hs.
Proof.
  induction 1 as [|hs hs' h _ IH Hh Ha| | | |].
  - apply emptyHeaders_ok.
  - rewrite AddHeader_added in Ha by done. injection Ha as <-. by apply added_ok.
  - by apply PrependHeader_ok.
  - by apply PrependHeaderAfter_ok.
  - apply ReplaceHeader_ok; auto.
  - by apply DelHeader_wf.
Qed.

(** What holds without the care: the order may lack names of the map. *)
Record headers_weak (hs : headers) : Prop := mkHeadersWeak {
  weak_nodup : NoDup (headerOrder hs);
  weak_dom : forall n, n ∈ headerOrder hs -> is_Some (hmap hs !! n);
  weak_entries : map_Forall (fun n l => l <> [] /\ Forall (fun h => key_of h = n /\ header_ok h) l) (hmap hs)
}.

Lemma headers_ok_weak hs : headers_ok hs -> headers_weak hs.
Proof. intros [Hn Hd He]. split; [done| |done]. intros n. by rewrite Hd. Qed.

Lemma weak_insert hs n l order :
  headers_weak hs -> l <> [] -> Forall (fun h => key_of h = n /\ header_ok h) l ->
  NoDup order -> (forall m, m ∈ order -> m = n \/ m ∈ headerOrder hs) ->
  headers_weak (mkHeaders (<[n := l]> (hmap hs)) order).
Proof.
  intros Hw Hne Hl Hnd Hin. split; cbn; [done| |].
  - intros m [->|Hm]%Hin; [by rewrite lookup_insert_eq|]. destruct (decide (m = n)) as [->|];
      [by rewrite lookup_insert_eq|by rewrite lookup_insert_ne; [apply (weak_dom _ Hw)|]].
  - apply map_Forall_insert_2; [done|apply (weak_entries _ Hw)].
Qed.

Lemma weak_entry hs n : headers_weak hs -> Forall (fun h => key_of h = n /\ header_ok h) (entry hs n).
Proof.
  intros Hw. unfold entry. destruct (hmap hs !! n) as [l|] eqn:E; [|constructor].
  apply (weak_entries _ Hw _ _ E).
Qed.

Lemma weak_absent hs n : headers_weak hs -> hmap hs !! n = None -> n ∉ headerOrder hs.
Proof. intros Hw Hn [l Hl]%(weak_dom _ Hw). congruence. Qed.

Lemma added_weak hs h : headers_weak hs -> header_ok h -> headers_weak (added hs h).
Proof.
  intros Hw Hh. apply weak_insert; [done| | | |].
  - by destruct (entry hs (key_of h)).
  - apply Forall_app. split; [by apply weak_entry|by constructor].
  - case_decide as Hd; [apply Hw|]. apply NoDup_snoc; [apply Hw|].
    intros Hin. by apply Hd, (weak_dom _ Hw).
  - intros m. case_decide as Hd; [auto|]. rewrite elem_of_app, list_elem_of_singleton. tauto.
Qed.

Lemma PrependHeader_weak hs h : headers_weak hs -> header_ok h -> headers_weak (PrependHeader hs h).
Proof.
  intros Hw Hh. unfold PrependHeader. destruct (hmap hs !! key_of h) as [l|] eqn:E.
  - apply weak_insert; [done|done| |apply Hw|auto]. constructor; [done|]. apply (weak_entries _ Hw _ _ E).
  - apply weak_insert; [done|done|by constructor| |intros m; by rewrite elem_of_cons].
    constructor; [by apply weak_absent|apply Hw].
Qed.

(** The container without the names that the order lacks. *)
Definition visible (hs : headers) : headers :=
  mkHeaders (filter (fun kv => kv.1 ∈ headerOrder hs) (hmap hs)) (headerOrder hs).

Lemma visible_lookup hs n : n ∈ headerOrder hs -> hmap (visible hs) !! n = hmap hs !! n.
Proof.
  intros Hn. cbn. destruct (hmap hs !! n) as [l|] eqn:E.
  - by apply map_lookup_filter_Some.
  - apply map_lookup_filter_None. by left.
Qed.

Lemma visible_ok hs : headers_weak hs -> headers_ok (visible hs).
Proof.
  intros Hw. split; cbn; [apply Hw| |].
  - intros n. split; [|by intros (l & [_ Hn]%map_lookup_filter_Some)].
    intros Hn. destruct (weak_dom _ Hw _ Hn) as [l Hl]. exists l. by apply map_lookup_filter_Some.
  - intros n l [Hl _]%map_lookup_filter_Some. by apply (weak_entries _ Hw).
Qed.

(** The names in the order after [PrependHeaderAfter]. *)
Lemma PrependHeaderAfter_names hs h after la :
  headers_weak hs -> header_ok h -> hmap hs !! ToLower after = Some la ->
  NoDup (headerOrder (PrependHeaderAfter hs h after))
  /\ forall m, m ∈ headerOrder (PrependHeaderAfter hs h after) -> m = key_of h \/ m ∈ headerOrder hs.
Proof.
  intros Hw Hh Ha. pose proof (visible_ok hs Hw) as Hv. destruct (decide (ToLower after ∈ headerOrder hs)) as [Hin|Hout].
  - assert (He : headerOrder (PrependHeaderAfter hs h after) = headerOrder (PrependHeaderAfter (visible hs) h after)).
    { unfold PrependHeaderAfter. rewrite visible_lookup, Ha by done. cbn [headerOrder visible].
      by destruct (last_position (key_of h) (headerOrder hs)). }
    rewrite He. pose proof (PrependHeaderAfter_ok _ h after Hv Hh) as Ho. split; [apply Ho|].
    intros m Hm%(order_dom _ Ho). rewrite (PrependHeaderAfter_hmap _ _ _ Hv) in Hm.
    destruct (decide (m = key_of h)) as [->|Hne]; [by left|right].
    rewrite lookup_insert_ne in Hm by done. by apply (order_dom _ Hv).
  - unfold PrependHeaderAfter. rewrite Ha.
    pose proof (last_position_spec (ToLower after) _ (weak_nodup _ Hw)) as Hpa.
    destruct (last_position (ToLower after) (headerOrder hs)) as [i|];
      [destruct Hpa as (l1 & l2 & E & _); exfalso; apply Hout; rewrite E, elem_of_app; right; left|].
    pose proof (last_position_spec (key_of h) _ (weak_nodup _ Hw)) as Hpk. pose proof (weak_nodup _ Hw) as Hnd.
    destruct (last_position (key_of h) (headerOrder hs)) as [j|]; cbn.
    + destruct Hpk as (l1 & l2 & E & <-). unfold slice. rewrite Nat.sub_0_r, drop_0.
      rewrite E in Hnd |- *. rewrite take_app_length, (drop_at _ (l1 ++ [key_of h]) l2) by list_parts.
      rewrite <- Permutation_middle in Hnd. split; [done|].
      intros m. rewrite take_0. cbn. rewrite elem_of_cons, !elem_of_app, elem_of_cons. tauto.
    + rewrite drop_0, take_0. split; [by constructor|]. intros m. cbn. by rewrite elem_of_cons.
Qed.

Lemma PrependHeaderAfter_weak hs h after :
  headers_weak hs -> header_ok h -> headers_weak (PrependHeaderAfter hs h after).
Proof.
  intros Hw Hh. destruct (hmap hs !! ToLower after) as [la|] eqn:Ea;
    [|unfold PrependHeaderAfter; rewrite Ea; by apply PrependHeader_weak].
  destruct (PrependHeaderAfter_names hs h after la Hw Hh Ea) as [Hnd Hin].
  assert (exists l, hmap (PrependHeaderAfter hs h after) = <[key_of h := h :: l]> (hmap hs)
    /\ Forall (fun h' => key_of h' = key_of h /\ header_ok h') l) as (l & Hm & Hl).
  { unfold PrependHeaderAfter. rewrite Ea. destruct (last_position _ _); cbn.
    - exists (entry hs (key_of h)). split; [done|by apply weak_entry].
    - by exists []. }
  destruct (PrependHeaderAfter hs h after) as [m order]. cbn in *. subst m.
  apply weak_insert; try done. by constructor.
Qed.

Lemma ReplaceHeader_weak hs h : headers_weak hs -> header_ok h -> headers_weak (ReplaceHeader hs h).
Proof.
  intros Hw Hh. unfold ReplaceHeader. rewrite lookup_insert_eq.
  apply weak_insert; [done|done|by constructor|apply Hw|auto].
Qed.

Lemma deleted_weak hs n : headers_weak hs -> headers_weak (deleted hs n).
Proof.
  intros Hw. unfold deleted. rewrite remove_first_filter by apply Hw. split; cbn.
  - apply NoDup_filter, Hw.
  - intros m [Hne Hm]%list_elem_of_filter. rewrite lookup_delete_ne by done. by apply (weak_dom _ Hw).
  - apply map_Forall_delete, Hw.
Qed.

Lemma DelHeader_weak hs names : headers_weak hs -> headers_weak (DelHeader hs names).
Proof.
  destruct names as [|name names]; [by intros; apply headers_ok_weak, emptyHeaders_ok|]. rewrite DelHeader_deleted.
  generalize (name :: names). intros l. revert hs. induction l; cbn; auto using deleted_weak.
Qed.

Lemma built_weak careful hs : built careful hs -> headers_weak hs.
Proof.
  induction 1 as [|hs hs' h _ IH Hh Ha| | | |].
  - apply headers_ok_weak, emptyHeaders_ok.
  - rewrite AddHeader_weak in Ha by apply IH. injection Ha as <-. by apply added_weak.
  - by apply PrependHeader_weak.
  - by apply PrependHeaderAfter_weak.
  - by apply ReplaceHeader_weak.
  - by apply DelHeader_weak.
Qed.

Lemma weak_Headers hs h : headers_weak hs -> h ∈ Headers hs -> header_ok h.
Proof.
  intros Hw. rewrite Headers_entry, list_elem_of_In, in_concat. intros (l & Hl & Hh).
  apply in_map_iff in Hl as (k & <- & _). pose proof (weak_entry hs k Hw) as Hf. rewrite Forall_forall in Hf.
  by apply Hf, list_elem_of_In.
Qed.

Lemma foldl_deleted_Headers hs names :
  headers_ok hs ->
  Headers (foldl (fun hs n => deleted hs (ToLower n)) hs names)
  = filter (fun h => key_of h ∉ map ToLower names) (Headers hs).
Proof.
  revert hs. induction names as [|n names IH]; intros hs Hok; cbn.
  - symmetry. apply filter_all, Forall_forall. by intros h _ ?%elem_of_nil.
  - rewrite IH, Headers_deleted, list_filter_filter by auto using deleted_ok.
    apply list_filter_iff. intros h. rewrite not_elem_of_cons. tauto.
Qed.

(** A sample container: a From header and two generic headers of one name. *)
Definition sample_from : Header := HFrom (mkAddress None (Some (USip sample_uri)) (Some sample_params)).
Definition sample_list : list Header := [sample_from; HGeneric "X-A" "1"; HCallID "c"; HGeneric "x-a" "2"].
Definition sample_headers : headers :=
  match newHeaders sample_list with Ok hs => hs | _ => emptyHeaders end.

Lemma sample_list_ok : Forall header_ok sample_list.
Proof. repeat constructor; apply sample_from_ok. Qed.

Lemma sample_headers_ok : headers_ok sample_headers.
Proof.
  unfold sample_headers. destruct (newHeaders_built sample_list sample_list_ok) as (hs & -> & H & _).
  done.
Qed.

(** ** Properties *)

(** C38: what holds of every container that the operations build.  The order has no
    name twice and only names of the map, no entry is empty, every header is filed under
    its own name; adding to the container cannot panic, and rendering it succeeds.  When
    [ReplaceHeader] was only called for names that were present, the order also lists
    every name of the map; calling it for an absent name breaks this, always. *)
Theorem built_invariant (careful : bool) (hs : headers) :
  built careful hs ->
  headers_weak hs
  /\ (forall h, AddHeader hs h = Ok (added hs h))
  /\ (exists lines, mapM_res Header_String (Headers hs) = Ok lines
                   /\ headers_String hs = Ok (lines_text lines))
  /\ (careful = true -> headers_ok hs)
  /\ (forall h, hmap hs !! key_of h = None -> ~ headers_ok (ReplaceHeader hs h)).
Proof.
  intros Hb. pose proof (built_weak _ _ Hb) as Hw. split; [done|].
  split; [intros h; apply AddHeader_weak, Hw|]. split; [|split; [intros ->; by apply built_headers_ok|]].
  - destruct (mapM_String_ok (Headers hs)) as (lines & Hl); [by intros; eapply weak_Headers|].
    eauto using headers_String_lines.
  - intros h Hn Hok. apply (weak_absent _ _ Hw Hn).
    assert (headerOrder (ReplaceHeader hs h) = headerOrder hs) as <- by (unfold ReplaceHeader; by rewrite lookup_insert_eq).
    apply (order_dom _ Hok). unfold ReplaceHeader. cbn. by rewrite lookup_insert_eq.
Qed.

Lemma built_invariant_witness :
  headers_ok (PrependHeader emptyHeaders (HCallID "c"))
  /\ headers_weak (ReplaceHeader (PrependHeader emptyHeaders (HCallID "c")) (HExpires 60))
  /\ ~ headers_ok (ReplaceHeader (PrependHeader emptyHeaders (HCallID "c")) (HExpires 60)).
Proof.
  split; [|split].
  - apply (built_invariant true (PrependHeader emptyHeaders (HCallID "c"))); [repeat constructor|reflexivity].
  - apply (built_invariant false (ReplaceHeader (PrependHeader emptyHeaders (HCallID "c")) (HExpires 60))).
    apply built_replace; [repeat constructor|exact I|discriminate].
  - apply (built_invariant true (PrependHeader emptyHeaders (HCallID "c"))); [repeat constructor|reflexivity].
Defined.

(** building a container from a list of headers succeeds and groups the list
    by name: names in the order of their first occurrence, the headers of one name
    in their order of arrival; [GetHeaders] is the sublist of one name. *)
Theorem newHeaders_groups (l : list Header) :
  Forall header_ok l ->
  exists hs, newHeaders l = Ok hs /\ Headers hs = grouped l
    /\ forall name, GetHeaders hs name = filter (fun h => key_of h = ToLower name) l.
Proof.
  intros Hl. destruct (newHeaders_built l Hl) as (hs & Hn & Hok & Ho & He).
  exists hs. split; [done|]. split; [|by intros; apply He].
  rewrite Headers_entry, Ho. unfold grouped. f_equal. apply map_ext. apply He.
Qed.

Lemma newHeaders_groups_witness :
  exists hs, newHeaders sample_list = Ok hs
    /\ Headers hs = [sample_from; HGeneric "X-A" "1"; HGeneric "x-a" "2"; HCallID "c"].
Proof.
  destruct (newHeaders_groups sample_list sample_list_ok) as (hs & Hn & Hg & _).
  exists hs. split; [exact Hn|]. rewrite Hg. reflexivity.
Defined.

(** a container is determined by its list of headers: rebuilding one from
    [Headers] gives the same container, map and order. *)
Theorem newHeaders_Headers (hs : headers) : headers_ok hs -> newHeaders (Headers hs) = Ok hs.
Proof. apply newHeaders_Headers_id. Qed.

Lemma newHeaders_Headers_witness : newHeaders (Headers sample_headers) = Ok sample_headers.
Proof. apply (newHeaders_Headers sample_headers sample_headers_ok). Defined.

(** deleting names removes exactly the headers of these names, compared
    without case, and keeps the order of the others. *)
Theorem DelHeader_Headers (hs : headers) (name : string) (names : list string) :
  headers_ok hs ->
  Headers (DelHeader hs (name :: names))
  = filter (fun h => key_of h ∉ map ToLower (name :: names)) (Headers hs).
Proof. intros Hok. rewrite DelHeader_deleted. by apply foldl_deleted_Headers. Qed.

Lemma DelHeader_Headers_witness :
  Headers (DelHeader sample_headers ["X-a"; "FROM"]) = [HCallID "c"].
Proof.
  rewrite (DelHeader_Headers sample_headers "X-a" ["FROM"] sample_headers_ok). reflexivity.
Defined.

(** [PrependHeaderAfter] puts the header first among those of its name, keeps
    every other entry, and moves its name directly behind the reference name while
    the other names keep their order. *)
Theorem PrependHeaderAfter_spec (hs : headers) (h : Header) (after : string) :
  headers_ok hs -> header_ok h ->
  let hs' := PrependHeaderAfter hs h after in
  headers_ok hs'
  /\ (forall name, GetHeaders hs' name
                   = (if decide (ToLower name = key_of h) then [h] else []) ++ GetHeaders hs name)
  /\ (is_Some (hmap hs !! ToLower after) -> key_of h <> ToLower after ->
      exists pre post, headerOrder hs' = pre ++ [ToLower after; key_of h] ++ post
                       /\ remove_first (key_of h) (headerOrder hs) = pre ++ [ToLower after] ++ post).
Proof.
  intros Hok Hh. split; [by apply PrependHeaderAfter_ok|]. split.
  - intros name. by apply (PrependHeaderAfter_entry hs h after (ToLower name)).
  - intros. by apply PrependHeaderAfter_order.
Qed.

Lemma PrependHeaderAfter_spec_witness :
  exists pre post, headerOrder (PrependHeaderAfter sample_headers (HCallID "d") "From")
                   = pre ++ ["from"; "call-id"] ++ post.
Proof.
  destruct (PrependHeaderAfter_spec sample_headers (HCallID "d") "From" sample_headers_ok I)
    as (_ & _ & H).
  destruct H as (pre & post & H & _); [eexists; reflexivity|discriminate|].
  exists pre, post. exact H.
Defined.

(** replacing a header whose name is absent stores it where [GetHeaders] finds
    it, but its name never enters the order: the rendering and [Headers] lack it. *)
Theorem ReplaceHeader_hides (hs : headers) (h : Header) :
  headers_ok hs -> hmap hs !! key_of h = None ->
  GetHeaders (ReplaceHeader hs h) (Name h) = [h]
  /\ Headers (ReplaceHeader hs h) = Headers hs
  /\ headers_String (ReplaceHeader hs h) = headers_String hs.
Proof.
  intros Hok Hn.
  assert (He : forall k, k ∈ headerOrder hs -> entry (ReplaceHeader hs h) k = entry hs k).
  { intros k Hk. unfold ReplaceHeader. rewrite lookup_insert_eq, entry_insert.
    case_decide; [|done]. subst k. apply (order_dom _ Hok) in Hk. rewrite Hn in Hk. by destruct Hk. }
  assert (Ho : headerOrder (ReplaceHeader hs h) = headerOrder hs)
    by (unfold ReplaceHeader; by rewrite lookup_insert_eq).
  assert (HH : Headers (ReplaceHeader hs h) = Headers hs).
  { rewrite !Headers_entry, Ho. f_equal. apply map_ext_in. intros k Hk%list_elem_of_In. by apply He. }
  split; [|split; [done|]].
  - unfold GetHeaders, ReplaceHeader. rewrite lookup_insert_eq. cbn.
    unfold key_of. by rewrite lookup_insert_eq.
  - destruct (mapM_String_ok (Headers hs)) as (lines & Hl); [by intros; eapply Headers_ok_elem|].
    by rewrite (headers_String_lines hs lines), (headers_String_lines _ lines) by (rewrite ?HH; done).
Qed.

Lemma ReplaceHeader_hides_witness :
  Headers (ReplaceHeader sample_headers (HExpires 60)) = Headers sample_headers.
Proof.
  destruct (ReplaceHeader_hides sample_headers (HExpires 60) sample_headers_ok) as (_ & H & _);
    [reflexivity|exact H].
Defined.
