(* ===== verification/Auth.v ===== *)
(** * Digest authorization (sip/auth.go)

    The parser of the authorization header, the digest response and the MD5
    function of the package [crypto/md5] that it calls. *)

From S2P Require Import Prelude GoStrings Params Base Uri Header Headers.
From Stdlib Require Import NArith Lia.

#[local] Open Scope string_scope.
#[local] Open Scope list_scope.

(** ** MD5 (RFC 1321), with the digest in hexadecimal *)

Module Md5.

Definition word (n : N) : N := (n mod 2 ^ 32)%N.
Definition rotl (x c : N) : N := word (N.lor (N.shiftl x c) (N.shiftr x (32 - c))).
Definition not32 (x : N) : N := N.lxor x 0xffffffff.

Definition shifts : list N :=
  [7; 12; 17; 22; 7; 12; 17; 22; 7; 12; 17; 22; 7; 12; 17; 22;
   5; 9; 14; 20; 5; 9; 14; 20; 5; 9; 14; 20; 5; 9; 14; 20;
   4; 11; 16; 23; 4; 11; 16; 23; 4; 11; 16; 23; 4; 11; 16; 23;
   6; 10; 15; 21; 6; 10; 15; 21; 6; 10; 15; 21; 6; 10; 15; 21]%N.

Definition sines : list N :=
  [0xd76aa478; 0xe8c7b756; 0x242070db; 0xc1bdceee; 0xf57c0faf; 0x4787c62a; 0xa8304613; 0xfd469501;
   0x698098d8; 0x8b44f7af; 0xffff5bb1; 0x895cd7be; 0x6b901122; 0xfd987193; 0xa679438e; 0x49b40821;
   0xf61e2562; 0xc040b340; 0x265e5a51; 0xe9b6c7aa; 0xd62f105d; 0x02441453; 0xd8a1e681; 0xe7d3fbc8;
   0x21e1cde6; 0xc33707d6; 0xf4d50d87; 0x455a14ed; 0xa9e3e905; 0xfcefa3f8; 0x676f02d9; 0x8d2a4c8a;
   0xfffa3942; 0x8771f681; 0x6d9d6122; 0xfde5380c; 0xa4beea44; 0x4bdecfa9; 0xf6bb4b60; 0xbebfbc70;
   0x289b7ec6; 0xeaa127fa; 0xd4ef3085; 0x04881d05; 0xd9d4d039; 0xe6db99e5; 0x1fa27cf8; 0xc4ac5665;
   0xf4292244; 0x432aff97; 0xab9423a7; 0xfc93a039; 0x655b59c3; 0x8f0ccc92; 0xffeff47d; 0x85845dd1;
   0x6fa87e4f; 0xfe2ce6e0; 0xa3014314; 0x4e0811a1; 0xf7537e82; 0xbd3af235; 0x2ad7d2bb; 0xeb86d391]%N.

Definition regs : Type := (N * N * N * N)%type.

(** The function and the message word of step [i]. *)
Definition mix (i : nat) (b c d : N) : N * nat :=
  if (i <? 16)%nat then (N.lor (N.land b c) (N.land (not32 b) d), i)
  else if (i <? 32)%nat then (N.lor (N.land d b) (N.land (not32 d) c), (5 * i + 1) mod 16)%nat
  else if (i <? 48)%nat then (N.lxor b (N.lxor c d), (3 * i + 5) mod 16)%nat
  else (N.lxor c (N.lor b (not32 d)), (7 * i) mod 16)%nat.

Definition step (m : list N) (r : regs) (i : nat) : regs :=
  let '(a, b, c, d) := r in
  let '(f, g) := mix i b c d in
  let f := word (f + a + nth i sines 0 + nth g m 0)%N in
  (d, word (b + rotl f (nth i shifts 0)), b, c)%N.

Definition block (r : regs) (m : list N) : regs :=
  let '(a, b, c, d) := r in
  let '(a', b', c', d') := foldl (step m) r (seq 0 64) in
  (word (a + a'), word (b + b'), word (c + c'), word (d + d'))%N.

(** Little-endian encoding on [n] bytes. *)
Fixpoint le_bytes (n : nat) (x : N) : list N :=
  match n with 0%nat => [] | S n' => (x mod 256)%N :: le_bytes n' (x / 256)%N end.

Definition le_word (l : list N) : N := foldr (fun b acc => b + 256 * acc)%N 0%N l.

Fixpoint chunks {A} (k fuel : nat) (l : list A) : list (list A) :=
  match fuel, l with
  | S fuel', _ :: _ => take k l :: chunks k fuel' (drop k l)
  | _, _ => []
  end.

Definition padded (bytes : list N) : list N :=
  let n := length bytes in
  bytes ++ [128%N] ++ replicate ((119 - n mod 64) mod 64)%nat 0%N
  ++ le_bytes 8 (8 * N.of_nat n)%N.

Definition Sum (bytes : list N) : list N :=
  let p := padded bytes in
  let '(a, b, c, d) :=
    foldl (fun r chunk => block r (map le_word (chunks 4 16 chunk)))
      (0x67452301, 0xefcdab89, 0x98badcfe, 0x10325476)%N (chunks 64 (length p) p) in
  le_bytes 4 a ++ le_bytes 4 b ++ le_bytes 4 c ++ le_bytes 4 d.

End Md5.

Definition hex_digit (n : N) : ascii := if (n <? 10)%N then byte_of (48 + n) else byte_of (87 + n).

(** [hex.EncodeToString] *)
Fixpoint EncodeToString (l : list N) : string :=
  match l with
  | [] => ""
  | b :: l' => String (hex_digit (b / 16)) (String (hex_digit (b mod 16)) (EncodeToString l'))
  end.

Definition md5hex (s : string) : string :=
  EncodeToString (Md5.Sum (map N_of_ascii (String.list_ascii_of_string s))).

Example md5_empty : md5hex "" = "d41d8cd98f00b204e9800998ecf8427e".
Proof. vm_compute. reflexivity. Qed.

Example md5_digits :
  md5hex "12345678901234567890123456789012345678901234567890123456789012345678901234567890"
  = "57edf4a22be3c955ac49da2e2107b67a".
Proof. vm_compute. reflexivity. Qed.

(** ** The digest response *)

Definition calcResponse (Username Realm Password Method Uri Nonce : string) : string :=
  let A1 := md5hex (Username +:+ ":" +:+ Realm +:+ ":" +:+ Password) in
  let A2 := md5hex (ToUpper Method +:+ ":" +:+ Uri) in
  md5hex (A1 +:+ ":" +:+ Nonce +:+ ":" +:+ A2).

(** The example of RFC 2069 (with the correction of its errata). *)
Example calcResponse_rfc2069 :
  calcResponse "Mufasa" "testrealm@host.com" "CircleOfLife" "GET" "/dir/index.html"
    "dcd98b7102dd2f0e8b11d0f600bfb0c093" = "1949323746fe6a43ef61f9606e7febea".
Proof. vm_compute. reflexivity. Qed.

(** ** Parsing *)

Definition CreateAuthorization : Authorization :=
  mkAuthorization "" "" "" "" "MD5" "" "" "" "" "" (Some NewParams).

Definition SetName (a : Authorization) (name : string) : Authorization :=
  mkAuthorization name (auth_mode a) (Realm a) (Nonce a) (Algorithm a) (Username a) (Password a)
    (AUri a) (Response a) (Method a) (Other a).
Definition SetMode (a : Authorization) (mode : string) : Authorization :=
  mkAuthorization (auth_name a) mode (Realm a) (Nonce a) (Algorithm a) (Username a) (Password a)
    (AUri a) (Response a) (Method a) (Other a).
Definition SetUsername (a : Authorization) (u : string) : Authorization :=
  mkAuthorization (auth_name a) (auth_mode a) (Realm a) (Nonce a) (Algorithm a) u (Password a)
    (AUri a) (Response a) (Method a) (Other a).
Definition SetUri (a : Authorization) (u : string) : Authorization :=
  mkAuthorization (auth_name a) (auth_mode a) (Realm a) (Nonce a) (Algorithm a) (Username a)
    (Password a) u (Response a) (Method a) (Other a).
Definition SetMethod (a : Authorization) (m : string) : Authorization :=
  mkAuthorization (auth_name a) (auth_mode a) (Realm a) (Nonce a) (Algorithm a) (Username a)
    (Password a) (AUri a) (Response a) m (Other a).
Definition SetPassword (a : Authorization) (p : string) : Authorization :=
  mkAuthorization (auth_name a) (auth_mode a) (Realm a) (Nonce a) (Algorithm a) (Username a) p
    (AUri a) (Response a) (Method a) (Other a).
Definition SetResponse (a : Authorization) (r : string) : Authorization :=
  mkAuthorization (auth_name a) (auth_mode a) (Realm a) (Nonce a) (Algorithm a) (Username a)
    (Password a) (AUri a) r (Method a) (Other a).
Definition SetRealm (a : Authorization) (r : string) : Authorization :=
  mkAuthorization (auth_name a) (auth_mode a) r (Nonce a) (Algorithm a) (Username a)
    (Password a) (AUri a) (Response a) (Method a) (Other a).
Definition SetNonce (a : Authorization) (n : string) : Authorization :=
  mkAuthorization (auth_name a) (auth_mode a) (Realm a) n (Algorithm a) (Username a)
    (Password a) (AUri a) (Response a) (Method a) (Other a).
Definition SetAlgorithm (a : Authorization) (g : string) : Authorization :=
  mkAuthorization (auth_name a) (auth_mode a) (Realm a) (Nonce a) g (Username a)
    (Password a) (AUri a) (Response a) (Method a) (Other a).
Definition SetOther (a : Authorization) (ps : headerParams) : Authorization :=
  mkAuthorization (auth_name a) (auth_mode a) (Realm a) (Nonce a) (Algorithm a) (Username a)
    (Password a) (AUri a) (Response a) (Method a) (Some ps).

Definition CalcResponse (a : Authorization) : Authorization :=
  SetResponse a (calcResponse (Username a) (Realm a) (Password a) (Method a) (AUri a) (Nonce a)).

(** [\w] of the package [regexp]. *)
Definition is_word (c : ascii) : bool :=
  is_digit c || is_upper c || is_lower c || Ascii.eqb c "_".

(** The matcher of the regular expression: a word, then an equals sign and an opening
    quote, then a nonempty text up to the next quote.  The word is the whole run of word characters before the
    equals sign (the leftmost match starts at the run's first character), and a text
    without a closing quote leaves no quote for a later match, so one pass over the
    bytes finds the matches that [FindAllStringSubmatch] returns. *)
Inductive scan : Type :=
  | InWord (w : string)
  | AfterEq (w : string)
  | InValue (w v : string).

Fixpoint FindAllStringSubmatch (st : scan) (s : string) : list (string * string) :=
  match s with
  | "" => []
  | String c s' =>
      match st with
      | InWord w =>
          if is_word c then FindAllStringSubmatch (InWord (w +:+ String c "")) s'
          else if Ascii.eqb c "=" && negb (String.eqb w "") then FindAllStringSubmatch (AfterEq w) s'
          else FindAllStringSubmatch (InWord "") s'
      | AfterEq w =>
          if Ascii.eqb c QUOTE then FindAllStringSubmatch (InValue w "") s'
          else if is_word c then FindAllStringSubmatch (InWord (String c "")) s'
          else FindAllStringSubmatch (InWord "") s'
      | InValue w v =>
          if Ascii.eqb c QUOTE then
            if String.eqb v "" then FindAllStringSubmatch (InWord "") s'
            else (w, v) :: FindAllStringSubmatch (InWord "") s'
          else FindAllStringSubmatch (InValue w (v +:+ String c "")) s'
      end
  end.

(** The [switch] on the key of one match. *)
Definition store_match (auth : Authorization) (m : string * string) : res Authorization :=
  let '(key, value) := m in
  if String.eqb key "realm" then Ok (SetRealm auth value)
  else if String.eqb key "algorithm" then Ok (SetAlgorithm auth value)
  else if String.eqb key "nonce" then Ok (SetNonce auth value)
  else if String.eqb key "username" then Ok (SetUsername auth value)
  else if String.eqb key "uri" then Ok (SetUri auth value)
  else if String.eqb key "response" then Ok (SetResponse auth value)
  else if String.eqb key "method" then Ok (SetMethod auth value)
  else ps ← deref (Other auth); mret (SetOther auth (Add ps key (Some value))).

Definition ParseAuthorization (auth : Authorization) (value : string) : res Authorization :=
  let auth := match index_str "capability" (ToLower value) with
              | Some _ => SetMode auth "Capability"
              | None => auth
              end in
  foldM_res store_match auth (FindAllStringSubmatch (InWord "") value).

Definition parseAuthorization (headerName headerData : string) : res (list Header) :=
  auth ← ParseAuthorization (SetName CreateAuthorization headerName) headerData;
  mret [HAuthorization auth].

(** The header value that [Authorization_String] writes after the name. *)
Definition digest_value (a : Authorization) : string :=
  Mode a +:+ " "
  +:+ join "," [ quoted "username" (Username a); quoted "realm" (Realm a);
                 quoted "nonce" (Nonce a); quoted "uri" (AUri a);
                 quoted "response" (Response a); "algorithm=" +:+ Algorithm a ].

Example FindAll_examples :
  FindAllStringSubmatch (InWord "") ("Digest realm=" +:+ DQ +:+ "a b" +:+ DQ +:+ ", k=" +:+ DQ +:+ DQ
     +:+ " x==" +:+ DQ +:+ "c" +:+ DQ +:+ "y9=" +:+ DQ +:+ "=z" +:+ DQ +:+ "t=" +:+ DQ +:+ "open")
  = [("realm", "a b"); ("y9", "=z")].
Proof. reflexivity. Qed.

(** ** Lemmas *)

Definition no_quote (s : string) : bool := sforall (fun c => negb (Ascii.eqb c QUOTE)) s.

(** A field of the digest that the rendering quotes and the matcher finds again. *)
Definition digest_field (s : string) : bool := negb (String.eqb s "") && no_quote s.

Lemma scan_word w k s :
  sforall is_word k = true ->
  FindAllStringSubmatch (InWord w) (k +:+ s) = FindAllStringSubmatch (InWord (w +:+ k)) s.
Proof.
  revert w. induction k as [|c k IH]; intros w; cbn.
  - by rewrite sapp_nil_r.
  - intros [Hc Hk]%andb_prop. rewrite Hc, IH by done. by rewrite sapp_assoc.
Qed.

Lemma scan_value w u v s :
  no_quote v = true ->
  FindAllStringSubmatch (InValue w u) (v +:+ s) = FindAllStringSubmatch (InValue w (u +:+ v)) s.
Proof.
  revert u. induction v as [|c v IH]; intros u; cbn.
  - by rewrite sapp_nil_r.
  - intros [Hc Hv]%andb_prop. apply negb_true_iff in Hc. rewrite Hc, IH by done. by rewrite sapp_assoc.
Qed.

Lemma scan_quoted k v s :
  negb (String.eqb k "") && sforall is_word k = true -> digest_field v = true ->
  FindAllStringSubmatch (InWord "") (quoted k v +:+ s) = (k, v) :: FindAllStringSubmatch (InWord "") s.
Proof.
  intros [Hk Hw]%andb_prop [Hv Hq]%andb_prop. apply negb_true_iff in Hv. unfold quoted.
  rewrite sapp_assoc, scan_word by done. cbn [String.append FindAllStringSubmatch].
  change (is_word "=") with false. rewrite Hk. change (Ascii.eqb "=" "=") with true. cbn.
  rewrite sapp_assoc, scan_value by done. cbn. by rewrite Hv.
Qed.

Lemma scan_comma s :
  FindAllStringSubmatch (InWord "") ("," +:+ s) = FindAllStringSubmatch (InWord "") s.
Proof. done. Qed.

(** A text without quotes holds no match. *)
Lemma scan_no_quote st s : no_quote s = true -> FindAllStringSubmatch st s = [].
Proof.
  revert st. induction s as [|c s IH]; intros st; [done|]. cbn.
  intros [Hc Hs]%andb_prop. apply negb_true_iff in Hc. rewrite Hc.
  destruct st; repeat case_match; auto.
Qed.

Lemma is_word_lower c : is_word (lower_byte c) = is_word c.
Proof. destruct c as [[] [] [] [] [] [] [] []]; reflexivity. Qed.

Lemma is_word_ToLower s : sforall is_word (ToLower s) = sforall is_word s.
Proof. unfold ToLower. induction s as [|c s IH]; cbn; [done|]. by rewrite is_word_lower, IH. Qed.

Lemma ParseAuthorization_no_panic auth value :
  is_Some (Other auth) ->
  exists auth', ParseAuthorization auth value = Ok auth' /\ auth_name auth' = auth_name auth
    /\ is_Some (Other auth').
Proof.
  intros Ho. unfold ParseAuthorization.
  set (a := match index_str _ _ with Some _ => _ | None => _ end).
  assert (Ha : auth_name a = auth_name auth /\ is_Some (Other a))
    by (subst a; by destruct (index_str _ _)).
  clearbody a. destruct (foldM_res_ok store_match
    (fun b => auth_name b = auth_name auth /\ is_Some (Other b)) (fun _ => True)
    (FindAllStringSubmatch (InWord "") value)) with (s := a) as (b & Hb & Hp).
  - intros b [key v] [Hn [ps Hps]] _. unfold store_match.
    repeat case_match; try (eexists; split; [reflexivity|cbn; eauto]).
    rewrite Hps. cbn. eexists. split; [reflexivity|cbn; eauto].
  - by apply Forall_forall.
  - done.
  - exists b. tauto.
Qed.

Lemma hex_digit_word n : (n < 16)%N -> is_word (hex_digit n) = true.
Proof.
  intros Hn.
  assert (Hall : forallb (fun k => is_word (hex_digit (N.of_nat k))) (seq 0 16) = true) by reflexivity.
  rewrite forallb_forall in Hall. specialize (Hall (N.to_nat n)).
  rewrite N2Nat.id in Hall. apply Hall, in_seq. lia.
Qed.

Lemma EncodeToString_spec l :
  Forall (fun b => (b < 256)%N) l ->
  String.length (EncodeToString l) = (2 * length l)%nat /\ sforall is_word (EncodeToString l) = true.
Proof.
  induction 1 as [|b l Hb _ [IHl IHw]]; [done|]. cbn. split; [lia|].
  rewrite !hex_digit_word, IHw; [done| |].
  - apply N.mod_lt. lia.
  - apply N.Div0.div_lt_upper_bound. lia.
Qed.

Lemma le_bytes_spec n x : length (Md5.le_bytes n x) = n /\ Forall (fun b => (b < 256)%N) (Md5.le_bytes n x).
Proof.
  revert x. induction n as [|n IH]; intros x; cbn; [done|].
  destruct (IH (x / 256)%N) as [-> Hf]. split; [done|]. constructor; [|done]. apply N.mod_lt. lia.
Qed.

Lemma Sum_spec bytes : length (Md5.Sum bytes) = 16%nat /\ Forall (fun b => (b < 256)%N) (Md5.Sum bytes).
Proof.
  unfold Md5.Sum. destruct (foldl _ _ _) as [[[a b] c] d].
  rewrite !length_app, !Forall_app. by repeat (split || rewrite (proj1 (le_bytes_spec 4 _)) || apply le_bytes_spec).
Qed.

Lemma md5hex_spec s : String.length (md5hex s) = 32%nat /\ sforall is_word (md5hex s) = true.
Proof.
  destruct (Sum_spec (map N_of_ascii (String.list_ascii_of_string s))) as [Hl Hf].
  destruct (EncodeToString_spec _ Hf) as [He Hw]. by rewrite Hl in He.
Qed.

Lemma word_field s : s <> "" -> sforall is_word s = true -> digest_field s = true.
Proof.
  intros Hne Hw. apply andb_true_intro. split; [by destruct s|].
  revert Hw. apply sforall_weaken. intros c Hc. apply negb_true_iff.
  destruct (Ascii.eqb_spec c QUOTE) as [->|]; [discriminate Hc|done].
Qed.

Lemma md5hex_field s : digest_field (md5hex s) = true.
Proof.
  destruct (md5hex_spec s) as [Hl Hw]. apply word_field; [|done]. intros E. by rewrite E in Hl.
Qed.

(** The digest headers that are rendered faithfully: the quoted fields are nonempty
    and free of quotes, and no field mentions the word that selects another mode. *)
Definition digest_wf (a : Authorization) : Prop :=
  ToLower (Mode a) = "digest"
  /\ forallb digest_field [Username a; Realm a; Nonce a; AUri a; Response a] = true
  /\ no_quote (Algorithm a) = true
  /\ index_str "capability" (ToLower (digest_value a)) = None.

Lemma Authorization_String_value a :
  digest_wf a -> Authorization_String a = Authorization_Name a +:+ ": " +:+ digest_value a.
Proof. intros [Hm _]. unfold Authorization_String. by rewrite Hm. Qed.

Lemma digest_value_matches a :
  digest_wf a ->
  FindAllStringSubmatch (InWord "") (digest_value a)
  = [("username", Username a); ("realm", Realm a); ("nonce", Nonce a); ("uri", AUri a);
     ("response", Response a)].
Proof.
  intros (Hm & Hf & Hg & _). cbn in Hf. repeat (apply andb_prop in Hf as [? Hf]).
  unfold digest_value. rewrite scan_word by (by rewrite <- is_word_ToLower, Hm).
  cbn [String.append FindAllStringSubmatch]. change (is_word " ") with false.
  change (Ascii.eqb " " "=") with false. cbn [andb join].
  do 4 (rewrite scan_quoted, scan_comma by done; f_equal).
  rewrite scan_quoted, scan_comma by done. f_equal. by apply scan_no_quote.
Qed.

(** What the parser makes of a rendered digest header. *)
Definition reparsed (name : string) (a : Authorization) : Authorization :=
  mkAuthorization name "" (Realm a) (Nonce a) "MD5" (Username a) "" (AUri a) (Response a) ""
    (Some NewParams).

Lemma parse_digest_value name a :
  digest_wf a -> parseAuthorization name (digest_value a) = Ok [HAuthorization (reparsed name a)].
Proof.
  intros Hw. unfold parseAuthorization, ParseAuthorization.
  rewrite digest_value_matches by done. destruct Hw as (_ & _ & _ & ->). reflexivity.
Qed.

Definition sample_auth : Authorization :=
  mkAuthorization "authorization" "Digest" "testrealm@host.com" "dcd98b7102dd2f0e8b11d0f600bfb0c093"
    "MD5" "Mufasa" "CircleOfLife" "sip:b@h" "" "REGISTER" (Some NewParams).

Lemma sample_auth_wf : digest_wf (CalcResponse sample_auth).
Proof. repeat split; vm_compute; reflexivity. Qed.

(** ** Properties *)

(** a digest header survives rendering and parsing, for the parameters that the
    rendering quotes; the algorithm is written without quotes, so the parser never
    reads it and sets its default. *)
Theorem parseAuthorization_String (name : string) (a : Authorization) :
  digest_wf a ->
  Authorization_String a = Authorization_Name a +:+ ": " +:+ digest_value a
  /\ parseAuthorization name (digest_value a) = Ok [HAuthorization (reparsed name a)].
Proof.
  intros Hw. split; [|by apply parse_digest_value].
  unfold Authorization_String. destruct Hw as [-> _]. reflexivity.
Qed.

Lemma parseAuthorization_String_witness :
  parseAuthorization "authorization" (digest_value (CalcResponse sample_auth))
  = Ok [HAuthorization (reparsed "authorization" (CalcResponse sample_auth))].
Proof. apply (parseAuthorization_String "authorization" (CalcResponse sample_auth) sample_auth_wf). Defined.

(** the digest response is 32 hexadecimal digits for every input, and a server
    that parses the rendered header and recomputes the response with the same
    password and method obtains the response that the header carries. *)
Theorem digest_verifies (name : string) (a : Authorization) :
  digest_wf (CalcResponse a) ->
  String.length (Response (CalcResponse a)) = 32%nat
  /\ exists b, parseAuthorization name (digest_value (CalcResponse a)) = Ok [HAuthorization b]
     /\ Response (CalcResponse (SetMethod (SetPassword b (Password a)) (Method a))) = Response b.
Proof.
  intros Hw. split; [apply md5hex_spec|]. rewrite parse_digest_value by done.
  eexists. split; reflexivity.
Qed.

Lemma digest_verifies_witness :
  exists b, parseAuthorization "authorization" (digest_value (CalcResponse sample_auth))
            = Ok [HAuthorization b].
Proof.
  destruct (digest_verifies "authorization" sample_auth sample_auth_wf) as (_ & b & H & _).
  exists b. exact H.
Defined.

(** A user name that contains the word "capability" changes the mode of the header. *)
Example capability_in_user_name :
  exists a, parseAuthorization "authorization" ("Digest " +:+ quoted "username" "capabilityX")
            = Ok [HAuthorization a] /\ Mode a = "Capability".
Proof. eexists. split; reflexivity. Qed.
