(* ===== verification/HeaderParse.v ===== *)
(** * The header parsers and the start lines (sip/parser.go)

    One definition per header parser, the address parser they share, the header
    line splitter and the request and status lines. *)

From S2P Require Import Prelude GoStrings Params Base Uri Header Headers Auth.
From Stdlib Require Import NArith Lia.

#[local] Open Scope string_scope.
#[local] Open Scope list_scope.

(** ** Searching outside quotes *)

(** [endChars[c]]: later delimiters override earlier ones. *)
Definition end_char (delims : list (ascii * ascii)) (c : ascii) : option ascii :=
  foldl (fun r '(start, end_) => if Ascii.eqb start c then Some end_ else r) None delims.

(** [escaped] and [endEscape] as one option: [Some e] while a delimited text is open. *)
Fixpoint findAnyUnescaped_from (text targets : string) (delims : list (ascii * ascii))
    (escape : option ascii) (idx : nat) : option nat :=
  match text with
  | "" => None
  | String c text' =>
      match escape with
      | None =>
          match index_str (string_of_byte c) targets with
          | Some _ => Some idx
          | None => findAnyUnescaped_from text' targets delims (end_char delims c) (S idx)
          end
      | Some e =>
          findAnyUnescaped_from text' targets delims (if Ascii.eqb c e then None else Some e) (S idx)
      end
  end.

Definition findAnyUnescaped (text targets : string) (delims : list (ascii * ascii)) : option nat :=
  findAnyUnescaped_from text targets delims None 0.

Definition findUnescaped (text : string) (target : ascii) (delims : list (ascii * ascii)) : option nat :=
  findAnyUnescaped text (string_of_byte target) delims.

Definition quotesDelim : ascii * ascii := (QUOTE, QUOTE).
Definition anglesDelim : ascii * ascii := ("<", ">")%char.

(** ** Splitting by white space, code point by code point *)

Definition is_cont (c : ascii) : bool := (128 <=? N_of_ascii c)%N && (N_of_ascii c <=? 191)%N.
Definition between (lo hi : N) (c : ascii) : bool := (lo <=? N_of_ascii c)%N && (N_of_ascii c <=? hi)%N.

(** The well-formed encodings on two, three and four bytes. *)
Definition utf8_2 (a b : ascii) : bool := between 194 223 a && is_cont b.
Definition utf8_3 (a b c : ascii) : bool :=
  (between 224 224 a && between 160 191 b
   || between 225 236 a && is_cont b
   || between 237 237 a && between 128 159 b
   || between 238 239 a && is_cont b) && is_cont c.
Definition utf8_4 (a b c d : ascii) : bool :=
  (between 240 240 a && between 144 191 b
   || between 241 243 a && is_cont b
   || between 244 244 a && between 128 143 b) && is_cont c && is_cont d.

(** U+FFFD, the code point of an invalid byte. *)
Definition replacement : string := String (byte_of 239) (String (byte_of 191) (String (byte_of 189) "")).

(** The code points of a string, each as the string it converts to: the values of
    [string(char)] in [for _, char := range text]. *)
Fixpoint runes (s : string) : list string :=
  match s with
  | "" => []
  | String a s1 =>
      if is_ascii a then String a "" :: runes s1
      else match s1 with
           | String b s2 =>
               if utf8_2 a b then String a (String b "") :: runes s2
               else match s2 with
                    | String c s3 =>
                        if utf8_3 a b c then String a (String b (String c "")) :: runes s3
                        else match s3 with
                             | String d s4 =>
                                 if utf8_4 a b c d
                                 then String a (String b (String c (String d ""))) :: runes s4
                                 else replacement :: runes s1
                             | "" => replacement :: runes s1
                             end
                    | "" => replacement :: runes s1
                    end
           | "" => replacement :: runes s1
           end
  end.

(** One step of the loop of [SplitByWhitespace] on one code point: buffer, [inString], result. *)
Definition ws_step (acc : string * bool * list string) (s : string) : string * bool * list string :=
  let '(buffer, inString, result) := acc in
  match index_str s (String SP (String HTAB "")) with
  | Some _ => if inString then ("", false, result ++ [buffer]) else (buffer, false, result)
  | None => (buffer +:+ s, true, result)
  end.

Definition SplitByWhitespace (text : string) : list string :=
  let '(buffer, _, result) := foldl ws_step ("", true, []) (runes text) in
  if String.eqb buffer "" then result else result ++ [buffer].

(** ** Header lines *)

(** [unicode.IsSpace] of the first code point. *)
Definition starts_with_space (s : string) : bool :=
  match s with
  | "" => false
  | String a "" => space1 a
  | String a (String b "") => space1 a || space2 a b
  | String a (String b (String c _)) => space1 a || space2 a b || space3 a b c
  end.

Fixpoint header_continuation (contents : list string) : string * nat :=
  match contents with
  | [] => ("", 0)
  | l :: contents' =>
      if negb (starts_with_space l) then ("", 0)
      else let '(text, n) := header_continuation contents' in (" " +:+ TrimSpace l +:+ text, S n)
  end.

Definition GetNextHeaderLine (contents : list string) : string * nat :=
  match contents with
  | [] => ("", 0)
  | l :: contents' =>
      if String.eqb l "" then ("", 0)
      else let '(text, n) := header_continuation contents' in (l +:+ text, S n)
  end.

(** ** Addresses *)

(** [text[:i]] where [i] is the result of [strings.Index], -1 included. *)
Definition slice_to_index (i : option nat) (text : string) : res string :=
  match i with Some n => slice_to n text | None => Panic SliceOutOfRange end.

(** The optional display name and the text after it. *)
Definition ParseDisplayName (addressText : string) : res (option boxed * string) :=
  match findUnescaped addressText "<" [quotesDelim] with
  | Some (S _ as firstAngleBracket) =>
      c ← first_byte addressText;
      if Ascii.eqb c QUOTE then
        addressText ← slice_from 1 addressText;
        match index_byte QUOTE addressText with
        | None => Err "unclosed quotes in header text: %s"
        | Some nextQuote =>
            mret (Some (Str (str_take nextQuote addressText)), str_drop (S nextQuote) addressText)
        end
      else
        mret (Some (Str (TrimSpace (str_take firstAngleBracket addressText))),
              str_drop firstAngleBracket addressText)
  | _ => mret (None, addressText)
  end.

(** The URI text, and what follows it: [None] when [startOfParams] is past the end. *)
Definition split_address (displayName : option boxed) (addressText : string) : res (string * option string) :=
  c ← first_byte addressText;
  if negb (Ascii.eqb c "<") then
    match displayName with
    | Some _ => Err "invalid character '%c' following display name in address line; expected '<': %s"
    | None =>
        let endOfUri := default (String.length addressText) (index_byte ";" addressText) in
        mret (str_take endOfUri addressText,
              if (String.length addressText <=? endOfUri)%nat then None
              else Some (str_drop endOfUri addressText))
    end
  else
    addressText ← slice_from 1 addressText;
    match index_byte ">" addressText with
    | Some 0 => Err "'<' without closing '>' in address %s"
    | endOfUri =>
        uriText ← slice_to_index endOfUri addressText;
        let startOfParams := match endOfUri with Some n => S n | None => 0 end in
        mret (uriText, if (String.length addressText <=? startOfParams)%nat then None
                       else Some (str_drop startOfParams addressText))
    end.

Definition ParseAddressValue (addressText : string) : res (option boxed * Uri * headerParams) :=
  if String.eqb addressText "" then Err "address-type header has empty body"
  else
    '(displayName, addressText) ← ParseDisplayName (TrimSpace addressText);
    '(uriText, paramsText) ← split_address displayName (TrimSpace addressText);
    uri ← ParseUri uriText;
    match paramsText with
    | None => mret (displayName, uri, NewParams)
    | Some text =>
        match ParseParams text ";" ";" "," true true with
        | (_, _, Some e) => Err e
        | (ps, _, None) => mret (displayName, uri, ps)
        end
    end.

(** The loop of [ParseAddressValues]: [section] is [addresses[prevIdx:idx]]. *)
Record astate := mkAstate {
  section : string;
  inBrackets : bool;
  aQuotes : bool;
  values : list (option boxed * Uri * headerParams)
}.

Definition address_step (st : astate) (char : ascii) : res astate :=
  let next b q := mkAstate (section st +:+ String char "") b q (values st) in
  if Ascii.eqb char "<" && negb (aQuotes st) then mret (next true (aQuotes st))
  else if Ascii.eqb char ">" && negb (aQuotes st) then mret (next false (aQuotes st))
  else if Ascii.eqb char QUOTE then mret (next (inBrackets st) (negb (aQuotes st)))
  else if negb (aQuotes st) && negb (inBrackets st) && Ascii.eqb char "," then
    v ← ParseAddressValue (section st);
    mret (mkAstate "" (inBrackets st) (aQuotes st) (values st ++ [v]))
  else mret (next (inBrackets st) (aQuotes st)).

(** The three result slices as one list of triples; on an error no caller reads them. *)
Definition ParseAddressValues (addresses : string) : res (list (option boxed * Uri * headerParams)) :=
  st ← foldM_res address_step (mkAstate "" false false []) (String.list_ascii_of_string (addresses +:+ ","));
  mret (values st).

(** ** The header parsers *)

Definition HeaderParser : Type := string -> string -> res (list Header).

(** One turn of the loop of [parseAddressHeader]. *)
Definition address_header (headerName : string) (idx : nat) (v : option boxed * Uri * headerParams)
    : res Header :=
  let '(displayName, uri, ps) := v in
  let addr := mkAddress displayName (Some uri) (Some ps) in
  if String.eqb headerName "to" || String.eqb headerName "t" then
    if (0 <? idx)%nat then Err "multiple to: headers in message:\n%s: %s"
    else match uri with
         | UWildcard => Err "wildcard uri not permitted in to: header: %s"
         | USip _ => Ok (HTo addr)
         end
  else if String.eqb headerName "from" || String.eqb headerName "f" then
    if (0 <? idx)%nat then Err "multiple from: headers in message:\n%s: %s"
    else match uri with
         | UWildcard => Err "wildcard uri not permitted in from: header: %s"
         | USip _ => Ok (HFrom addr)
         end
  else
    match uri with
    | UWildcard =>
        if (0 <? Length ps)%nat then Err "wildcard contact header should contain no parameters: '%s"
        else match displayName with
             | Some _ => Err "wildcard contact header should contain no display name %s"
             | None => Ok (HContact addr)
             end
    | USip _ => Ok (HContact addr)
    end.

Fixpoint address_headers (headerName : string) (idx : nat)
    (vs : list (option boxed * Uri * headerParams)) : res (list Header) :=
  match vs with
  | [] => Ok []
  | v :: vs' =>
      h ← address_header headerName idx v;
      hs ← address_headers headerName (S idx) vs';
      mret (h :: hs)
  end.

Definition parseAddressHeader : HeaderParser := fun headerName headerText =>
  if existsb (String.eqb headerName) ["to"; "from"; "contact"; "t"; "f"; "m"] then
    vs ← ParseAddressValues headerText;
    address_headers headerName 0 vs
  else Ok [].

Definition maxCseq : N := 2147483647.

Definition parseCSeq : HeaderParser := fun headerName headerText =>
  match SplitByWhitespace headerText with
  | [p0; p1] =>
      seqno ← ParseUint p0 32;
      if (maxCseq <? seqno)%N then Err "invalid CSeq %d: exceeds maximum permitted value 2**31 - 1"
      else
        let method := TrimSpace p1 in
        if contains_byte ";" method then Err "unexpected ';' in CSeq body: %s"
        else mret [HCSeq seqno method]
  | _ => Err "CSeq field should have precisely one whitespace section: '%s'"
  end.

Definition parseCallId : HeaderParser := fun headerName headerText =>
  let callId := TrimSpace headerText in
  if contains_by is_abnf_ws callId then Err "unexpected whitespace in CallID header body '%s'"
  else if contains_byte ";" callId then Err "unexpected semicolon in CallID header body '%s'"
  else if String.eqb callId "" then Err "empty Call-ID body"
  else mret [HCallID callId].

(** The protocol fields of one hop and the text after them. *)
Definition parse_protocol (section : string) : res (string * string * string * string) :=
  match split_byte "/" section with
  | p0 :: p1 :: ((_ :: _) as rest) =>
      let p2 := join "/" rest in
      let initialSpaces := (String.length p2 - String.length (trim_left_ws p2))%nat in
      let sentByIdx := match index_by is_abnf_ws (str_drop initialSpaces p2) with
                       | Some i => (i + initialSpaces + 1)%nat
                       | None => initialSpaces
                       end in
      if (sentByIdx =? 0)%nat then Err "expected whitespace after sent-protocol part in via header '%s'"
      else if (sentByIdx =? 1)%nat then Err "empty transport field in via header '%s'"
      else
        let protocolName := TrimSpace p0 in
        let protocolVersion := TrimSpace p1 in
        transportText ← slice_to (sentByIdx - 1) p2;
        let transport := TrimSpace transportText in
        if String.eqb protocolName "" then Err "no protocol name provided in via header '%s'"
        else if String.eqb protocolVersion "" then Err "no version provided in via header '%s'"
        else if String.eqb transport "" then Err "no transport provided in via header '%s'"
        else
          viaBody ← slice_from sentByIdx p2;
          mret (protocolName, protocolVersion, transport, viaBody)
  | _ => Err "not enough protocol parts in via header: '%s'"
  end.

(** One hop; the error of [ParseParams] is returned with the hop. *)
Definition parse_hop (section : string) : res (ViaHop * option string) :=
  '(protocolName, protocolVersion, transport, viaBody) ← parse_protocol section;
  match index_byte ";" viaBody with
  | None =>
      '(host, port) ← ParseHostPort viaBody;
      mret (mkViaHop protocolName protocolVersion transport host port (Some NewParams), None)
  | Some paramsIdx =>
      '(host, port) ← ParseHostPort (str_take paramsIdx viaBody);
      let '(ps, _, err) := ParseParams (str_drop paramsIdx viaBody) ";" ";" NUL true true in
      mret (mkViaHop protocolName protocolVersion transport host port (Some ps), err)
  end.

(** The loop over the hops.  An error of [ParseParams] stays in [err] and is reported
    by the test that follows the protocol fields of the next hop, unless these
    fields report another error, or at the end. *)
Fixpoint parse_hops (sections : list string) (via : list ViaHop) (err : option string)
    : res (list ViaHop) :=
  match sections with
  | [] => match err with Some e => Err e | None => mret via end
  | section :: sections' =>
      match err with
      | None =>
          '(hop, err') ← parse_hop section;
          parse_hops sections' (via ++ [hop]) err'
      | Some e => _ ← parse_protocol section; Err e
      end
  end.

Definition parseViaHeader : HeaderParser := fun headerName headerText =>
  via ← parse_hops (split_byte "," headerText) [] None;
  mret [HVia via].

Definition parseMaxForwards : HeaderParser := fun headerName headerText =>
  value ← ParseUint (TrimSpace headerText) 32; mret [HMaxForwards value].

Definition parseExpires : HeaderParser := fun headerName headerText =>
  value ← ParseUint (TrimSpace headerText) 32; mret [HExpires value].

Definition parseUserAgent : HeaderParser := fun headerName headerText =>
  mret [HUserAgent (TrimSpace headerText)].

Definition parseContentType : HeaderParser := fun headerName headerText =>
  mret [HContentType (TrimSpace headerText)].

Definition parseAccept : HeaderParser := fun headerName headerText =>
  mret [HAccept (TrimSpace headerText)].

Definition parseAllow : HeaderParser := fun headerName headerText =>
  mret [HAllow (map TrimSpace (split_byte "," headerText))].

Definition parseRequire : HeaderParser := fun headerName headerText =>
  mret [HRequire (map TrimSpace (split_byte "," headerText))].

Definition parseSupported : HeaderParser := fun headerName headerText =>
  mret [HSupported (map TrimSpace (split_byte "," headerText))].

Definition parseContentLength : HeaderParser := fun headerName headerText =>
  value ← ParseUint (TrimSpace headerText) 32; mret [HContentLength value].

Definition parseRouteHeader : HeaderParser := fun headerName headerText =>
  vs ← ParseAddressValues headerText; mret [HRoute (map (fun v => v.1.2) vs)].

Definition parseRecordRouteHeader : HeaderParser := fun headerName headerText =>
  vs ← ParseAddressValues headerText; mret [HRecordRoute (map (fun v => v.1.2) vs)].

Definition defaultHeaderParsers : list (string * HeaderParser) :=
  [ ("to", parseAddressHeader); ("t", parseAddressHeader);
    ("from", parseAddressHeader); ("f", parseAddressHeader);
    ("contact", parseAddressHeader); ("m", parseAddressHeader);
    ("Call-ID", parseCallId); ("cseq", parseCSeq);
    ("via", parseViaHeader); ("v", parseViaHeader);
    ("max-forwards", parseMaxForwards);
    ("content-length", parseContentLength); ("l", parseContentLength);
    ("expires", parseExpires); ("user-agent", parseUserAgent); ("allow", parseAllow);
    ("content-type", parseContentType); ("accept", parseAccept); ("c", parseContentType);
    ("require", parseRequire); ("supported", parseSupported);
    ("route", parseRouteHeader); ("record-route", parseRecordRouteHeader);
    ("Authorization", parseAuthorization); ("Proxy-Authorization", parseAuthorization) ].

Definition SetHeaderParser (headerParsers : gmap string HeaderParser) (headerName : string)
    (headerParser : HeaderParser) : gmap string HeaderParser :=
  <[ToLower headerName := headerParser]> headerParsers.

(** The table of a parser made by [NewParser]: every key in lower case. *)
Definition NewParser_headerParsers : gmap string HeaderParser :=
  foldl (fun m '(name, p) => SetHeaderParser m name p) ∅ defaultHeaderParsers.

(** [p] is the table of the parser, [None] for the nil parser. *)
Definition ParseHeader (headerText : string) (p : option (gmap string HeaderParser)) : res (list Header) :=
  match index_byte ":" headerText with
  | None => Err "[ParseHeader] -> field name with no value in header: %s"
  | Some colonIdx =>
      let fieldName := TrimSpace (str_take colonIdx headerText) in
      let lowerFieldName := ToLower fieldName in
      let fieldText := TrimSpace (str_drop (S colonIdx) headerText) in
      let headerParsers := default (list_to_map defaultHeaderParsers) p in
      match headerParsers !! lowerFieldName with
      | Some headerParser => headerParser lowerFieldName fieldText
      | None => mret [HGeneric fieldName fieldText]
      end
  end.

Definition AddHeaderString (hs : headers) (headName value : string) : res headers :=
  hers ← ParseHeader (headName +:+ ":" +:+ value) None;
  foldM_res AddHeader hs hers.

(** ** Start lines *)

Definition getBodyLength (data : string) : option nat :=
  match index_str (CRLF +:+ CRLF) data with
  | None => None
  | Some idx => Some (String.length data - (idx + 4))%nat
  end.

Definition isRequest (startLine : string) : bool :=
  if negb (count_byte SP startLine =? 2)%nat then false
  else match split_byte SP startLine with
       | _ :: _ :: p2 :: _ =>
           if (String.length p2 <? 3)%nat then false
           else String.eqb (ToUpper (str_take 3 p2)) "SIP"
       | _ => false
       end.

Definition isResponse (startLine : string) : bool :=
  if (count_byte SP startLine <? 2)%nat then false
  else match split_byte SP startLine with
       | p0 :: _ :: _ :: _ =>
           if (String.length p0 <? 3)%nat then false
           else String.eqb (ToUpper (str_take 3 p0)) "SIP"
       | _ => false
       end.

(** The recipient of a successful result is a SIP URI. *)
Definition ParseRequestLine (requestLine : string) : res (RequestMethod * Uri * string) :=
  match split_byte SP requestLine with
  | [p0; p1; p2] =>
      let method := ToUpper p0 in
      recipient ← ParseUri p1;
      match recipient with
      | UWildcard => Err "wildcard URI '*' not permitted in request line: '%s'"
      | USip _ => mret (method, recipient, p2)
      end
  | _ => Err "request line should have 2 spaces: '%s'"
  end.

Definition ParseStatusLine (statusLine : string) : res (string * StatusCode * string) :=
  match split_byte SP statusLine with
  | p0 :: p1 :: ((_ :: _) as rest) =>
      statusCode ← ParseUint p1 16;
      mret (p0, statusCode, join " " rest)
  | _ => Err "status line has too few spaces: '%s'"
  end.

(** ** Sections of an address list *)

(** The state of the address scanner: inside angle brackets, inside quotes. *)
Definition bq_step (st : bool * bool) (c : ascii) : bool * bool :=
  let '(b, q) := st in
  if Ascii.eqb c "<" && negb q then (true, q)
  else if Ascii.eqb c ">" && negb q then (false, q)
  else if Ascii.eqb c QUOTE then (b, negb q)
  else (b, q).

Fixpoint bq (st : bool * bool) (s : string) : bool * bool :=
  match s with "" => st | String c s' => bq (bq_step st c) s' end.

(** A comma outside brackets and quotes. *)
Definition separates (st : bool * bool) (c : ascii) : bool :=
  negb st.2 && negb st.1 && Ascii.eqb c ",".

(** The texts between the separating commas of [s], the text after the last one dropped. *)
Fixpoint address_sections (st : bool * bool) (cur s : string) : list string :=
  match s with
  | "" => []
  | String c s' =>
      if separates st c then cur :: address_sections st "" s'
      else address_sections (bq_step st c) (cur +:+ String c "") s'
  end.

Lemma bq_app st s1 s2 : bq st (s1 +:+ s2) = bq (bq st s1) s2.
Proof. revert st. induction s1; intros st; cbn; auto. Qed.

(** A byte that the scanner does not react to. *)
Definition inert (c : ascii) : bool :=
  negb (Ascii.eqb c "<") && negb (Ascii.eqb c ">") && negb (Ascii.eqb c QUOTE).

Lemma bq_step_inert st c : inert c = true -> bq_step st c = st.
Proof.
  unfold inert, bq_step. destruct st as [b q].
  intros [[->%negb_true_iff ->%negb_true_iff]%andb_prop ->%negb_true_iff]%andb_prop. done.
Qed.

Lemma bq_inert st s : sforall inert s = true -> bq st s = st.
Proof.
  revert st. induction s as [|c s IH]; intros st; cbn; [done|].
  intros [Hc Hs]%andb_prop. by rewrite bq_step_inert, IH.
Qed.

(** One turn of [ParseAddressValues] in terms of the scanner. *)
Lemma address_step_eq cur b q vs c :
  address_step (mkAstate cur b q vs) c =
  if separates (b, q) c then v ← ParseAddressValue cur; mret (mkAstate "" b q (vs ++ [v]))
  else let '(b', q') := bq_step (b, q) c in mret (mkAstate (cur +:+ String c "") b' q' vs).
Proof.
  unfold address_step, separates, bq_step. cbn [section inBrackets aQuotes values fst snd].
  destruct (Ascii.eqb_spec c "<") as [->|_]; cbn [andb].
  { change (Ascii.eqb "<" ",") with false. change (Ascii.eqb "<" ">") with false.
    change (Ascii.eqb "<" QUOTE) with false. destruct b, q; reflexivity. }
  destruct (Ascii.eqb_spec c ">") as [->|_]; cbn [andb].
  { change (Ascii.eqb ">" ",") with false. change (Ascii.eqb ">" QUOTE) with false.
    destruct b, q; reflexivity. }
  destruct (Ascii.eqb_spec c QUOTE) as [->|_]; [by rewrite !andb_false_r|].
  destruct (_ && _); reflexivity.
Qed.

Lemma foldM_address s : forall cur b q vs,
  (st ← foldM_res address_step (mkAstate cur b q vs) (String.list_ascii_of_string s); mret (values st))
  = (rs ← mapM_res ParseAddressValue (address_sections (b, q) cur s); mret (vs ++ rs)).
Proof.
  induction s as [|c s IH]; intros cur b q vs; cbn [String.list_ascii_of_string foldM_res address_sections].
  - cbn. by rewrite app_nil_r.
  - rewrite address_step_eq. destruct (separates (b, q) c); cbn [mapM_res].
    + destruct (ParseAddressValue cur) as [v| |]; cbn [mbind res_bind mret res_ret]; try done.
      etransitivity; [apply IH|]. destruct (mapM_res _ _); cbn; try done. by rewrite <- app_assoc.
    + destruct (bq_step (b, q) c) as [b' q']. apply IH.
Qed.

Lemma ParseAddressValues_eq s :
  ParseAddressValues s = mapM_res ParseAddressValue (address_sections (false, false) "" (s +:+ ",")).
Proof.
  unfold ParseAddressValues. rewrite foldM_address. destruct (mapM_res _ _); done.
Qed.

(** A section is scanned from and back to the neutral state. *)
Lemma address_sections_balanced s : forall cur st,
  bq (false, false) cur = st ->
  Forall (fun sec => bq (false, false) sec = (false, false)) (address_sections st cur s).
Proof.
  induction s as [|c s IH]; intros cur st Hst; cbn; [constructor|].
  destruct (separates st c) eqn:E.
  - unfold separates in E. destruct st as [b q]. cbn in E.
    apply andb_prop in E as [[->%negb_true_iff ->%negb_true_iff]%andb_prop _].
    constructor; [done|by apply IH].
  - apply IH. rewrite bq_app, Hst. done.
Qed.

(** ** Trimming *)

(** A byte that [TrimSpace] may remove. *)
Definition space_byte (c : ascii) : bool := space1 c || negb (is_ascii c).

Lemma space2_bytes a b : space2 a b = true -> space_byte a = true /\ space_byte b = true.
Proof.
  intros H. unfold space_byte. split.
  - destruct (is_ascii a) eqn:Ea; [|by rewrite orb_true_r]. destruct (space1 a) eqn:Es; [done|].
    rewrite graph_not_space2 in H; [done|]. unfold is_graph. by rewrite Ea, Es.
  - destruct (is_ascii b) eqn:Eb; [|by rewrite orb_true_r]. destruct (space1 b) eqn:Es; [done|].
    rewrite graph_not_space2_r in H; [done|]. unfold is_graph. by rewrite Eb, Es.
Qed.

Lemma graph_not_space3_m a b c : is_graph b = true -> space3 a b c = false.
Proof.
  unfold is_graph, is_ascii, space3. intros [H _]%andb_prop. apply N.ltb_lt in H.
  rewrite !(proj2 (N.eqb_neq (N_of_ascii b) _)) by lia. by rewrite !andb_false_r.
Qed.

Lemma space3_bytes a b c :
  space3 a b c = true -> space_byte a = true /\ space_byte b = true /\ space_byte c = true.
Proof.
  assert (Hg : forall d, space_byte d = false -> is_graph d = true).
  { intros d. unfold space_byte, is_graph. by destruct (space1 d), (is_ascii d). }
  intros H. repeat split.
  - destruct (space_byte a) eqn:E; [done|]. by rewrite graph_not_space3 in H by auto.
  - destruct (space_byte b) eqn:E; [done|]. by rewrite graph_not_space3_m in H by auto.
  - destruct (space_byte c) eqn:E; [done|]. by rewrite graph_not_space3_r in H by auto.
Qed.

(** [TrimSpace] removes space bytes at both ends. *)
Lemma trim_left_split n : forall s, (String.length s <= n)%nat ->
  exists pre, s = pre +:+ trim_space_left s /\ sforall space_byte pre = true.
Proof.
  induction n as [|n IH]; intros s Hn.
  { destruct s; cbn in Hn; [|lia]. by exists "". }
  destruct s as [|a s1]; [by exists ""|]. cbn in Hn. cbn [trim_space_left].
  destruct (space1 a) eqn:Ea.
  { destruct (IH s1) as (pre & E & Hp); [lia|]. exists (String a pre). cbn. rewrite Hp, <- E.
    unfold space_byte. by rewrite Ea. }
  destruct s1 as [|b s2]; [by exists ""|]. cbn in Hn.
  destruct (space2 a b) eqn:Eb.
  { destruct (IH s2) as (pre & E & Hp); [lia|]. exists (String a (String b pre)). cbn.
    apply space2_bytes in Eb as [-> ->]. by rewrite Hp, <- E. }
  destruct s2 as [|c s3]; [by exists ""|]. cbn in Hn.
  destruct (space3 a b c) eqn:Ec; [|by exists ""].
  destruct (IH s3) as (pre & E & Hp); [lia|]. exists (String a (String b (String c pre))). cbn.
  apply space3_bytes in Ec as (-> & -> & ->). by rewrite Hp, <- E.
Qed.

Lemma trim_left_rev_split n : forall s, (String.length s <= n)%nat ->
  exists pre, s = pre +:+ trim_space_left_rev s /\ sforall space_byte pre = true.
Proof.
  induction n as [|n IH]; intros s Hn.
  { destruct s; cbn in Hn; [|lia]. by exists "". }
  destruct s as [|a s1]; [by exists ""|]. cbn in Hn. cbn [trim_space_left_rev].
  destruct (space1 a) eqn:Ea.
  { destruct (IH s1) as (pre & E & Hp); [lia|]. exists (String a pre). cbn. rewrite Hp, <- E.
    unfold space_byte. by rewrite Ea. }
  destruct s1 as [|b s2]; [by exists ""|]. cbn in Hn.
  destruct (space2 b a) eqn:Eb.
  { destruct (IH s2) as (pre & E & Hp); [lia|]. exists (String a (String b pre)). cbn.
    apply space2_bytes in Eb as [-> ->]. by rewrite Hp, <- E. }
  destruct s2 as [|c s3]; [by exists ""|]. cbn in Hn.
  destruct (space3 c b a) eqn:Ec; [|by exists ""].
  destruct (IH s3) as (pre & E & Hp); [lia|]. exists (String a (String b (String c pre))). cbn.
  apply space3_bytes in Ec as (-> & -> & ->). by rewrite Hp, <- E.
Qed.

Lemma TrimSpace_split s :
  exists pre post, s = pre +:+ TrimSpace s +:+ post
    /\ sforall space_byte pre = true /\ sforall space_byte post = true.
Proof.
  destruct (trim_left_split _ s (Nat.le_refl _)) as (pre & E & Hpre).
  destruct (trim_left_rev_split _ (srev (trim_space_left s)) (Nat.le_refl _)) as (post & E' & Hpost).
  exists pre, (srev post). split; [|by rewrite sforall_srev].
  unfold TrimSpace. rewrite <- srev_app, <- E', srev_involutive. done.
Qed.

Lemma space_byte_inert c : space_byte c = true -> inert c = true.
Proof.
  unfold inert. destruct (Ascii.eqb_spec c "<") as [->|_]; [done|].
  destruct (Ascii.eqb_spec c ">") as [->|_]; [done|]. by destruct (Ascii.eqb_spec c QUOTE) as [->|_].
Qed.

Lemma bq_TrimSpace st s : bq st (TrimSpace s) = bq st s.
Proof.
  destruct (TrimSpace_split s) as (pre & post & E & Hpre & Hpost). rewrite E at 2.
  rewrite !bq_app, (bq_inert st pre), (bq_inert _ post); [done|..];
    eapply sforall_weaken; [| eassumption| | eassumption]; apply space_byte_inert.
Qed.

(** A text that starts with no space. *)
Definition no_space_prefix (s : string) : bool :=
  match s with
  | "" => true
  | String a s1 =>
      negb (space1 a) &&
      match s1 with
      | "" => true
      | String b s2 =>
          negb (space2 a b) && match s2 with "" => true | String c _ => negb (space3 a b c) end
      end
  end.

Lemma trim_left_length s : (String.length (trim_space_left s) <= String.length s)%nat.
Proof.
  destruct (trim_left_split _ s (Nat.le_refl _)) as (pre & E & _).
  rewrite E at 2. rewrite slength_app. lia.
Qed.

Lemma trim_left_fix s : trim_space_left s = s <-> no_space_prefix s = true.
Proof.
  destruct s as [|a s1]; [done|]. split.
  - intros H. cbn [no_space_prefix]. destruct (space1 a) eqn:Ea.
    { pose proof (trim_left_length s1). cbn in H. rewrite Ea in H. rewrite H in H0. cbn in H0. lia. }
    destruct s1 as [|b s2]; [done|]. destruct (space2 a b) eqn:Eb.
    { pose proof (trim_left_length s2). cbn in H. rewrite Ea, Eb in H. rewrite H in H0. cbn in H0. lia. }
    destruct s2 as [|c s3]; [done|]. destruct (space3 a b c) eqn:Ec; [|done].
    pose proof (trim_left_length s3). cbn in H. rewrite Ea, Eb, Ec in H. rewrite H in H0. cbn in H0. lia.
  - cbn. destruct (space1 a); [done|]. destruct s1 as [|b s2]; [done|]. cbn.
    destruct (space2 a b); [done|]. destruct s2 as [|c s3]; [done|]. cbn. by destruct (space3 a b c).
Qed.

(** Cutting a text short keeps this. *)
Lemma trim_left_prefix s r : trim_space_left (s +:+ r) = s +:+ r -> trim_space_left s = s.
Proof.
  rewrite !trim_left_fix. destruct s as [|a [|b [|c s]]]; cbn; [done|..|done].
  - by intros [-> _]%andb_prop.
  - by intros [-> [-> _]%andb_prop]%andb_prop.
Qed.

Lemma trim_left_idem n : forall s, (String.length s <= n)%nat ->
  trim_space_left (trim_space_left s) = trim_space_left s.
Proof.
  induction n as [|n IH]; intros s Hn; [by destruct s; cbn in Hn; [|lia]|].
  destruct s as [|a s1]; [done|]. cbn in Hn. cbn [trim_space_left].
  destruct (space1 a) eqn:Ea; [apply IH; lia|].
  destruct s1 as [|b s2]; [cbn; by rewrite Ea|]. cbn in Hn.
  destruct (space2 a b) eqn:Eb; [apply IH; lia|].
  destruct s2 as [|c s3]; [cbn; by rewrite Ea, Eb|]. cbn in Hn.
  destruct (space3 a b c) eqn:Ec; [apply IH; lia|]. cbn. by rewrite Ea, Eb, Ec.
Qed.

Lemma trim_left_rev_idem n : forall s, (String.length s <= n)%nat ->
  trim_space_left_rev (trim_space_left_rev s) = trim_space_left_rev s.
Proof.
  induction n as [|n IH]; intros s Hn; [by destruct s; cbn in Hn; [|lia]|].
  destruct s as [|a s1]; [done|]. cbn in Hn. cbn [trim_space_left_rev].
  destruct (space1 a) eqn:Ea; [apply IH; lia|].
  destruct s1 as [|b s2]; [cbn; by rewrite Ea|]. cbn in Hn.
  destruct (space2 b a) eqn:Eb; [apply IH; lia|].
  destruct s2 as [|c s3]; [cbn; by rewrite Ea, Eb|]. cbn in Hn.
  destruct (space3 c b a) eqn:Ec; [apply IH; lia|]. cbn. by rewrite Ea, Eb, Ec.
Qed.

Lemma TrimSpace_idem s : TrimSpace (TrimSpace s) = TrimSpace s.
Proof.
  unfold TrimSpace at 1.
  assert (Hl : trim_space_left (TrimSpace s) = TrimSpace s).
  { unfold TrimSpace.
    destruct (trim_left_rev_split _ (srev (trim_space_left s)) (Nat.le_refl _)) as (post & E & _).
    apply (trim_left_prefix _ (srev post)).
    rewrite <- srev_app, <- E, srev_involutive. by apply (trim_left_idem (String.length s)). }
  rewrite Hl. unfold TrimSpace. rewrite srev_involutive.
  by rewrite (trim_left_rev_idem (String.length (srev (trim_space_left s)))).
Qed.

(** ** No panic in the address parser *)

#[local] Arguments QUOTE : simpl never.

Lemma bq_close q s q' : bq (true, q) s = (false, q') -> exists i, index_byte ">" s = Some i.
Proof.
  revert q. induction s as [|c s IH]; intros q; cbn; [done|].
  unfold index_byte. cbn. destruct (Ascii.eqb_spec ">" c) as [<-|Hne]; [eauto|].
  unfold bq_step. rewrite (proj2 (Ascii.eqb_neq c ">")) by congruence. cbn [andb].
  assert (Hgo : forall q2, bq (true, q2) s = (false, q') ->
    exists i, (S <$> index_by (Ascii.eqb ">") s) = Some i).
  { intros q2 (i & Hi)%IH. unfold index_byte in Hi. rewrite Hi. cbn. eauto. }
  repeat case_match; apply Hgo.
Qed.

Lemma split_address_no_panic d t :
  bq (false, false) t = (false, false) -> t <> "" -> is_panic (split_address d t) = false.
Proof.
  destruct t as [|c t]; [done|]. intros Hb _. unfold split_address. cbn [first_byte mbind res_bind].
  destruct (Ascii.eqb_spec c "<") as [->|_]; cbn [negb]; [|by destruct d].
  change (slice_from 1 (String "<" t)) with (Ok t). cbn [mbind res_bind].
  destruct (bq_close false t false Hb) as (i & Hi). rewrite Hi.
  destruct i as [|i]; [done|]. cbn [slice_to_index].
  rewrite slice_to_no_panic by (apply index_by_lt in Hi; lia). done.
Qed.

(** Where [findUnescaped] stops: the first '<' outside quotes. *)
Lemma find_angle_spec t : forall esc i,
  (esc = None \/ esc = Some QUOTE) ->
  match findAnyUnescaped_from t "<" [quotesDelim] esc i with
  | Some j => exists t1 t2, t = t1 +:+ String "<" t2 /\ j = (i + String.length t1)%nat
      /\ bq (false, bool_decide (esc <> None)) t1 = (false, false)
  | None => esc = None -> match t with String "<" _ => False | _ => True end
  end.
Proof.
  induction t as [|c t IH]; intros esc i Hesc; cbn [findAnyUnescaped_from]; [done|].
  assert (Hlt : (exists n, index_str (string_of_byte c) "<" = Some n) <-> c = "<"%char).
  { split; [|by intros ->; eauto].
    destruct c as [[] [] [] [] [] [] [] []]; intros (n & Hn); try discriminate Hn; reflexivity. }
  destruct Hesc as [-> | ->].
  - destruct (index_str (string_of_byte c) "<") as [n|] eqn:En.
    + exists "", t. rewrite (proj1 Hlt) by eauto. cbn. split; [done|]. split; [lia|done].
    + assert (Hc : c <> "<"%char) by (intros ->; discriminate En).
      specialize (IH (end_char [quotesDelim] c) (S i)).
      assert (He : end_char [quotesDelim] c = if Ascii.eqb QUOTE c then Some QUOTE else None) by done.
      rewrite He in *. destruct (findAnyUnescaped_from _ _ _ _ _) as [j|].
      * destruct IH as (t1 & t2 & -> & -> & Hb); [destruct (Ascii.eqb QUOTE c); auto|].
        exists (String c t1), t2. split; [done|]. split; [cbn; lia|]. cbn.
        rewrite (proj2 (Ascii.eqb_neq c "<")) by done. cbn [andb]. rewrite (Ascii.eqb_sym c QUOTE).
        destruct (Ascii.eqb_spec c ">") as [->|_]; [done|].
        by destruct (Ascii.eqb QUOTE c).
      * intros _. destruct c as [[] [] [] [] [] [] [] []]; try exact I. by apply Hc.
  - specialize (IH (if Ascii.eqb c QUOTE then None else Some QUOTE) (S i)).
    destruct (findAnyUnescaped_from _ _ _ _ _) as [j|]; [|done].
    destruct IH as (t1 & t2 & -> & -> & Hb); [destruct (Ascii.eqb c QUOTE); auto|].
    exists (String c t1), t2. split; [done|]. split; [cbn; lia|]. cbn. rewrite !andb_false_r.
    by destruct (Ascii.eqb c QUOTE).
Qed.

Lemma TrimSpace_nonempty_mid t1 t2 : TrimSpace (t1 +:+ String "<" t2) <> "".
Proof.
  intros E. destruct (TrimSpace_split (t1 +:+ String "<" t2)) as (pre & post & H & Hpre & Hpost).
  rewrite E in H. cbn in H.
  assert (Hs : sforall space_byte (t1 +:+ String "<" t2) = true)
    by (by rewrite H, sforall_app, Hpre, Hpost).
  rewrite sforall_app in Hs. cbn in Hs. by rewrite andb_false_r in Hs.
Qed.

(** Scanning up to the closing quote. *)
Lemma bq_quoted u : forall r,
  bq (false, true) u = (false, false) ->
  exists v w, u = v +:+ String QUOTE w /\ index_byte QUOTE (u +:+ r) = Some (String.length v)
    /\ bq (false, false) w = (false, false).
Proof.
  induction u as [|c u IH]; intros r H; cbn in H; [done|]. rewrite !andb_false_r in H.
  destruct (Ascii.eqb_spec c QUOTE) as [->|Hne].
  - exists "", u. unfold index_byte. cbn. by rewrite Ascii.eqb_refl.
  - destruct (IH r H) as (v & w & -> & Hi & Hw). exists (String c v), w. split; [done|]. split; [|done].
    unfold index_byte in *. cbn. rewrite (proj2 (Ascii.eqb_neq QUOTE c)) by congruence.
    by rewrite Hi.
Qed.

Lemma ParseDisplayName_no_panic t :
  bq (false, false) t = (false, false) -> t <> "" -> TrimSpace t = t ->
  match ParseDisplayName t with
  | Ok (_, t') => bq (false, false) t' = (false, false) /\ TrimSpace t' <> ""
  | Err _ => True
  | Panic _ => False
  end.
Proof.
  intros Hb Hne Ht. unfold ParseDisplayName, findUnescaped, findAnyUnescaped.
  change (string_of_byte "<") with "<".
  pose proof (find_angle_spec t None 0 (or_introl eq_refl)) as Hf.
  destruct (findAnyUnescaped_from _ _ _ _ _) as [j|]; [|cbn; by rewrite Ht].
  destruct Hf as (t1 & t2 & -> & -> & Hb1). cbn [Nat.add].
  destruct t1 as [|c t1]; [cbn in Ht |- *; by rewrite Ht|]. cbn [String.length].
  cbn [String.append first_byte mbind res_bind].
  change (bool_decide (None <> None)) with false in Hb1.
  assert (Hb2 : bq (false, false) (String "<" t2) = (false, false)) by (by rewrite bq_app, Hb1 in Hb).
  destruct (Ascii.eqb_spec c QUOTE) as [->|_].
  - change (slice_from 1 (String QUOTE ?s)) with (Ok s). cbn [mbind res_bind].
    destruct (bq_quoted t1 (String "<" t2) Hb1) as (v & w & -> & -> & Hw).
    cbn [mret res_ret].
    rewrite sapp_assoc. cbn [String.append]. rewrite str_drop_S_app.
    split; [by rewrite bq_app, Hw|apply TrimSpace_nonempty_mid].
  - cbn [mret res_ret str_drop]. rewrite str_drop_app. split; [done|].
    exact (TrimSpace_nonempty_mid "" t2).
Qed.

Lemma ParseAddressValue_no_panic s :
  bq (false, false) s = (false, false) -> (s = "" \/ TrimSpace s <> "") ->
  is_panic (ParseAddressValue s) = false.
Proof.
  intros Hb Hne. unfold ParseAddressValue. destruct (String.eqb_spec s "") as [->|Hs]; [done|].
  destruct Hne as [|Hne]; [done|].
  pose proof (ParseDisplayName_no_panic (TrimSpace s)) as Hd.
  rewrite bq_TrimSpace, TrimSpace_idem in Hd. specialize (Hd Hb Hne eq_refl).
  destruct (ParseDisplayName (TrimSpace s)) as [[d t]| |]; cbn [mbind res_bind]; [|done|done].
  destruct Hd as [Hbt Ht].
  apply bind_no_panic; [apply split_address_no_panic; by rewrite ?bq_TrimSpace|].
  intros [u ps] _. apply bind_no_panic; [apply ParseUri_total|]. intros uri _.
  destruct ps as [ps|]; [|done]. by destruct (ParseParams ps ";" ";" "," true true) as [[? ?] [|]].
Qed.

(** A blank section panics: the address parser reads the first byte of its trimmed text. *)
Lemma ParseAddressValue_blank s : s <> "" -> TrimSpace s = "" -> ParseAddressValue s = Panic IndexOutOfRange.
Proof.
  intros Hs Ht. unfold ParseAddressValue. rewrite (proj2 (String.eqb_neq s "")) by done.
  rewrite Ht. reflexivity.
Qed.

Definition blank (s : string) : bool := negb (String.eqb s "") && String.eqb (TrimSpace s) "".

Lemma ParseAddressValues_no_panic s :
  forallb (fun sec => negb (blank sec)) (address_sections (false, false) "" (s +:+ ",")) = true ->
  is_panic (ParseAddressValues s) = false.
Proof.
  intros H. rewrite ParseAddressValues_eq. apply mapM_res_no_panic. intros sec Hsec.
  pose proof (address_sections_balanced (s +:+ ",") "" _ eq_refl) as Hb.
  rewrite Forall_forall in Hb. specialize (Hb sec Hsec).
  rewrite forallb_forall in H. apply list_elem_of_In in Hsec. specialize (H sec Hsec).
  apply ParseAddressValue_no_panic; [done|]. unfold blank in H.
  destruct (String.eqb_spec sec ""); [by left|right]. cbn in H.
  by destruct (String.eqb_spec (TrimSpace sec) "").
Qed.

(** ** What the parsers return *)

Lemma parse_uri_tail_ok s ps hs : parse_uri_tail s = Ok (ps, hs) -> params_ok ps /\ params_ok hs.
Proof.
  unfold parse_uri_tail. destruct (String.eqb s "").
  { intros [= <- <-]. split; apply NewParams_ok. }
  destruct (first_byte s) as [c| |]; cbn [mbind res_bind]; try done.
  destruct (if Ascii.eqb c ";" then _ else _) as [[ps' n] [e|]] eqn:E; [done|].
  assert (Hps : params_ok ps').
  { destruct (Ascii.eqb c ";"); [by apply ParseParams_bounds in E as [? _]|].
    injection E as <- <-. apply NewParams_ok. }
  destruct (slice_from n s) as [u| |]; cbn [mbind res_bind]; try done.
  destruct (ParseParams u "?" "&" NUL true false) as [[hs' m] [e|]] eqn:E2; [done|].
  destruct (slice_from m u) as [w| |]; cbn [mbind res_bind]; try done.
  destruct (0 <? _)%nat; [done|]. intros [= <- <-]. split; [done|].
  by apply ParseParams_bounds in E2 as [? _].
Qed.

Lemma ParseHostPort_bound s h p : ParseHostPort s = Ok (h, Some p) -> (p < 2 ^ 16)%N.
Proof.
  unfold ParseHostPort. destruct (index_byte ":" s); [|done]. intros H.
  apply bind_ok in H as (m & Hn & [= _ <-]). by apply ParseUint_bound in Hn.
Qed.

Lemma ParseSipUri_rest_ok enc s u : ParseSipUri_rest enc s = Ok u -> uri_ok (USip u).
Proof.
  unfold ParseSipUri_rest. destruct (split_userinfo s) as [[us pw] r]. intros H.
  apply bind_ok in H as ([h p] & _ & H). apply bind_ok in H as ([ps hs] & Ht & [= <-]).
  apply parse_uri_tail_ok in Ht as [? ?]. split; eauto.
Qed.

Lemma ParseSipUri_ok s u : ParseSipUri s = Ok u -> uri_ok (USip u).
Proof.
  unfold ParseSipUri. intros H. apply bind_ok in H as (p3 & _ & H).
  destruct (negb _); [done|]. do 3 apply bind_ok in H as (? & _ & H).
  apply bind_ok in H as (? & _ & H). destruct (negb _); [done|].
  apply bind_ok in H as (? & _ & H). by apply ParseSipUri_rest_ok in H.
Qed.

Lemma ParseUri_ok s u : ParseUri s = Ok u -> uri_ok u.
Proof.
  unfold ParseUri. destruct (String.eqb _ "*"); [by intros [= <-]|].
  destruct (index_byte ":" s); [|done]. destruct (_ || _); [|done].
  destruct (ParseSipUri s) eqn:E; cbn; try done. intros [= <-]. by apply ParseSipUri_ok in E.
Qed.

Lemma ParseAddressValue_ok s d u ps :
  ParseAddressValue s = Ok (d, u, ps) -> uri_ok u /\ params_ok ps.
Proof.
  unfold ParseAddressValue. destruct (String.eqb s ""); [done|]. intros H.
  apply bind_ok in H as ([d' t] & _ & H). apply bind_ok in H as ([ut pt] & _ & H).
  apply bind_ok in H as (u' & Hu & H). apply ParseUri_ok in Hu. destruct pt as [text|].
  - destruct (ParseParams text ";" ";" "," true true) as [[ps' n] [e|]] eqn:E; [done|].
    injection H as <- <- <-. split; [done|]. by apply ParseParams_bounds in E as [? _].
  - injection H as <- <- <-. split; [done|apply NewParams_ok].
Qed.

Lemma mapM_res_Forall {A B} (f : A -> res B) (P : B -> Prop) l bs :
  (forall a b, f a = Ok b -> P b) -> mapM_res f l = Ok bs -> Forall P bs.
Proof.
  intros Hf. revert bs. induction l as [|a l IH]; intros bs; cbn; [by intros [= <-]|].
  intros H. apply bind_ok in H as (b & Hb & H). apply bind_ok in H as (bs' & Hbs & [= <-]).
  constructor; eauto.
Qed.

Lemma ParseAddressValues_ok s vs :
  ParseAddressValues s = Ok vs -> Forall (fun v => uri_ok v.1.2 /\ params_ok v.2) vs.
Proof.
  rewrite ParseAddressValues_eq. apply mapM_res_Forall. intros a [[d u] ps] H.
  by apply ParseAddressValue_ok in H.
Qed.

(** The limits of the numbers and texts that the parsers let through. *)
Definition header_limits (h : Header) : Prop :=
  match h with
  | HCSeq n m => (n <= maxCseq)%N /\ contains_byte ";" m = false
  | HContentLength n | HExpires n | HMaxForwards n => (n < 2 ^ 32)%N
  | HCallID v => v <> "" /\ contains_by is_abnf_ws v = false /\ contains_byte ";" v = false
  | HVia hops => hops <> [] /\ Forall (fun hop => match VPort hop with Some p => (p < 2 ^ 16)%N | None => True end) hops
  | HFrom a | HTo a => Address a <> Some UWildcard
  | _ => True
  end.

Definition parsed_ok (h : Header) : Prop := header_ok h /\ header_limits h.

Definition is_generic (h : Header) : bool := match h with HGeneric _ _ => true | _ => false end.

(** What the parsers of the table return: a well-formed header of a type of its own. *)
Definition typed_ok (h : Header) : Prop := parsed_ok h /\ is_generic h = false.

Lemma address_header_ok name idx v h :
  uri_ok v.1.2 /\ params_ok v.2 -> address_header name idx v = Ok h -> typed_ok h.
Proof.
  destruct v as [[d u] ps]. cbn [fst snd]. intros [Hu Hps] H.
  assert (Ha : address_ok (mkAddress d (Some u) (Some ps))) by (split; cbn; eauto).
  unfold address_header in H. split_matches; simplify_eq/=; (split; [split; [exact Ha|]|]); cbn; done.
Qed.

Lemma address_headers_ok name vs : forall idx hs,
  Forall (fun v => uri_ok v.1.2 /\ params_ok v.2) vs -> address_headers name idx vs = Ok hs ->
  Forall typed_ok hs.
Proof.
  induction vs as [|v vs IH]; intros idx hs Hvs; cbn; [by intros [= <-]|].
  inversion Hvs; subst. intros H. apply bind_ok in H as (h & Hh & H).
  apply bind_ok in H as (hs' & Hhs & [= <-]).
  constructor; [by eapply address_header_ok|by eapply IH].
Qed.

Lemma parse_hop_ok s hop err :
  parse_hop s = Ok (hop, err) ->
  hop_ok hop /\ match VPort hop with Some p => (p < 2 ^ 16)%N | None => True end.
Proof.
  unfold parse_hop. intros H. apply bind_ok in H as ([[[pn pv] tr] body] & _ & H).
  destruct (index_byte ";" body) as [i|]; apply bind_ok in H as ([h [p|]] & Hp & H).
  1,2: destruct (ParseParams (str_drop i body) ";" ";" NUL true true) as [[ps n] e] eqn:E;
    apply ParseParams_bounds in E as [Hps _].
  all: injection H as <- <-; (split; [unfold hop_ok; cbn; eauto using NewParams_ok|cbn]);
    try (by apply ParseHostPort_bound in Hp); done.
Qed.

Lemma parse_hops_ok sections : forall via err hops,
  Forall (fun hop => hop_ok hop /\ match VPort hop with Some p => (p < 2 ^ 16)%N | None => True end) via ->
  parse_hops sections via err = Ok hops ->
  Forall (fun hop => hop_ok hop /\ match VPort hop with Some p => (p < 2 ^ 16)%N | None => True end) hops
  /\ length hops = (length via + length sections)%nat.
Proof.
  induction sections as [|s sections IH]; intros via err hops Hvia; cbn [parse_hops].
  - destruct err; [done|]. intros [= <-]. split; [done|cbn; lia].
  - destruct err as [e|].
    + intros H. apply bind_ok in H as (? & _ & ?). done.
    + intros H. apply bind_ok in H as ([hop err'] & Hh & H). apply parse_hop_ok in Hh.
      apply IH in H as [H1 H2]; [|apply Forall_app; split; [done|by constructor]].
      split; [done|]. rewrite H2, length_app. cbn. lia.
Qed.

(** A parser of the table returns well-formed headers. *)
Definition parser_sound (p : HeaderParser) : Prop :=
  forall name text hs, p name text = Ok hs -> Forall typed_ok hs.

(** Discharge the parsers that return one header built from a number or a text. *)
Ltac one_header :=
  intros name text hs H;
  repeat (apply bind_ok in H as (? & ? & H));
  injection H as <-; apply Forall_cons; split; [split; [split; [exact I|]|reflexivity]|by apply Forall_nil];
  first [exact I | cbn; eauto using ParseUint_bound].

Lemma parseAddressHeader_sound : parser_sound parseAddressHeader.
Proof.
  intros name text hs. unfold parseAddressHeader. destruct (existsb _ _); [|by intros [= <-]].
  intros H. apply bind_ok in H as (vs & Hvs & H). apply ParseAddressValues_ok in Hvs.
  by eapply address_headers_ok.
Qed.

Lemma parseCSeq_sound : parser_sound parseCSeq.
Proof.
  intros name text hs. unfold parseCSeq. destruct (SplitByWhitespace text) as [|p0 [|p1 [|]]]; try done.
  intros H. apply bind_ok in H as (n & _ & H). destruct (maxCseq <? n)%N eqn:E; [done|].
  destruct (contains_byte ";" (TrimSpace p1)) eqn:Ec; [done|]. injection H as <-.
  apply N.ltb_ge in E. by repeat constructor.
Qed.

Lemma parseCallId_sound : parser_sound parseCallId.
Proof.
  intros name text hs. unfold parseCallId.
  destruct (contains_by is_abnf_ws (TrimSpace text)) eqn:E1; [done|].
  destruct (contains_byte ";" (TrimSpace text)) eqn:E2; [done|].
  destruct (String.eqb_spec (TrimSpace text) ""); [done|]. intros [= <-]. by repeat constructor.
Qed.

Lemma parseViaHeader_sound : parser_sound parseViaHeader.
Proof.
  intros name text hs. unfold parseViaHeader. intros H. apply bind_ok in H as (via & Hv & [= <-]).
  apply parse_hops_ok in Hv as [Hv Hl]; [|constructor]. cbn in Hl.
  apply Forall_and in Hv as [Ho Hp]. constructor; [|constructor]. split; [|done]. split; [done|]. split; [|done].
  intros ->. rewrite split_byte_length in Hl. done.
Qed.

Lemma route_sound (mk : list Uri -> Header) :
  (forall us, Forall uri_ok us -> typed_ok (mk us)) ->
  parser_sound (fun _ text => vs ← ParseAddressValues text; mret [mk (map (fun v => v.1.2) vs)]).
Proof.
  intros Hmk name text hs H. apply bind_ok in H as (vs & Hvs & [= <-]).
  apply ParseAddressValues_ok in Hvs. constructor; [|constructor]. apply Hmk.
  apply Forall_map. eapply Forall_impl; [exact Hvs|]. by intros v [? ?].
Qed.

Lemma store_match_ok a m b :
  (exists ps, Other a = Some ps /\ params_ok ps) -> store_match a m = Ok b ->
  exists ps, Other b = Some ps /\ params_ok ps.
Proof.
  intros (ps & Hps & Hok). destruct m as [k v]. unfold store_match.
  repeat (case_match; [intros [= <-]; cbn; eauto|]). rewrite Hps. cbn. intros [= <-]. cbn.
  eauto using Add_ok.
Qed.

Lemma ParseAuthorization_ok a text b :
  (exists ps, Other a = Some ps /\ params_ok ps) -> ParseAuthorization a text = Ok b ->
  exists ps, Other b = Some ps /\ params_ok ps.
Proof.
  intros Ho. unfold ParseAuthorization. generalize (FindAllStringSubmatch (InWord "") text). intros ms.
  set (a0 := match index_str _ _ with Some _ => _ | None => _ end).
  assert (H0 : exists ps, Other a0 = Some ps /\ params_ok ps) by (subst a0; by destruct (index_str _ _)).
  clearbody a0. revert a0 H0. induction ms as [|m ms IH]; intros a0 H0; cbn; [by intros [= <-]|].
  intros H. apply bind_ok in H as (a1 & Ha1 & H). eauto using store_match_ok.
Qed.

Lemma parseAuthorization_sound : parser_sound parseAuthorization.
Proof.
  intros name text hs H. apply bind_ok in H as (a & Ha & [= <-]).
  constructor; [|constructor]. split; [|done]. split; [|done].
  eapply ParseAuthorization_ok; [|exact Ha]. cbn. eauto using NewParams_ok.
Qed.

Lemma defaultHeaderParsers_sound : Forall (fun e => parser_sound e.2) defaultHeaderParsers.
Proof.
  unfold defaultHeaderParsers.
  repeat (apply Forall_cons; split; [cbn [snd]|]); try (by apply Forall_nil);
    first [ apply parseAddressHeader_sound | apply parseCSeq_sound | apply parseCallId_sound
          | apply parseViaHeader_sound | apply parseAuthorization_sound
          | by apply (route_sound HRoute) | by apply (route_sound HRecordRoute) | one_header ].
Qed.

(** The tables of [NewParser] and of the nil parser hold the default parsers. *)
Lemma table_entry (P : HeaderParser -> Prop) l (m : gmap string HeaderParser) k p :
  (forall k p, m !! k = Some p -> P p) -> Forall (fun e => P e.2) l ->
  foldl (fun m '(name, p) => SetHeaderParser m name p) m l !! k = Some p -> P p.
Proof.
  intros Hm Hl. revert m Hm. induction Hl as [|[n q] l Hq _ IH]; intros m Hm; cbn; [apply Hm|].
  apply IH. intros k' p'. unfold SetHeaderParser. rewrite lookup_insert_Some. naive_solver.
Qed.

Lemma nil_table_entry (P : HeaderParser -> Prop) l k p :
  Forall (fun e => P e.2) l -> (list_to_map l : gmap string HeaderParser) !! k = Some p -> P p.
Proof.
  intros Hl. induction Hl as [|[n q] l Hq _ IH]; cbn; [by rewrite lookup_empty|].
  rewrite lookup_insert_Some. naive_solver.
Qed.

(** The tables that the program uses. *)
Inductive program_table : option (gmap string HeaderParser) -> Prop :=
  | table_nil : program_table None
  | table_new : program_table (Some NewParser_headerParsers).

Lemma program_table_entry (P : HeaderParser -> Prop) t k p :
  program_table t -> Forall (fun e => P e.2) defaultHeaderParsers ->
  default (list_to_map defaultHeaderParsers) t !! k = Some p -> P p.
Proof.
  intros [] HP; cbn [default].
  - by apply nil_table_entry.
  - apply table_entry; [|done]. intros ? ?. by rewrite lookup_empty.
Qed.

(** A generic header is only returned for a name that the table lacks. *)
Lemma ParseHeader_typed text t hs :
  program_table t -> ParseHeader text t = Ok hs ->
  Forall typed_ok hs
  \/ exists name v, hs = [HGeneric name v]
     /\ default (list_to_map defaultHeaderParsers) t !! ToLower name = None.
Proof.
  intros Ht. unfold ParseHeader. destruct (index_byte ":" text) as [i|]; [|done].
  destruct (_ !! _) as [p|] eqn:E.
  - apply (program_table_entry parser_sound) in E; [|done|apply defaultHeaderParsers_sound].
    left. by eapply E.
  - intros [= <-]. right. eauto.
Qed.

Lemma ParseHeader_sound text t hs :
  program_table t -> ParseHeader text t = Ok hs -> Forall parsed_ok hs.
Proof.
  intros Ht H. destruct (ParseHeader_typed text t hs Ht H) as [Hs|(n & v & -> & _)].
  - eapply Forall_impl; [exact Hs|]. by intros h [? _].
  - by repeat constructor.
Qed.

(** ** No panic in the header parsers *)

Definition no_blank_section (text : string) : bool :=
  forallb (fun sec => negb (blank sec)) (address_sections (false, false) "" (text +:+ ",")).

Definition parser_safe (p : HeaderParser) : Prop :=
  forall name text, no_blank_section text = true -> is_panic (p name text) = false.

Lemma address_headers_no_panic name vs : forall idx, is_panic (address_headers name idx vs) = false.
Proof.
  induction vs as [|[[d u] ps] vs IH]; intros idx; [done|]. cbn [address_headers].
  apply bind_no_panic; [|intros h _; apply bind_no_panic; [apply IH|done]].
  unfold address_header. by repeat case_match.
Qed.

Lemma parse_protocol_no_panic s : is_panic (parse_protocol s) = false.
Proof.
  unfold parse_protocol. destruct (split_byte "/" s) as [|p0 [|p1 [|w ws]]]; try done.
  set (p2 := join "/" (w :: ws)).
  set (k := (String.length p2 - String.length (trim_left_ws p2))%nat).
  set (j := match index_by is_abnf_ws (str_drop k p2) with Some i => (i + k + 1)%nat | None => k end).
  assert (Hj : (j <= String.length p2)%nat).
  { subst j. destruct (index_by is_abnf_ws (str_drop k p2)) as [i|] eqn:E; [|lia].
    apply index_by_lt in E. rewrite slength_drop in E. lia. }
  clearbody j. destruct (j =? 0)%nat; [done|]. destruct (j =? 1)%nat; [done|].
  rewrite slice_to_no_panic, slice_from_no_panic by lia. cbn [mbind res_bind].
  by repeat case_match.
Qed.

Lemma parse_hop_no_panic s : is_panic (parse_hop s) = false.
Proof.
  unfold parse_hop. apply bind_no_panic; [apply parse_protocol_no_panic|].
  intros [[[pn pv] tr] body] _. destruct (index_byte ";" body) as [i|];
    (apply bind_no_panic; [apply ParseHostPort_no_panic|intros [h p] _; try done]).
  by destruct (ParseParams (str_drop i body) ";" ";" NUL true true) as [[? ?] ?].
Qed.

Lemma parse_hops_no_panic ss : forall via err, is_panic (parse_hops ss via err) = false.
Proof.
  induction ss as [|s ss IH]; intros via [e|]; cbn [parse_hops]; try done.
  - by apply bind_no_panic; [apply parse_protocol_no_panic|].
  - apply bind_no_panic; [apply parse_hop_no_panic|]. intros [hop err'] _. apply IH.
Qed.

Lemma parseAddressHeader_safe : parser_safe parseAddressHeader.
Proof.
  intros name text H. unfold parseAddressHeader. destruct (existsb _ _); [|done].
  apply bind_no_panic; [by apply ParseAddressValues_no_panic|]. intros. apply address_headers_no_panic.
Qed.

Lemma parseCSeq_safe : parser_safe parseCSeq.
Proof.
  intros name text _. unfold parseCSeq. destruct (SplitByWhitespace text) as [|p0 [|p1 [|]]]; try done.
  apply bind_no_panic; [apply ParseUint_no_panic|]. intros. by repeat case_match.
Qed.

Lemma parseAuthorization_safe : parser_safe parseAuthorization.
Proof.
  intros name text _. unfold parseAuthorization.
  destruct (ParseAuthorization_no_panic (SetName CreateAuthorization name) text) as (a & -> & _);
    [cbn; eauto|done].
Qed.

(** The parsers that only trim, split or read a number, and those of the routes. *)
Ltac safe_header :=
  intros name text H;
  unfold parseCallId, parseViaHeader, parseMaxForwards, parseExpires, parseContentLength,
    parseRouteHeader, parseRecordRouteHeader;
  first [ reflexivity
        | apply bind_no_panic;
            [first [ apply ParseUint_no_panic | by apply ParseAddressValues_no_panic
                   | apply parse_hops_no_panic ]
            |reflexivity]
        | by repeat case_match ].

Lemma defaultHeaderParsers_safe : Forall (fun e => parser_safe e.2) defaultHeaderParsers.
Proof.
  unfold defaultHeaderParsers.
  repeat (apply Forall_cons; split; [cbn [snd]|]); try (by apply Forall_nil);
    first [ apply parseAddressHeader_safe | apply parseCSeq_safe | apply parseAuthorization_safe
          | safe_header ].
Qed.

(** The text of a header line behind its colon. *)
Definition field_text (headerText : string) : string :=
  match index_byte ":" headerText with
  | Some i => TrimSpace (str_drop (S i) headerText)
  | None => ""
  end.

Lemma ParseHeader_safe text t :
  program_table t -> no_blank_section (field_text text) = true -> is_panic (ParseHeader text t) = false.
Proof.
  intros Ht H. unfold ParseHeader, field_text in *. destruct (index_byte ":" text) as [i|]; [|done].
  destruct (_ !! _) as [p|] eqn:E; [|done].
  apply (program_table_entry parser_safe) in E; [|done|apply defaultHeaderParsers_safe]. by apply E.
Qed.

(** ** Properties *)

(** C17: a header line makes the parser panic only when its value has a section
    between two separating commas that is not empty but blank; every other line is
    parsed or rejected with an error, with the table of [NewParser] as with the
    default one. *)
Theorem ParseHeader_no_panic (text : string) (t : option (gmap string HeaderParser)) :
  program_table t -> no_blank_section (field_text text) = true -> is_panic (ParseHeader text t) = false.
Proof. apply ParseHeader_safe. Qed.

Lemma ParseHeader_no_panic_witness :
  is_panic (ParseHeader "Contact: <sip:a@b>, <sip:c@d>;q=1" (Some NewParser_headerParsers)) = false.
Proof. apply ParseHeader_no_panic; [constructor|reflexivity]. Defined.

(** The remaining lines do panic: the section between the two commas is one space. *)
Example contact_blank_section_panics :
  ParseHeader "Contact: <sip:a@b>, ,<sip:c@d>" (Some NewParser_headerParsers) = Panic IndexOutOfRange.
Proof. vm_compute. reflexivity. Qed.

(** Called directly, the address parser also panics on an unclosed bracket: the result
    -1 of the search is compared with 0. *)
Example unclosed_bracket_panics : ParseAddressValue "<sip:a@b" = Panic SliceOutOfRange.
Proof. vm_compute. reflexivity. Qed.

(** In a list the unclosed section is dropped without an error. *)
Example unclosed_bracket_dropped :
  ParseHeader "From: <sip:a@b" (Some NewParser_headerParsers) = Ok [].
Proof. vm_compute. reflexivity. Qed.

(** C37: every header that a parser of the program returns is well formed: its URIs
    and parameter lists are set and keep their invariants, a sequence number is at
    most 2^31 - 1, the other numbers fit 32 bits, the ports of Via hops 16 bits, a Via
    header has a hop, a Call-ID is a nonempty word, and no From or To header is a wildcard. *)
Theorem ParseHeader_parsed_ok (text : string) (t : option (gmap string HeaderParser)) (hs : list Header) :
  program_table t -> ParseHeader text t = Ok hs -> Forall parsed_ok hs.
Proof. apply ParseHeader_sound. Qed.

Lemma ParseHeader_parsed_ok_witness : parsed_ok (HCSeq 2147483647 "INVITE").
Proof.
  assert (H : Forall parsed_ok [HCSeq 2147483647 "INVITE"]).
  { apply (ParseHeader_parsed_ok "CSeq: 2147483647 INVITE" (Some NewParser_headerParsers));
      [constructor|vm_compute; reflexivity]. }
  by inversion H.
Defined.

(** the one-pass loop of [ParseAddressValues] splits its argument at the commas
    that stand outside quotes and angle brackets and parses each piece on its own, in
    order, stopping at the first failure. *)
Theorem ParseAddressValues_sections (addresses : string) :
  ParseAddressValues addresses
  = mapM_res ParseAddressValue (address_sections (false, false) "" (addresses +:+ ",")).
Proof. apply ParseAddressValues_eq. Qed.

(** the table of [NewParser] parses a Call-ID line into a [CallID], while
    [AddHeaderString], which passes the nil parser, never finds the entry that is
    spelled with capitals and stores a generic header. *)
Theorem nil_parser_misses_CallID (value : string) :
  ParseHeader ("Call-ID:" +:+ value) (Some NewParser_headerParsers)
    = parseCallId "call-id" (TrimSpace value)
  /\ ParseHeader ("Call-ID:" +:+ value) None = Ok [HGeneric "Call-ID" (TrimSpace value)].
Proof.
  unfold ParseHeader. change ("Call-ID:" +:+ value) with ("Call-ID" +:+ String ":" value).
  rewrite index_byte_app by reflexivity. rewrite str_take_app, str_drop_S_app.
  split; reflexivity.
Qed.

(** A status line whose reason phrase is one word starting with "SIP" also passes the
    test for requests, which is made first. *)
Example status_line_looks_like_request : isRequest "SIP/2.0 200 SIP-OK" = true.
Proof. reflexivity. Qed.
