(* ===== verification/HeaderRoundTrip.v ===== *)
(** * Rendering a header and parsing it back

    The equations that compose [Header_String] (sip/headers.go) with [ParseHeader]
    (sip/parser.go), and the start lines with their parsers. *)

From S2P Require Import Prelude GoStrings Params Base Uri Header Headers Auth HeaderParse.
From Stdlib Require Import NArith Lia.

#[local] Open Scope string_scope.
#[local] Open Scope list_scope.
#[local] Arguments QUOTE : simpl never.
#[local] Arguments SP : simpl never.
#[local] Arguments HTAB : simpl never.

(** ** Texts with graphic ends *)

Definition starts_graph (s : string) : bool :=
  match s with "" => false | String c _ => is_graph c end.
Definition ends_graph (s : string) : bool := starts_graph (srev s).

Lemma starts_graph_app s t : starts_graph s = true -> starts_graph (s +:+ t) = true.
Proof. by destruct s. Qed.

Lemma ends_graph_app s t : ends_graph t = true -> ends_graph (s +:+ t) = true.
Proof. unfold ends_graph. rewrite srev_app. apply starts_graph_app. Qed.

Lemma graph_starts s : s <> "" -> sforall is_graph s = true -> starts_graph s = true.
Proof. destruct s; [done|]. cbn. by intros _ [-> _]%andb_prop. Qed.

Lemma graph_ends s : s <> "" -> sforall is_graph s = true -> ends_graph s = true.
Proof.
  intros Hne H. apply graph_starts; [|by rewrite sforall_srev].
  intros E. apply Hne. apply (f_equal srev) in E. by rewrite srev_involutive in E.
Qed.

Lemma TrimSpace_ends s : starts_graph s = true -> ends_graph s = true -> TrimSpace s = s.
Proof.
  intros Hs He. apply TrimSpace_trimmed. unfold trimmed, ends_graph in *.
  destruct s as [|a s]; [done|]. destruct (srev (String a s)); [done|]. cbn in *. by rewrite Hs, He.
Qed.

Lemma TrimSpace_graph s : sforall is_graph s = true -> TrimSpace s = s.
Proof. intros H. by apply TrimSpace_trimmed, graph_trimmed. Qed.

Lemma TrimSpace_SP s : TrimSpace (String SP s) = TrimSpace s.
Proof. done. Qed.

Lemma itoa_graph n : sforall is_graph (itoa n) = true.
Proof.
  eapply sforall_weaken; [|apply itoa_digits].
  intros c. destruct c as [[] [] [] [] [] [] [] []]; try done.
Qed.

(** ** The header line *)

(** A line "name: value" is handed to the parser of the name. *)
Lemma ParseHeader_line name value t :
  sforall is_graph name = true -> index_byte ":" name = None -> TrimSpace value = value ->
  ParseHeader (name +:+ ": " +:+ value) t =
  match default (list_to_map defaultHeaderParsers) t !! ToLower name with
  | Some p => p (ToLower name) value
  | None => Ok [HGeneric name value]
  end.
Proof.
  intros Hg Hc Hv. unfold ParseHeader. cbn [String.append].
  rewrite index_byte_app by (by apply index_by_none_inv in Hc).
  rewrite str_take_app, str_drop_S_app, TrimSpace_graph by done.
  change (TrimSpace (String " " value)) with (TrimSpace value). by rewrite Hv.
Qed.

(** ** Lists of tokens *)

Definition token (s : string) : bool :=
  negb (String.eqb s "") && sforall is_graph s && sforall (none_of [","]%char) s.

Lemma token_parts s :
  token s = true -> s <> "" /\ sforall is_graph s = true
    /\ sforall (fun a => negb (Ascii.eqb "," a)) s = true.
Proof.
  unfold token. intros [[H1 H2]%andb_prop H3]%andb_prop. split; [|split; [done|]].
  - intros ->. done.
  - by apply (none_of_byte _ "," _ H3 eq_refl).
Qed.

(** Splitting a comma-separated rendering at the commas leaves a space before each
    part but the first. *)
Lemma split_join_comma x l :
  Forall (fun w => sforall (fun a => negb (Ascii.eqb "," a)) w = true) (x :: l) ->
  split_byte "," (join ", " (x :: l)) = x :: map (String SP) l.
Proof.
  revert x. induction l as [|y l IH]; intros x Hl; inversion Hl as [|? ? Hx Hl']; subst.
  - by apply split_byte_none.
  - change (join ", " (x :: y :: l)) with (x +:+ String "," (String SP (join ", " (y :: l)))).
    rewrite split_byte_app by done. f_equal. inversion Hl' as [|? ? Hy _]; subst.
    specialize (IH y Hl'). cbn [split_byte]. change (Ascii.eqb "," SP) with false. cbn iota.
    by rewrite IH.
Qed.

Lemma ends_graph_join x l :
  Forall (fun w => ends_graph w = true) (x :: l) -> ends_graph (join ", " (x :: l)) = true.
Proof.
  revert x. induction l as [|y l IH]; intros x Hl; inversion Hl as [|? ? Hx Hl']; subst; [done|].
  change (join ", " (x :: y :: l)) with (x +:+ ", " +:+ join ", " (y :: l)).
  apply ends_graph_app, ends_graph_app. by apply IH.
Qed.

Lemma starts_graph_join x l : starts_graph x = true -> starts_graph (join ", " (x :: l)) = true.
Proof. intros H. destruct l; [done|]. by apply starts_graph_app. Qed.

Lemma tokens_split l :
  l <> [] -> forallb token l = true ->
  TrimSpace (join ", " l) = join ", " l
  /\ map TrimSpace (split_byte "," (join ", " l)) = l.
Proof.
  intros Hne Hl. rewrite forallb_forall in Hl. destruct l as [|x l]; [done|].
  assert (Hx : token x = true) by (apply Hl; by left). apply token_parts in Hx as (Hx1 & Hx2 & _).
  split.
  - apply TrimSpace_ends; [by apply starts_graph_join, graph_starts|].
    apply ends_graph_join, Forall_forall. intros w Hw%list_elem_of_In%Hl%token_parts.
    destruct Hw as (? & ? & _). by apply graph_ends.
  - rewrite split_join_comma.
    + cbn. rewrite TrimSpace_graph by done. f_equal. rewrite map_map.
      rewrite <- (map_id l) at 2. apply map_ext_in. intros w Hw. rewrite TrimSpace_SP.
      apply TrimSpace_graph. apply (token_parts w), Hl. by right.
    + apply Forall_forall. intros w Hw%list_elem_of_In%Hl%token_parts. tauto.
Qed.

(** ** CSeq *)

Lemma runes_ascii s : sforall is_ascii s = true -> runes s = map (fun c => String c "") (String.list_ascii_of_string s).
Proof.
  induction s as [|c s IH]; cbn; [done|]. intros [Hc Hs]%andb_prop. by rewrite Hc, IH.
Qed.

Definition plain_word (s : string) : bool := sforall (fun c => is_ascii c && negb (is_abnf_ws c)) s.

Lemma graph_plain s : sforall is_graph s = true -> plain_word s = true.
Proof.
  apply sforall_weaken. intros c. unfold is_graph. intros [-> Hc]%andb_prop. cbn.
  unfold is_abnf_ws. destruct (Ascii.eqb_spec c SP) as [->|_]; [done|].
  by destruct (Ascii.eqb_spec c HTAB) as [->|_].
Qed.

Lemma ws_step_word s : forall buf result,
  plain_word s = true -> s <> "" ->
  foldl ws_step (buf, true, result) (runes s) = (buf +:+ s, true, result)
  /\ foldl ws_step (buf, false, result) (runes s) = (buf +:+ s, true, result).
Proof.
  assert (Hc : forall c, is_abnf_ws c = false -> index_str (String c "") (String SP (String HTAB "")) = None).
  { intros c. unfold is_abnf_ws. intros [H1 H2]%orb_false_iff. cbn. by rewrite H1, H2. }
  induction s as [|c s IH]; intros buf result Hp; [done|]. intros _. cbn in Hp.
  apply andb_prop in Hp as [[Ha Hw%negb_true_iff]%andb_prop Hs]. cbn. rewrite Ha. cbn [foldl ws_step].
  rewrite Hc by done. destruct (decide (s = "")) as [->|Hne]; [done|].
  destruct (IH (buf +:+ String c "") result Hs Hne) as [-> _]. by rewrite sapp_assoc.
Qed.

Lemma runes_app_ascii s t :
  sforall is_ascii s = true -> runes (s +:+ t) = runes s ++ runes t.
Proof.
  induction s as [|c s IH]; cbn; [done|]. intros [Hc Hs]%andb_prop. by rewrite Hc, IH.
Qed.

Lemma SplitByWhitespace_two a b :
  plain_word a = true -> plain_word b = true -> a <> "" -> b <> "" ->
  SplitByWhitespace (a +:+ " " +:+ b) = [a; b].
Proof.
  intros Ha Hb Hna Hnb. unfold SplitByWhitespace.
  assert (Hascii : forall s, plain_word s = true -> sforall is_ascii s = true).
  { intros s. apply sforall_weaken. by intros c [? _]%andb_prop. }
  rewrite runes_app_ascii by auto.
  change (runes (" " +:+ b)) with (" " :: runes b).
  rewrite foldl_app. destruct (ws_step_word a "" [] Ha Hna) as [-> _].
  cbn [foldl]. change (ws_step ("" +:+ a, true, []) " ") with ("", false, [a]).
  destruct (ws_step_word b "" [a] Hb Hnb) as [_ ->]. cbn.
  by rewrite (proj2 (String.eqb_neq b "")).
Qed.

(** ** Sections of a rendered address list *)

(** No byte of [s] separates sections when the scan starts in [st]. *)
Fixpoint quiet (st : bool * bool) (s : string) : bool :=
  match s with "" => true | String c s' => negb (separates st c) && quiet (bq_step st c) s' end.

Lemma sections_quiet s : forall st cur r,
  quiet st s = true ->
  address_sections st cur (s +:+ r) = address_sections (bq st s) (cur +:+ s) r.
Proof.
  induction s as [|c s IH]; intros st cur r; cbn; [by rewrite sapp_nil_r|].
  intros [Hc%negb_true_iff Hs]%andb_prop. rewrite Hc, IH by done. by rewrite sapp_assoc.
Qed.

Lemma quiet_app st s t : quiet st (s +:+ t) = quiet st s && quiet (bq st s) t.
Proof.
  revert st. induction s as [|c s IH]; intros st; cbn; [done|]. by rewrite IH, andb_assoc.
Qed.

(** Inside brackets or quotes, or without commas, nothing separates. *)
Lemma quiet_inert b q s :
  sforall inert s = true -> b || q || sforall (none_of [","]%char) s = true -> quiet (b, q) s = true.
Proof.
  induction s as [|c s IH]; cbn [sforall quiet]; [done|]. intros [Hc Hs]%andb_prop H.
  rewrite (bq_step_inert (b, q)) by done.
  rewrite IH; [|done|by destruct b, q; [..|apply andb_prop in H as []]].
  rewrite andb_true_r. unfold separates. cbn [fst snd]. destruct b, q; try done. cbn in *.
  apply andb_prop in H as [H _]. rewrite andb_true_r in H.
  by rewrite (Ascii.eqb_sym c ",").
Qed.

Lemma quiet_quoted s : no_quote s = true -> quiet (false, true) s = true /\ bq (false, true) s = (false, true).
Proof.
  induction s as [|c s IH]; cbn; [done|]. intros [Hc%negb_true_iff Hs]%andb_prop.
  rewrite !andb_false_r, Hc. by apply IH.
Qed.

(** A rendered address: scanned back to the neutral state without a separator. *)
Definition whole (s : string) : Prop := quiet (false, false) s = true /\ bq (false, false) s = (false, false).

Lemma whole_app s t : whole s -> whole t -> whole (s +:+ t).
Proof. intros [Hs1 Hs2] [Ht1 Ht2]. split; [by rewrite quiet_app, Hs1, Hs2|by rewrite bq_app, Hs2]. Qed.

Lemma sections_whole x l cur :
  Forall whole (x :: l) ->
  address_sections (false, false) cur (join ", " (x :: l) +:+ ",") = (cur +:+ x) :: map (String SP) l.
Proof.
  revert x cur. induction l as [|y l IH]; intros x cur Hl; inversion Hl as [|? ? [Hx1 Hx2] Hl']; subst.
  - cbn [join]. rewrite sections_quiet, Hx2 by done. reflexivity.
  - change (join ", " (x :: y :: l) +:+ ",") with ((x +:+ ", " +:+ join ", " (y :: l)) +:+ ",").
    rewrite sapp_assoc, sections_quiet, Hx2 by done.
    change ((", " +:+ join ", " (y :: l)) +:+ ",") with (String "," (String SP (join ", " (y :: l) +:+ ","))).
    cbn [address_sections]. change (separates (false, false) ",") with true.
    change (separates (false, false) SP) with false. change (bq_step (false, false) SP) with (false, false).
    cbn iota. change ("" +:+ String SP "") with (String SP ""). by rewrite IH.
Qed.

(** ** One address *)

Definition address_params (ps : headerParams) : Prop :=
  params_ok ps /\ all_params (param_safe ";" "," true) ps = true
  /\ sforall (fun c => is_graph c && inert c && none_of [","]%char c) (ToString ps ";") = true.

(** A pointer is not rendered. *)
Definition display_wf (d : option boxed) : bool :=
  match d with
  | None => true
  | Some (Str s) => negb (String.eqb s "") && no_quote s
  | Some (StrPtr _ _) => false
  end.

(** The addresses that are rendered faithfully. *)
Definition address_wf (a : AddressHeader) : Prop :=
  display_wf (DisplayName a) = true
  /\ (exists u, Address a = Some (USip u) /\ uri_wf u /\ sforall inert (SipUri_String u) = true)
  /\ (exists ps, HParams a = Some ps /\ address_params ps).

Definition address_text (d : option boxed) (u : SipUri) (ps : headerParams) : string :=
  display_text d +:+ "<" +:+ SipUri_String u +:+ ">" +:+ semi_params ps.

Lemma semi_params_text ps :
  params_ok ps -> semi_params ps = if decide (paramOrder ps = []) then "" else String ";" (ToString ps ";").
Proof. intros Hok. by rewrite <- params_text_some. Qed.

Lemma semi_params_chars ps c :
  address_params ps -> (c = is_graph \/ c = inert \/ c = none_of [","]%char) ->
  sforall c (semi_params ps) = true.
Proof.
  intros (Hok & _ & Ht) Hc. rewrite semi_params_text by done. case_decide; [done|]. cbn.
  apply andb_true_intro. split; [by destruct Hc as [-> | [-> | ->]]|].
  revert Ht. apply sforall_weaken. intros a [[H1 H2]%andb_prop H3]%andb_prop.
  by destruct Hc as [-> | [-> | ->]].
Qed.

Lemma ToString_nonempty ps : params_ok ps -> paramOrder ps <> [] ->
  all_params (param_safe ";" "," true) ps = true -> ToString ps ";" <> "".
Proof.
  intros Hok Hne Hs. rewrite ToString_join by done.
  apply all_params_Forall in Hs. destruct (paramOrder ps) as [|k ks]; [done|].
  inversion Hs as [|? ? Hk _]; subst. unfold param_safe in Hk.
  apply andb_prop in Hk as [[[Hk _]%andb_prop _]%andb_prop _]. apply negb_true_iff in Hk.
  destruct k as [|c k]; [done|]. intros E. apply (f_equal String.length) in E.
  destruct ks; cbn in E; destruct (val_of ps (String c k)) as [w|]; cbn in E;
    repeat case_match; cbn in E; discriminate E.
Qed.

Lemma display_text_whole d : display_wf d = true -> whole (display_text d).
Proof.
  destruct d as [[s|]|]; [|done..]. cbn [display_wf display_text as_String].
  intros [Hne%negb_true_iff Hq]%andb_prop. rewrite Hne.
  destruct (quiet_quoted s Hq) as [H1 H2]. unfold whole.
  change (DQ +:+ s +:+ DQ +:+ " ") with (String QUOTE (s +:+ String QUOTE " ")).
  cbn [quiet bq]. change (separates (false, false) QUOTE) with false.
  change (bq_step (false, false) QUOTE) with (false, true). cbn [negb andb].
  rewrite quiet_app, bq_app, H1, H2. done.
Qed.

Lemma bracket_whole u : sforall inert (SipUri_String u) = true -> whole ("<" +:+ SipUri_String u +:+ ">").
Proof.
  intros Hu. unfold whole. cbn [String.append quiet bq].
  change (separates (false, false) "<") with false. change (bq_step (false, false) "<") with (true, false).
  cbn [negb andb]. rewrite quiet_app, bq_app, (bq_inert _ _ Hu), quiet_inert by done. done.
Qed.

Lemma address_text_whole d u ps :
  display_wf d = true -> sforall inert (SipUri_String u) = true -> address_params ps ->
  whole (address_text d u ps).
Proof.
  intros Hd Hu Hp. unfold address_text. apply whole_app; [by apply display_text_whole|].
  change ("<" +:+ SipUri_String u +:+ ">" +:+ semi_params ps)
    with ("<" +:+ (SipUri_String u +:+ (">" +:+ semi_params ps))).
  rewrite <- !sapp_assoc. rewrite (sapp_assoc "<"). apply whole_app; [by apply bracket_whole|].
  split; [apply quiet_inert|apply bq_inert]; rewrite ?(semi_params_chars ps inert); auto.
  rewrite (semi_params_chars ps (none_of [","]%char)); auto.
Qed.

Lemma SipUri_String_head u : exists t, SipUri_String u = String "s" t.
Proof. unfold SipUri_String. destruct (FIsEncrypted u); cbn; eauto. Qed.

Lemma address_text_ends d u ps :
  display_wf d = true -> address_params ps ->
  starts_graph (address_text d u ps) = true /\ ends_graph (address_text d u ps) = true.
Proof.
  intros Hd Hp. unfold address_text. split.
  - destruct d as [[s|]|]; cbn in *; [|done..]. apply andb_prop in Hd as [Hne%negb_true_iff _]. by rewrite Hne.
  - do 3 apply ends_graph_app. apply graph_ends; [done|]. cbn.
    apply (semi_params_chars ps is_graph); auto.
Qed.

Lemma find_in_quotes s r : forall i,
  no_quote s = true ->
  findAnyUnescaped_from (s +:+ String QUOTE r) "<" [quotesDelim] (Some QUOTE) i
  = findAnyUnescaped_from r "<" [quotesDelim] None (S (i + String.length s)).
Proof.
  induction s as [|c s IH]; intros i; cbn [String.append findAnyUnescaped_from].
  - intros _. rewrite Ascii.eqb_refl. f_equal. cbn. lia.
  - intros [Hc%negb_true_iff Hs]%andb_prop. rewrite Hc, IH by done. f_equal. cbn. lia.
Qed.

(** What follows the display name. *)
Definition bracket_text (u : SipUri) (ps : headerParams) : string :=
  String "<" (SipUri_String u +:+ String ">" (semi_params ps)).

Lemma address_text_eq d u ps : address_text d u ps = display_text d +:+ bracket_text u ps.
Proof. reflexivity. Qed.

Lemma ParseDisplayName_text d u ps :
  display_wf d = true ->
  exists t, ParseDisplayName (address_text d u ps) = Ok (d, t) /\ (t = bracket_text u ps \/ t = String SP (bracket_text u ps)).
Proof.
  rewrite address_text_eq. destruct d as [[s|]|]; cbn [display_wf display_text as_String]; [|done|intros _; eexists; split; [reflexivity|auto]].
  intros [Hne%negb_true_iff Hq]%andb_prop. rewrite Hne.
  exists (String SP (bracket_text u ps)). split; [|auto].
  replace ((DQ +:+ s +:+ DQ +:+ " ") +:+ bracket_text u ps)
    with (String QUOTE (s +:+ String QUOTE (String SP (bracket_text u ps))))
    by (change (DQ +:+ s +:+ DQ +:+ " ") with (String QUOTE (s +:+ String QUOTE (String SP "")));
        cbn; by rewrite sapp_assoc).
  unfold ParseDisplayName, findUnescaped, findAnyUnescaped. change (string_of_byte "<") with "<".
  cbn [findAnyUnescaped_from]. change (index_str (string_of_byte QUOTE) "<") with (@None nat).
  cbn iota. change (end_char [quotesDelim] QUOTE) with (Some QUOTE).
  rewrite find_in_quotes by done. unfold bracket_text at 1.
  cbn [findAnyUnescaped_from]. change (index_str (string_of_byte SP) "<") with (@None nat). cbn iota.
  change (end_char [quotesDelim] SP) with (@None ascii). cbn [findAnyUnescaped_from].
  change (index_str (string_of_byte "<") "<") with (Some 0). cbn iota.
  cbn [first_byte mbind res_bind]. rewrite Ascii.eqb_refl.
  change (slice_from 1 (String QUOTE ?x)) with (Ok x). cbn [mbind res_bind].
  rewrite index_byte_app.
  - by rewrite str_take_app, str_drop_S_app.
  - revert Hq. apply sforall_weaken. intros c. by rewrite Ascii.eqb_sym.
Qed.

Lemma bracket_text_ends u ps :
  address_params ps -> starts_graph (bracket_text u ps) = true /\ ends_graph (bracket_text u ps) = true.
Proof. intros Hp. apply (address_text_ends None u ps eq_refl Hp). Qed.

Lemma split_bracket_text d u ps :
  address_params ps -> sforall inert (SipUri_String u) = true ->
  split_address d (bracket_text u ps)
  = Ok (SipUri_String u, if decide (paramOrder ps = []) then None else Some (semi_params ps)).
Proof.
  intros Hp Hu. unfold split_address, bracket_text. cbn [first_byte mbind res_bind].
  change (negb (Ascii.eqb "<" "<")) with false. cbn iota.
  change (slice_from 1 (String "<" ?x)) with (Ok x). cbn [mbind res_bind].
  rewrite index_byte_app.
  2:{ revert Hu. apply sforall_weaken. intros c. unfold inert. rewrite (Ascii.eqb_sym ">").
      by intros [[_ H]%andb_prop _]%andb_prop. }
  destruct (String.length (SipUri_String u)) as [|n] eqn:El.
  { destruct (SipUri_String_head u) as (t & Ht). by rewrite Ht in El. }
  rewrite <- El. cbn [slice_to_index]. rewrite slice_to_app. cbn [mbind res_bind].
  rewrite slength_app, str_drop_S_app. cbn [String.length].
  destruct Hp as (Hok & _ & _). rewrite semi_params_text by done. case_decide as E; cbn [String.length].
  - rewrite (proj2 (Nat.leb_le _ _)) by lia. done.
  - rewrite (proj2 (Nat.leb_gt _ _)) by lia. done.
Qed.

Lemma ParseAddressValue_text ws d u ps :
  (ws = "" \/ ws = String SP "") ->
  display_wf d = true -> uri_wf u -> sforall inert (SipUri_String u) = true -> address_params ps ->
  ParseAddressValue (ws +:+ address_text d u ps) = Ok (d, USip u, ps).
Proof.
  intros Hws Hd Hu Hin Hp. destruct (address_text_ends d u ps Hd Hp) as [Hs He].
  unfold ParseAddressValue. rewrite (proj2 (String.eqb_neq _ "")).
  2:{ intros E. apply (f_equal srev) in E. rewrite srev_app in E. unfold ends_graph in He.
      by destruct (srev (address_text d u ps)). }
  assert (Ht : TrimSpace (ws +:+ address_text d u ps) = address_text d u ps).
  { destruct Hws as [-> | ->]; cbn [String.append]; rewrite ?TrimSpace_SP; by apply TrimSpace_ends. }
  rewrite Ht. destruct (ParseDisplayName_text d u ps Hd) as (t & -> & Hcase). cbn [mbind res_bind].
  assert (Hb : TrimSpace t = bracket_text u ps).
  { destruct (bracket_text_ends u ps Hp).
    destruct Hcase as [-> | ->]; rewrite ?TrimSpace_SP; by apply TrimSpace_ends. }
  rewrite Hb, split_bracket_text by done. cbn [mbind res_bind].
  rewrite ParseUri_text by done. cbn [mbind res_bind]. destruct Hp as (Hok & Hsafe & _).
  case_decide as E; [by rewrite (params_empty ps)|].
  rewrite semi_params_text, decide_False by done.
  rewrite <- (sapp_nil_r (ToString ps ";")).
  rewrite ParseParams_ToString_tail; auto.
Qed.

(** ** Routes *)

Definition route_uri (u : Uri) : Prop :=
  match u with USip s => uri_wf s /\ sforall inert (SipUri_String s) = true | UWildcard => False end.

Lemma NewParams_address : address_params NewParams.
Proof. split; [apply NewParams_ok|done]. Qed.

Lemma route_text u : Forall route_uri [u] -> exists s, u = USip s /\ uri_wf s
  /\ sforall inert (SipUri_String s) = true
  /\ "<" +:+ Uri_String u +:+ ">" = address_text None s NewParams.
Proof. intros H. inversion H as [|? ? Hu _]; subst. destruct u as [s|]; [|done]. destruct Hu. eauto. Qed.

Lemma ParseAddressValues_routes us :
  us <> [] -> Forall route_uri us ->
  let text := join ", " (map (fun u => "<" +:+ Uri_String u +:+ ">") us) in
  TrimSpace text = text
  /\ ParseAddressValues text = Ok (map (fun u => (None, u, NewParams)) us).
Proof.
  intros Hne Hus. cbn zeta.
  assert (Hall : Forall (fun u => exists s, u = USip s /\ uri_wf s
    /\ sforall inert (SipUri_String s) = true
    /\ "<" +:+ Uri_String u +:+ ">" = address_text None s NewParams) us).
  { eapply Forall_impl; [exact Hus|]. intros u Hu. apply route_text. by repeat constructor. }
  clear Hus. destruct us as [|u us]; [done|]. clear Hne. cbn [map].
  pose proof NewParams_address as Hnp.
  set (f := fun u => "<" +:+ Uri_String u +:+ ">") in *.
  assert (Hw : Forall whole (f u :: map f us)).
  { change (f u :: map f us) with (map f (u :: us)). apply Forall_map. eapply Forall_impl; [exact Hall|].
    intros v (s & -> & Hu & Hi & E). unfold compose, f. rewrite E. by apply address_text_whole. }
  assert (Hp : forall ws v, (ws = "" \/ ws = String SP "") -> v ∈ u :: us ->
    ParseAddressValue (ws +:+ f v) = Ok (None, v, NewParams)).
  { intros ws v Hws Hv. rewrite Forall_forall in Hall. destruct (Hall v Hv) as (s & -> & Hu & Hi & E).
    unfold f. rewrite E. by apply ParseAddressValue_text. }
  split.
  - apply TrimSpace_ends; [by apply starts_graph_join|]. apply ends_graph_join.
    refine (_ : Forall _ (map f (u :: us))). apply Forall_map. eapply Forall_impl; [exact Hall|].
    intros v (s & -> & Hu & Hi & E). unfold compose, f. rewrite E. by apply address_text_ends.
  - rewrite ParseAddressValues_eq, sections_whole by done. cbn [mapM_res].
    pose proof (Hp "" u (or_introl eq_refl) ltac:(left)) as Hu. cbn [String.append] in Hu |- *.
    change (String "<" (Uri_String u +:+ ">")) with (f u). rewrite Hu.
    cbn [mbind res_bind]. rewrite map_map.
    change (fun x => String SP (f x)) with (fun x => String SP "" +:+ f x).
    assert (Hm : mapM_res ParseAddressValue (map (fun x => String SP "" +:+ f x) us)
                 = Ok (map (fun u => (None, u, NewParams)) us)).
    { clear -Hp. induction us as [|v us IH]; [done|]. cbn [map mapM_res].
      rewrite (Hp (String SP "") v); [|auto|right; left]. cbn [mbind res_bind]. rewrite IH; [done|].
      intros ws w Hws Hw. apply Hp; [done|]. apply elem_of_cons in Hw as [->|?]; [left|by do 2 right]. }
    by rewrite Hm.
Qed.

(** ** Via hops *)

Definition name_wf (s : string) : bool :=
  negb (String.eqb s "") && sforall (fun c => is_graph c && none_of [","; "/"]%char c) s.

Definition hop_wf (hop : ViaHop) : Prop :=
  name_wf (ProtocolName hop) = true /\ name_wf (ProtocolVersion hop) = true
  /\ token (Transport hop) = true
  /\ token (VHost hop) = true /\ host_chars (VHost hop) = true /\ port_wf (VPort hop) = true
  /\ exists ps, VParams hop = Some ps /\ params_ok ps
     /\ all_params (param_safe ";" NUL true) ps = true
     /\ sforall (fun c => is_graph c && none_of [","]%char c) (ToString ps ";") = true.

Definition sent_by (hop : ViaHop) (ps : headerParams) : string :=
  Addr_String (mkAddr (VHost hop) (VPort hop)) +:+ semi_params ps.

Definition hop_text (hop : ViaHop) (ps : headerParams) : string :=
  ProtocolName hop +:+ "/" +:+ ProtocolVersion hop +:+ "/" +:+ Transport hop +:+ " " +:+ sent_by hop ps.

Lemma sapp_nil_l s : "" +:+ s = s.
Proof. done. Qed.

Lemma ViaHop_String_text hop ps : VParams hop = Some ps -> ViaHop_String hop = Ok (hop_text hop ps).
Proof.
  intros H. unfold ViaHop_String. rewrite H. cbn [deref mbind res_bind]. unfold hop_text, sent_by, Addr_String.
  cbn [Host APort]. destruct (VPort hop) as [p|]; cbn [mret res_ret]; [|done].
  rewrite !sapp_assoc. reflexivity.
Qed.

Lemma name_wf_parts s :
  name_wf s = true -> s <> "" /\ sforall is_graph s = true
    /\ sforall (fun a => negb (Ascii.eqb "/" a)) s = true
    /\ sforall (fun a => negb (Ascii.eqb "," a)) s = true.
Proof.
  unfold name_wf. intros [Hne H]%andb_prop. split; [by intros ->|].
  repeat split; (revert H; apply sforall_weaken; intros c [H1 H2]%andb_prop); [done|..];
    cbn in H2; by destruct (Ascii.eqb "," c), (Ascii.eqb "/" c).
Qed.

Lemma sent_by_chars hop ps :
  hop_wf hop -> VParams hop = Some ps ->
  sent_by hop ps <> "" /\ sforall is_graph (sent_by hop ps) = true
  /\ sforall (fun a => negb (Ascii.eqb "," a)) (sent_by hop ps) = true.
Proof.
  intros (_ & _ & _ & Hh & _ & _ & ps' & E & Hok & _ & Ht). rewrite E. intros [= ->].
  apply token_parts in Hh as (Hne & Hg & Hc). unfold sent_by, Addr_String. cbn [Host APort].
  assert (Hs : sforall is_graph (semi_params ps) = true
    /\ sforall (fun a => negb (Ascii.eqb "," a)) (semi_params ps) = true).
  { rewrite semi_params_text by done. case_decide; [done|]. cbn.
    split; (revert Ht; apply sforall_weaken; intros c [H1 H2]%andb_prop); [done|].
    cbn in H2. by rewrite andb_true_r in H2. }
  destruct Hs as [Hs1 Hs2].
  destruct (VPort hop) as [p|].
  - split; [by destruct (VHost hop)|]. rewrite !sforall_app. cbn [String.append sforall].
    rewrite Hg, Hc, Hs1, Hs2, itoa_graph, itoa_no_byte by done. done.
  - split; [by destruct (VHost hop)|]. rewrite !sforall_app, Hg, Hc, Hs1, Hs2. done.
Qed.

Lemma parse_sent_by hop ps :
  hop_wf hop -> VParams hop = Some ps ->
  match index_byte ";" (sent_by hop ps) with
  | None => ParseHostPort (sent_by hop ps) = Ok (VHost hop, VPort hop) /\ ps = NewParams
  | Some i => ParseHostPort (str_take i (sent_by hop ps)) = Ok (VHost hop, VPort hop)
      /\ exists n, ParseParams (str_drop i (sent_by hop ps)) ";" ";" NUL true true = (ps, n, None)
  end.
Proof.
  intros (_ & _ & _ & Hh & Hc & Hp & ps' & E & Hok & Hsafe & Ht). rewrite E. intros [= ->].
  pose proof (ParseHostPort_text (mkAddr (VHost hop) (VPort hop)) Hc Hp) as Hhp. cbn [Host APort] in Hhp.
  destruct (sforall_none_of_Addr (mkAddr (VHost hop) (VPort hop)) Hc) as [Hsemi _].
  apply none_of_byte with (c := ";"%char) in Hsemi; [|reflexivity].
  unfold sent_by. rewrite semi_params_text by done. case_decide as Eo.
  - rewrite sapp_nil_r, index_byte_none by done. split; [done|by apply params_empty].
  - rewrite index_byte_app, str_take_app, str_drop_app by done. split; [done|].
    rewrite <- (sapp_nil_r (ToString ps ";")), ParseParams_ToString_tail; eauto.
Qed.

Lemma parse_hop_text ws hop ps :
  (ws = "" \/ ws = String SP "") -> hop_wf hop -> VParams hop = Some ps ->
  parse_hop (ws +:+ hop_text hop ps) = Ok (hop, None).
Proof.
  intros Hws Hw E. pose proof (parse_sent_by hop ps Hw E) as Hsent.
  destruct Hw as (Hpn & Hpv & Htr & _).
  apply name_wf_parts in Hpn as (Npn & Gpn & Spn & _), Hpv as (Npv & Gpv & Spv & _).
  apply token_parts in Htr as (Ntr & Gtr & _).
  assert (Hp : parse_protocol (ws +:+ hop_text hop ps)
    = Ok (ProtocolName hop, ProtocolVersion hop, Transport hop, sent_by hop ps)).
  { unfold parse_protocol, hop_text.
    set (tail := Transport hop +:+ " " +:+ sent_by hop ps).
    change ("/" +:+ ?x) with (String "/" x). rewrite <- sapp_assoc.
    rewrite split_byte_app by (rewrite sforall_app, Spn; by destruct Hws as [-> | ->]).
    change ("/" +:+ tail) with (String "/" tail). rewrite split_byte_app by done.
    pose proof (join_split "/" tail) as Hj. destruct (split_byte_cons_inv "/" tail) as (w & wl & Es).
    rewrite Es in Hj |- *. rewrite Hj. clear Es Hj w wl.
    assert (Hws0 : trim_left_ws tail = tail).
    { subst tail. apply graph_plain in Gtr. destruct (Transport hop) as [|c t]; [done|]. cbn in *.
      apply andb_prop in Gtr as [[_ Hc%negb_true_iff]%andb_prop _]. by rewrite Hc. }
    rewrite Hws0, Nat.sub_diag. change (str_drop 0 tail) with tail.
    assert (Hi : index_by is_abnf_ws tail = Some (String.length (Transport hop))).
    { subst tail. rewrite index_by_app; [cbn [String.append index_by];
        change (is_abnf_ws " ") with true; cbn; f_equal; lia|].
      apply graph_plain in Gtr. revert Gtr. apply sforall_weaken. by intros c [_ H]%andb_prop. }
    rewrite Hi. replace (String.length (Transport hop) + 0 + 1)%nat with (S (String.length (Transport hop))) by lia.
    destruct (String.length (Transport hop)) as [|n] eqn:El; [by destruct (Transport hop)|].
    cbn [Nat.eqb]. replace (S (S n) - 1)%nat with (S n) by lia. rewrite <- El.
    subst tail. rewrite slice_to_app. cbn [mbind res_bind].
    rewrite (TrimSpace_graph (ProtocolVersion hop)), (TrimSpace_graph (Transport hop)) by done.
    replace (TrimSpace (ws +:+ ProtocolName hop)) with (ProtocolName hop)
      by (destruct Hws as [-> | ->]; cbn [String.append]; rewrite ?TrimSpace_SP; by rewrite TrimSpace_graph).
    rewrite (proj2 (String.eqb_neq (ProtocolName hop) "")), (proj2 (String.eqb_neq (ProtocolVersion hop) "")),
      (proj2 (String.eqb_neq (Transport hop) "")) by done.
    rewrite slice_from_no_panic by (rewrite slength_app; cbn; lia).
    cbn [String.append]. by rewrite str_drop_S_app. }
  unfold parse_hop. rewrite Hp. cbn [mbind res_bind].
  destruct (index_byte ";" (sent_by hop ps)) as [i|].
  - destruct Hsent as (-> & n & ->). cbn. rewrite <- E. by destruct hop.
  - destruct Hsent as (-> & ->). cbn. rewrite <- E. by destruct hop.
Qed.

Lemma hop_text_shape hop ps :
  hop_wf hop -> VParams hop = Some ps ->
  starts_graph (hop_text hop ps) = true /\ ends_graph (hop_text hop ps) = true
  /\ sforall (fun a => negb (Ascii.eqb "," a)) (hop_text hop ps) = true.
Proof.
  intros Hw E. destruct (sent_by_chars hop ps Hw E) as (Ns & Gs & Cs).
  destruct Hw as (Hpn & Hpv & Htr & _).
  apply name_wf_parts in Hpn as (Npn & Gpn & _ & Cpn), Hpv as (Npv & Gpv & _ & Cpv).
  apply token_parts in Htr as (Ntr & Gtr & Ctr). unfold hop_text. split; [|split].
  - by apply starts_graph_app, graph_starts.
  - do 6 apply ends_graph_app. by apply graph_ends.
  - by rewrite !sforall_app, Cpn, Cpv, Ctr, Cs.
Qed.

Lemma mapM_hops hops :
  Forall hop_wf hops ->
  exists texts, mapM_res ViaHop_String hops = Ok texts
    /\ Forall2 (fun hop t => exists ps, VParams hop = Some ps /\ t = hop_text hop ps) hops texts.
Proof.
  induction 1 as [|hop hops Hw Hws (texts & Ht & IH)]; [exists []; by split|].
  destruct Hw as (H1 & H2 & H3 & H4 & H5 & H6 & ps & E & _).
  exists (hop_text hop ps :: texts). cbn. rewrite (ViaHop_String_text hop ps E), Ht. cbn.
  split; [done|]. constructor; eauto.
Qed.

Lemma parse_hops_text hops texts via :
  Forall hop_wf hops -> Forall2 (fun hop t => exists ps, VParams hop = Some ps /\ t = hop_text hop ps) hops texts ->
  parse_hops (map (String SP) texts) via None = Ok (via ++ hops).
Proof.
  intros Hw H2. revert via. induction H2 as [|hop t hops texts (ps & E & ->) _ IH]; intros via; cbn [map parse_hops].
  - by rewrite app_nil_r.
  - inversion Hw as [|? ? Hh Hw']; subst.
    pose proof (parse_hop_text (String SP "") hop ps (or_intror eq_refl) Hh E) as Hp.
    cbn [String.append] in Hp. rewrite Hp. cbn [mbind res_bind]. rewrite IH by done. by rewrite <- app_assoc.
Qed.

Lemma via_text hops :
  hops <> [] -> Forall hop_wf hops ->
  exists texts, mapM_res ViaHop_String hops = Ok texts
    /\ TrimSpace (join ", " texts) = join ", " texts
    /\ parseViaHeader "via" (join ", " texts) = Ok [HVia hops].
Proof.
  intros Hne Hw. destruct (mapM_hops hops Hw) as (texts & Hm & H2). exists texts. split; [done|].
  assert (Hs : Forall (fun t => starts_graph t = true /\ ends_graph t = true
    /\ sforall (fun a => negb (Ascii.eqb "," a)) t = true) texts).
  { clear Hm Hne. induction H2 as [|hop t hops texts (ps & E & ->) _ IH]; [constructor|].
    inversion Hw; subst. constructor; [by apply hop_text_shape|by apply IH]. }
  destruct H2 as [|hop t hops texts (ps & E & ->) H2]; [done|].
  inversion Hw as [|? ? Hh Hw']; subst. split.
  - inversion Hs as [|? ? (Hst & _) _]; subst. apply TrimSpace_ends; [by apply starts_graph_join|].
    apply ends_graph_join. eapply Forall_impl; [exact Hs|]. by intros ? (? & ? & ?).
  - unfold parseViaHeader. rewrite split_join_comma.
    2:{ eapply Forall_impl; [exact Hs|]. by intros ? (? & ? & ?). }
    cbn [parse_hops]. pose proof (parse_hop_text "" hop ps (or_introl eq_refl) Hh E) as Hp.
    cbn [String.append] in Hp. rewrite Hp. cbn [mbind res_bind].
    by rewrite (parse_hops_text hops texts).
Qed.

(** ** All headers *)

(** The headers whose rendering the parser can take apart again, by the constructor. *)
Definition header_wf (h : Header) : Prop :=
  match h with
  | HAccept v | HContentType v | HUserAgent v => TrimSpace v = v
  | HAllow l | HRequire l | HSupported l | HProxyRequire l | HUnsupported l => forallb token l = true
  | HAuthorization a => digest_wf a /\ TrimSpace (digest_value a) = digest_value a
  | HCSeq n m => (n <= maxCseq)%N /\ m <> "" /\ sforall is_graph m = true /\ contains_byte ";" m = false
  | HCallID v => v <> "" /\ sforall is_graph v = true /\ contains_byte ";" v = false
  | HContact a =>
      address_wf a \/ a = mkAddress None (Some UWildcard) (Some NewParams)
  | HFrom a | HTo a => address_wf a
  | HContentLength n | HExpires n | HMaxForwards n => (n < 2 ^ 32)%N
  | HGeneric name v =>
      sforall is_graph name = true /\ index_byte ":" name = None
      /\ NewParser_headerParsers !! ToLower name = None /\ TrimSpace v = v
  | HRoute us | HRecordRoute us => us <> [] /\ Forall route_uri us
  | HVia hops => hops <> [] /\ Forall hop_wf hops
  end.

(** What the parser makes of the rendering: the header itself, except for the kinds that do
    not come back.  An empty list of options comes back as one empty option;
    Proxy-Require and Unsupported have no parser and come back as generic headers; the
    parser of Authorization loses the mode, and sets the algorithm to MD5. *)
Definition as_read (h : Header) : Header :=
  match h with
  | HAllow [] => HAllow [""]
  | HRequire [] => HRequire [""]
  | HSupported [] => HSupported [""]
  | HProxyRequire l => HGeneric "Proxy-Require" (join ", " l)
  | HUnsupported l => HGeneric "Unsupported" (join ", " l)
  | HAuthorization a =>
      HAuthorization (mkAuthorization (ToLower (Authorization_Name a)) "" (Realm a) (Nonce a) "MD5" (Username a) ""
                        (AUri a) (Response a) "" (Some NewParams))
  | _ => h
  end.

(** A rendering "name: value" of a header whose parser reads the value back as [h']. *)
Definition reads_back_as (h h' : Header) : Prop :=
  exists name value p,
    Header_String h = Ok (name +:+ ": " +:+ value)
    /\ sforall is_graph name = true /\ index_byte ":" name = None /\ TrimSpace value = value
    /\ NewParser_headerParsers !! ToLower name = Some p
    /\ p (ToLower name) value = Ok [h'].

Definition reads_back (h : Header) : Prop := reads_back_as h h.

Lemma reads_back_ParseHeader h h' :
  reads_back_as h h' ->
  exists text, Header_String h = Ok text /\ ParseHeader text (Some NewParser_headerParsers) = Ok [h'].
Proof.
  intros (name & value & p & Hs & Hg & Hc & Hv & Hp & Hr). eexists. split; [exact Hs|].
  rewrite ParseHeader_line by done.
  change (default ?a (Some NewParser_headerParsers)) with NewParser_headerParsers. by rewrite Hp.
Qed.

(** Instantiate [reads_back] with the name and the value of the rendering. *)
Ltac read_back name value p :=
  exists name, value, p; split; [reflexivity|split; [reflexivity|split; [reflexivity|]]].

Lemma number_reads_back n : TrimSpace (itoa n) = itoa n.
Proof. apply TrimSpace_graph, itoa_graph. Qed.

Lemma CSeq_reads_back n m : header_wf (HCSeq n m) -> reads_back (HCSeq n m).
Proof.
  intros (Hn & Hne & Hg & Hc). read_back "CSeq" (itoa n +:+ " " +:+ m) parseCSeq.
  split; [|split; [reflexivity|]].
  - apply TrimSpace_ends.
    + apply starts_graph_app, graph_starts; [apply itoa_nonempty|apply itoa_graph].
    + do 2 apply ends_graph_app. by apply graph_ends.
  - unfold parseCSeq.
    rewrite SplitByWhitespace_two by auto using graph_plain, itoa_graph, itoa_nonempty.
    rewrite ParseUint_itoa by (unfold maxCseq in Hn; change (2 ^ 32)%N with 4294967296%N; lia).
    cbn [mbind res_bind]. rewrite (proj2 (N.ltb_ge _ _)) by done. by rewrite TrimSpace_graph, Hc.
Qed.

Lemma CallID_reads_back v : header_wf (HCallID v) -> reads_back (HCallID v).
Proof.
  intros (Hne & Hg & Hc). read_back "Call-ID" v parseCallId.
  rewrite TrimSpace_graph by done. split; [done|split; [reflexivity|]].
  unfold parseCallId. rewrite TrimSpace_graph, Hc, (proj2 (String.eqb_neq v "")) by done.
  rewrite contains_by_false; [done|]. apply graph_plain in Hg. revert Hg.
  apply sforall_weaken. by intros c [_ ?]%andb_prop.
Qed.

Lemma tokens_read_back name (mk : list string -> Header) l p :
  Header_String (mk l) = Ok (name +:+ ": " +:+ join ", " l) ->
  sforall is_graph name = true -> index_byte ":" name = None ->
  NewParser_headerParsers !! ToLower name = Some p ->
  (forall n text, p n text = Ok [mk (map TrimSpace (split_byte "," text))]) ->
  l <> [] -> forallb token l = true -> reads_back (mk l).
Proof.
  intros Hs Hg Hc Hp Hr Hne Hl. destruct (tokens_split l Hne Hl) as [Ht Hm].
  exists name, (join ", " l), p. rewrite Hr, Hm. done.
Qed.

Lemma address_reads_back a :
  address_wf a ->
  exists u ps, Address a = Some (USip u) /\ HParams a = Some ps
    /\ TrimSpace (address_text (DisplayName a) u ps) = address_text (DisplayName a) u ps
    /\ ParseAddressValues (address_text (DisplayName a) u ps) = Ok [(DisplayName a, USip u, ps)].
Proof.
  intros (Hd & (u & Hu & Hwf & Hi) & ps & Hps & Hp). exists u, ps.
  destruct (address_text_ends (DisplayName a) u ps Hd Hp) as [Hs He].
  split; [done|]. split; [done|]. split; [by apply TrimSpace_ends|].
  pose proof (sections_whole (address_text (DisplayName a) u ps) [] "") as Hsec.
  cbn [join map String.append] in Hsec. rewrite ParseAddressValues_eq, Hsec.
  - cbn [mapM_res].
    pose proof (ParseAddressValue_text "" (DisplayName a) u ps (or_introl eq_refl) Hd Hwf Hi Hp) as Hv.
    cbn [String.append] in Hv. by rewrite Hv.
  - constructor; [by apply address_text_whole|constructor].
Qed.

Lemma From_reads_back a : address_wf a -> reads_back (HFrom a).
Proof.
  intros (u & ps & Hu & Hps & Ht & Hv)%address_reads_back.
  exists "From", (address_text (DisplayName a) u ps), parseAddressHeader.
  cbn [Header_String]. unfold From_String. rewrite Hu, Hps.
  split; [reflexivity|]. do 3 (split; [done|]). split; [reflexivity|].
  change (ToLower "From") with "from". unfold parseAddressHeader. cbn. rewrite Hv. cbn.
  rewrite <- Hu, <- Hps. by destruct a.
Qed.

Lemma To_reads_back a : address_wf a -> reads_back (HTo a).
Proof.
  intros (u & ps & Hu & Hps & Ht & Hv)%address_reads_back.
  exists "To", (address_text (DisplayName a) u ps), parseAddressHeader.
  cbn [Header_String]. unfold To_String. rewrite Hu, Hps.
  split; [reflexivity|]. do 3 (split; [done|]). split; [reflexivity|].
  change (ToLower "To") with "to". unfold parseAddressHeader. cbn. rewrite Hv. cbn.
  rewrite <- Hu, <- Hps. by destruct a.
Qed.

Lemma Contact_reads_back a : header_wf (HContact a) -> reads_back (HContact a).
Proof.
  intros [Ha | ->].
  - apply address_reads_back in Ha as (u & ps & Hu & Hps & Ht & Hv).
    exists "Contact", (address_text (DisplayName a) u ps), parseAddressHeader.
    cbn [Header_String]. unfold Contact_String. rewrite Hu, Hps. cbn [deref mbind res_bind mret res_ret].
    split; [unfold address_text; rewrite !sapp_assoc; reflexivity|].
    do 3 (split; [done|]). split; [reflexivity|].
    change (ToLower "Contact") with "contact". unfold parseAddressHeader. cbn. rewrite Hv. cbn.
    rewrite <- Hu, <- Hps. by destruct a.
  - by read_back "Contact" "*" parseAddressHeader.
Qed.

Lemma Via_reads_back hops : header_wf (HVia hops) -> reads_back (HVia hops).
Proof.
  intros [Hne Hw]. destruct (via_text hops Hne Hw) as (texts & Hm & Ht & Hp).
  exists "Via", (join ", " texts), parseViaHeader. cbn [Header_String]. unfold Via_String. rewrite Hm.
  by repeat split.
Qed.

Lemma route_reads_back name (mk : list Uri -> Header) us p :
  Header_String (mk us) = Ok (addrs_text name us) ->
  sforall is_graph name = true -> index_byte ":" name = None ->
  NewParser_headerParsers !! ToLower name = Some p ->
  (forall n text, p n text = (vs ← ParseAddressValues text; mret [mk (map (fun v => v.1.2) vs)])) ->
  us <> [] -> Forall route_uri us -> reads_back (mk us).
Proof.
  intros Hs Hg Hc Hp Hr Hne Hus. destruct (ParseAddressValues_routes us Hne Hus) as [Ht Hv].
  eexists name, _, p. split; [exact Hs|]. do 4 (split; [done|]). rewrite Hr, Hv.
  cbn. rewrite map_map. cbn. by rewrite map_id.
Qed.

(** A list of options, the empty one too. *)
Lemma options_read_back name (mk : list string -> Header) l p :
  Header_String (mk l) = Ok (name +:+ ": " +:+ join ", " l) ->
  sforall is_graph name = true -> index_byte ":" name = None ->
  NewParser_headerParsers !! ToLower name = Some p ->
  (forall n text, p n text = Ok [mk (map TrimSpace (split_byte "," text))]) ->
  forallb token l = true -> reads_back_as (mk l) (mk (match l with [] => [""] | _ => l end)).
Proof.
  intros Hs Hg Hc Hp Hr Hl. destruct l as [|x l].
  - exists name, "", p. rewrite Hr. by split_and!.
  - by apply (tokens_read_back name mk (x :: l) p).
Qed.

Lemma authorization_reads_back a :
  digest_wf a -> TrimSpace (digest_value a) = digest_value a ->
  reads_back_as (HAuthorization a) (as_read (HAuthorization a)).
Proof.
  intros Hw Ht. exists (Authorization_Name a), (digest_value a), parseAuthorization.
  assert (Hn : Authorization_Name a = "Authorization" \/ Authorization_Name a = "Proxy-Authorization").
  { unfold Authorization_Name. case_match; auto. }
  split; [cbn; by rewrite Authorization_String_value|].
  split; [by destruct Hn as [-> | ->]|]. split; [by destruct Hn as [-> | ->]|]. split; [done|].
  split; [by destruct Hn as [-> | ->]; vm_compute|]. by apply parse_digest_value.
Qed.

Lemma header_wf_reads_back h :
  header_wf h ->
  match h with HGeneric _ _ | HProxyRequire _ | HUnsupported _ => True | _ => reads_back_as h (as_read h) end.
Proof.
  intros Hw. destruct h; try exact I.
  - read_back "Accept" value parseAccept. split; [exact Hw|]. split; [reflexivity|].
    unfold parseAccept. by rewrite Hw.
  - pose proof (options_read_back "Allow" HAllow methods parseAllow eq_refl eq_refl eq_refl eq_refl
      ltac:(reflexivity) Hw). by destruct methods.
  - destruct Hw. by apply authorization_reads_back.
  - by apply CSeq_reads_back.
  - by apply CallID_reads_back.
  - by apply Contact_reads_back.
  - read_back "Content-Length" (itoa value) parseContentLength. rewrite number_reads_back.
    split; [done|split; [reflexivity|]]. unfold parseContentLength.
    by rewrite number_reads_back, ParseUint_itoa.
  - read_back "Content-Type" value parseContentType. split; [exact Hw|]. split; [reflexivity|].
    unfold parseContentType. by rewrite Hw.
  - read_back "Expires" (itoa value) parseExpires. rewrite number_reads_back.
    split; [done|split; [reflexivity|]]. unfold parseExpires. by rewrite number_reads_back, ParseUint_itoa.
  - by apply From_reads_back.
  - read_back "Max-Forwards" (itoa value) parseMaxForwards. rewrite number_reads_back.
    split; [done|split; [reflexivity|]]. unfold parseMaxForwards.
    by rewrite number_reads_back, ParseUint_itoa.
  - destruct Hw. by apply (route_reads_back "Record-Route" HRecordRoute Addresses parseRecordRouteHeader).
  - pose proof (options_read_back "Require" HRequire Options parseRequire eq_refl eq_refl eq_refl eq_refl
      ltac:(reflexivity) Hw). by destruct Options.
  - destruct Hw. by apply (route_reads_back "Route" HRoute Addresses parseRouteHeader).
  - pose proof (options_read_back "Supported" HSupported Options parseSupported eq_refl eq_refl eq_refl eq_refl
      ltac:(reflexivity) Hw). by destruct Options.
  - by apply To_reads_back.
  - read_back "User-Agent" value parseUserAgent. split; [exact Hw|]. split; [reflexivity|].
    unfold parseUserAgent. by rewrite Hw.
  - by apply Via_reads_back.
Qed.

Lemma no_entry (o : option HeaderParser) name text hs :
  o = None -> match o with Some p => p name text | None => Ok hs end = Ok hs.
Proof. by intros ->. Qed.

(** A line whose name has no parser. *)
Lemma unknown_line name v :
  sforall is_graph name = true -> index_byte ":" name = None -> NewParser_headerParsers !! ToLower name = None ->
  TrimSpace v = v -> ParseHeader (name +:+ ": " +:+ v) (Some NewParser_headerParsers) = Ok [HGeneric name v].
Proof. intros Hg Hc Hn Hv. rewrite ParseHeader_line by done. exact (no_entry _ _ _ _ Hn). Qed.

Lemma options_trimmed l : forallb token l = true -> TrimSpace (join ", " l) = join ", " l.
Proof. destruct l as [|x l]; [done|]. intros Hl. by destruct (tokens_split (x :: l) ltac:(done) Hl). Qed.

Lemma header_round_trip h :
  header_wf h ->
  exists text, Header_String h = Ok text /\ ParseHeader text (Some NewParser_headerParsers) = Ok [as_read h].
Proof.
  intros Hw. pose proof (header_wf_reads_back h Hw) as Hr. destruct h; try exact (reads_back_ParseHeader _ _ Hr).
  - destruct Hw as (Hg & Hc & Hn & Hv). eexists. split; [reflexivity|]. by apply unknown_line.
  - eexists. split; [reflexivity|].
    apply (unknown_line "Proxy-Require"); [vm_compute; reflexivity..|by apply options_trimmed].
  - eexists. split; [reflexivity|].
    apply (unknown_line "Unsupported"); [vm_compute; reflexivity..|by apply options_trimmed].
Qed.

(** A From header with a display name and a tag, and a Via header of two hops. *)
Definition sample_tag : headerParams := Add NewParams "tag" (Some "88sja8x").
Definition sample_address : AddressHeader :=
  mkAddress (Some (Str "Alice, <A>")) (Some (USip sample_uri)) (Some sample_tag).
Definition sample_hop (host : string) : ViaHop :=
  mkViaHop "SIP" "2.0" "UDP" host (Some 5060%N)
    (Some (Add (Add NewParams "branch" (Some "z9hG4bK776")) "rport" None)).

Lemma sample_address_wf : address_wf sample_address.
Proof.
  split; [reflexivity|]. split.
  - exists sample_uri. split; [reflexivity|]. split; [apply sample_uri_wf|vm_compute; reflexivity].
  - exists sample_tag. split; [reflexivity|]. split; [apply Add_ok, NewParams_ok|].
    split; vm_compute; reflexivity.
Qed.

Lemma sample_hops_wf : Forall hop_wf [sample_hop "a.example.org"; sample_hop "10.0.0.1"].
Proof.
  assert (H : forall h, token h = true -> host_chars h = true -> hop_wf (sample_hop h)).
  { intros h Ht Hc. unfold hop_wf. do 3 (split; [vm_compute; reflexivity|]).
    do 2 (split; [done|]). split; [reflexivity|]. eexists. split; [reflexivity|].
    split; [repeat apply Add_ok; apply NewParams_ok|]. split; vm_compute; reflexivity. }
  repeat constructor; apply H; vm_compute; reflexivity.
Qed.

(** ** Properties *)



Definition no_space (s : string) : bool := sforall (fun a => negb (Ascii.eqb SP a)) s.

(** A version that the start-line tests recognise. *)
Definition version_wf (v : string) : bool :=
  no_space v && (3 <=? String.length v)%nat && String.eqb (ToUpper (str_take 3 v)) "SIP".

Lemma version_split v : version_wf v = true ->
  no_space v = true /\ (3 <= String.length v)%nat /\ String.eqb (ToUpper (str_take 3 v)) "SIP" = true.
Proof. unfold version_wf. intros [[? H]%andb_prop ?]%andb_prop. apply Nat.leb_le in H. done. Qed.

Lemma count_byte_app c s t : count_byte c (s +:+ t) = (count_byte c s + count_byte c t)%nat.
Proof. induction s as [|a s IH]; cbn; [done|]. rewrite IH. lia. Qed.

Lemma count_byte_none c s : sforall (fun a => negb (Ascii.eqb c a)) s = true -> count_byte c s = 0%nat.
Proof. induction s as [|a s IH]; cbn; [done|]. intros [->%negb_true_iff ?]%andb_prop. auto. Qed.

Lemma request_line_text (method v : string) (u : SipUri) :
  no_space method = true -> ToUpper method = method ->
  uri_wf u -> no_space (SipUri_String u) = true -> version_wf v = true ->
  let line := method +:+ " " +:+ SipUri_String u +:+ " " +:+ v in
  isRequest line = true /\ ParseRequestLine line = Ok (method, USip u, v).
Proof.
  intros Hm Hup Hu Hns Hv. cbn zeta. destruct (version_split v Hv) as (Hvs & Hvl & Hvu).
  change (" " +:+ ?x) with (String SP x).
  assert (Hsplit : split_byte SP (method +:+ String SP (SipUri_String u +:+ " " +:+ v))
                   = [method; SipUri_String u; v]).
  { change (" " +:+ v) with (String SP v). by rewrite !split_byte_app, split_byte_none. }
  unfold isRequest, ParseRequestLine. rewrite Hsplit. split.
  - rewrite count_byte_app. cbn [count_byte]. rewrite count_byte_app, Ascii.eqb_refl.
    change (" " +:+ v) with (String SP v). cbn [count_byte]. rewrite Ascii.eqb_refl.
    rewrite !count_byte_none by done. by rewrite (proj2 (Nat.ltb_ge _ 3)).
  - rewrite ParseUri_text by done. cbn. by rewrite Hup.
Qed.

(** a request line made of an upper-case method, a SIP URI and a version is
    recognised as a request and parsed into these parts. *)
Theorem ParseRequestLine_text (method v : string) (u : SipUri) :
  no_space method = true -> ToUpper method = method ->
  uri_wf u -> no_space (SipUri_String u) = true -> version_wf v = true ->
  let line := method +:+ " " +:+ SipUri_String u +:+ " " +:+ v in
  isRequest line = true /\ ParseRequestLine line = Ok (method, USip u, v).
Proof. apply request_line_text. Qed.

Lemma ParseRequestLine_text_witness :
  ParseRequestLine ("INVITE" +:+ " " +:+ SipUri_String sample_uri +:+ " " +:+ "SIP/2.0")
  = Ok ("INVITE", USip sample_uri, "SIP/2.0").
Proof.
  apply (ParseRequestLine_text "INVITE" "SIP/2.0" sample_uri);
    [reflexivity|reflexivity|apply sample_uri_wf|vm_compute; reflexivity|reflexivity].
Defined.

Lemma status_line_text (v reason : string) (code : N) :
  version_wf v = true -> (code < 2 ^ 16)%N ->
  let line := v +:+ " " +:+ itoa code +:+ " " +:+ reason in
  isResponse line = true /\ ParseStatusLine line = Ok (v, code, reason).
Proof.
  intros Hv Hc. cbn zeta. destruct (version_split v Hv) as (Hvs & Hvl & Hvu).
  destruct (split_byte_cons_inv SP reason) as (w & ws & Ew).
  assert (Hsplit : split_byte SP (v +:+ " " +:+ itoa code +:+ " " +:+ reason)
                   = v :: itoa code :: w :: ws).
  { change (" " +:+ ?x) with (String SP x). rewrite split_byte_app by done.
    change (" " +:+ reason) with (String SP reason).
    rewrite split_byte_app by (by apply itoa_no_byte). by rewrite Ew. }
  unfold isResponse, ParseStatusLine. rewrite Hsplit. split.
  - pose proof (split_byte_length SP (v +:+ " " +:+ itoa code +:+ " " +:+ reason)) as Hl.
    rewrite Hsplit in Hl. cbn [length] in Hl. rewrite (proj2 (Nat.ltb_ge _ 2)) by lia.
    by rewrite (proj2 (Nat.ltb_ge _ _)).
  - rewrite ParseUint_itoa by done. cbn [mbind res_bind mret res_ret].
    pose proof (join_split SP reason) as Hj. rewrite Ew in Hj.
    change (String SP "") with " " in Hj. by rewrite Hj.
Qed.

(** a status line is recognised as a response and parsed into its version, its
    code (any 16-bit number) and its reason phrase, which may contain spaces. *)
Theorem ParseStatusLine_text (v reason : string) (code : N) :
  version_wf v = true -> (code < 2 ^ 16)%N ->
  let line := v +:+ " " +:+ itoa code +:+ " " +:+ reason in
  isResponse line = true /\ ParseStatusLine line = Ok (v, code, reason).
Proof. apply status_line_text. Qed.

Lemma ParseStatusLine_text_witness :
  ParseStatusLine ("SIP/2.0" +:+ " " +:+ itoa 486 +:+ " " +:+ "Busy Here")
  = Ok ("SIP/2.0", 486%N, "Busy Here").
Proof. apply (ParseStatusLine_text "SIP/2.0" "Busy Here" 486); reflexivity. Defined.
