(* ===== verification/Message.v ===== *)
(** * Messages: sip/message.go, sip/request.go, sip/response.go, sip/session.go and
    the request part of sip/auth.go

    A message is its header container with the fields of the Go struct; the pointer
    to the transaction is left to the transaction layer.  Code that writes through
    the pointer to a header of a message (the To parameters, the first Via hop, the
    CSeq) is a replacement of the first header of that name.  Random strings and
    message identifiers are arguments. *)

From S2P Require Import Prelude GoStrings Params Base Uri Header Headers Auth HeaderParse.
From Stdlib Require Import NArith ZArith Lia.

#[local] Open Scope string_scope.
#[local] Open Scope list_scope.

Record message := mkMessage {
  msg_headers : headers;
  messID : string;
  sipVersion : string;
  body : string;
  src : string;
  dest : string
}.

Record request := mkRequest {
  req_msg : message;
  req_method : RequestMethod;
  recipient : option Uri
}.

Inductive response : Type := mkResponse {
  res_msg : message;
  status : StatusCode;
  reason : string;
  previous : list response
}.

(** The interface [Message]: the dynamic type selects the methods. *)
Inductive Message : Type :=
  | MRequest (req : request)
  | MResponse (res : response).

(** ** Field updates *)

Definition with_headers (m : message) (hs : headers) : message :=
  mkMessage hs (messID m) (sipVersion m) (body m) (src m) (dest m).
Definition SetSipVersion (m : message) (v : string) : message :=
  mkMessage (msg_headers m) (messID m) v (body m) (src m) (dest m).
Definition with_body (m : message) (b : string) : message :=
  mkMessage (msg_headers m) (messID m) (sipVersion m) b (src m) (dest m).
Definition SetSource (m : message) (s : string) : message :=
  mkMessage (msg_headers m) (messID m) (sipVersion m) (body m) s (dest m).
Definition SetDestination (m : message) (d : string) : message :=
  mkMessage (msg_headers m) (messID m) (sipVersion m) (body m) (src m) d.
Definition with_msg (r : request) (m : message) : request := mkRequest m (req_method r) (recipient r).
Definition with_res_msg (r : response) (m : message) : response :=
  mkResponse m (status r) (reason r) (previous r).
Definition SetRecipient (r : request) (u : option Uri) : request := mkRequest (req_msg r) (req_method r) u.

(** Writing through the pointer to the first header of a name. *)
Definition set_first (hs : headers) (name : string) (h : Header) : headers :=
  match hmap hs !! name with
  | Some (_ :: l) => mkHeaders (<[name := h :: l]> (hmap hs)) (headerOrder hs)
  | _ => hs
  end.

(** ** Message *)

Definition to_uint32 (n : N) : N := (n mod 2 ^ 32)%N.

Definition SetBody (m : message) (b : string) (setContentLength : bool) : res message :=
  let m := with_body m b in
  if setContentLength then
    let length := HContentLength (to_uint32 (N.of_nat (String.length b))) in
    match GetHeaders (msg_headers m) "Content-Length" with
    | [] => hs ← AddHeader (msg_headers m) length; mret (with_headers m hs)
    | _ => mret (with_headers m (set_first (msg_headers m) "content-length" length))
    end
  else mret m.

Definition msg_Transport (m : message) : string :=
  match headers_ViaHop (msg_headers m) with
  | Some hop => Transport hop
  | None => DefaultProtocol
  end.

(** [fmt.Sprintf("%s", v)] of a [MaybeString]. *)
Definition sprint_maybe (v : MaybeString) : string :=
  match v with Some s => s | None => "%!s(<nil>)" end.

(** The tag of an address header; nil when there is none or it has no value. *)
Definition tag_of (a : option AddressHeader) : res MaybeString :=
  match a with
  | None => mret None
  | Some a => ps ← deref (HParams a); mret (default None (Get ps "tag"))
  end.

Definition DialogId (m : message) : res string :=
  let callId := default "" (headers_CallID (msg_headers m)) in
  fromTag ← tag_of (headers_From (msg_headers m));
  toTag ← tag_of (headers_To (msg_headers m));
  mret (callId +:+ "#" +:+ sprint_maybe fromTag +:+ "#" +:+ sprint_maybe toTag).

Definition CopyHeaders (name : string) (from to : message) : res message :=
  hs ← foldM_res (fun hs h => h' ← Header_Copy h; AddHeader hs h')
         (msg_headers to) (GetHeaders (msg_headers from) (ToLower name));
  mret (with_headers to hs).

(** [message.String], where [startLine] is the rendered first line. *)
Definition message_String (startLine : string) (m : message) : res string :=
  hs ← headers_String (msg_headers m);
  mret (startLine +:+ CRLF +:+ hs +:+ CRLF +:+ body m).

(** ** Request *)

Definition emptyMessage : message := mkMessage emptyHeaders "" "" "" "" "".

Definition SetMethod (r : request) (method : RequestMethod) : request :=
  let r := mkRequest (req_msg r) method (recipient r) in
  match headers_CSeq (msg_headers (req_msg r)) with
  | Some (n, _) =>
      with_msg r (with_headers (req_msg r) (set_first (msg_headers (req_msg r)) "cseq" (HCSeq n method)))
  | None => r
  end.

Definition CreateSimpleRequest (id : string) (method : RequestMethod) (remoteAddr : string) : request :=
  let r := SetMethod (mkRequest (mkMessage emptyHeaders id SipVersion "" "" "") "" None) method in
  with_msg r (SetDestination (req_msg r) remoteAddr).

(** [DefaultViaHeader], with the random string of the branch. *)
Definition DefaultViaHeader (rnd : string) : Header :=
  HVia [mkViaHop "SIP" "2.0" DefaultProtocol "127.0.0.1" (Some 5060%N)
          (Some (Add (Add NewParams "rport" None) "branch" (Some (GenerateBranch rnd))))].

Definition DefaultCSeq : Header := HCSeq 1 INVITE.
Definition DefaultMaxForwards : Header := HMaxForwards 70.

Definition CreateRequest (id rndBranch rndCallID : string) (method : RequestMethod)
    (remoteAddr : string) (from to : option Uri) : res request :=
  hs ← newHeaders [ DefaultViaHeader rndBranch;
                    HFrom (mkAddress None from (Some NewParams));
                    HTo (mkAddress None to (Some NewParams));
                    HCallID rndCallID; DefaultCSeq; DefaultMaxForwards ];
  let r := SetMethod (mkRequest (mkMessage hs id SipVersion "" "" "") "" None) method in
  mret (with_msg r (SetDestination (req_msg r) remoteAddr)).

(** The value of [strconv.Atoi] when the error is ignored: 0 after a syntax error,
    the nearest [int] after a range error. *)
Definition Atoi_value (s : string) : Z :=
  match Atoi s with
  | Ok v => v
  | Err e =>
      if String.eqb e "strconv.Atoi: value out of range"
      then match s with String "-" _ => (- 2 ^ 63)%Z | _ => (2 ^ 63 - 1)%Z end
      else 0%Z
  | Panic _ => 0%Z
  end.

(** [ok && v.String() != ""]: the call on a nil value panics. *)
Definition nonempty_value (v : option MaybeString) : res (option string) :=
  match v with
  | None => Ok None
  | Some None => Panic NilDereference
  | Some (Some s) => Ok (if String.eqb s "" then None else Some s)
  end.

Definition host_port (host : string) (port : Port) : string := host +:+ ":" +:+ itoa port.

Definition via_port (transport : string) (hop : ViaHop) : Port :=
  match VPort hop with Some p => p | None => DefaultPort transport end.

Definition request_Source (r : request) : res string :=
  if negb (String.eqb (src (req_msg r)) "") then mret (src (req_msg r))
  else
    match headers_ViaHop (msg_headers (req_msg r)) with
    | None => mret ""
    | Some hop =>
        ps ← deref (VParams hop);
        received ← nonempty_value (Get ps "received");
        let host := default (VHost hop) received in
        let port := match Get ps "rport" with
                    | Some (Some s) =>
                        if String.eqb s "" then via_port (msg_Transport (req_msg r)) hop
                        else to_uint16 (Atoi_value s)
                    | _ => via_port (msg_Transport (req_msg r)) hop
                    end in
        mret (host_port host port)
    end.

Definition uri_address (transport : string) (u : SipUri) : string :=
  host_port (Host (FDomain u))
    (match APort (FDomain u) with Some p => p | None => DefaultPort transport end).

Definition request_Destination (r : request) : res string :=
  if negb (String.eqb (dest (req_msg r)) "") then mret (dest (req_msg r))
  else
    uri ← match GetHeaders (msg_headers (req_msg r)) "Route" with
          | [] => Ok None
          | HRoute [] :: _ => Ok None
          | HRoute (USip u :: _) :: _ => Ok (Some u)
          | HRoute (UWildcard :: _) :: _ => Panic TypeAssertion
          | _ :: _ => Panic TypeAssertion
          end;
    match uri with
    | Some u => mret (uri_address (msg_Transport (req_msg r)) u)
    | None =>
        match recipient r with
        | Some (USip u) => mret (uri_address (msg_Transport (req_msg r)) u)
        | _ => mret ""
        end
    end.

Definition emptySipUri : SipUri := mkSipUri false None None (mkAddr "" None) None None.

(** The Request-URI that [StartLine] computes and stores. *)
Definition start_recipient (r : request) : res Uri :=
  if String.eqb (req_method r) REGISTER then
    d ← request_Destination r;
    let '(host, port) := match SplitHostPort d with Ok hp => hp | _ => ("", "") end in
    mret (USip (mkSipUri false None None
                  (mkAddr host (match Atoi port with Ok i => Some (to_uint16 i) | _ => None end))
                  None None))
  else
    match headers_To (msg_headers (req_msg r)) with
    | Some to => u ← deref (Address to); mret (SetHeaders (SetUriParams (Uri_Copy u) None) None)
    | None => mret (USip emptySipUri)
    end.

(** The line, and the request with its new recipient. *)
Definition request_StartLine (r : request) : res (string * request) :=
  u ← start_recipient r;
  mret (req_method r +:+ " " +:+ Uri_String u +:+ " " +:+ sipVersion (req_msg r),
        SetRecipient r (Some u)).

Definition request_String (r : request) : res (string * request) :=
  '(line, r') ← request_StartLine r;
  text ← message_String line (req_msg r');
  mret (text, r').

Definition request_Copy (id : string) (r : request) : res request :=
  d ← request_Destination r;
  let n := CreateSimpleRequest id (req_method r) d in
  u ← deref (recipient r);
  hers ← CloneHeaders (msg_headers (req_msg r));
  hs ← foldM_res AddHeader (msg_headers (req_msg n)) hers;
  m ← SetBody (with_headers (SetSipVersion (req_msg n) (sipVersion (req_msg r))) hs)
        (body (req_msg r)) true;
  mret (mkRequest m (req_method n) (Some (Uri_Copy u))).

Definition IsInvite (r : request) : bool := String.eqb (req_method r) INVITE.
Definition request_IsAck (r : request) : bool := String.eqb (req_method r) ACK.
Definition request_IsCancel (r : request) : bool := String.eqb (req_method r) CANCEL.

(** ** Response *)

Definition SetStatusCode (r : response) (code : StatusCode) : response :=
  mkResponse (res_msg r) code (StatusText code) (previous r).
Definition SetReason (r : response) (text : string) : response :=
  mkResponse (res_msg r) (status r) text (previous r).
Definition SetPrevious (r : response) (rs : list response) : response :=
  mkResponse (res_msg r) (status r) (reason r) rs.

(** [NewResponse]; [uuid] is the identifier drawn when none is given. *)
Definition NewResponse (uuid id version : string) (statusCode : StatusCode) (text : string)
    (hdrs : list Header) (b : string) : res response :=
  let id := if String.eqb id "" then uuid else id in
  hs ← newHeaders hdrs;
  let r := SetReason (SetStatusCode (mkResponse (mkMessage hs id version "" "" "") 0%N "" []) statusCode) text in
  if negb (String.eqb (TrimSpace b) "") then
    m ← SetBody (res_msg r) b true; mret (with_res_msg r m)
  else mret r.

Definition response_StartLine (r : response) : string :=
  sipVersion (res_msg r) +:+ " " +:+ itoa (status r) +:+ " " +:+ reason r.

Definition response_String (r : response) : res string := message_String (response_StartLine r) (res_msg r).

Definition response_Copy (uuid : string) (r : response) : res response :=
  hers ← CloneHeaders (msg_headers (res_msg r));
  NewResponse uuid "" (sipVersion (res_msg r)) (status r) (reason r) hers (body (res_msg r)).

Definition IsProvisional (r : response) : bool := (status r <? 200)%N.
Definition IsSuccess (r : response) : bool := (200 <=? status r)%N && (status r <? 300)%N.
Definition IsRedirection (r : response) : bool := (300 <=? status r)%N && (status r <? 400)%N.
Definition IsClientError (r : response) : bool := (400 <=? status r)%N && (status r <? 500)%N.
Definition IsServerError (r : response) : bool := (500 <=? status r)%N && (status r <? 600)%N.
Definition IsGlobalError (r : response) : bool := (600 <=? status r)%N.

Definition response_Method (r : response) : RequestMethod :=
  match headers_CSeq (msg_headers (res_msg r)) with Some (_, m) => m | None => "" end.
Definition response_IsAck (r : response) : bool :=
  match headers_CSeq (msg_headers (res_msg r)) with Some (_, m) => String.eqb m ACK | None => false end.
Definition response_IsCancel (r : response) : bool :=
  match headers_CSeq (msg_headers (res_msg r)) with Some (_, m) => String.eqb m CANCEL | None => false end.

(** A message in the log. *)
Definition request_Short (r : request) : string := "sip.Request<" +:+ messID (req_msg r) +:+ ">".
Definition response_Short (r : response) : string := "sip.Response<" +:+ messID (res_msg r) +:+ ">".

Definition response_Source (r : response) : string := src (res_msg r).

(** Unlike the request's code, [rport] is not tested for nil. *)
Definition response_Destination (r : response) : res string :=
  if negb (String.eqb (dest (res_msg r)) "") then mret (dest (res_msg r))
  else
    match headers_ViaHop (msg_headers (res_msg r)) with
    | None => mret ""
    | Some hop =>
        ps ← deref (VParams hop);
        received ← nonempty_value (Get ps "received");
        let host := default (VHost hop) received in
        rport ← nonempty_value (Get ps "rport");
        let port := match rport with
                    | Some s => to_uint16 (Atoi_value s)
                    | None => via_port (msg_Transport (res_msg r)) hop
                    end in
        mret (host_port host port)
    end.

(** The headers that a response takes over from its request, in order. *)
Definition copied_headers : list string := ["Record-Route"; "Via"; "From"; "To"; "Call-ID"; "CSeq"].

(** The tag that a final response adds to the To header. *)
Definition add_to_tag (m : message) (rndTag : string) : res message :=
  match headers_To (msg_headers m) with
  | None => mret m
  | Some to =>
      ps ← deref (HParams to);
      if Has ps "tag" then mret m
      else mret (with_headers m (set_first (msg_headers m) "to"
                  (HTo (mkAddress (DisplayName to) (Address to) (Some (Add ps "tag" (Some rndTag)))))))
  end.

(** The common code of [CreateResponse] and [CreateResponseReason] after the status
    code and the reason have been set in [r]. *)
Definition fill_response (rndTag : string) (req : request) (r : response) : res response :=
  let m := with_body (with_headers (res_msg r) emptyHeaders) (body (req_msg req)) in
  m ← foldM_res (fun m name => CopyHeaders name (req_msg req) m) m copied_headers;
  m ← (if N.eqb (status r) 100 then CopyHeaders "Timestamp" (req_msg req) m else add_to_tag m rndTag);
  s ← request_Destination req;
  d ← request_Source req;
  mret (with_res_msg r (SetDestination (SetSource m s) d)).

Definition newResponse (id version : string) : response :=
  mkResponse (mkMessage emptyHeaders id version "" "" "") 0%N "" [].

Definition CreateResponse (id rndTag : string) (req : request) (statusCode : StatusCode) : res response :=
  fill_response rndTag req (SetStatusCode (newResponse id (sipVersion (req_msg req))) statusCode).

(** [SetReason] before [SetStatusCode], as in the source. *)
Definition CreateResponseReason (id rndTag : string) (req : request) (statusCode : StatusCode)
    (text : string) : res response :=
  fill_response rndTag req
    (SetStatusCode (SetReason (newResponse id (sipVersion (req_msg req))) text) statusCode).

Definition NewResponseFromRequest (uuid resID : string) (req : request) (statusCode : StatusCode)
    (text b : string) : res response :=
  r ← NewResponse uuid resID (sipVersion (req_msg req)) statusCode text [] "";
  m ← foldM_res (fun m name => CopyHeaders name (req_msg req) m) (res_msg r) copied_headers;
  m ← (if N.eqb statusCode 100 then CopyHeaders "Timestamp" (req_msg req) m else mret m);
  s ← request_Destination req;
  d ← request_Source req;
  let m := SetDestination (SetSource m s) d in
  m ← (if (0 <? String.length b)%nat then SetBody m b true else mret m);
  mret (with_res_msg r m).

(** [viaHop.Params.Add("branch", ...)] on the first hop of the first Via header. *)
Definition set_branch (m : message) (branch : string) : res message :=
  match headers_Via (msg_headers m) with
  | Some (hop :: hops) =>
      ps ← deref (VParams hop);
      mret (with_headers m (set_first (msg_headers m) "via"
        (HVia (mkViaHop (ProtocolName hop) (ProtocolVersion hop) (Transport hop) (VHost hop) (VPort hop)
                 (Some (Add ps "branch" (Some branch))) :: hops))))
  | _ => Panic NilDereference
  end.

(** The Route headers of an ACK made from the Record-Route headers of the response. *)
Definition record_route_to_route (hs : headers) (h : Header) : res headers :=
  match h with
  | HRecordRoute us => AddHeader hs (HRoute (map Uri_Copy us))
  | _ => Panic TypeAssertion
  end.

Definition set_cseq_method (m : message) (method : RequestMethod) : message :=
  match headers_CSeq (msg_headers m) with
  | Some (n, _) => with_headers m (set_first (msg_headers m) "cseq" (HCSeq n method))
  | None => m
  end.

Definition CreateAck (id rndBranch : string) (r : response) : res request :=
  let ack := CreateSimpleRequest id ACK (src (res_msg r)) in
  let m := SetSipVersion (req_msg ack) (sipVersion (res_msg r)) in
  m ← CopyHeaders "Via" (res_msg r) m;
  m ← set_branch m (GenerateBranch rndBranch);
  m ← match GetHeaders (msg_headers (res_msg r)) "Route" with
      | _ :: _ => CopyHeaders "Route" (res_msg r) m
      | [] => hs ← foldM_res record_route_to_route (msg_headers m)
                     (GetHeaders (msg_headers (res_msg r)) "Record-Route");
              mret (with_headers m hs)
      end;
  m ← foldM_res (fun m name => CopyHeaders name (res_msg r) m) m ["From"; "To"; "Call-ID"; "CSeq"];
  mret (with_msg ack (set_cseq_method m ACK)).

Definition CopyResponse (uuid : string) (r : response) : res response :=
  hdrs ← mapM_res Header_Copy (Headers (msg_headers (res_msg r)));
  n ← NewResponse uuid (messID (res_msg r)) (sipVersion (res_msg r)) (status r) (reason r) hdrs
        (body (res_msg r));
  mret (SetPrevious n (previous r)).

(** ** Authorization of a request (auth.go) *)

(** [cseq.SeqNo++] on 32 bits. *)
Definition incr_cseq (m : message) : message :=
  match headers_CSeq (msg_headers m) with
  | Some (n, method) =>
      with_headers m (set_first (msg_headers m) "cseq" (HCSeq (to_uint32 (n + 1)) method))
  | None => m
  end.

Definition AuthorizeRequest (rndBranch : string) (req : request) (r : response) (user password : MaybeString)
    : res request :=
  match user with
  | None => Err "authorize request: user is nil"
  | Some user =>
      let '(authenticateHeaderName, authorizeHeaderName) :=
        if N.eqb (status r) 401 then ("WWW-Authenticate", "Authorization")
        else ("Proxy-Authenticate", "Proxy-Authorization") in
      match GetHeaders (msg_headers (res_msg r)) authenticateHeaderName with
      | [] => Err "authorize request: header '%s' not found in Response"
      | HGeneric _ contents :: _ =>
          auth ← ParseAuthorization CreateAuthorization contents;
          u ← deref (recipient req);
          let auth := SetUsername (SetUri (Auth.SetMethod auth (req_method req)) (Uri_String u)) user in
          let auth := match password with Some p => SetPassword auth p | None => auth end in
          let auth := CalcResponse auth in
          hs ← match GetHeaders (msg_headers (req_msg req)) authorizeHeaderName with
               | [] => AddHeader (msg_headers (req_msg req)) (HAuthorization auth)
               | HAuthorization _ :: _ => mret (msg_headers (req_msg req))
               | _ :: _ => Panic TypeAssertion
               end;
          let m := with_headers (req_msg req) hs in
          m ← match headers_ViaHop (msg_headers m) with
              | Some _ => set_branch m (GenerateBranch rndBranch)
              | None => mret m
              end;
          mret (with_msg req (incr_cseq m))
      | _ :: _ => Panic TypeAssertion
      end
  end.

(** The user's name and password as an [Authorized]. *)
Record DefaultAuthorized := mkDefaultAuthorized { AuthUser : MaybeString; AuthPassword : MaybeString }.

Definition AddAuthInfo (rndBranch : string) (auth : DefaultAuthorized) (req : request) (r : response) : res request :=
  AuthorizeRequest rndBranch req r (AuthUser auth) (AuthPassword auth).

Definition AddAuthHeader (rndBranch : string) (req : request) (r : response) (username password : string)
    : res request :=
  AddAuthInfo rndBranch (mkDefaultAuthorized (Some username) (Some password)) req r.

(** ** Sessions (session.go) *)

Section Session.

(** The values of the attribute store. *)
Variable A : Type.

Record session := mkSession {
  skey : string;
  store : option (gmap string A);
  s_callId : string;
  s_from : AddressHeader;
  s_to : AddressHeader;
  s_seq : N;
  s_closed : bool
}.

Definition nilAddress : AddressHeader := mkAddress None None None.

Definition CreateSession (key : string) : session :=
  mkSession key (Some ∅) "" nilAddress nilAddress 1 false.

Definition SeqAtom (s : session) : session :=
  mkSession (skey s) (store s) (s_callId s) (s_from s) (s_to s) (to_uint32 (s_seq s + 1)) (s_closed s).

(** [Close]: the store is dropped and the channel closed, once. *)
Definition session_Close (s : session) : session :=
  if s_closed s then s
  else mkSession (skey s) None (s_callId s) (s_from s) (s_to s) (s_seq s) true.

Definition GetAttribute (s : session) (key : string) : option A :=
  match store s with Some m => m !! key | None => None end.
Definition SetAttribute (s : session) (key : string) (v : A) : res session :=
  match store s with
  | Some m => mret (mkSession (skey s) (Some (<[key := v]> m)) (s_callId s) (s_from s) (s_to s) (s_seq s) (s_closed s))
  | None => Panic NilMapWrite
  end.
Definition DelAttribute (s : session) (key : string) : session :=
  mkSession (skey s) (delete key <$> store s) (s_callId s) (s_from s) (s_to s) (s_seq s) (s_closed s).

Definition SaveMessage (s : session) (m : message) : res session :=
  let callId := default (s_callId s) (headers_CallID (msg_headers m)) in
  from ← match headers_From (msg_headers m) with
         | Some f => Address_Copy f
         | None => mret (s_from s)
         end;
  let to := match headers_To (msg_headers m) with Some t => To_Copy t | None => s_to s end in
  mret (mkSession (skey s) (store s) callId from to (s_seq s) (s_closed s)).

(** A request inside the dialog of the session. *)
Definition session_CreateRequest (id rndBranch rndCallID : string) (s : session) (method : RequestMethod)
    : res request :=
  toAddr ← deref (Address (s_to s));
  fromAddr ← deref (Address (s_from s));
  req ← CreateRequest id rndBranch rndCallID method (Addr_String (Domain toAddr))
          (Some (Uri_Copy fromAddr)) (Some (Uri_Copy toAddr));
  let hs := msg_headers (req_msg req) in
  fromParams ← deref (HParams (s_from s));
  from ← deref (headers_From hs);
  let hs := set_first hs "from" (HFrom (mkAddress (DisplayName from) (Address from) (Some (Params_Copy fromParams)))) in
  toParams ← deref (HParams (s_to s));
  to ← deref (headers_To hs);
  let hs := set_first hs "to" (HTo (mkAddress (DisplayName to) (Address to) (Some (Params_Copy toParams)))) in
  let hs := ReplaceHeader hs (HCallID (s_callId s)) in
  _ ← deref (headers_CSeq hs);
  let hs := set_first hs "cseq" (HCSeq (s_seq s) method) in
  mret (with_msg req (with_headers (req_msg req) hs)).

End Session.

(** ** Lemmas *)

Lemma GetHeaders_entry hs name : GetHeaders hs name = entry hs (ToLower name).
Proof. done. Qed.

(** Writing the first header of a name keeps the container well formed. *)
Lemma set_first_ok hs n h :
  headers_ok hs -> header_ok h -> key_of h = n -> headers_ok (set_first hs n h).
Proof.
  intros Hok Hh Hk. unfold set_first. destruct (hmap hs !! n) as [[|a l]|] eqn:E; try done.
  apply headers_ok_insert; [done|done| |apply Hok|].
  - destruct (entries_ok _ Hok _ _ E) as [_ Hl]. inversion Hl; subst. by constructor.
  - intros m. split; [auto|intros [->|?]; [|done]]. apply (order_dom _ Hok). eauto.
Qed.

Lemma set_first_entry hs n h k :
  entry (set_first hs n h) k =
  if decide (k = n) then match entry hs n with [] => [] | _ :: l => h :: l end else entry hs k.
Proof.
  unfold set_first, entry. destruct (hmap hs !! n) as [[|a l]|] eqn:E; cbn.
  - case_decide; subst; by rewrite ?E.
  - case_decide; subst; [by rewrite lookup_insert_eq|by rewrite lookup_insert_ne].
  - case_decide; subst; by rewrite ?E.
Qed.

(** The names whose headers [Copy] leaves unchanged: all but the authorizations. *)
Definition plain_name (n : string) : bool :=
  negb (String.eqb n "authorization") && negb (String.eqb n "proxy-authorization").

Lemma Header_Copy_plain hs n h :
  headers_ok hs -> plain_name n = true -> h ∈ entry hs n -> Header_Copy h = Ok h.
Proof.
  intros Hok Hn Hh. destruct (entry_keys hs n h Hok Hh) as [Hk Hwf].
  assert (Hc : Header_Copy h
    = Ok (match h with HAuthorization a => HAuthorization (Authorization_Copy a) | _ => h end))
    by (by apply Header_Copy_canonical).
  rewrite Hc. destruct h; try done. exfalso. unfold key_of in Hk. cbn in Hk.
  unfold Authorization_Name in Hk. subst n.
  destruct (String.eqb (auth_name auth) "proxy-authorization"); discriminate Hn.
Qed.

Lemma copy_entries hs n l to :
  headers_ok hs -> plain_name n = true -> (forall h, h ∈ l -> h ∈ entry hs n) -> headers_ok to ->
  exists to', foldM_res (fun hs h => h' ← Header_Copy h; AddHeader hs h') to l = Ok to'
    /\ headers_ok to'
    /\ forall k, entry to' k = entry to k ++ (if decide (k = n) then l else []).
Proof.
  intros Hok Hn Hl. revert to. induction l as [|h l IH]; intros to Hto; cbn.
  - exists to. split; [done|]. split; [done|]. intros k. case_decide; by rewrite app_nil_r.
  - rewrite (Header_Copy_plain hs n h) by (try done; apply Hl; left). cbn.
    rewrite AddHeader_added by done. cbn.
    destruct (entry_keys hs n h Hok) as [Hk Hwf]; [apply Hl; left|].
    destruct (IH (fun h' H => Hl h' (list_elem_of_further _ _ _ H)) (added to h)) as (to' & -> & Hok' & He);
      [by apply added_ok|].
    exists to'. split; [done|]. split; [done|]. intros k. rewrite He, entry_added, Hk, <- app_assoc.
    by case_decide.
Qed.

Lemma CopyHeaders_spec name from to :
  headers_ok (msg_headers from) -> headers_ok (msg_headers to) -> plain_name (ToLower name) = true ->
  exists hs, CopyHeaders name from to = Ok (with_headers to hs) /\ headers_ok hs
    /\ forall k, entry hs k = entry (msg_headers to) k
                 ++ (if decide (k = ToLower name) then entry (msg_headers from) k else []).
Proof.
  intros Hf Ht Hn. unfold CopyHeaders. rewrite GetHeaders_entry, ToLower_idem.
  destruct (copy_entries (msg_headers from) (ToLower name) (entry (msg_headers from) (ToLower name))
    (msg_headers to)) as (hs & -> & Hok & He); [done|done|done|done|].
  exists hs. split; [done|]. split; [done|]. intros k. rewrite He. by case_decide; subst.
Qed.

Lemma with_headers_twice m hs hs' : with_headers (with_headers m hs) hs' = with_headers m hs'.
Proof. done. Qed.

(** Copying several names, each once. *)
Lemma CopyHeaders_all names from : forall to,
  headers_ok (msg_headers from) -> headers_ok (msg_headers to) ->
  NoDup (map ToLower names) -> Forall (fun n => plain_name (ToLower n) = true) names ->
  exists hs, foldM_res (fun m name => CopyHeaders name from m) to names = Ok (with_headers to hs)
    /\ headers_ok hs
    /\ forall k, entry hs k = entry (msg_headers to) k
                 ++ (if decide (k ∈ map ToLower names) then entry (msg_headers from) k else []).
Proof.
  induction names as [|n names IH]; intros to Hf Ht Hnd Hp; cbn.
  - exists (msg_headers to). split; [by destruct to|]. split; [done|]. intros k. by rewrite app_nil_r.
  - inversion Hnd as [|? ? Hn Hnd']; subst. inversion Hp as [|? ? Hpn Hp']; subst.
    destruct (CopyHeaders_spec n from to Hf Ht Hpn) as (hs & -> & Hok & He). cbn.
    destruct (IH (with_headers to hs) Hf Hok Hnd' Hp') as (hs' & -> & Hok' & He').
    exists hs'. split; [done|]. split; [done|]. intros k. rewrite He'. cbn [msg_headers with_headers].
    rewrite He, <- app_assoc. f_equal. destruct (decide (k = ToLower n)) as [->|Hne].
    + rewrite decide_False by done. rewrite decide_True by left. by rewrite app_nil_r.
    + cbn. apply decide_ext. rewrite elem_of_cons. tauto.
Qed.

(** The entry of a name, as a typed header. *)
Lemma headers_To_entry hs to :
  headers_To hs = Some to <-> exists l, entry hs "to" = HTo to :: l.
Proof.
  unfold headers_To, first_header. rewrite GetHeaders_entry. change (ToLower "To") with "to".
  destruct (entry hs "to") as [|h l]; [naive_solver|].
  destruct h; naive_solver.
Qed.

(** The To header of the response with code [code] to a request whose To header is [to]. *)
Definition response_to (code : StatusCode) (rndTag : string) (to : AddressHeader) : AddressHeader :=
  match HParams to with
  | Some ps =>
      if N.eqb code 100 || Has ps "tag" then to
      else mkAddress (DisplayName to) (Address to) (Some (Add ps "tag" (Some rndTag)))
  | None => to
  end.

Lemma headers_To_first hs :
  headers_To hs = match entry hs "to" with HTo to :: _ => Some to | _ => None end.
Proof.
  unfold headers_To, first_header. rewrite GetHeaders_entry. change (ToLower "To") with "to".
  destruct (entry hs "to") as [|[] ?]; done.
Qed.

Lemma add_to_tag_spec m rndTag :
  headers_ok (msg_headers m) ->
  exists hs, add_to_tag m rndTag = Ok (with_headers m hs) /\ headers_ok hs
    /\ (forall k, k <> "to" -> entry hs k = entry (msg_headers m) k)
    /\ headers_To hs = response_to 200%N rndTag <$> headers_To (msg_headers m).
Proof.
  intros Hok. unfold add_to_tag. rewrite headers_To_first.
  destruct (entry (msg_headers m) "to") as [|h l] eqn:E.
  { exists (msg_headers m). rewrite headers_To_first, E. by destruct m. }
  destruct h; try (exists (msg_headers m); rewrite headers_To_first, E; by destruct m).
  destruct (entry_keys (msg_headers m) "to" (HTo to) Hok) as [_ [Ha (ps & Hps & Hpok)]];
    [rewrite E; left|].
  rewrite Hps. cbn [deref mbind res_bind]. destruct (Has ps "tag") eqn:Ht.
  { exists (msg_headers m). split; [by destruct m|]. split; [done|]. split; [done|].
    rewrite headers_To_first, E. cbn. unfold response_to. by rewrite Hps, Ht. }
  eexists. split; [reflexivity|]. split; [|split].
  - apply set_first_ok; [done| |done]. split; [done|]. cbn. eauto using Add_ok.
  - intros k Hk. by rewrite set_first_entry, decide_False.
  - rewrite headers_To_first, set_first_entry, decide_True, E by done. cbn.
    unfold response_to. by rewrite Hps, Ht.
Qed.

(** The code shared by the two response constructors. *)
Lemma fill_response_spec rndTag req r s d :
  headers_ok (msg_headers (req_msg req)) -> request_Source req = Ok s -> request_Destination req = Ok d ->
  exists hs, fill_response rndTag req r
    = Ok (mkResponse (mkMessage hs (messID (res_msg r)) (sipVersion (res_msg r)) (body (req_msg req)) d s)
            (status r) (reason r) (previous r))
    /\ headers_ok hs
    /\ (forall n, n ∈ ["record-route"; "via"; "from"; "call-id"; "cseq"] ->
          entry hs n = entry (msg_headers (req_msg req)) n)
    /\ headers_To hs = response_to (status r) rndTag <$> headers_To (msg_headers (req_msg req))
    /\ entry hs "content-length" = [].
Proof.
  intros Hok Hs Hd. unfold fill_response.
  set (m0 := with_body (with_headers (res_msg r) emptyHeaders) (body (req_msg req))).
  destruct (CopyHeaders_all copied_headers (req_msg req) m0 Hok emptyHeaders_ok) as (hs & -> & Hhs & He).
  { apply (bool_decide_unpack _). vm_compute. exact I. }
  { apply Forall_forall. intros n Hn. apply list_elem_of_In in Hn. cbn in Hn.
    by destruct Hn as [<-|[<-|[<-|[<-|[<-|[<-|[]]]]]]]. }
  cbn [mbind res_bind].
  assert (He0 : forall k, entry hs k = if decide (k ∈ map ToLower copied_headers)
                                       then entry (msg_headers (req_msg req)) k else []).
  { intros k. rewrite He. unfold m0, entry at 1. cbn. by rewrite lookup_empty. }
  assert (Hnames : forall n, n ∈ ["record-route"; "via"; "from"; "call-id"; "cseq"] ->
    entry hs n = entry (msg_headers (req_msg req)) n /\ n <> "to" /\ n <> "timestamp").
  { intros n Hn. apply list_elem_of_In in Hn. cbn in Hn. rewrite He0.
    by destruct Hn as [<-|[<-|[<-|[<-|[<-|[]]]]]]. }
  assert (Hto : headers_To hs = headers_To (msg_headers (req_msg req)))
    by (by rewrite !headers_To_first, He0).
  destruct (N.eqb (status r) 100) eqn:Ec.
  - destruct (CopyHeaders_spec "Timestamp" (req_msg req) (with_headers m0 hs) Hok Hhs eq_refl)
      as (hs' & -> & Hhs' & He'). cbn [mbind res_bind msg_headers with_headers] in *.
    rewrite Hs, Hd. cbn [mbind res_bind]. exists hs'. split; [done|]. split; [done|]. split; [|split].
    + intros n Hn. destruct (Hnames n Hn) as (E & _ & Ht). by rewrite He', decide_False, app_nil_r.
    + rewrite headers_To_first, He', app_nil_r, <- headers_To_first, Hto.
      destruct (headers_To (msg_headers (req_msg req))) as [to|]; [|done]. cbn. unfold response_to.
      rewrite Ec. by destruct (HParams to).
    + rewrite He', He0. done.
  - destruct (add_to_tag_spec (with_headers m0 hs) rndTag Hhs) as (hs' & -> & Hhs' & He' & Ht').
    cbn [mbind res_bind msg_headers with_headers] in *. rewrite Hs, Hd. cbn [mbind res_bind].
    exists hs'. split; [done|]. split; [done|]. split; [|split].
    + intros n Hn. destruct (Hnames n Hn) as (E & Ht & _). by rewrite He'.
    + rewrite Ht', Hto. destruct (headers_To (msg_headers (req_msg req))) as [to|]; [|done].
      cbn. unfold response_to. by rewrite Ec.
    + rewrite He', He0 by done. done.
Qed.

(** A response repeats the headers that identify its request. *)
Lemma CreateResponse_entries id rndTag req code s d :
  headers_ok (msg_headers (req_msg req)) -> request_Source req = Ok s -> request_Destination req = Ok d ->
  exists hs, CreateResponse id rndTag req code
    = Ok (mkResponse (mkMessage hs id (sipVersion (req_msg req)) (body (req_msg req)) d s)
            code (StatusText code) [])
    /\ headers_ok hs
    /\ (forall n, n ∈ ["record-route"; "via"; "from"; "call-id"; "cseq"] ->
          entry hs n = entry (msg_headers (req_msg req)) n)
    /\ headers_To hs = response_to code rndTag <$> headers_To (msg_headers (req_msg req))
    /\ entry hs "content-length" = [].
Proof. intros Hok Hs Hd. unfold CreateResponse. exact (fill_response_spec rndTag req _ s d Hok Hs Hd). Qed.

(** *** Sessions *)

Lemma first_entry hs name : first_header hs name = head (entry hs (ToLower name)).
Proof. unfold first_header. rewrite GetHeaders_entry. by destruct (entry hs (ToLower name)). Qed.

Lemma headers_From_head hs :
  headers_From hs = match head (entry hs "from") with Some (HFrom f) => Some f | _ => None end.
Proof. unfold headers_From. by rewrite first_entry. Qed.
Lemma headers_To_head hs :
  headers_To hs = match head (entry hs "to") with Some (HTo t) => Some t | _ => None end.
Proof. unfold headers_To. by rewrite first_entry. Qed.
Lemma headers_CSeq_head hs :
  headers_CSeq hs = match head (entry hs "cseq") with Some (HCSeq n m) => Some (n, m) | _ => None end.
Proof. unfold headers_CSeq. by rewrite first_entry. Qed.
Lemma headers_CallID_head hs :
  headers_CallID hs = match head (entry hs "call-id") with Some (HCallID v) => Some v | _ => None end.
Proof. unfold headers_CallID. by rewrite first_entry. Qed.
Lemma headers_Via_head hs :
  headers_Via hs = match head (entry hs "via") with Some (HVia v) => Some v | _ => None end.
Proof. unfold headers_Via. by rewrite first_entry. Qed.

Lemma ReplaceHeader_entry hs h k :
  entry (ReplaceHeader hs h) k = if decide (k = key_of h) then [h] else entry hs k.
Proof. unfold ReplaceHeader. rewrite lookup_insert_eq, entry_insert. done. Qed.

(** A header of a well-formed container is well formed. *)
Lemma head_entry_ok hs n h : headers_ok hs -> head (entry hs n) = Some h -> header_ok h.
Proof.
  intros Hok Hh. apply (entry_keys hs n h Hok). destruct (entry hs n); [done|].
  injection Hh as ->. left.
Qed.

Lemma headers_From_ok hs f : headers_ok hs -> headers_From hs = Some f -> address_ok f.
Proof.
  intros Hok. rewrite headers_From_head. destruct (head (entry hs "from")) as [h|] eqn:E; [|done].
  pose proof (head_entry_ok _ _ _ Hok E). destruct h; try done. by intros [= <-].
Qed.

Lemma headers_To_ok hs t : headers_ok hs -> headers_To hs = Some t -> address_ok t.
Proof.
  intros Hok. rewrite headers_To_head. destruct (head (entry hs "to")) as [h|] eqn:E; [|done].
  pose proof (head_entry_ok _ _ _ Hok E). destruct h; try done. by intros [= <-].
Qed.

(** The request that [CreateRequest] builds. *)
Lemma CreateRequest_spec id rb rc method addr f t :
  uri_ok f -> uri_ok t ->
  exists hs, CreateRequest id rb rc method addr (Some f) (Some t)
    = Ok (mkRequest (mkMessage hs id SipVersion "" "" addr) method None)
    /\ headers_ok hs
    /\ entry hs "via" = [DefaultViaHeader rb]
    /\ entry hs "from" = [HFrom (mkAddress None (Some f) (Some NewParams))]
    /\ entry hs "to" = [HTo (mkAddress None (Some t) (Some NewParams))]
    /\ entry hs "call-id" = [HCallID rc] /\ entry hs "cseq" = [HCSeq 1 method]
    /\ is_Some (hmap hs !! "call-id").
Proof.
  intros Hf Ht. unfold CreateRequest. set (l := [_; _; _; _; _; _]).
  destruct (newHeaders_built l) as (hs & -> & Hok & Ho & He).
  { assert (Haf : forall u, uri_ok u -> address_ok (mkAddress None (Some u) (Some NewParams))).
    { intros u Hu. split; cbn; eauto using NewParams_ok. }
    repeat constructor; try (by apply Haf). unfold hop_ok. cbn. eauto using Add_ok, NewParams_ok. }
  cbn [mbind res_bind]. unfold SetMethod. cbn [req_msg msg_headers recipient].
  assert (Hcs : headers_CSeq hs = Some (1%N, INVITE)) by (by rewrite headers_CSeq_head, He).
  rewrite Hcs. exists (set_first hs "cseq" (HCSeq 1 method)).
  split; [reflexivity|]. split; [by apply set_first_ok|].
  rewrite !set_first_entry, !He. do 5 (split; [reflexivity|]). unfold set_first.
  assert (Hin : is_Some (hmap hs !! "call-id")).
  { apply (order_dom _ Hok). rewrite Ho. cbn. set_solver. }
  destruct (hmap hs !! "cseq") as [[|? ?]|]; cbn; try done. by rewrite lookup_insert_ne.
Qed.

(** The dialog identifier depends on the Call-ID and the two tags. *)
Lemma DialogId_eq m c f t fp tp :
  headers_CallID (msg_headers m) = Some c ->
  headers_From (msg_headers m) = Some f -> HParams f = Some fp ->
  headers_To (msg_headers m) = Some t -> HParams t = Some tp ->
  DialogId m = Ok (c +:+ "#" +:+ sprint_maybe (default None (Get fp "tag"))
                   +:+ "#" +:+ sprint_maybe (default None (Get tp "tag"))).
Proof. intros Hc Hf Hfp Ht Htp. unfold DialogId. by rewrite Hc, Hf, Ht; cbn; rewrite Hfp, Htp. Qed.

Lemma SaveMessage_spec A (s : session A) m c f t :
  headers_ok (msg_headers m) -> headers_CallID (msg_headers m) = Some c ->
  headers_From (msg_headers m) = Some f -> headers_To (msg_headers m) = Some t ->
  SaveMessage A s m = Ok (mkSession A (skey A s) (store A s) c f t (s_seq A s) (s_closed A s)).
Proof.
  intros Hok Hc Hf Ht. unfold SaveMessage. rewrite Hc, Hf, Ht.
  rewrite Address_Copy_ok by (by eapply headers_From_ok). cbn.
  by rewrite To_Copy_ok by (by eapply headers_To_ok).
Qed.

Lemma session_CreateRequest_spec A id rb rc (s : session A) method fa fp ta tp :
  Address (s_from A s) = Some fa -> uri_ok fa -> HParams (s_from A s) = Some fp -> params_ok fp ->
  Address (s_to A s) = Some ta -> uri_ok ta -> HParams (s_to A s) = Some tp -> params_ok tp ->
  exists req, session_CreateRequest A id rb rc s method = Ok req
    /\ req_method req = method
    /\ headers_ok (msg_headers (req_msg req))
    /\ headers_CallID (msg_headers (req_msg req)) = Some (s_callId A s)
    /\ headers_From (msg_headers (req_msg req)) = Some (mkAddress None (Some fa) (Some fp))
    /\ headers_To (msg_headers (req_msg req)) = Some (mkAddress None (Some ta) (Some tp))
    /\ headers_CSeq (msg_headers (req_msg req)) = Some (s_seq A s, method).
Proof.
  intros Hfa Hfu Hfp Hfok Hta Htu Htp Htok. unfold session_CreateRequest. rewrite Hfa, Hta, Hfp, Htp.
  cbn [deref mbind res_bind].
  rewrite (Uri_Copy_id fa), (Uri_Copy_id ta) by done.
  destruct (CreateRequest_spec id rb rc method (Addr_String (Domain ta)) fa ta Hfu Htu)
    as (hs & -> & Hok & Hvia & Hf & Ht & Hc & Hcs & Hin). cbn [mbind res_bind req_msg msg_headers].
  rewrite headers_From_head, Hf. cbn [head deref mbind res_bind DisplayName Address].
  rewrite headers_To_head, set_first_entry, decide_False, Ht by done.
  cbn [head deref mbind res_bind DisplayName Address].
  rewrite !Params_Copy_id by done.
  set (h1 := set_first hs "from" _). set (h2 := set_first h1 "to" _).
  set (h3 := ReplaceHeader h2 (HCallID (s_callId A s))).
  assert (He : forall k, entry h3 k = if decide (k = "call-id") then [HCallID (s_callId A s)] else entry h2 k)
    by (intros k; apply ReplaceHeader_entry).
  assert (Hcs3 : entry h3 "cseq" = [HCSeq 1 method])
    by (rewrite He; unfold h2, h1; by rewrite !set_first_entry).
  rewrite headers_CSeq_head, Hcs3. cbn [head deref mbind res_bind].
  assert (H2 : headers_ok h2).
  { apply set_first_ok; [apply set_first_ok; [done| |done]| |done]; split; cbn; eauto. }
  assert (H3 : headers_ok h3).
  { apply ReplaceHeader_ok; [done|done|]. change (key_of (HCallID (s_callId A s))) with "call-id".
    apply (order_dom _ H2).
    assert (Ho : headerOrder h2 = headerOrder hs).
    { unfold h2, h1, set_first. by repeat case_match. }
    rewrite Ho. by apply (order_dom _ Hok). }
  eexists. split; [reflexivity|]. cbn [req_method with_msg with_headers req_msg msg_headers].
  split; [done|]. split; [by apply set_first_ok|].
  rewrite headers_CallID_head, headers_From_head, headers_To_head, headers_CSeq_head.
  rewrite !set_first_entry, Hcs3, !He. unfold h2, h1. rewrite !set_first_entry, Hf, Ht. done.
Qed.

(** *** Authorization *)

Lemma AddHeader_other hs h hs' k : AddHeader hs h = Ok hs' -> k <> key_of h -> entry hs' k = entry hs k.
Proof.
  unfold AddHeader. intros H Hk. destruct (hmap hs !! key_of h) as [[|a l]|]; [done| |].
  - rewrite Header_Equals_nil in H. cbn [mbind res_bind] in H.
    apply bind_ok in H as (s & _ & H). injection H as <-. by rewrite entry_insert, decide_False.
  - injection H as <-. by rewrite entry_insert, decide_False.
Qed.

Lemma set_branch_other m b m' k : set_branch m b = Ok m' -> k <> "via" ->
  entry (msg_headers m') k = entry (msg_headers m) k.
Proof.
  unfold set_branch. intros H Hk. destruct (headers_Via (msg_headers m)) as [[|hop hops]|]; [done| |done].
  apply bind_ok in H as (ps & _ & H). injection H as <-. cbn [msg_headers with_headers].
  by rewrite set_first_entry, decide_False.
Qed.

Lemma set_first_order hs n h : headerOrder (set_first hs n h) = headerOrder hs.
Proof. unfold set_first. by destruct (hmap hs !! n) as [[|? ?]|]. Qed.

Lemma set_first_tail hs n h : tail (entry (set_first hs n h) n) = tail (entry hs n).
Proof. rewrite set_first_entry, decide_True by done. by destruct (entry hs n). Qed.

(** What [set_branch] and [incr_cseq] leave of the message. *)
Lemma set_branch_rest m b m' :
  set_branch m b = Ok m' ->
  m' = with_headers m (msg_headers m') /\ headerOrder (msg_headers m') = headerOrder (msg_headers m)
  /\ tail (entry (msg_headers m') "via") = tail (entry (msg_headers m) "via").
Proof.
  unfold set_branch. destruct (headers_Via (msg_headers m)) as [[|hop hops]|]; [done| |done].
  intros (ps & _ & [= <-])%bind_ok. split; [done|]. cbn [msg_headers with_headers].
  split; [apply set_first_order|apply set_first_tail].
Qed.

Lemma incr_cseq_rest m :
  incr_cseq m = with_headers m (msg_headers (incr_cseq m))
  /\ headerOrder (msg_headers (incr_cseq m)) = headerOrder (msg_headers m)
  /\ tail (entry (msg_headers (incr_cseq m)) "cseq") = tail (entry (msg_headers m) "cseq").
Proof.
  unfold incr_cseq. destruct (headers_CSeq (msg_headers m)) as [[n mt]|]; [|by destruct m].
  split; [done|]. cbn [msg_headers with_headers]. split; [apply set_first_order|apply set_first_tail].
Qed.

(** The hop with another branch. *)
Definition hop_branch (hop : ViaHop) (ps : headerParams) (branch : string) : ViaHop :=
  mkViaHop (ProtocolName hop) (ProtocolVersion hop) (Header.Transport hop) (VHost hop) (VPort hop)
    (Some (Add ps "branch" (Some branch))).

Lemma set_branch_spec m hop hops ps b :
  headers_ok (msg_headers m) -> headers_Via (msg_headers m) = Some (hop :: hops) -> VParams hop = Some ps ->
  exists hs, set_branch m b = Ok (with_headers m hs) /\ headers_ok hs
    /\ headers_Via hs = Some (hop_branch hop ps b :: hops)
    /\ forall k, k <> "via" -> entry hs k = entry (msg_headers m) k.
Proof.
  intros Hok Hv Hps. unfold set_branch. rewrite Hv, Hps. cbn [deref mbind res_bind mret res_ret].
  eexists. split; [reflexivity|]. rewrite headers_Via_head in Hv.
  destruct (entry (msg_headers m) "via") as [|[] l] eqn:E; try done. cbn in Hv. injection Hv as ->.
  assert (Hh : header_ok (HVia (hop :: hops))) by (apply (entry_keys _ "via" _ Hok); rewrite E; left).
  cbn in Hh. inversion Hh as [|? ? (ps' & Hps' & Hp) Hhops]; subst. split; [|split].
  - apply set_first_ok; [done| |done]. constructor; [|done]. eexists. split; [reflexivity|].
    apply Add_ok. congruence.
  - by rewrite headers_Via_head, set_first_entry, decide_True, E by done.
  - intros k Hk. by rewrite set_first_entry, decide_False.
Qed.

Lemma incr_cseq_other m k : k <> "cseq" -> entry (msg_headers (incr_cseq m)) k = entry (msg_headers m) k.
Proof.
  intros Hk. unfold incr_cseq. destruct (headers_CSeq (msg_headers m)) as [[n mt]|]; [|done].
  cbn [msg_headers with_headers]. by rewrite set_first_entry, decide_False.
Qed.

(** The header that [AuthorizeRequest] computes is always named "Authorization". *)
Lemma AuthorizeRequest_entries rnd req r user pass req' :
  AuthorizeRequest rnd req r user pass = Ok req' ->
  (forall n, n <> "authorization" -> n <> "via" -> n <> "cseq" ->
     entry (msg_headers (req_msg req')) n = entry (msg_headers (req_msg req)) n)
  /\ (status r = 401%N -> entry (msg_headers (req_msg req)) "authorization" <> [] ->
     entry (msg_headers (req_msg req')) "authorization" = entry (msg_headers (req_msg req)) "authorization").
Proof.
  unfold AuthorizeRequest. destruct user as [user|]; [|done].
  set (names := if N.eqb (status r) 401 then _ else _). intros H.
  assert (Hn : names = if N.eqb (status r) 401 then ("WWW-Authenticate", "Authorization")
                       else ("Proxy-Authenticate", "Proxy-Authorization")) by done.
  destruct names as [n1 n2]. destruct (GetHeaders (msg_headers (res_msg r)) n1) as [|h l]; [done|].
  destruct h; try done. apply bind_ok in H as (auth & Ha & H). apply bind_ok in H as (u & _ & H).
  destruct (ParseAuthorization_no_panic CreateAuthorization Contents) as (auth' & Ha' & Hname & _);
    [cbn; eauto|]. rewrite Ha in Ha'. injection Ha' as <-.
  apply bind_ok in H as (hs & Hhs & H). apply bind_ok in H as (m & Hm & H). injection H as <-.
  cbn [req_msg with_msg].
  set (a := CalcResponse _) in Hhs.
  assert (Hkey : key_of (HAuthorization a) = "authorization").
  { unfold key_of. cbn [Name]. unfold Authorization_Name.
    assert (Han : auth_name a = "") by (subst a; by destruct pass). by rewrite Han. }
  assert (Hm' : forall k, k <> "via" -> entry (msg_headers m) k = entry hs k).
  { intros k Hk. destruct (headers_ViaHop _); [|by injection Hm as <-].
    by rewrite (set_branch_other _ _ _ _ Hm). }
  split.
  - intros n Hna Hnv Hnc. rewrite incr_cseq_other, Hm' by done.
    destruct (GetHeaders (msg_headers (req_msg req)) n2) as [|[] l']; try done.
    + apply (AddHeader_other _ _ _ n) in Hhs; [done|]. by rewrite Hkey.
    + by injection Hhs as <-.
  - intros Hs Hne. rewrite Hs in Hn. injection Hn as -> ->.
    rewrite incr_cseq_other, Hm' by done. rewrite GetHeaders_entry in Hhs.
    change (ToLower "Authorization") with "authorization" in Hhs.
    destruct (entry (msg_headers (req_msg req)) "authorization") as [|[] l'] eqn:E; try done.
    injection Hhs as <-. by rewrite E.
Qed.

(** ** Properties *)

(** C27: for a request with well-formed headers and known addresses, [CreateResponse]
    succeeds; the response has the code and its standard reason, repeats the
    Record-Route, Via, From, Call-ID and CSeq headers, gets a tag in To unless the code
    is 100 or a tag is there, and goes back to where [Source] says that the request came
    from.  It also repeats the body of the request, without a Content-Length header. *)
Theorem CreateResponse_spec (id rndTag : string) (req : request) (code : StatusCode) (s d : string) :
  headers_ok (msg_headers (req_msg req)) -> request_Source req = Ok s -> request_Destination req = Ok d ->
  exists r, CreateResponse id rndTag req code = Ok r
    /\ status r = code /\ reason r = StatusText code
    /\ src (res_msg r) = d /\ dest (res_msg r) = s
    /\ headers_ok (msg_headers (res_msg r))
    /\ (forall n, n ∈ ["record-route"; "via"; "from"; "call-id"; "cseq"] ->
          GetHeaders (msg_headers (res_msg r)) n = GetHeaders (msg_headers (req_msg req)) n)
    /\ headers_To (msg_headers (res_msg r)) = response_to code rndTag <$> headers_To (msg_headers (req_msg req))
    /\ body (res_msg r) = body (req_msg req)
    /\ GetHeaders (msg_headers (res_msg r)) "Content-Length" = [].
Proof.
  intros Hok Hs Hd.
  destruct (CreateResponse_entries id rndTag req code s d Hok Hs Hd) as (hs & -> & Hhs & Hn & Ht & Hc).
  eexists. split; [reflexivity|]. cbn. do 5 (split; [done|]). split; [|done].
  intros n Hin. rewrite !GetHeaders_entry.
  replace (ToLower n) with n; [by apply Hn|]. apply list_elem_of_In in Hin. cbn in Hin.
  by destruct Hin as [<-|[<-|[<-|[<-|[<-|[]]]]]].
Qed.

Definition sample_request : request :=
  mkRequest (mkMessage sample_headers "id" SipVersion "v=0" "10.0.0.9:5060" "10.0.0.1:5060") "INVITE" None.

Lemma CreateResponse_spec_witness :
  exists r, CreateResponse "r1" "42" sample_request 180%N = Ok r
    /\ reason r = "Ringing" /\ dest (res_msg r) = "10.0.0.9:5060".
Proof.
  destruct (CreateResponse_spec "r1" "42" sample_request 180%N "10.0.0.9:5060" "10.0.0.1:5060"
    sample_headers_ok eq_refl eq_refl) as (r & H1 & _ & H2 & _ & H3 & _).
  exists r. split; [exact H1|]. split; [exact H2|exact H3].
Defined.

(** [CreateResponseReason] never uses the reason it is given: the status code,
    set after it, overwrites it with the standard text. *)
Theorem CreateResponseReason_ignores_reason (id rndTag : string) (req : request) (code : StatusCode)
    (text : string) :
  CreateResponseReason id rndTag req code text = CreateResponse id rndTag req code.
Proof. reflexivity. Qed.

(** a session that saved a message makes requests of the same dialog: the
    dialog identifier (Call-ID and both tags) is that of the message, the sequence
    number is that of the session and the method is the one asked for. *)
Theorem session_request_in_dialog (A : Type) (s : session A) (m : message) (c : string)
    (f t : AddressHeader) (id rndBranch rndCallID : string) (method : RequestMethod) :
  headers_ok (msg_headers m) -> headers_CallID (msg_headers m) = Some c ->
  headers_From (msg_headers m) = Some f -> headers_To (msg_headers m) = Some t ->
  exists s' req, SaveMessage A s m = Ok s'
    /\ session_CreateRequest A id rndBranch rndCallID s' method = Ok req
    /\ DialogId (req_msg req) = DialogId m
    /\ headers_CSeq (msg_headers (req_msg req)) = Some (s_seq A s, method).
Proof.
  intros Hok Hc Hf Ht.
  destruct (headers_From_ok _ _ Hok Hf) as [(fa & Hfa & Hfu) (fp & Hfp & Hfok)].
  destruct (headers_To_ok _ _ Hok Ht) as [(ta & Hta & Htu) (tp & Htp & Htok)].
  eexists _. rewrite (SaveMessage_spec A s m c f t) by done.
  destruct (session_CreateRequest_spec A id rndBranch rndCallID
    (mkSession A (skey A s) (store A s) c f t (s_seq A s) (s_closed A s)) method fa fp ta tp)
    as (req & Hreq & _ & _ & Hc' & Hf' & Ht' & Hcs); try done.
  exists req. split; [done|]. split; [done|]. split; [|done].
  by rewrite (DialogId_eq (req_msg req) c _ _ fp tp Hc' Hf' eq_refl Ht' eq_refl), (DialogId_eq m c f t fp tp).
Qed.

Definition sample_to : Header :=
  HTo (mkAddress None (Some (USip sample_uri)) (Some (Add NewParams "tag" (Some "314")))).

Definition sample_dialog : message :=
  with_headers (req_msg sample_request)
    (match newHeaders [sample_from; sample_to; HCallID "c"] with Ok hs => hs | _ => emptyHeaders end).

Lemma sample_to_ok : header_ok sample_to.
Proof.
  destruct sample_from_ok as [H _]. split; [exact H|].
  eexists. split; [reflexivity|]. apply Add_ok, NewParams_ok.
Qed.

Lemma sample_dialog_ok : headers_ok (msg_headers sample_dialog).
Proof.
  unfold sample_dialog. destruct (newHeaders_built [sample_from; sample_to; HCallID "c"])
    as (hs & -> & H & _); [|done].
  repeat (apply Forall_cons; split); [apply sample_from_ok|apply sample_to_ok|exact I|by apply Forall_nil].
Qed.

Lemma session_request_in_dialog_witness :
  exists s' req, SaveMessage nat (CreateSession nat "k") sample_dialog = Ok s'
    /\ session_CreateRequest nat "id" "b" "cid" s' BYE = Ok req
    /\ DialogId (req_msg req) = DialogId sample_dialog.
Proof.
  destruct (session_request_in_dialog nat (CreateSession nat "k") sample_dialog "c" _ _ "id" "b" "cid" BYE
    sample_dialog_ok eq_refl eq_refl eq_refl) as (s' & req & H1 & H2 & H3 & _).
  exists s', req. split; [exact H1|]. split; [exact H2|exact H3].
Defined.

(** An attribute written after [Close] panics: the store is a nil map. *)
Example SetAttribute_after_Close :
  SetAttribute nat (session_Close nat (CreateSession nat "k")) "a" 1%nat = Panic NilMapWrite.
Proof. reflexivity. Qed.

(** [AuthorizeRequest] never stores its result under the name "Proxy-Authorization",
    so a 407 challenge goes unanswered, and after a second 401 challenge the request
    keeps the authorization header of the first one. *)
Theorem AuthorizeRequest_stale (rndBranch : string) (req req' : request) (r : response)
    (user password : MaybeString) :
  AuthorizeRequest rndBranch req r user password = Ok req' ->
  GetHeaders (msg_headers (req_msg req')) "Proxy-Authorization"
    = GetHeaders (msg_headers (req_msg req)) "Proxy-Authorization"
  /\ (status r = 401%N -> GetHeaders (msg_headers (req_msg req)) "Authorization" <> [] ->
      GetHeaders (msg_headers (req_msg req')) "Authorization"
      = GetHeaders (msg_headers (req_msg req)) "Authorization").
Proof.
  intros H. destruct (AuthorizeRequest_entries _ _ _ _ _ _ H) as [H1 H2].
  split; [by apply H1|exact H2].
Qed.

Definition sample_challenge (code : StatusCode) (name : string) : response :=
  mkResponse (mkMessage (mkHeaders {[ ToLower name := [HGeneric name ("Digest " +:+ quoted "realm" "r"
                                        +:+ "," +:+ quoted "nonce" "n")] ]} [ToLower name])
                "" SipVersion "" "" "") code "" [].

Definition sample_register : request :=
  mkRequest (mkMessage (mkHeaders {[ "cseq" := [HCSeq 4294967295 REGISTER] ]} ["cseq"]) "" SipVersion "" "" "")
    REGISTER (Some (USip sample_uri)).

Lemma AuthorizeRequest_stale_witness :
  exists req', AuthorizeRequest "b" sample_register (sample_challenge 407%N "Proxy-Authenticate")
                 (Some "alice") (Some "pw") = Ok req'
    /\ GetHeaders (msg_headers (req_msg req')) "Proxy-Authorization" = [].
Proof.
  destruct (AuthorizeRequest "b" sample_register (sample_challenge 407%N "Proxy-Authenticate")
    (Some "alice") (Some "pw")) as [req'| |] eqn:E; [|vm_compute in E; discriminate E..].
  exists req'. split; [reflexivity|].
  exact (proj1 (AuthorizeRequest_stale _ _ _ _ _ _ E)).
Defined.
