(* ===== verification/DefaultHeader.v ===== *)
(** * The default headers of a request (sip/headers.go: [DefaultHeader])

    [DefaultFromHeader] and [DefaultToHeader] return nil, and [DefaultHeader] adds these
    pointers to a container: headers that have a name, but cannot be rendered or copied.
    No other code makes such headers, so the container of Headers.v does without them;
    here it is once more, over header values that may be nil pointers, with the operations
    that meet them.  Without nil pointers the two are the same. *)

From S2P Require Import Prelude GoStrings Params Base Uri Header Headers Auth HeaderParse Message.
From Stdlib Require Import NArith Lia.

#[local] Open Scope string_scope.
#[local] Open Scope list_scope.

(** ** Headers that may be nil *)

(** A value of the interface [Header]. *)
Inductive header_value : Type :=
  | Ptr (h : Header)
  | NilFrom
  | NilTo.

Definition value_Name (v : header_value) : string :=
  match v with Ptr h => Name h | NilFrom => "From" | NilTo => "To" end.

Definition value_String (v : header_value) : res string :=
  match v with Ptr h => Header_String h | NilFrom | NilTo => Panic NilDereference end.

Definition value_Copy (v : header_value) : res header_value :=
  match v with Ptr h => Ptr <$> Header_Copy h | NilFrom | NilTo => Panic NilDereference end.

(** [Equals(nil)]: the type assertion fails before the receiver is used. *)
Definition value_Equals_nil (v : header_value) : res bool :=
  match v with Ptr h => Header_Equals no_pointers no_pointers h None | NilFrom | NilTo => mret false end.

(** ** The container *)

Record value_headers := mkValueHeaders {
  vmap : gmap string (list header_value);
  vorder : list string
}.

Definition value_AddHeader (hs : value_headers) (header : header_value) : res value_headers :=
  let name := ToLower (value_Name header) in
  match vmap hs !! name with
  | Some headerList =>
      match headerList with
      | [] => Panic IndexOutOfRange
      | a :: _ =>
          _ ← value_Equals_nil a;
          _ ← value_String a;
          e ← value_Equals_nil a;
          mret (mkValueHeaders (<[name := if (negb e) then headerList ++ [header] else [header]]> (vmap hs)) (vorder hs))
      end
  | None => mret (mkValueHeaders (<[name := [header]]> (vmap hs)) (vorder hs ++ [name]))
  end.

Definition value_Headers (hs : value_headers) : list header_value :=
  concat (map (fun key => default [] (vmap hs !! key)) (vorder hs)).

Definition value_headers_String (hs : value_headers) : res string :=
  foldM_res (fun buffer name =>
    foldM_res (fun buffer header => s ← value_String header; mret (buffer +:+ s +:+ CRLF))
      buffer (default [] (vmap hs !! name))) "" (vorder hs).

Definition value_CloneHeaders (hs : value_headers) : res (list header_value) := mapM_res value_Copy (value_Headers hs).

Definition DefaultFromHeader : header_value := NilFrom.
Definition DefaultToHeader : header_value := NilTo.

(** [DefaultCallID], with the random string drawn. *)
Definition DefaultCallID (rnd : string) : Header := HCallID rnd.

(** [DefaultHeader], with the random strings of the branch and the Call-ID. *)
Definition DefaultHeader (rndBranch rndCallID : string) : res value_headers :=
  foldM_res value_AddHeader (mkValueHeaders ∅ [])
    [Ptr (DefaultViaHeader rndBranch); DefaultFromHeader; DefaultToHeader; Ptr (DefaultCallID rndCallID);
     Ptr DefaultCSeq; Ptr DefaultMaxForwards].

(** ** Without nil pointers *)

Definition lift (hs : headers) : value_headers := mkValueHeaders (map Ptr <$> hmap hs) (headerOrder hs).

Lemma foldM_res_map {S A B} (f : S -> B -> res S) (g : A -> B) l s :
  foldM_res f s (map g l) = foldM_res (fun s a => f s (g a)) s l.
Proof. revert s. induction l as [|a l IH]; intros s; [done|]. cbn. destruct (f s (g a)); [apply IH|done..]. Qed.

Lemma foldM_res_ext {S A} (f g : S -> A -> res S) l s :
  (forall s a, f s a = g s a) -> foldM_res f s l = foldM_res g s l.
Proof. intros He. revert s. induction l as [|a l IH]; intros s; [done|]. cbn. rewrite He. destruct (g s a); [apply IH|done..]. Qed.

Lemma lift_lookup hs name : vmap (lift hs) !! name = map Ptr <$> (hmap hs !! name).
Proof. apply lookup_fmap. Qed.

Lemma lift_AddHeader hs h : value_AddHeader (lift hs) (Ptr h) = lift <$> AddHeader hs h.
Proof.
  unfold value_AddHeader, AddHeader. rewrite lift_lookup. cbn [value_Name]. fold (key_of h).
  destruct (hmap hs !! key_of h) as [[|a l]|] eqn:E; cbn [fmap option_fmap option_map map]; [done| |].
  - cbn [value_Equals_nil value_String]. destruct (Header_Equals no_pointers no_pointers a None) as [e| |]; [|done..].
    destruct (Header_String a); [|done..]. cbn. f_equal. unfold lift. cbn. f_equal. rewrite fmap_insert.
    f_equal. destruct e; cbn; [done|]. by rewrite map_app.
  - cbn. f_equal. unfold lift. cbn. f_equal. by rewrite fmap_insert.
Qed.

Lemma lift_String hs : value_headers_String (lift hs) = headers_String hs.
Proof.
  unfold value_headers_String, headers_String. apply foldM_res_ext. intros buffer name. rewrite lift_lookup.
  destruct (hmap hs !! name) as [l|]; [|done].
  exact (foldM_res_map (fun buffer header => s ← value_String header; mret (buffer +:+ s +:+ CRLF)) Ptr l buffer).
Qed.

(** ** What becomes of the default headers *)

(** They are made, in this order, and can be neither rendered nor copied. *)
Theorem DefaultHeader_useless (rndBranch rndCallID : string) :
  exists hs, DefaultHeader rndBranch rndCallID = Ok hs
    /\ vorder hs = ["via"; "from"; "to"; "call-id"; "cseq"; "max-forwards"]
    /\ value_headers_String hs = Panic NilDereference /\ value_CloneHeaders hs = Panic NilDereference.
Proof.
  eexists. split; [reflexivity|]. split; [reflexivity|].
  split; reflexivity.
Qed.
