(* ===== verification/ElasticChan.v ===== *)
(** * The elastic channel (utils/elasticchan.go)

    Two buffered channels and a goroutine that moves what comes in on the one to the other
    through a slice that grows.  A state of the model is what is in the channels and in
    the slice and where the goroutine is; a move is one communication of the program.  The
    specification is an unbounded queue. *)

From S2P Require Import Prelude GoStrings.
From Stdlib Require Import Lia.

#[local] Open Scope list_scope.

Definition cElasticChanSize : nat := 3.

(** Where [manage] is: in its loop, in [dispose], or behind [close(c.done)]. *)
Inductive manage_point : Set := Managing | Disposing | Managed.

Section ElasticChan.
Context {A : Type}.

Record ElasticChan := mkElasticChan {
  In : list A;
  In_closed : bool;
  Out : list A;
  buffer : list A;
  at_manage : manage_point
}.

(** [Init] and [Run] *)
Definition Init : ElasticChan := mkElasticChan [] false [] [] Managing.

(** ** The moves

    [Sends x] is [c.In <- x]; [Receives] is [<-c.Out]; [Stops] is [Stop] up to the point
    where it waits for [done]; [GetsIn], [PutsOut], [SeesEnd], [Disposes] and [Closes] are
    the goroutine.  A move that would block is [Ok None]. *)
Inductive move : Type :=
  | Sends (x : A)
  | Receives
  | Stops
  | GetsIn
  | PutsOut
  | SeesEnd
  | Disposes
  | Closes.

(** The goroutine hands over the head of its slice. *)
Definition put_out (c : ElasticChan) : res (option (ElasticChan * option A)) :=
  match buffer c with
  | x :: b =>
      if (length (Out c) <? cElasticChanSize)%nat
      then mret (Some (mkElasticChan (In c) (In_closed c) (Out c ++ [x]) b (at_manage c), None))
      else mret None
  | [] => mret None
  end.

Definition manage_step (c : ElasticChan) (m : move) : res (option (ElasticChan * option A)) :=
  match m, at_manage c with
  | Sends x, _ =>
      if In_closed c then Panic SendOnClosed
      else if (length (In c) <? cElasticChanSize)%nat
      then mret (Some (mkElasticChan (In c ++ [x]) false (Out c) (buffer c) (at_manage c), None))
      else mret None
  | Receives, _ =>
      match Out c with
      | x :: o => mret (Some (mkElasticChan (In c) (In_closed c) o (buffer c) (at_manage c), Some x))
      | [] => mret None
      end
  | Stops, Managed => mret (Some (c, None))
  | Stops, _ =>
      (* a second close of the channel *)
      if In_closed c then Panic SendOnClosed
      else mret (Some (mkElasticChan (In c) true (Out c) (buffer c) (at_manage c), None))
  | GetsIn, Managing =>
      match In c with
      | x :: i => mret (Some (mkElasticChan i (In_closed c) (Out c) (buffer c ++ [x]) Managing, None))
      | [] => mret None
      end
  | PutsOut, Managing => put_out c
  | SeesEnd, Managing =>
      match In c with
      | [] => if In_closed c then mret (Some (mkElasticChan [] true (Out c) (buffer c) Disposing, None)) else mret None
      | _ => mret None
      end
  | Disposes, Disposing => put_out c
  | Closes, Disposing =>
      match buffer c with
      | [] => mret (Some (mkElasticChan (In c) (In_closed c) (Out c) [] Managed, None))
      | _ => mret None
      end
  | _, _ => mret None
  end.

(** What the moves of a run give out, in order. *)
Inductive elastic_run : ElasticChan -> list move -> list A -> ElasticChan -> Prop :=
  | run_nil c : elastic_run c [] [] c
  | run_move c m c1 o ms ys c2 :
      manage_step c m = Ok (Some (c1, o)) -> elastic_run c1 ms ys c2 ->
      elastic_run c (m :: ms) (option_list o ++ ys) c2.

(** ** The specification: a queue *)

Definition queue (c : ElasticChan) : list A := Out c ++ buffer c ++ In c.

(** What is put into the queue. *)
Definition sent_by_moves (ms : list move) : list A :=
  omap (fun m => match m with Sends x => Some x | _ => None end) ms.

(** ** Lemmas *)

(** The channels hold three elements at most; nothing comes in behind the end. *)
Record elastic_ok (c : ElasticChan) : Prop := {
  In_bound : (length (In c) <= cElasticChanSize)%nat;
  Out_bound : (length (Out c) <= cElasticChanSize)%nat;
  ended : at_manage c <> Managing -> In c = [] /\ In_closed c = true;
  emptied : at_manage c = Managed -> buffer c = []
}.

Lemma Init_ok : elastic_ok Init.
Proof. split; cbn; try done; lia. Qed.

Lemma put_out_spec c c' o :
  put_out c = Ok (Some (c', o)) ->
  exists x b, buffer c = x :: b /\ c' = mkElasticChan (In c) (In_closed c) (Out c ++ [x]) b (at_manage c) /\ o = None
    /\ (length (Out c) < cElasticChanSize)%nat.
Proof.
  unfold put_out. destruct (buffer c) as [|x b]; [done|].
  destruct (_ <? _)%nat eqn:E; [|done]. intros [= <- <-]. apply Nat.ltb_lt in E. by exists x, b.
Qed.

(** Every move is a step of the queue: a push, a pop of its head, or none. *)
Lemma move_queue c m c' o :
  manage_step c m = Ok (Some (c', o)) ->
  option_list o ++ queue c' = queue c ++ match m with Sends x => [x] | _ => [] end.
Proof.
  unfold queue. destruct m; cbn [manage_step].
  - destruct (In_closed c); [done|]. destruct (_ <? _)%nat; intros [= <- <-]. cbn. by rewrite <- !app_assoc.
  - destruct (Out c) as [|y out]; intros [= <- <-]. cbn. by rewrite app_nil_r.
  - destruct (at_manage c); try (destruct (In_closed c); [done|]); intros [= <- <-]; cbn; by rewrite app_nil_r.
  - destruct (at_manage c); try done. destruct (In c) as [|y i]; intros [= <- <-]. cbn.
    by rewrite <- !app_assoc, app_nil_r.
  - destruct (at_manage c); try done. intros (y & b & Hb & -> & -> & _)%put_out_spec. cbn.
    by rewrite Hb, <- !app_assoc, app_nil_r.
  - destruct (at_manage c); try done. destruct (In c) as [|y i] eqn:Hi; [|done].
    destruct (In_closed c); intros [= <- <-]. cbn. by rewrite !app_nil_r.
  - destruct (at_manage c); try done. intros (y & b & Hb & -> & -> & _)%put_out_spec. cbn.
    by rewrite Hb, <- !app_assoc, app_nil_r.
  - destruct (at_manage c); try done. destruct (buffer c) as [|y b] eqn:Hb; intros [= <- <-]. cbn.
    by rewrite !app_nil_r.
Qed.

Lemma move_ok c m c' o : elastic_ok c -> manage_step c m = Ok (Some (c', o)) -> elastic_ok c'.
Proof.
  intros [Hi Ho He Hm]. destruct m; cbn [manage_step].
  - destruct (In_closed c) eqn:Hc; [done|]. destruct (_ <? _)%nat eqn:E; intros [= <- <-].
    apply Nat.ltb_lt in E. split; cbn; rewrite ?length_app; cbn; try done; [lia|].
    intros Hp. destruct (He Hp) as [_ Hcl]. congruence.
  - destruct (Out c) as [|y out] eqn:Eo; intros [= <- <-]. split; cbn in *; try done. lia.
  - destruct (at_manage c) eqn:Em; try (destruct (In_closed c) eqn:Ec; [done|]); intros [= <- <-];
      split; cbn; rewrite ?Em; try done.
    destruct (He ltac:(done)) as [_ Hcl]. done.
  - destruct (at_manage c); try done. destruct (In c) as [|y i] eqn:Ei; intros [= <- <-].
    split; cbn in *; try done. lia.
  - destruct (at_manage c) eqn:Em; try done. intros (y & b & Hb & -> & -> & Hl)%put_out_spec.
    split; cbn; rewrite ?length_app, ?Em; cbn; try done. lia.
  - destruct (at_manage c); try done. destruct (In c) as [|y i] eqn:Hi'; [|done].
    destruct (In_closed c); intros [= <- <-]. split; cbn; try done.
  - destruct (at_manage c) eqn:Em; try done. intros (y & b & Hb & -> & -> & Hl)%put_out_spec.
    split; cbn; rewrite ?length_app, ?Em; cbn; try done. lia.
  - destruct (at_manage c); try done. destruct (buffer c) as [|y b] eqn:Hb; intros [= <- <-].
    split; cbn; try done. intros _. by apply He.
Qed.

Lemma run_queue c ms ys c' : elastic_run c ms ys c' -> ys ++ queue c' = queue c ++ sent_by_moves ms.
Proof.
  induction 1 as [c|c m c1 o ms ys c2 Hs _ IH]; [by rewrite app_nil_r|].
  rewrite <- app_assoc, IH, app_assoc, (move_queue _ _ _ _ Hs), <- app_assoc. by destruct m.
Qed.

Lemma run_elastic_ok c ms ys c' : elastic_ok c -> elastic_run c ms ys c' -> elastic_ok c'.
Proof. intros Hok Hr. revert Hok. induction Hr; [done|]. intros Hok. apply IHHr. by eapply move_ok. Qed.

(** *** After [Stop] *)

(** The moves of the goroutine and of the reader. *)
Definition draining (m : move) : bool :=
  match m with Sends _ | Stops => false | _ => true end.

(** What is left to do: every element passes three places, the goroutine two points. *)
Definition work (c : ElasticChan) : nat :=
  3 * length (In c) + 2 * length (buffer c) + length (Out c)
  + match at_manage c with Managing => 2 | Disposing => 1 | Managed => 0 end.

Lemma draining_work c m c' o :
  draining m = true -> manage_step c m = Ok (Some (c', o)) -> (work c' < work c)%nat.
Proof.
  intros Hd. unfold work. destruct m; try done; cbn [manage_step].
  - destruct (Out c) as [|y out] eqn:Eo; intros [= <- <-]. cbn. lia.
  - destruct (at_manage c); try done. destruct (In c) as [|y i] eqn:Ei; intros [= <- <-]. cbn.
    rewrite length_app. cbn. lia.
  - destruct (at_manage c) eqn:Em; try done. intros (y & b & Hb & -> & -> & Hl)%put_out_spec. cbn.
    rewrite Hb, Em, length_app. cbn. lia.
  - destruct (at_manage c); try done. destruct (In c) as [|y i] eqn:Hi'; [|done].
    destruct (In_closed c); intros [= <- <-]. cbn. lia.
  - destruct (at_manage c) eqn:Em; try done. intros (y & b & Hb & -> & -> & Hl)%put_out_spec. cbn.
    rewrite Hb, Em, length_app. cbn. lia.
  - destruct (at_manage c); try done. destruct (buffer c) as [|y b] eqn:Hb; intros [= <- <-]. cbn. lia.
Qed.

(** While anything is left, the reader or the goroutine can move. *)
Lemma draining_progress c :
  elastic_ok c -> In_closed c = true -> at_manage c <> Managed \/ queue c <> [] ->
  exists m c' o, draining m = true /\ manage_step c m = Ok (Some (c', o)).
Proof.
  intros Hok Hc Hw.
  destruct (Out c) as [|y out] eqn:Eo.
  2: { exists Receives. cbn. rewrite Eo. eauto. }
  destruct (at_manage c) eqn:Em.
  - destruct (In c) as [|y i] eqn:Ei.
    + exists SeesEnd. cbn. rewrite Em, Ei, Hc. eauto.
    + exists GetsIn. cbn. rewrite Em, Ei. eauto.
  - destruct (buffer c) as [|y b] eqn:Eb.
    + exists Closes. cbn. rewrite Em, Eb. eauto.
    + exists Disposes. cbn. rewrite Em. unfold put_out. rewrite Eb, Eo. cbn. eauto.
  - exfalso. destruct Hw as [Hw|Hw]; [done|]. apply Hw. unfold queue.
    destruct (ended _ Hok ltac:(by rewrite Em)) as [Hi _]. by rewrite Eo, (emptied _ Hok Em), Hi.
Qed.

Lemma move_closed c m c' o : In_closed c = true -> manage_step c m = Ok (Some (c', o)) -> In_closed c' = true.
Proof.
  intros Hc. destruct m; cbn [manage_step]; rewrite ?Hc; try done.
  - by destruct (Out c); intros [= <- <-].
  - destruct (at_manage c); try done; intros [= <- <-]; done.
  - destruct (at_manage c); try done. by destruct (In c); intros [= <- <-].
  - destruct (at_manage c); try done. by intros (y & b & Hb & -> & -> & Hl)%put_out_spec.
  - destruct (at_manage c); try done. by destruct (In c); intros [= <- <-].
  - destruct (at_manage c); try done. by intros (y & b & Hb & -> & -> & Hl)%put_out_spec.
  - destruct (at_manage c); try done. by destruct (buffer c); intros [= <- <-].
Qed.

(** Without a reader, what does not fit into the output channel keeps the goroutine busy. *)
Lemma no_reader_queue c ms ys c' :
  elastic_run c ms ys c' -> forallb (fun m => match m with Receives | Sends _ => false | _ => true end) ms = true ->
  ys = [] /\ queue c' = queue c.
Proof.
  induction 1 as [c|c m c1 o ms ys c2 Hs _ IH]; cbn; [done|]. intros [Hm Hms]%andb_prop.
  destruct (IH Hms) as [-> Hq]. pose proof (move_queue _ _ _ _ Hs) as Hq1.
  assert (o = None) as ->.
  { destruct m; try done; cbn [manage_step] in Hs.
    - destruct (at_manage c); try (destruct (In_closed c); [done|]); by injection Hs.
    - destruct (at_manage c); try done. destruct (In c); by injection Hs.
    - destruct (at_manage c); try done. by apply put_out_spec in Hs as (? & ? & _ & _ & -> & _).
    - destruct (at_manage c); try done. destruct (In c); [|done]. destruct (In_closed c); by injection Hs.
    - destruct (at_manage c); try done. by apply put_out_spec in Hs as (? & ? & _ & _ & -> & _).
    - destruct (at_manage c); try done. destruct (buffer c); by injection Hs. }
  cbn in Hq1. split; [done|]. rewrite Hq, Hq1. destruct m; try done; by rewrite app_nil_r.
Qed.

End ElasticChan.

#[global] Arguments ElasticChan : clear implicits.
#[global] Arguments move : clear implicits.

(** ** The properties *)

(** C34: the elastic channel is a queue without bound.  In every run of senders, reader and
    goroutine, what was received followed by what the channel still holds is what was
    sent, in order: nothing is lost, doubled or overtaken, before, during and after
    [Stop], while the two Go channels never hold more than three elements each. *)
Theorem elastic_refines_queue {A : Type} (ms : list (move A)) (ys : list A) (c : ElasticChan A) :
  elastic_run Init ms ys c ->
  ys ++ queue c = sent_by_moves ms
  /\ (length (In c) <= cElasticChanSize)%nat /\ (length (Out c) <= cElasticChanSize)%nat
  /\ (forall m c' o, manage_step c m = Ok (Some (c', o)) ->
        option_list o ++ queue c' = queue c ++ match m with Sends x => [x] | _ => [] end).
Proof.
  intros Hr. destruct (run_elastic_ok _ _ _ _ Init_ok Hr) as [Hi Ho _ _].
  split; [exact (run_queue _ _ _ _ Hr)|]. do 2 (split; [done|]). intros m c' o. apply move_queue.
Qed.

Lemma elastic_refines_queue_witness :
  exists c, elastic_run Init [Sends 1; Sends 2; GetsIn; PutsOut; Receives; Sends 3] [1] c /\ queue c = [2; 3].
Proof.
  eexists. assert (Hr : elastic_run Init [Sends 1; Sends 2; GetsIn; PutsOut; Receives; Sends 3] [1]
    (mkElasticChan [2; 3] false [] [] Managing)).
  { change [1] with (option_list (None : option nat) ++ option_list (None : option nat)
      ++ option_list (None : option nat) ++ option_list (None : option nat) ++ option_list (Some 1)
      ++ option_list (None : option nat) ++ []).
    repeat (eapply run_move; [reflexivity|]). apply run_nil. }
  split; [exact Hr|]. destruct (elastic_refines_queue _ _ _ Hr) as [Hq _].
  exact (app_inv_head [1] _ _ Hq).
Defined.

(** [Stop] ends, and loses nothing, if there is a reader: once the input is closed,
    whatever the order in which reader and goroutine move, they can make at most [work c]
    moves; and when none of them can move any more, the goroutine has ended and the reader
    has got everything that was pending, in order.  Without a reader, more than three
    pending elements keep [Stop] waiting for ever. *)
Theorem elastic_stop {A : Type} (ms0 : list (move A)) (ys0 : list A) (c : ElasticChan A) :
  elastic_run Init ms0 ys0 c -> In_closed c = true ->
  (forall ms ys c', elastic_run c ms ys c' -> forallb draining ms = true ->
     (length ms <= work c)%nat
     /\ ((forall m c1 o, draining m = true -> manage_step c' m <> Ok (Some (c1, o))) ->
         at_manage c' = Managed /\ ys = queue c))
  /\ ((cElasticChanSize < length (queue c))%nat -> forall ms ys c', elastic_run c ms ys c' ->
        forallb (fun m => match m with Receives | Sends _ => false | _ => true end) ms = true ->
        at_manage c' <> Managed).
Proof.
  intros Hr0 Hc. pose proof (run_elastic_ok _ _ _ _ Init_ok Hr0) as Hok. split.
  - intros ms ys c' Hr Hd.
    assert (Hall : (length ms + work c' <= work c)%nat /\ In_closed c' = true /\ sent_by_moves ms = []).
    { clear Hr0 Hok. induction Hr as [c|c m c1 o ms ys c2 Hs _ IH]; [done|].
      cbn in Hd. apply andb_prop in Hd as [Hm Hms]. pose proof (draining_work _ _ _ _ Hm Hs).
      destruct (IH (move_closed _ _ _ _ Hc Hs) Hms) as (Hl & Hcl & Hsent).
      cbn [length]. split; [lia|]. split; [done|]. by destruct m. }
    destruct Hall as (Hl & Hcl & Hsent). split; [lia|]. intros Hstuck.
    pose proof (run_queue _ _ _ _ Hr) as Hq. rewrite Hsent, app_nil_r in Hq.
    pose proof (run_elastic_ok _ _ _ _ Hok Hr) as Hok'.
    assert (Hdone : ~ (at_manage c' <> Managed \/ queue c' <> [])).
    { intros Hw. destruct (draining_progress c' Hok' Hcl Hw) as (m & c1 & o & Hm & Hs). by apply (Hstuck m c1 o). }
    assert (Hq' : queue c' = []) by (destruct (queue c'); [done|exfalso; apply Hdone; by right]).
    split; [destruct (at_manage c'); [exfalso; apply Hdone; by left..|done]|]. by rewrite <- Hq, Hq', app_nil_r.
  - intros Hlen ms ys c' Hr Hms Hm. destruct (no_reader_queue _ _ _ _ Hr Hms) as [_ Hq].
    pose proof (run_elastic_ok _ _ _ _ Hok Hr) as [_ Ho He Hb].
    destruct (He ltac:(by rewrite Hm)) as [Hi _]. rewrite <- Hq in Hlen.
    unfold queue in Hlen. rewrite Hi, (Hb Hm), !app_nil_r in Hlen. lia.
Qed.

Lemma elastic_stop_witness :
  let c := mkElasticChan [7] true [] [] Managing in
  elastic_run c [GetsIn; SeesEnd; Disposes; Closes; Receives] [7] (mkElasticChan [] true [] [] Managed)
  /\ (forall ms ys c', elastic_run c ms ys c' -> forallb draining ms = true -> (length ms <= 5)%nat).
Proof.
  intros c. assert (Hr0 : elastic_run Init [Sends 7; Stops] [] c).
  { change (@nil nat) with (option_list (None : option nat) ++ option_list (None : option nat) ++ []).
    repeat (eapply run_move; [reflexivity|]). apply run_nil. }
  split.
  - change [7] with (option_list (None : option nat) ++ option_list (None : option nat)
      ++ option_list (None : option nat) ++ option_list (None : option nat) ++ option_list (Some 7) ++ []).
    repeat (eapply run_move; [reflexivity|]). apply run_nil.
  - intros ms ys c' Hr Hd. destruct (elastic_stop _ _ c Hr0 eq_refl) as [H1 _].
    exact (proj1 (H1 ms ys c' Hr Hd)).
Defined.
