(* ===== verification/Parser.v ===== *)
(** * The message parser: sip/parserbuffer.go and [parse] of sip/parser.go

    The parser goroutine reads lines and chunks from a pipe that [Write] fills, and
    blocks when the data it needs has not arrived.  Its state is the unread input, the
    queue of body lengths (unstreamed mode) and the point of the loop it is at; one
    step performs one read and the code up to the next read.  A step that lacks data
    is [None].  What the goroutine does after [Stop] closed the pipe is left out. *)

From S2P Require Import Prelude GoStrings Params Base Uri Header Headers Auth HeaderParse.
From S2P Require Import HeaderRoundTrip Message.
From Stdlib Require Import NArith ZArith Lia.

#[local] Open Scope string_scope.
#[local] Open Scope list_scope.

(** ** The buffer *)

(** [NextLine]: read up to a CR, then one byte; the line ends when that byte is LF.
    [None]: the input ends first. *)
Fixpoint NextLine_from (buffer input : string) : option (string * string) :=
  match input with
  | "" => None
  | String c rest =>
      if Ascii.eqb c CR then
        match rest with
        | "" => None
        | String b rest' =>
            if Ascii.eqb b LF then Some (buffer, rest')
            else NextLine_from (buffer +:+ String CR (String b "")) rest'
        end
      else NextLine_from (buffer +:+ String c "") rest
  end.

Definition NextLine (input : string) : option (string * string) := NextLine_from "" input.

(** [NextChunk(n)]: [make] panics on a negative length. *)
Definition NextChunk (n : Z) (input : string) : res (option (string * string)) :=
  if (n <? 0)%Z then Panic SliceOutOfRange
  else if (Z.to_nat n <=? String.length input)%nat
       then Ok (Some (str_take (Z.to_nat n) input, str_drop (Z.to_nat n) input))
       else Ok None.

(** ** The parser *)

(** Where the goroutine waits. *)
Inductive point : Type :=
  | ReadStart
  | SkipRest (startLine : string)
  | ReadHeaders (msg : Message) (buffer : string) (hdrs : list Header)
  | ReadBody (msg : Message).

(** What it sends on its two channels. *)
Inductive outcome : Type :=
  | Output (msg : Message)
  | Errs (kind : string).

Record parser := mkParser {
  headerParsers : gmap string HeaderParser;
  streamed : bool;
  stopped : bool;
  input : string;
  bodyLengths : list (nat * nat);
  at_point : point;
  drawn : nat  (* identifiers drawn so far *)
}.

Definition NewParser (streamed : bool) : parser :=
  mkParser NewParser_headerParsers streamed false "" [] ReadStart 0.

Definition goto (p : parser) (input : string) (pt : point) : parser :=
  mkParser (headerParsers p) (streamed p) (stopped p) input (bodyLengths p) pt (drawn p).

Definition parser_SetHeaderParser (p : parser) (name : string) (hp : HeaderParser) : parser :=
  mkParser (SetHeaderParser (headerParsers p) name hp) (streamed p) (stopped p) (input p)
    (bodyLengths p) (at_point p) (drawn p).

(** [Write]: the result is the number of bytes accepted. *)
Definition Write (p : parser) (data : string) : res (nat * parser) :=
  if stopped p then Err "cannot write data to stopped %s"
  else if streamed p then
    mret (String.length data, goto p (input p +:+ data) (at_point p))
  else
    match getBodyLength data with
    | None => mret (0%nat, p)
    | Some bl =>
        mret (String.length data,
              mkParser (headerParsers p) (streamed p) (stopped p) (input p +:+ data)
                (bodyLengths p ++ [(bl, String.length data)]) (at_point p) (drawn p))
    end.

Definition Message_String (msg : Message) : res string :=
  match msg with
  | MRequest r => fst <$> request_String r
  | MResponse r => response_String r
  end.

Definition msg_of (msg : Message) : message :=
  match msg with MRequest r => req_msg r | MResponse r => res_msg r end.
Definition with_msg_of (msg : Message) (m : message) : Message :=
  match msg with MRequest r => MRequest (with_msg r m) | MResponse r => MResponse (with_res_msg r m) end.

Section Parser.

(** The message identifiers, in the order in which they are drawn. *)
Variable uuid : nat -> string.

(** The message that a start line opens; [Err] is the terminal error. *)
Definition start_message (n : nat) (startLine : string) : res Message :=
  if isRequest startLine then
    '(method, recipient, version) ← ParseRequestLine startLine;
    let r := CreateSimpleRequest (uuid n) method (Addr_String (Domain recipient)) in
    mret (MRequest (with_msg r (SetSipVersion (req_msg r) version)))
  else if isResponse startLine then
    '(version, statusCode, text) ← ParseStatusLine startLine;
    MResponse <$> NewResponse (uuid n) "" version statusCode text [] ""
  else Err "transmission beginning '%s' is not a SIP message".

(** [flushBuffer] *)
Definition flushBuffer (p : parser) (buffer : string) (hdrs : list Header) : res (list Header) :=
  if String.eqb buffer "" then mret hdrs
  else match ParseHeader buffer (Some (headerParsers p)) with
       | Ok newHeaders => mret (hdrs ++ newHeaders)
       | Err _ => mret hdrs
       | Panic k => Panic k
       end.

Definition add_headers (msg : Message) (hdrs : list Header) : res Message :=
  hs ← foldM_res AddHeader (msg_headers (msg_of msg)) hdrs;
  mret (with_msg_of msg (with_headers (msg_of msg) hs)).

(** One line of the header section. *)
Definition header_line (p : parser) (msg : Message) (buffer : string) (hdrs : list Header) (line : string)
    : res point :=
  match line with
  | "" =>
      hdrs ← flushBuffer p buffer hdrs;
      msg ← add_headers msg hdrs;
      mret (ReadBody msg)
  | String c _ =>
      if negb (is_abnf_ws c) then
        hdrs ← flushBuffer p buffer hdrs;
        mret (ReadHeaders msg line hdrs)
      else if negb (String.eqb buffer "") then
        mret (ReadHeaders msg (buffer +:+ " " +:+ line) hdrs)
      else mret (ReadHeaders msg buffer hdrs)
  end.

(** The length of the body: from the Content-Length header in streamed mode ([inr] is
    the error reported), from the queue otherwise ([None]: the queue is empty). *)
Definition body_length (p : parser) (msg : Message)
    : res (option ((N + string) * list (nat * nat))) :=
  if streamed p then
    match GetHeaders (msg_headers (msg_of msg)) "Content-Length" with
    | [] =>
        _ ← Message_String msg;
        mret (Some (inr "missing required 'Content-Length' header", bodyLengths p))
    | [h] =>
        match h with
        | HContentLength n => mret (Some (inl n, bodyLengths p))
        | _ => Panic TypeAssertion
        end
    | hs =>
        _ ← mapM_res Header_String hs;
        _ ← Message_String msg;
        mret (Some (inr "multiple 'Content-Length' headers on message '", bodyLengths p))
    end
  else
    match bodyLengths p with
    | [] => mret None
    | (bl, _) :: q => mret (Some (inl (N.of_nat bl), q))
    end.

Definition parse_step (p : parser) : res (option (parser * list outcome)) :=
  match at_point p with
  | ReadStart =>
      match NextLine (input p) with
      | None => mret None
      | Some (startLine, rest) =>
          match start_message (drawn p) startLine with
          | Ok msg =>
              mret (Some (mkParser (headerParsers p) (streamed p) (stopped p) rest (bodyLengths p)
                            (ReadHeaders msg "" []) (S (drawn p)), []))
          | Err e =>
              mret (Some (goto p rest (if streamed p then ReadStart else SkipRest startLine),
                          [Errs "%s failed to parse first line of message: %s"]))
          | Panic k => Panic k
          end
      end
  | SkipRest startLine =>
      match bodyLengths p with
      | [] => mret None
      | (_, len) :: q =>
          c ← NextChunk (Z.of_nat len - Z.of_nat (String.length startLine) - 2) (input p);
          match c with
          | None => mret None
          | Some (_, rest) =>
              mret (Some (mkParser (headerParsers p) (streamed p) (stopped p) rest q ReadStart (drawn p), []))
          end
      end
  | ReadHeaders msg buffer hdrs =>
      match NextLine (input p) with
      | None => mret None
      | Some (line, rest) =>
          pt ← header_line p msg buffer hdrs line;
          mret (Some (goto p rest pt, []))
      end
  | ReadBody msg =>
      l ← body_length p msg;
      match l with
      | None => mret None
      | Some (inr e, q) =>
          mret (Some (mkParser (headerParsers p) (streamed p) (stopped p) (input p) q ReadStart (drawn p),
                      [Errs e]))
      | Some (inl n, q) =>
          c ← NextChunk (Z.of_N n) (input p);
          match c with
          | None => mret None
          | Some (chunk, rest) =>
              m ← (if negb (String.eqb (TrimSpace chunk) "") then SetBody (msg_of msg) chunk false
                   else mret (msg_of msg));
              mret (Some (mkParser (headerParsers p) (streamed p) (stopped p) rest q ReadStart (drawn p),
                          [Output (with_msg_of msg m)]))
          end
      end
  end.

(** Steps until the parser blocks, at most [fuel] of them. *)
Fixpoint run (fuel : nat) (p : parser) : res (parser * list outcome) :=
  match fuel with
  | 0%nat => mret (p, [])
  | S fuel' =>
      s ← parse_step p;
      match s with
      | None => mret (p, [])
      | Some (p', os) => '(p'', os') ← run fuel' p'; mret (p'', os ++ os')
      end
  end.

End Parser.

(** ** Lines *)

#[local] Arguments CR : simpl never.
#[local] Arguments LF : simpl never.

Lemma NextLine_from_split input : forall buffer line rest,
  NextLine_from buffer input = Some (line, rest) ->
  buffer +:+ input = line +:+ CRLF +:+ rest.
Proof.
  enough (H : forall n input, (String.length input <= n)%nat -> forall buffer line rest,
    NextLine_from buffer input = Some (line, rest) -> buffer +:+ input = line +:+ CRLF +:+ rest)
    by (intros; by apply (H (String.length input) input)).
  clear. induction n as [|n IH]; intros input Hn buffer line rest H.
  { by destruct input; cbn in Hn; [|lia]. }
  destruct input as [|c input']; [done|]. cbn in Hn, H.
  destruct (Ascii.eqb_spec c CR) as [->|_].
  - destruct input' as [|b input'']; [done|]. cbn in Hn. destruct (Ascii.eqb_spec b LF) as [->|_].
    + injection H as <- <-. done.
    + apply IH in H; [|lia]. by rewrite sapp_assoc in H.
  - apply IH in H; [|lia]. by rewrite sapp_assoc in H.
Qed.

(** A line that is read is a prefix of the input, ended by CRLF. *)
Lemma NextLine_split input line rest : NextLine input = Some (line, rest) -> input = line +:+ CRLF +:+ rest.
Proof. apply (NextLine_from_split input ""). Qed.

Definition no_CR (s : string) : bool := sforall (fun c => negb (Ascii.eqb c CR)) s.

Lemma NextLine_from_line l rest : forall buffer,
  no_CR l = true -> NextLine_from buffer (l +:+ CRLF +:+ rest) = Some (buffer +:+ l, rest).
Proof.
  induction l as [|c l IH]; intros buffer; cbn [String.append no_CR sforall NextLine_from].
  - intros _. unfold CRLF. cbn [String.append NextLine_from]. rewrite !Ascii.eqb_refl. by rewrite sapp_nil_r.
  - intros [->%negb_true_iff Hl]%andb_prop. rewrite IH by done. by rewrite sapp_assoc.
Qed.

Lemma NextLine_line l rest : no_CR l = true -> NextLine (l +:+ CRLF +:+ rest) = Some (l, rest).
Proof. apply (NextLine_from_line l rest ""). Qed.

(** The scan after a lone CR is out of step: a CR pair hides the line end that follows. *)
Example NextLine_lone_CR :
  NextLine ("a" +:+ String CR CRLF +:+ "b" +:+ CRLF) = Some ("a" +:+ String CR CRLF +:+ "b", "").
Proof. reflexivity. Qed.

(** ** Termination *)

Definition rank (pt : point) : nat := match pt with ReadStart => 0 | _ => 1 end.
Definition measure (p : parser) : nat := (2 * String.length (input p) + rank (at_point p))%nat.

Lemma NextLine_shorter input line rest :
  NextLine input = Some (line, rest) -> (String.length rest + 2 <= String.length input)%nat.
Proof. intros ->%NextLine_split. rewrite slength_app. cbn. lia. Qed.

Lemma NextChunk_shorter n input c rest :
  NextChunk n input = Ok (Some (c, rest)) -> (String.length rest <= String.length input)%nat.
Proof.
  unfold NextChunk. destruct (n <? 0)%Z; [done|]. destruct (_ <=? _)%nat; [|done].
  intros [= _ <-]. rewrite slength_drop. lia.
Qed.

Section Steps.

Variable uuid : nat -> string.
#[local] Abbreviation step := (parse_step uuid).
#[local] Abbreviation runs := (run uuid).

Lemma step_measure p p' os : step p = Ok (Some (p', os)) -> (measure p' < measure p)%nat.
Proof.
  unfold parse_step, measure. destruct (at_point p) as [|line|msg buf hdrs|msg].
  - destruct (NextLine (input p)) as [[l r]|] eqn:E; [|done]. apply NextLine_shorter in E.
    destruct (start_message uuid (drawn p) l); [| |done]; intros [= <- <-]; cbn;
      [|destruct (streamed p); cbn]; lia.
  - destruct (bodyLengths p) as [|[bl len] q]; [done|]. intros H.
    apply bind_ok in H as ([[c r]|] & Hc & H); [|done]. injection H as <- <-.
    apply NextChunk_shorter in Hc. cbn. lia.
  - destruct (NextLine (input p)) as [[l r]|] eqn:E; [|done]. apply NextLine_shorter in E.
    intros H. apply bind_ok in H as (pt & _ & H). injection H as <- <-. cbn. destruct pt; cbn; lia.
  - intros H. apply bind_ok in H as ([[[n|e] q]|] & _ & H); [| |done].
    + apply bind_ok in H as ([[c r]|] & Hc & H); [|done]. apply bind_ok in H as (m & _ & H).
      injection H as <- <-. apply NextChunk_shorter in Hc. cbn. lia.
    + injection H as <- <-. cbn. lia.
Qed.

(** *** No step returns an error value: errors go to the channel *)

Definition no_err {A} (r : res A) : bool := match r with Err _ => false | _ => true end.

Lemma bind_no_err {A B} (m : res A) (f : A -> res B) :
  no_err m = true -> (forall a, m = Ok a -> no_err (f a) = true) -> no_err (m ≫= f) = true.
Proof. destruct m; cbn; auto. Qed.

Lemma mapM_no_err {A B} (f : A -> res B) l :
  (forall a, no_err (f a) = true) -> no_err (mapM_res f l) = true.
Proof.
  intros Hf. induction l as [|a l IH]; [done|]. cbn. apply bind_no_err; [done|]. intros.
  by apply bind_no_err.
Qed.

Lemma foldM_no_err {S A} (f : S -> A -> res S) l :
  (forall s a, no_err (f s a) = true) -> forall s, no_err (foldM_res f s l) = true.
Proof.
  intros Hf. induction l as [|a l IH]; intros s; [done|]. cbn. apply bind_no_err; [done|]. intros. apply IH.
Qed.

Lemma Header_String_no_err h : no_err (Header_String h) = true.
Proof.
  destruct h; try done; cbn.
  - unfold Contact_String. destruct (Address contact) as [[|]|]; done.
  - unfold From_String. by destruct (HParams from).
  - unfold Via_String. apply bind_no_err; [|done]. apply mapM_no_err. intros hop.
    unfold ViaHop_String. by destruct (VParams hop).
Qed.

Lemma AddHeader_no_err hs h : no_err (AddHeader hs h) = true.
Proof.
  unfold AddHeader. destruct (_ !! _) as [[|a l]|]; try done. rewrite Header_Equals_nil. cbn.
  apply bind_no_err; [apply Header_String_no_err|done].
Qed.

Lemma Message_String_no_err msg : no_err (Message_String msg) = true.
Proof.
  assert (Hh : forall hs, no_err (headers_String hs) = true).
  { intros hs. apply foldM_no_err. intros s a. apply foldM_no_err. intros s' h.
    apply bind_no_err; [apply Header_String_no_err|done]. }
  assert (Hm : forall line m, no_err (message_String line m) = true).
  { intros. unfold message_String. by apply bind_no_err. }
  destruct msg as [r|r]; cbn; [|apply Hm].
  assert (no_err (request_String r) = true); [|by destruct (request_String r)].
  unfold request_String, request_StartLine. apply bind_no_err; [apply bind_no_err; [|done]|].
  - unfold start_recipient. case_match.
    + apply bind_no_err; [|intros; by destruct (SplitHostPort _) as [[]| |]].
      unfold request_Destination. case_match; [done|]. apply bind_no_err; [|intros; by repeat case_match].
      by repeat case_match.
    + destruct (headers_To _) as [to|]; [|done]. by destruct (Address to).
  - intros [line r'] _. by apply bind_no_err.
Qed.

Lemma add_headers_no_err msg hdrs : no_err (add_headers msg hdrs) = true.
Proof. apply bind_no_err; [apply foldM_no_err, AddHeader_no_err|done]. Qed.

Lemma flushBuffer_no_err p buf hdrs : no_err (flushBuffer p buf hdrs) = true.
Proof. unfold flushBuffer. by repeat case_match. Qed.

Lemma step_no_err p : no_err (step p) = true.
Proof.
  unfold parse_step. destruct (at_point p) as [|line|msg buf hdrs|msg].
  - destruct (NextLine _) as [[l r]|]; [|done]. by destruct (start_message _ _ _).
  - destruct (bodyLengths p) as [|[bl len] q]; [done|]. apply bind_no_err.
    + unfold NextChunk. by repeat case_match.
    + intros [[c r]|] _; done.
  - destruct (NextLine _) as [[l r]|]; [|done]. apply bind_no_err; [|done]. unfold header_line.
    destruct l as [|c l].
    + apply bind_no_err; [apply flushBuffer_no_err|]. intros hs _.
      by apply bind_no_err; [apply add_headers_no_err|].
    + case_match; [by apply bind_no_err; [apply flushBuffer_no_err|]|]. by case_match.
  - apply bind_no_err.
    + unfold body_length. destruct (streamed p); [|by destruct (bodyLengths p) as [|[] ?]].
      destruct (GetHeaders _ _) as [|h [|h' l]].
      * by apply bind_no_err; [apply Message_String_no_err|].
      * by destruct h.
      * apply bind_no_err; [apply mapM_no_err, Header_String_no_err|]. intros _ _.
        by apply bind_no_err; [apply Message_String_no_err|].
    + intros [[[n|e] q]|] _; [|done|done]. apply bind_no_err; [unfold NextChunk; by repeat case_match|].
      intros [[c r]|] _; [|done]. by destruct (negb _).
Qed.

Lemma run_terminates fuel : forall p, (measure p < fuel)%nat ->
  (exists k, runs fuel p = Panic k)
  \/ exists p' os, runs fuel p = Ok (p', os) /\ step p' = Ok None.
Proof.
  induction fuel as [|fuel IH]; intros p Hf; [lia|]. cbn [run].
  pose proof (step_no_err p) as Hne. destruct (step p) as [[[p' os]|]|e|k] eqn:E; [| |done|].
  - pose proof (step_measure _ _ _ E) as Hm. cbn [mbind res_bind].
    destruct (IH p') as [(k & ->)|(p'' & os' & -> & Hs)]; [lia| |].
    + left. cbn. eauto.
    + right. cbn. eauto.
  - right. cbn. eauto.
  - left. cbn. eauto.
Qed.

End Steps.

(** ** The header section as a function of its lines *)

(** Physical lines joined into logical header lines: a line that starts with white
    space continues the one before, and is dropped when there is none. *)
Fixpoint logical_lines (buffer : string) (lines : list string) : list string :=
  let flushed := if String.eqb buffer "" then [] else [buffer] in
  match lines with
  | [] => flushed
  | l :: lines' =>
      match l with
      | String c _ =>
          if is_abnf_ws c then
            logical_lines (if String.eqb buffer "" then "" else buffer +:+ " " +:+ l) lines'
          else flushed ++ logical_lines l lines'
      | "" => logical_lines buffer lines'
      end
  end.

(** The headers of the logical lines that parse; the others are skipped. *)
Definition collect (hp : gmap string HeaderParser) (hdrs : list Header) (lines : list string)
    : res (list Header) :=
  foldM_res (fun acc l => match ParseHeader l (Some hp) with
                          | Ok hs => mret (acc ++ hs)
                          | Err _ => mret acc
                          | Panic k => Panic k
                          end) hdrs lines.

(** A line that does not end the header section and holds no CR. *)
Definition head_line (l : string) : bool := negb (String.eqb l "") && no_CR l.

Definition after_headers (hp : gmap string HeaderParser) (msg : Message) (buffer : string)
    (hdrs : list Header) (lines : list string) : res Message :=
  hs ← collect hp hdrs (logical_lines buffer lines);
  add_headers msg hs.

Lemma flushBuffer_collect p buffer hdrs :
  flushBuffer p buffer hdrs
  = collect (headerParsers p) hdrs (if String.eqb buffer "" then [] else [buffer]).
Proof.
  unfold flushBuffer, collect. destruct (String.eqb buffer ""); [done|]. cbn.
  by destruct (ParseHeader buffer (Some (headerParsers p))).
Qed.

Lemma collect_app hp hdrs l1 l2 : collect hp hdrs (l1 ++ l2) = (hs ← collect hp hdrs l1; collect hp hs l2).
Proof. apply foldM_res_app. Qed.

Section Framing.

Variable uuid : nat -> string.
#[local] Abbreviation step := (parse_step uuid).
#[local] Abbreviation runs := (run uuid).

Lemma run_step fuel p p' : step p = Ok (Some (p', [])) -> runs (S fuel) p = runs fuel p'.
Proof. intros H. cbn. rewrite H. cbn. by destruct (runs fuel p') as [[? ?]| |]. Qed.

(** The header section is read line by line, up to the empty line. *)
Lemma run_headers lines : forall fuel p msg buffer hdrs rest,
  forallb head_line lines = true ->
  at_point p = ReadHeaders msg buffer hdrs ->
  input p = lines_text lines +:+ CRLF +:+ rest ->
  runs (S (length lines) + fuel) p
  = (msg' ← after_headers (headerParsers p) msg buffer hdrs lines; runs fuel (goto p rest (ReadBody msg'))).
Proof.
  unfold after_headers. induction lines as [|l lines IH]; intros fuel p msg buffer hdrs rest Hl Hp Hi.
  - cbn [length Nat.add run]. unfold parse_step. rewrite Hp, Hi. cbn [lines_text].
    rewrite (NextLine_line "") by done. cbn [header_line logical_lines].
    rewrite flushBuffer_collect. destruct (collect _ _ _) as [hs| |]; cbn; [|done|done].
    destruct (add_headers msg hs) as [m| |]; cbn; [|done|done].
    by destruct (runs fuel _) as [[? ?]| |].
  - apply andb_prop in Hl as [[Hne%negb_true_iff Hcr]%andb_prop Hl].
    destruct l as [|c l]; [done|].
    assert (Hline : NextLine (input p) = Some (String c l, lines_text lines +:+ CRLF +:+ rest)).
    { rewrite Hi. cbn [lines_text]. rewrite !sapp_assoc. by apply NextLine_line. }
    assert (Hgo : forall buffer' hdrs', header_line p msg buffer hdrs (String c l) = Ok (ReadHeaders msg buffer' hdrs') ->
      runs (S (length (String c l :: lines)) + fuel) p
      = (msg' ← (hs ← collect (headerParsers p) hdrs' (logical_lines buffer' lines); add_headers msg hs);
         runs fuel (goto p rest (ReadBody msg')))).
    { intros buffer' hdrs' Hh. cbn [length]. rewrite Nat.add_succ_l.
      rewrite (run_step _ p (goto p (lines_text lines +:+ CRLF +:+ rest) (ReadHeaders msg buffer' hdrs'))).
      - by rewrite (IH fuel _ msg buffer' hdrs' rest).
      - unfold parse_step. by rewrite Hp, Hline, Hh. }
    cbn [header_line logical_lines] in *. destruct (is_abnf_ws c) eqn:Hws; cbn [negb] in *.
    + destruct (String.eqb buffer "") eqn:Hb; cbn [negb] in *.
      * apply String.eqb_eq in Hb as ->. by apply Hgo.
      * by apply Hgo.
    + rewrite collect_app, <- flushBuffer_collect in *.
      destruct (flushBuffer p buffer hdrs) as [hs|e|k] eqn:Ef; cbn [mbind res_bind] in *.
      * by apply Hgo.
      * pose proof (flushBuffer_no_err p buffer hdrs) as He. by rewrite Ef in He.
      * cbn [length Nat.add run]. unfold parse_step. rewrite Hp, Hline. cbn [header_line].
        by rewrite Hws; cbn [negb]; rewrite Ef.
Qed.

(** ** Datagrams *)

Definition datagram (startLine : string) (lines : list string) (b : string) : string :=
  lines_text (startLine :: lines) +:+ CRLF +:+ b.

#[local] Abbreviation CRLF2 := (CRLF +:+ CRLF).

Lemma index_str_skip s t :
  no_CR s = true -> index_str CRLF2 (s +:+ t) = Nat.add (String.length s) <$> index_str CRLF2 t.
Proof.
  induction s as [|c s IH]; cbn [String.append no_CR sforall].
  - intros _. by destruct (index_str CRLF2 t).
  - intros [Hc%negb_true_iff Hs]%andb_prop. change CRLF2 with (String CR (String LF CRLF)) in *.
    cbn [index_str HasPrefix]. rewrite (Ascii.eqb_sym CR c), Hc. cbn [andb].
    rewrite IH by done. by destruct (index_str _ t).
Qed.

(** The double CRLF that ends the header section is the first one. *)
Lemma index_head lines b : forall startLine,
  no_CR startLine = true -> forallb head_line lines = true ->
  index_str CRLF2 (datagram startLine lines b)
  = Some (String.length (lines_text (startLine :: lines)) - 2)%nat.
Proof.
  induction lines as [|l lines IH]; intros startLine Hs Hl; unfold datagram; cbn [lines_text].
  - rewrite !sapp_assoc, index_str_skip by done. change ("" +:+ ?x) with x.
    assert (Hp : index_str CRLF2 (CRLF +:+ CRLF +:+ b) = Some 0%nat).
    { change CRLF2 with (String CR (String LF (String CR (String LF "")))).
      change (CRLF +:+ CRLF +:+ b) with (String CR (String LF (String CR (String LF b)))).
      cbn [index_str HasPrefix]. by rewrite !Ascii.eqb_refl. }
    rewrite Hp. cbn [fmap option_fmap option_map].
    f_equal. rewrite slength_app. cbn. lia.
  - apply andb_prop in Hl as [[Hne%negb_true_iff Hcr]%andb_prop Hl].
    pose proof (IH l Hcr Hl) as IHl. unfold datagram in IHl. cbn [lines_text] in IHl.
    rewrite !sapp_assoc, index_str_skip by done. rewrite !sapp_assoc in IHl.
    set (t := l +:+ CRLF +:+ lines_text lines +:+ CRLF +:+ b) in *.
    assert (Ht : exists c t', t = String c t' /\ Ascii.eqb c CR = false).
    { destruct l as [|c l]; [done|]. cbn in Hcr. apply andb_prop in Hcr as [Hc%negb_true_iff _].
      subst t. cbn. eauto. }
    destruct Ht as (c & t' & Ht & Hc).
    assert (Hstep : index_str CRLF2 (CRLF +:+ t) = (fun n => S (S n)) <$> index_str CRLF2 t).
    { rewrite Ht. change CRLF2 with (String CR (String LF (String CR (String LF "")))).
      change (CRLF +:+ String c t') with (String CR (String LF (String c t'))).
      cbn [index_str HasPrefix]. rewrite !Ascii.eqb_refl, (Ascii.eqb_sym CR c), Hc.
      change (Ascii.eqb CR LF) with false. cbn [andb].
      by destruct (index_str _ t'). }
    rewrite Hstep, IHl. cbn [fmap option_fmap option_map]. f_equal.
    rewrite !slength_app. change (String.length CRLF) with 2%nat. lia.
Qed.

Lemma getBodyLength_datagram startLine lines b :
  no_CR startLine = true -> forallb head_line lines = true ->
  getBodyLength (datagram startLine lines b) = Some (String.length b).
Proof.
  intros Hs Hl. unfold getBodyLength. rewrite index_head by done. f_equal.
  unfold datagram. rewrite !slength_app. cbn [lines_text]. rewrite slength_app. cbn. lia.
Qed.

(** The outcome of one datagram, as a function of its parts. *)
Definition parse_datagram (hp : gmap string HeaderParser) (n : nat) (startLine : string)
    (lines : list string) (b : string) : res outcome :=
  match start_message uuid n startLine with
  | Ok msg =>
      msg ← after_headers hp msg "" [] lines;
      mret (Output (if String.eqb (TrimSpace b) "" then msg else with_msg_of msg (with_body (msg_of msg) b)))
  | Err _ => mret (Errs "%s failed to parse first line of message: %s")
  | Panic k => Panic k
  end.

(** The parser between two datagrams. *)
Definition idle (p : parser) : Prop :=
  at_point p = ReadStart /\ input p = "" /\ bodyLengths p = [] /\ stopped p = false /\ streamed p = false.

Lemma run_idle fuel p : at_point p = ReadStart -> input p = "" -> runs fuel p = Ok (p, []).
Proof. intros Hp Hi. destruct fuel; [done|]. cbn. unfold parse_step. by rewrite Hp, Hi. Qed.

Lemma NextChunk_all n s : n = String.length s -> NextChunk (Z.of_nat n) s = Ok (Some (s, "")).
Proof.
  intros ->. unfold NextChunk. rewrite (proj2 (Z.ltb_ge _ 0)) by lia. rewrite Nat2Z.id.
  by rewrite Nat.leb_refl, str_take_all, str_drop_all.
Qed.

(** The idle parser after a datagram, [n] identifiers drawn. *)
Definition rest_at (p : parser) (n : nat) : parser :=
  mkParser (headerParsers p) false false "" [] ReadStart n.

(** The identifiers drawn behind a datagram. *)
Definition drawn_after (n : nat) (startLine : string) : nat :=
  match start_message uuid n startLine with Ok _ => S n | _ => n end.

Lemma run_datagram p startLine lines b fuel :
  idle p -> no_CR startLine = true -> forallb head_line lines = true -> (length lines + 3 <= fuel)%nat ->
  exists p1, Write p (datagram startLine lines b) = Ok (String.length (datagram startLine lines b), p1)
    /\ runs fuel p1 = (o ← parse_datagram (headerParsers p) (drawn p) startLine lines b;
                       mret (rest_at p (drawn_after (drawn p) startLine), [o])).
Proof.
  intros (Hp & Hi & Hq & Hst & Hu) Hs Hl Hfuel.
  unfold Write. rewrite Hst, Hu, getBodyLength_datagram by done. eexists. split; [reflexivity|].
  rewrite Hi, Hp, Hq. cbn [app String.append]. set (data := datagram startLine lines b).
  set (p1 := mkParser _ _ _ data _ _ _).
  assert (Hline : NextLine data = Some (startLine, lines_text lines +:+ CRLF +:+ b)).
  { subst p1 data. unfold datagram. cbn [lines_text]. rewrite !sapp_assoc. by apply NextLine_line. }
  unfold parse_datagram, drawn_after. destruct (start_message uuid (drawn p) startLine) as [msg|e|k] eqn:Em.
  - destruct fuel as [|fuel]; [lia|].
    erewrite run_step.
    2:{ unfold parse_step. subst p1. cbn [at_point input drawn]. rewrite Hline. by rewrite Em. }
    replace fuel with (S (length lines) + (fuel - S (length lines)))%nat by lia.
    rewrite (run_headers lines _ _ msg "" [] b) by done. cbn [headerParsers].
    destruct (after_headers (headerParsers p) msg "" [] lines) as [msg'| |]; cbn [mbind res_bind]; [|done|done].
    destruct (fuel - S (length lines))%nat as [|f] eqn:Ef; [lia|].
    cbn [run]. unfold parse_step, goto, body_length.
    cbn [at_point streamed bodyLengths input mbind res_bind mret res_ret].
    rewrite nat_N_Z, NextChunk_all by done. cbn [mbind res_bind].
    destruct (String.eqb (TrimSpace b) "") eqn:Eb; cbn; rewrite run_idle by done; cbn; unfold rest_at;
      by destruct msg' as [[]|[]].
  - destruct fuel as [|[|fuel]]; [lia|lia|].
    assert (H1 : step p1 = Ok (Some (goto p1 (lines_text lines +:+ CRLF +:+ b) (SkipRest startLine),
      [Errs "%s failed to parse first line of message: %s"]))).
    { unfold parse_step. subst p1. cbn [at_point input drawn streamed]. by rewrite Hline, Em. }
    assert (Hlen : (Z.of_nat (String.length data) - Z.of_nat (String.length startLine) - 2)%Z
                   = Z.of_nat (String.length (lines_text lines +:+ CRLF +:+ b))).
    { subst data. unfold datagram. cbn [lines_text]. rewrite !slength_app.
      change (String.length CRLF) with 2%nat. lia. }
    assert (H2 : step (goto p1 (lines_text lines +:+ CRLF +:+ b) (SkipRest startLine))
                 = Ok (Some (rest_at p (drawn p), []))).
    { unfold parse_step. subst p1. cbn [at_point goto bodyLengths input].
      rewrite Hlen, NextChunk_all by done. done. }
    cbn [run]. rewrite H1. cbn [mbind res_bind]. rewrite H2. cbn [mbind res_bind].
    by rewrite run_idle.
  - destruct fuel as [|fuel]; [lia|]. cbn [run]. unfold parse_step. subst p1.
    cbn [at_point input drawn]. by rewrite Hline, Em.
Qed.

End Framing.

(** ** Segmentation of a stream *)

(** The parser with more input behind what it has. *)
Definition extend (p : parser) (x : string) : parser :=
  mkParser (headerParsers p) (streamed p) (stopped p) (input p +:+ x) (bodyLengths p) (at_point p) (drawn p).

Lemma NextLine_from_append x input : forall buffer line rest,
  NextLine_from buffer input = Some (line, rest) ->
  NextLine_from buffer (input +:+ x) = Some (line, rest +:+ x).
Proof.
  enough (H : forall n input, (String.length input <= n)%nat -> forall buffer line rest,
    NextLine_from buffer input = Some (line, rest) ->
    NextLine_from buffer (input +:+ x) = Some (line, rest +:+ x))
    by (intros; by apply (H (String.length input) input)).
  clear. induction n as [|n IH]; intros input Hn buffer line rest H.
  { by destruct input; cbn in Hn; [|lia]. }
  destruct input as [|c input']; [done|]. cbn in Hn, H |- *.
  destruct (Ascii.eqb c CR); [|by apply IH; [lia|]].
  destruct input' as [|b input'']; [done|]. cbn in Hn |- *. destruct (Ascii.eqb b LF).
  - by injection H as <- <-.
  - apply IH; [lia|done].
Qed.

Lemma NextLine_append x input line rest :
  NextLine input = Some (line, rest) -> NextLine (input +:+ x) = Some (line, rest +:+ x).
Proof. apply NextLine_from_append. Qed.

Lemma str_take_le n s x : (n <= String.length s)%nat -> str_take n (s +:+ x) = str_take n s.
Proof.
  revert s. induction n as [|n IH]; intros [|c s] Hn; cbn in *; try lia; [by destruct x|done|].
  by rewrite IH by lia.
Qed.

Lemma str_drop_le n s x : (n <= String.length s)%nat -> str_drop n (s +:+ x) = str_drop n s +:+ x.
Proof.
  revert s. induction n as [|n IH]; intros [|c s] Hn; cbn in *; try lia; [by destruct x|done|].
  by rewrite IH by lia.
Qed.

Lemma NextChunk_append x n input c rest :
  NextChunk n input = Ok (Some (c, rest)) -> NextChunk n (input +:+ x) = Ok (Some (c, rest +:+ x)).
Proof.
  unfold NextChunk. destruct (n <? 0)%Z; [done|].
  destruct (Nat.leb_spec (Z.to_nat n) (String.length input)); [|done]. intros [= <- <-].
  rewrite (proj2 (Nat.leb_le _ _)) by (rewrite slength_app; lia).
  by rewrite str_take_le, str_drop_le.
Qed.

Section Segments.

Variable uuid : nat -> string.
#[local] Abbreviation step := (parse_step uuid).
#[local] Abbreviation runs := (run uuid).

(** More input behind does not change a step that was possible. *)
Lemma step_extend p p' os x :
  step p = Ok (Some (p', os)) -> step (extend p x) = Ok (Some (extend p' x, os)).
Proof.
  unfold parse_step. cbn [extend at_point input drawn bodyLengths streamed headerParsers stopped].
  destruct (at_point p) as [|line|msg buf hdrs|msg].
  - destruct (NextLine (input p)) as [[l r]|] eqn:E; [|done]. rewrite (NextLine_append x _ _ _ E).
    by destruct (start_message uuid (drawn p) l); [| |done]; intros [= <- <-].
  - destruct (bodyLengths p) as [|[bl len] q]; [done|]. intros H.
    apply bind_ok in H as ([[c r]|] & Hc & H); [|done]. injection H as <- <-.
    by rewrite (NextChunk_append x _ _ _ _ Hc).
  - destruct (NextLine (input p)) as [[l r]|] eqn:E; [|done]. rewrite (NextLine_append x _ _ _ E).
    intros H. apply bind_ok in H as (pt & Hpt & H). injection H as <- <-.
    change (header_line (extend p x) msg buf hdrs l) with (header_line p msg buf hdrs l).
    by rewrite Hpt.
  - intros H. apply bind_ok in H as (bl & Hbl & H).
    change (body_length (extend p x) msg) with (body_length p msg). rewrite Hbl. cbn [mbind res_bind].
    destruct bl as [[[n|e] q]|]; [| |done].
    + apply bind_ok in H as ([[c r]|] & Hc & H); [|done].
      rewrite (NextChunk_append x _ _ _ _ Hc). cbn [mbind res_bind].
      apply bind_ok in H as (m & Hm & H). rewrite Hm. by injection H as <- <-.
    + by injection H as <- <-.
Qed.

(** Runs of a given number of steps. *)
Inductive nsteps : nat -> parser -> list outcome -> parser -> Prop :=
  | nsteps_refl p : nsteps 0 p [] p
  | nsteps_step n p os p1 os1 p2 :
      step p = Ok (Some (p1, os)) -> nsteps n p1 os1 p2 -> nsteps (S n) p (os ++ os1) p2.

Lemma nsteps_trans n p os p1 m os1 p2 :
  nsteps n p os p1 -> nsteps m p1 os1 p2 -> nsteps (n + m) p (os ++ os1) p2.
Proof.
  induction 1; cbn; [done|]. intros. rewrite <- app_assoc. econstructor; eauto.
Qed.

Lemma nsteps_extend n p os p' x : nsteps n p os p' -> nsteps n (extend p x) os (extend p' x).
Proof. induction 1; econstructor; eauto using step_extend. Qed.

Lemma nsteps_measure n p os p' : nsteps n p os p' -> (n + measure p' <= measure p)%nat.
Proof. induction 1 as [|n p os p1 os1 p2 Hs _ IH]; [lia|]. apply step_measure in Hs. lia. Qed.

Lemma run_nsteps fuel : forall p p' os, runs fuel p = Ok (p', os) -> exists n, nsteps n p os p'.
Proof.
  induction fuel as [|fuel IH]; intros p p' os; cbn.
  - intros [= <- <-]. exists 0%nat. constructor.
  - destruct (step p) as [[[p1 os1]|]| |] eqn:E; cbn; try done.
    + destruct (runs fuel p1) as [[p2 os2]| |] eqn:Er; cbn; try done. intros [= <- <-].
      destruct (IH _ _ _ Er) as (n & Hn). exists (S n). by econstructor.
    + intros [= <- <-]. exists 0%nat. constructor.
Qed.

Lemma nsteps_run n p os p' : nsteps n p os p' -> step p' = Ok None ->
  forall fuel, (n <= fuel)%nat -> runs fuel p = Ok (p', os).
Proof.
  induction 1 as [p|n p os p1 os1 p2 Hs _ IH]; intros Hb fuel Hf.
  - destruct fuel; [done|]. cbn. by rewrite Hb.
  - destruct fuel as [|fuel]; [lia|]. cbn. rewrite Hs. cbn. rewrite IH by (done || lia). done.
Qed.

(** The parser after it has used all it can. *)
Definition drain (p : parser) : res (parser * list outcome) := runs (S (measure p)) p.

Lemma drain_blocked p p' os : drain p = Ok (p', os) -> step p' = Ok None.
Proof.
  intros H. destruct (run_terminates uuid (S (measure p)) p) as [(k & Hk)|(p1 & os1 & Hr & Hs)].
  - lia.
  - unfold drain in H. congruence.
  - unfold drain in H. congruence.
Qed.

Lemma drain_segments p x p1 os1 p2 os2 :
  drain p = Ok (p1, os1) -> drain (extend p1 x) = Ok (p2, os2) ->
  drain (extend p x) = Ok (p2, os1 ++ os2).
Proof.
  intros H1 H2. pose proof (drain_blocked _ _ _ H2) as Hb.
  apply run_nsteps in H1 as (n1 & H1), H2 as (n2 & H2).
  pose proof (nsteps_trans _ _ _ _ _ _ _ (nsteps_extend _ _ _ _ x H1) H2) as H.
  eapply nsteps_run; [exact H|done|]. apply nsteps_measure in H. lia.
Qed.

End Segments.
