(* ===== verification/ParserBuffer.v ===== *)
(** * The parser buffer over its buffered reader (sip/parserbuffer.go)

    Parser.v reads lines and chunks from all the bytes that were written.  In the code
    they come through a pipe, from which a [bufio.Reader] fetches as much as its buffer
    has room for, and only when it needs more: a [Write] on the pipe returns when all of
    its bytes were fetched.  Here [NextLine] and [NextChunk] are written over that reader,
    and shown to return what those of Parser.v return. *)

From S2P Require Import Prelude GoStrings Params Base Uri Header Headers Auth HeaderParse.
From S2P Require Import HeaderRoundTrip Message Parser.
From Stdlib Require Import NArith ZArith Lia.

#[local] Open Scope string_scope.
#[local] Open Scope list_scope.

Lemma str_take_add s t n : str_take (String.length s + n) (s +:+ t) = s +:+ str_take n t.
Proof. induction s as [|c s IH]; [done|]. cbn. by rewrite IH. Qed.

Lemma str_drop_add s t n : str_drop (String.length s + n) (s +:+ t) = str_drop n t.
Proof. by induction s as [|c s IH]. Qed.

Lemma str_take_prefix s t n : (n <= String.length s)%nat -> str_take n (s +:+ t) = str_take n s.
Proof.
  revert n. induction s as [|c s IH]; intros [|n] Hn; cbn in *; try done; try lia.
  by rewrite IH by lia.
Qed.

(** ** The reader *)

(** [buffered]: what the reader holds; [unread]: the rest of the write in progress. *)
Record parserBuffer := mkBuffer { buffered : string; unread : string }.

Definition newParserBuffer : parserBuffer := mkBuffer "" "".

(** A write begins: its bytes wait in the pipe. *)
Definition begin_Write (b : parserBuffer) (data : string) : parserBuffer := mkBuffer (buffered b) (unread b +:+ data).

(** All bytes that were written and not returned. *)
Definition contents (b : parserBuffer) : string := buffered b +:+ unread b.

(** The text up to a CR and with it, and the rest. *)
Fixpoint cut_CR (s : string) : option (string * string) :=
  match s with
  | "" => None
  | String c s =>
      if Ascii.eqb c CR then Some (String c "", s)
      else '(l, r) ← cut_CR s; Some (String c l, r)
  end.

Section Reader.

(** The size of the reader's buffer ([bufio.NewReader] makes one of 4096 bytes). *)
Variable size : nat.

(** [fill]: one read of the pipe into the room that is left. *)
Definition fill (b : parserBuffer) : parserBuffer :=
  let n := (size - String.length (buffered b))%nat in
  mkBuffer (buffered b +:+ str_take n (unread b)) (str_drop n (unread b)).

(** [ReadString('\r')]: a full buffer without the byte is put aside.  [None]: it waits. *)
Fixpoint ReadString (fuel : nat) (full : string) (b : parserBuffer) : option (string * parserBuffer) :=
  match cut_CR (buffered b) with
  | Some (l, r) => Some (full +:+ l, mkBuffer r (unread b))
  | None =>
      match fuel with
      | O => None
      | S fuel =>
          if (size <=? String.length (buffered b))%nat
          then ReadString fuel (full +:+ buffered b) (mkBuffer "" (unread b))
          else if String.eqb (unread b) "" then None
          else ReadString fuel full (fill b)
      end
  end.

(** [ReadByte]: fetches only into an empty buffer. *)
Definition ReadByte (b : parserBuffer) : option (ascii * parserBuffer) :=
  let b := if String.eqb (buffered b) "" then fill b else b in
  match buffered b with
  | "" => None
  | String c r => Some (c, mkBuffer r (unread b))
  end.

(** [Read] into [n] bytes: what the buffer has; a long read with an empty buffer goes to
    the pipe directly. *)
Definition Read (n : nat) (b : parserBuffer) : option (string * parserBuffer) :=
  if String.eqb (buffered b) "" then
    if String.eqb (unread b) "" then None
    else if (size <=? n)%nat then Some (str_take n (unread b), mkBuffer "" (str_drop n (unread b)))
    else let b := fill b in Some (str_take n (buffered b), mkBuffer (str_drop n (buffered b)) (unread b))
  else Some (str_take n (buffered b), mkBuffer (str_drop n (buffered b)) (unread b)).

(** ** Lines and chunks *)

(** Enough for every loop here: each turn fetches or returns bytes. *)
Definition turns (b : parserBuffer) : nat := S (S (2 * String.length (contents b))).

Fixpoint next_line (fuel : nat) (line : string) (b : parserBuffer) : option (string * parserBuffer) :=
  match fuel with
  | O => None
  | S fuel =>
      '(data, b) ← ReadString (turns b) "" b;
      '(c, b) ← ReadByte b;
      let line := line +:+ data +:+ String c "" in
      if Ascii.eqb c LF then Some (str_take (String.length line - 2) line, b)
      else next_line fuel line b
  end.

Definition NextLine (b : parserBuffer) : option (string * parserBuffer) := next_line (turns b) "" b.

Fixpoint next_chunk (fuel n : nat) (data : string) (b : parserBuffer) : option (string * parserBuffer) :=
  match n with
  | O => Some (data, b)
  | _ =>
      match fuel with
      | O => None
      | S fuel =>
          '(read, b) ← Read n b;
          next_chunk fuel (n - String.length read) (data +:+ read) b
      end
  end.

Definition NextChunk (n : Z) (b : parserBuffer) : res (option (string * parserBuffer)) :=
  if (n <? 0)%Z then Panic SliceOutOfRange else mret (next_chunk (turns b) (Z.to_nat n) "" b).

(** ** What they return *)

Hypothesis size_pos : (0 < size)%nat.

Lemma contents_fill b : contents (fill b) = contents b.
Proof. unfold contents, fill. cbn. by rewrite sapp_assoc, str_take_drop. Qed.

Lemma cut_CR_app s t : match cut_CR s with
  | Some (l, r) => s = l +:+ r /\ cut_CR (s +:+ t) = Some (l, r +:+ t) /\ l <> ""
  | None => no_CR s = true
  end.
Proof.
  induction s as [|c s IH]; [done|]. cbn [cut_CR String.append]. unfold no_CR in *. cbn [sforall].
  destruct (Ascii.eqb c CR); [done|]. destruct (cut_CR s) as [[l r]|]; [|by rewrite IH].
  destruct IH as (-> & E & _). cbn. rewrite E. by split.
Qed.

Lemma cut_CR_none s t : no_CR s = true -> cut_CR (s +:+ t) = '(l, r) ← cut_CR t; Some (s +:+ l, r).
Proof.
  unfold no_CR. induction s as [|c s IH]; cbn [sforall String.append cut_CR]; intros H.
  - by destruct (cut_CR t) as [[l r]|].
  - destruct (Ascii.eqb c CR); [done|]. cbn in H. rewrite IH by done. by destruct (cut_CR t) as [[l r]|].
Qed.

(** What a call that returns leaves, and that one that waits has fetched all. *)
Definition returns {A} (r : option (A * parserBuffer)) (spec : option (A * string)) : Prop :=
  match r, spec with
  | Some (x, b), Some (y, rest) => x = y /\ contents b = rest
  | None, None => True
  | _, _ => False
  end.

Lemma ReadString_spec fuel : forall full b,
  (2 * String.length (unread b) + (if size <=? String.length (buffered b) then 1 else 0) < fuel)%nat ->
  returns (ReadString fuel full b) ('(l, r) ← cut_CR (contents b); Some (full +:+ l, r)).
Proof.
  induction fuel as [|fuel IH]; intros full b Hf; [lia|]. cbn [ReadString].
  pose proof (cut_CR_app (buffered b) (unread b)) as Hc. unfold contents.
  destruct (cut_CR (buffered b)) as [[l r]|].
  { destruct Hc as (_ & -> & _). by split. }
  rewrite cut_CR_none by exact Hc.
  revert Hf. destruct (size <=? String.length (buffered b))%nat eqn:El; intros Hf.
  - specialize (IH (full +:+ buffered b) (mkBuffer "" (unread b))). cbn [buffered unread] in IH.
    unfold contents in IH. cbn [buffered unread String.append] in IH.
    destruct (cut_CR (unread b)) as [[l r]|]; cbn in *; rewrite ?sapp_assoc in IH; apply IH;
      cbn [String.length]; rewrite (proj2 (Nat.leb_gt size 0) size_pos); lia.
  - apply Nat.leb_gt in El. destruct (String.eqb_spec (unread b) "") as [->|Hu]; [done|].
    specialize (IH full (fill b)). rewrite contents_fill in IH. unfold contents in IH.
    rewrite cut_CR_none in IH by exact Hc.
    assert (Hlen : (2 * String.length (unread (fill b)) + 1 < fuel)%nat).
    { cbn [fill unread]. rewrite slength_drop. destruct (unread b); [done|]. cbn [String.length] in *. lia. }
    destruct (cut_CR (unread b)) as [[l r]|]; apply IH; destruct (_ <=? _)%nat; lia.
Qed.

Lemma ReadByte_spec b :
  returns (ReadByte b) (match contents b with "" => None | String c r => Some (c, r) end).
Proof.
  unfold ReadByte, contents. destruct (buffered b) as [|c r] eqn:Eb; cbn [String.append].
  - change (String.eqb "" "") with true. cbv iota. cbn [fill buffered unread]. rewrite Eb.
    cbn [String.length String.append]. rewrite Nat.sub_0_r. destruct size as [|n]; [lia|].
    destruct (unread b) as [|c r]; cbn; [done|]. split; [done|]. apply str_take_drop.
  - change (String.eqb (String c r) "") with false. cbv iota. rewrite Eb. by split.
Qed.

Lemma Read_spec n b : (0 < n)%nat ->
  match Read n b with
  | None => contents b = ""
  | Some (d, b') => contents b = d +:+ contents b' /\ (0 < String.length d <= n)%nat
  end.
Proof.
  intros Hn. unfold Read, contents. destruct (buffered b) as [|c r] eqn:Eb.
  - change (String.eqb "" "") with true. cbv iota. destruct (unread b) as [|c r] eqn:Eu; [done|].
    change (String.eqb (String c r) "") with false. cbv iota.
    destruct (size <=? n)%nat; cbn [buffered unread fill]; rewrite ?Eb, ?Eu; cbn [String.append]; cbn [String.length];
      rewrite ?Nat.sub_0_r.
    + split; [by rewrite str_take_drop|]. rewrite slength_take. cbn [String.length]. lia.
    + split; [by rewrite <- sapp_assoc, !str_take_drop|]. rewrite !slength_take. cbn [String.length]. lia.
  - change (String.eqb (String c r) "") with false. cbv iota. cbn [buffered unread].
    split; [by rewrite <- sapp_assoc, str_take_drop|].
    rewrite slength_take. cbn [String.length]. lia.
Qed.

Lemma contents_length b : String.length (contents b) = (String.length (buffered b) + String.length (unread b))%nat.
Proof. apply slength_app. Qed.

Lemma ReadString_turns b : returns (ReadString (turns b) "" b) (cut_CR (contents b)).
Proof.
  pose proof (ReadString_spec (turns b) "" b) as H. destruct (cut_CR (contents b)) as [[l r]|]; apply H;
    unfold turns; rewrite contents_length; destruct (_ <=? _)%nat; lia.
Qed.

(** The line of Parser.v from the parts that the reader gives. *)
Lemma NextLine_from_cut s : forall line,
  NextLine_from line s
  = '(data, s) ← cut_CR s;
    match s with
    | "" => None
    | String c s => if Ascii.eqb c LF then Some (line +:+ str_take (String.length data - 1) data, s)
                    else NextLine_from (line +:+ data +:+ String c "") s
    end.
Proof.
  induction s as [|c s IH]; intros line; [done|]. cbn [NextLine_from cut_CR].
  destruct (Ascii.eqb_spec c CR) as [->|Hc].
  - cbn. destruct s as [|d s]; [done|]. by destruct (Ascii.eqb d LF); rewrite ?sapp_nil_r.
  - rewrite IH. pose proof (cut_CR_app s "") as Hl. destruct (cut_CR s) as [[data r]|]; [|done]. cbn.
    destruct Hl as (_ & _ & Hl). destruct r as [|d r]; [done|].
    cbn. rewrite !sapp_assoc. destruct (d =? "010")%char; [|done].
    destruct data as [|a data]; [done|]. cbn [String.length]. by rewrite Nat.sub_succ, !Nat.sub_0_r.
Qed.

Lemma next_line_spec fuel : forall line b,
  (String.length (contents b) < fuel)%nat -> returns (next_line fuel line b) (NextLine_from line (contents b)).
Proof.
  induction fuel as [|fuel IH]; intros line b Hf; [lia|]. cbn [next_line]. rewrite NextLine_from_cut.
  pose proof (ReadString_turns b) as H1. pose proof (cut_CR_app (contents b) "") as Hl.
  destruct (ReadString (turns b) "" b) as [[data b1]|]; destruct (cut_CR (contents b)) as [[data' r]|]; cbn [returns] in H1; try done.
  destruct H1 as [-> E1]. cbn [mbind option_bind]. pose proof (ReadByte_spec b1) as H2. rewrite E1 in H2.
  destruct (ReadByte b1) as [[c b2]|]; destruct r as [|c' r]; cbn [returns] in H2; try done.
  destruct H2 as [-> E2]. cbn. destruct Hl as (Ec & _ & Hne). destruct (c' =? "010")%char.
  - split; [|done]. rewrite !slength_app. cbn [String.length].
    destruct data' as [|a data']; [done|]. cbn [String.length]. clear.
    set (d := String a data').
    replace (String.length line + (S (String.length data') + 1) - 2)%nat
      with (String.length line + (S (String.length data') - 1))%nat by lia.
    rewrite str_take_add. f_equal. apply str_take_prefix. cbn. lia.
  - rewrite <- E2. apply IH. rewrite E2. rewrite Ec in Hf. rewrite slength_app in Hf. cbn in Hf. lia.
Qed.

(** [NextLine] over the reader returns the line of all that was written. *)
Lemma NextLine_spec b : returns (NextLine b) (Parser.NextLine (contents b)).
Proof. apply next_line_spec. unfold turns. lia. Qed.

Lemma next_chunk_spec fuel : forall n data b,
  (String.length (contents b) < fuel)%nat ->
  returns (next_chunk fuel n data b)
    (if (n <=? String.length (contents b))%nat
     then Some (data +:+ str_take n (contents b), str_drop n (contents b)) else None).
Proof.
  induction fuel as [|fuel IH]; intros n data b Hf; [lia|]. cbn [next_chunk]. destruct n as [|n].
  { cbn [Nat.leb]. split; [|by destruct (contents b)]. by destruct (contents b); cbn; rewrite sapp_nil_r. }
  pose proof (Read_spec (S n) b ltac:(lia)) as H. destruct (Read (S n) b) as [[d b1]|].
  2:{ rewrite H. done. }
  destruct H as (Hc & Hd). cbn [mbind option_bind].
  assert (Hk : exists k, S n = (String.length d + k)%nat) by (exists (S n - String.length d)%nat; lia).
  destruct Hk as [k Hk]. rewrite Hk. replace (String.length d + k - String.length d)%nat with k by lia.
  rewrite Hc, slength_app in Hf. specialize (IH k (data +:+ d) b1 ltac:(lia)).
  rewrite Hc, slength_app.
  rewrite str_take_add, str_drop_add. rewrite sapp_assoc in IH.
  destruct (k <=? String.length (contents b1))%nat eqn:E.
  - apply Nat.leb_le in E. by rewrite (proj2 (Nat.leb_le _ _)) by lia.
  - apply Nat.leb_gt in E. by rewrite (proj2 (Nat.leb_gt _ _)) by lia.
Qed.

Lemma NextChunk_spec n b :
  match NextChunk n b, Parser.NextChunk n (contents b) with
  | Ok r, Ok s => returns r s
  | Panic k, Panic k' => k = k'
  | _, _ => False
  end.
Proof.
  unfold NextChunk, Parser.NextChunk. destruct (n <? 0)%Z; [done|]. cbn [mret res_ret].
  pose proof (next_chunk_spec (turns b) (Z.to_nat n) "" b ltac:(unfold turns; lia)) as H.
  by destruct (_ <=? _)%nat.
Qed.

(** ** What stays in the pipe *)

Lemma fill_unread b : unread b = "" -> unread (fill b) = "".
Proof. intros Hb. cbn. rewrite Hb. by destruct (size - _)%nat. Qed.

Lemma ReadString_unread fuel : forall full b l b',
  ReadString fuel full b = Some (l, b') -> unread b = "" -> unread b' = "".
Proof.
  induction fuel as [|fuel IH]; intros full b l b'; cbn [ReadString];
    (destruct (cut_CR (buffered b)) as [[l0 r0]|]; [by intros [= <- <-]|]); [done|].
  destruct (size <=? _)%nat; [intros H Hb; by eapply IH in H|]. destruct (String.eqb _ _); [done|].
  intros H Hb. eapply IH; [exact H|]. by apply fill_unread.
Qed.

Lemma ReadByte_unread b c b' : ReadByte b = Some (c, b') -> unread b = "" -> unread b' = "".
Proof.
  unfold ReadByte. intros H Hb. assert (Hu : unread (if String.eqb (buffered b) "" then fill b else b) = "")
    by (destruct (String.eqb _ _); [by apply fill_unread|done]).
  destruct (buffered (if _ : bool then _ else _)) as [|x r]; [done|]. by injection H as <- <-.
Qed.

Lemma Read_unread n b d b' : Read n b = Some (d, b') -> unread b = "" -> unread b' = "".
Proof.
  unfold Read. intros H Hb. rewrite Hb in H. cbn in H.
  destruct (String.eqb (buffered b) ""); [done|]. injection H as <- <-. done.
Qed.

Lemma next_line_unread fuel : forall line b l b',
  next_line fuel line b = Some (l, b') -> unread b = "" -> unread b' = "".
Proof.
  induction fuel as [|fuel IH]; intros line b l b'; cbn [next_line]; [done|]. intros H Hb.
  destruct (ReadString _ _ b) as [[data b1]|] eqn:E1; [|done]. cbn [mbind option_bind] in H.
  apply ReadString_unread in E1; [|done].
  destruct (ReadByte b1) as [[c b2]|] eqn:E2; [|done]. cbn [mbind option_bind] in H.
  apply ReadByte_unread in E2; [|done]. destruct (Ascii.eqb c LF); [by injection H as <- <-|by eapply IH].
Qed.

Lemma next_chunk_unread fuel : forall n data b l b',
  next_chunk fuel n data b = Some (l, b') -> unread b = "" -> unread b' = "".
Proof.
  induction fuel as [|fuel IH]; intros n data b l b'; destruct n; cbn [next_chunk]; try done; try (by intros [= <- <-]).
  intros H Hb. destruct (Read _ b) as [[d b1]|] eqn:E; [|done]. cbn [mbind option_bind] in H.
  apply Read_unread in E; [|done]. by eapply IH.
Qed.

(** A first line is fetched with everything, when everything has room. *)
Lemma NextLine_fetches_all b l b' :
  buffered b = "" -> (String.length (unread b) <= size)%nat -> NextLine b = Some (l, b') -> unread b' = "".
Proof.
  intros Hb Hu. unfold NextLine, turns. remember (S (2 * String.length (contents b)))%nat as fuel eqn:Ef. clear Ef.
  cbn [next_line]. intros H. destruct (ReadString _ _ b) as [[data b1]|] eqn:E1; [|done]. cbn [mbind option_bind] in H.
  assert (H1 : unread b1 = "").
  { unfold turns in E1. revert E1. generalize (S (2 * String.length (contents b)))%nat. intros k E1.
    cbn [ReadString] in E1. rewrite Hb in E1. cbn [cut_CR String.length] in E1. rewrite (proj2 (Nat.leb_gt size 0) size_pos) in E1.
    destruct (String.eqb_spec (unread b) ""); [done|]. eapply ReadString_unread in E1; [done|]. cbn [fill unread]. rewrite Hb. cbn [String.length].
    assert (Hl : String.length (str_drop (size - 0) (unread b)) = O) by (rewrite slength_drop; lia).
    by destruct (str_drop (size - 0) (unread b)). }
  destruct (ReadByte b1) as [[c b2]|] eqn:E2; [|done]. cbn [mbind option_bind] in H.
  apply ReadByte_unread in E2; [|done]. destruct (Ascii.eqb c LF); [by injection H as <- <-|].
  by eapply next_line_unread in H.
Qed.

Lemma ReadByte_buffered c r u : ReadByte (mkBuffer (String c r) u) = Some (c, mkBuffer r u).
Proof. done. Qed.

(** A line that the buffer can hold leaves in the pipe what the buffer cannot. *)
Lemma NextLine_leaves b line rest :
  buffered b = "" -> no_CR line = true -> unread b = line +:+ CRLF +:+ rest ->
  (String.length line + 2 <= size < String.length (unread b))%nat ->
  exists b', NextLine b = Some (line, b') /\ unread b' <> "".
Proof.
  intros Hb Hl Hu Hn.
  assert (Hfill : exists t, buffered (fill b) = line +:+ CRLF +:+ t /\ unread (fill b) <> "").
  { exists (str_take (size - (String.length line + 2)) rest). cbn [fill buffered unread]. rewrite Hb.
    cbn [String.length String.append]. split.
    - rewrite Hu. replace (size - 0)%nat with (String.length line + (2 + (size - (String.length line + 2))))%nat by lia.
      rewrite str_take_add. done.
    - intros E. apply (f_equal String.length) in E. rewrite slength_drop in E. cbn in E. lia. }
  destruct Hfill as (t & Ht & Hne).
  assert (Hne0 : unread b <> "") by (rewrite Hu; by destruct line).
  exists (mkBuffer t (unread (fill b))). split; [|done].
  unfold NextLine. change (turns b) with (S (S (2 * String.length (contents b)))) at 1. cbn [next_line].
  assert (Hr : ReadString (turns b) "" b = Some (line +:+ String CR "", mkBuffer (String LF t) (unread (fill b)))).
  { unfold turns. cbn [ReadString]. rewrite Hb. cbn [cut_CR String.length].
    rewrite (proj2 (Nat.leb_gt size 0) size_pos). destruct (String.eqb_spec (unread b) ""); [done|].
    unfold CRLF in Ht. change (line +:+ String CR (String LF "") +:+ t) with (line +:+ String CR (String LF t)) in Ht.
    rewrite Ht, cut_CR_none by done. reflexivity. }
  rewrite Hr. cbn [mbind option_bind]. rewrite ReadByte_buffered. cbn [mbind option_bind].
  change (Ascii.eqb LF LF) with true. cbv iota.
  f_equal. f_equal. rewrite sapp_nil_l, sapp_assoc. cbn [String.append]. rewrite slength_app. cbn [String.length].
  by rewrite Nat.add_sub, str_take_app.
Qed.

End Reader.
