(* ===== verification/MessageRoundTrip.v ===== *)
(** * The parser on whole messages

    What the parser of sip/parser.go makes of rendered messages, of datagrams and of a
    segmented stream; when it can panic; that it always comes to rest. *)

From S2P Require Import Prelude GoStrings Params Base Uri Header Headers Auth HeaderParse.
From S2P Require Import HeaderRoundTrip Message Parser.
From Stdlib Require Import NArith ZArith Lia.

#[local] Open Scope string_scope.
#[local] Open Scope list_scope.

(** ** Header lines of a rendered message *)

(** A header whose rendering is one physical line. *)
Definition one_line (h : Header) : Prop :=
  match Header_String h with
  | Ok text => no_CR text = true /\ match text with "" => False | String c _ => is_abnf_ws c = false end
  | _ => False
  end.

(** The header comes back as it was: it is no Authorization, Proxy-Require or Unsupported
    header and no empty list. *)
Definition header_line_wf (h : Header) : Prop := (header_wf h /\ as_read h = h) /\ one_line h.

Lemma logical_lines_plain lines : forall buffer,
  Forall (fun l => match l with "" => False | String c _ => is_abnf_ws c = false end) lines ->
  logical_lines buffer lines = (if String.eqb buffer "" then [] else [buffer]) ++ lines.
Proof.
  induction lines as [|l lines IH]; intros buffer H; cbn [logical_lines]; [by rewrite app_nil_r|].
  inversion H as [|? ? Hl Hls]; subst. destruct l as [|c l]; [done|]. rewrite Hl, IH by done. done.
Qed.

Lemma rendered_lines hs acc :
  Forall header_line_wf hs ->
  exists lines, mapM_res Header_String hs = Ok lines /\ forallb head_line lines = true
    /\ Forall (fun l => match l with "" => False | String c _ => is_abnf_ws c = false end) lines
    /\ collect NewParser_headerParsers acc lines = Ok (acc ++ hs).
Proof.
  intros H. revert acc. induction H as [|h hs [[Hw He] Hl] _ IH]; intros acc.
  - exists []. cbn. by rewrite app_nil_r.
  - destruct (header_round_trip h Hw) as (text & Ht & Hp). rewrite He in Hp. unfold one_line in Hl. rewrite Ht in Hl.
    destruct Hl as [Hcr Hc]. destruct (IH (acc ++ [h])) as (lines & Hm & Hls & Hcs & Hcol).
    exists (text :: lines). cbn [mapM_res forallb]. rewrite Ht, Hm, Hls. cbn [mbind res_bind].
    split; [done|]. split; [|split].
    + unfold head_line. rewrite Hcr. by destruct text.
    + by constructor.
    + unfold collect in *. cbn [foldM_res]. rewrite Hp. cbn [mret res_ret mbind res_bind].
      by rewrite Hcol, <- app_assoc.
Qed.

Section RoundTrip.

Variable uuid : nat -> string.

(** A message whose headers are rendered faithfully. *)
Definition message_wf (m : message) : Prop :=
  headers_ok (msg_headers m) /\ Forall header_line_wf (Headers (msg_headers m)).

Lemma message_String_datagram line m :
  message_wf m ->
  exists lines, message_String line m = Ok (datagram line lines (body m))
    /\ forallb head_line lines = true
    /\ forall msg, msg_headers (msg_of msg) = emptyHeaders ->
       after_headers NewParser_headerParsers msg "" [] lines
       = Ok (with_msg_of msg (with_headers (msg_of msg) (msg_headers m))).
Proof.
  intros [Hok Hw]. destruct (rendered_lines (Headers (msg_headers m)) [] Hw) as (lines & Hm & Hl & Hc & Hcol).
  exists lines. split; [|split; [done|]].
  - unfold message_String. rewrite (headers_String_lines _ _ Hm). cbn [mbind res_bind mret res_ret].
    unfold datagram. cbn [lines_text]. by rewrite !sapp_assoc.
  - intros msg He. unfold after_headers. rewrite logical_lines_plain by done. cbn [app].
    change (String.eqb "" "") with true. cbn [app]. rewrite Hcol. cbn [mbind res_bind app].
    unfold add_headers. rewrite He.
    pose proof (newHeaders_Headers_id (msg_headers m) Hok) as Hn. unfold newHeaders in Hn.
    by rewrite Hn.
Qed.

(** The body that the parser stores. *)
Definition kept_body (b : string) : string := if String.eqb (TrimSpace b) "" then "" else b.

(** ** Responses *)

Definition status_line_wf (r : response) : Prop :=
  version_wf (sipVersion (res_msg r)) = true /\ (status r < 2 ^ 16)%N
  /\ no_CR (response_StartLine r) = true /\ isRequest (response_StartLine r) = false.

(** The response as its receiver sees it. *)
Definition received_response (n : nat) (r : response) : response :=
  mkResponse (mkMessage (msg_headers (res_msg r)) (uuid n) (sipVersion (res_msg r))
                (kept_body (body (res_msg r))) "" "")
    (status r) (reason r) [].

Lemma start_message_response n r :
  status_line_wf r ->
  start_message uuid n (response_StartLine r)
  = Ok (MResponse (mkResponse (mkMessage emptyHeaders (uuid n) (sipVersion (res_msg r)) "" "" "")
          (status r) (reason r) [])).
Proof.
  intros (Hv & Hs & _ & Hr). unfold start_message. rewrite Hr. unfold response_StartLine.
  destruct (status_line_text (sipVersion (res_msg r)) (reason r) (status r) Hv Hs) as [-> ->].
  reflexivity.
Qed.

(** ** Requests *)

Definition request_line_wf (r : request) (u : SipUri) : Prop :=
  start_recipient r = Ok (USip (mkSipUri (FIsEncrypted u) (FUser u) (FPassword u) (FDomain u) None None))
  /\ FUriParams u = Some NewParams /\ FHeaders u = Some NewParams
  /\ uri_wf u /\ no_space (SipUri_String u) = true
  /\ no_space (req_method r) = true /\ ToUpper (req_method r) = req_method r
  /\ version_wf (sipVersion (req_msg r)) = true
  /\ no_CR (req_method r +:+ " " +:+ SipUri_String u +:+ " " +:+ sipVersion (req_msg r)) = true.

Definition received_request (n : nat) (r : request) (u : SipUri) : request :=
  mkRequest (mkMessage (msg_headers (req_msg r)) (uuid n) (sipVersion (req_msg r))
               (kept_body (body (req_msg r))) "" (Addr_String (FDomain u)))
    (req_method r) None.

Lemma request_StartLine_text r u :
  request_line_wf r u ->
  exists r', request_StartLine r
    = Ok (req_method r +:+ " " +:+ SipUri_String u +:+ " " +:+ sipVersion (req_msg r), r')
    /\ req_msg r' = req_msg r.
Proof.
  intros (Hs & Hp & Hh & _). unfold request_StartLine. rewrite Hs. cbn [mbind res_bind mret res_ret].
  assert (Hu : forall e us pw d,
    SipUri_String (mkSipUri e us pw d None None) = SipUri_String (mkSipUri e us pw d (Some NewParams) (Some NewParams)))
    by reflexivity.
  destruct u as [e us pw d ps hs]. cbn in Hp, Hh. subst ps hs.
  cbn [Uri_String FIsEncrypted FUser FPassword FDomain]. rewrite Hu. eexists. split; done.
Qed.

Lemma start_message_request n r u :
  request_line_wf r u ->
  start_message uuid n (req_method r +:+ " " +:+ SipUri_String u +:+ " " +:+ sipVersion (req_msg r))
  = Ok (MRequest (mkRequest (mkMessage emptyHeaders (uuid n) (sipVersion (req_msg r)) "" ""
          (Addr_String (FDomain u))) (req_method r) None)).
Proof.
  intros (_ & _ & _ & Hu & Hns & Hm & Hup & Hv & _). unfold start_message.
  destruct (request_line_text (req_method r) (sipVersion (req_msg r)) u Hm Hup Hu Hns Hv) as [-> ->].
  reflexivity.
Qed.

(** ** One message at the front of a stream *)

Lemma run_streamed_message p line lines b rest msg msg' fuel :
  streamed p = true -> at_point p = ReadStart ->
  input p = datagram line lines b +:+ rest ->
  no_CR line = true -> forallb head_line lines = true ->
  start_message uuid (drawn p) line = Ok msg ->
  after_headers (headerParsers p) msg "" [] lines = Ok msg' ->
  GetHeaders (msg_headers (msg_of msg')) "Content-Length" = [HContentLength (N.of_nat (String.length b))] ->
  run uuid (length lines + 3 + fuel) p
  = ('(p', os) ← run uuid fuel (mkParser (headerParsers p) true (stopped p) rest (bodyLengths p)
                                   ReadStart (S (drawn p)));
     mret (p', Output (if String.eqb (TrimSpace b) "" then msg'
                       else with_msg_of msg' (with_body (msg_of msg') b)) :: os)).
Proof.
  intros Hstr Hp Hi Hcr Hl Hstart Hafter Hcl.
  replace (length lines + 3 + fuel)%nat with (S (S (length lines) + S fuel))%nat by lia.
  erewrite run_step.
  2:{ unfold parse_step. rewrite Hp, Hi. unfold datagram. cbn [lines_text]. rewrite !sapp_assoc.
      rewrite NextLine_line by done. by rewrite Hstart. }
  erewrite (run_headers uuid lines (S fuel) _ msg "" [] (b +:+ rest)); [|done|done|done].
  cbn [headerParsers]. rewrite Hafter. cbn [mbind res_bind run]. unfold parse_step at 1, body_length.
  cbn [goto at_point streamed input bodyLengths headerParsers stopped drawn]. rewrite Hstr, Hcl.
  cbn [mbind res_bind mret res_ret]. rewrite nat_N_Z. unfold NextChunk.
  rewrite (proj2 (Z.ltb_ge _ 0)), Nat2Z.id by lia.
  rewrite (proj2 (Nat.leb_le _ _)) by (rewrite slength_app; lia).
  rewrite str_take_app, str_drop_app. cbn [mbind res_bind].
  destruct (String.eqb (TrimSpace b) ""); cbn [negb SetBody mbind res_bind mret res_ret app];
    destruct (run uuid fuel _) as [[? ?]| |]; cbn; try done; by destruct msg' as [[]|[]].
Qed.

End RoundTrip.

(** ** What the parser can panic on *)

(** The headers of the parser's messages under the name "content-length". *)
Definition length_typed (h : Header) : Prop := key_of h = "content-length" -> exists n, h = HContentLength n.

Lemma typed_length_typed h : is_generic h = false -> length_typed h.
Proof.
  intros Hg Hk. destruct h; try discriminate; try (by eauto).
  unfold key_of in Hk. cbn in Hk. unfold Authorization_Name in Hk.
  destruct (String.eqb (auth_name auth) "proxy-authorization"); discriminate Hk.
Qed.

Lemma ParseHeader_length_typed text hs :
  ParseHeader text (Some NewParser_headerParsers) = Ok hs ->
  Forall (fun h => header_ok h /\ length_typed h) hs.
Proof.
  intros H. destruct (ParseHeader_typed text _ hs table_new H) as [Hs|(name & v & -> & Hn)].
  - eapply Forall_impl; [exact Hs|]. intros h [[Ho _] Hg]. split; [done|by apply typed_length_typed].
  - constructor; [|constructor]. split; [done|]. intros Hk. exfalso.
    change (ToLower name = "content-length") in Hk.
    assert (Hn' : NewParser_headerParsers !! "content-length" = None) by (rewrite <- Hk; exact Hn).
    discriminate Hn'.
Qed.

Definition point_ok (pt : point) : Prop :=
  match pt with
  | ReadHeaders msg _ hdrs =>
      msg_headers (msg_of msg) = emptyHeaders /\ Forall (fun h => header_ok h /\ length_typed h) hdrs
  | ReadBody msg =>
      headers_ok (msg_headers (msg_of msg))
      /\ Forall length_typed (GetHeaders (msg_headers (msg_of msg)) "Content-Length")
  | _ => True
  end.

Definition parser_inv (p : parser) : Prop :=
  headerParsers p = NewParser_headerParsers /\ point_ok (at_point p).

Lemma flushBuffer_inv p buf hdrs hdrs' :
  headerParsers p = NewParser_headerParsers ->
  Forall (fun h => header_ok h /\ length_typed h) hdrs -> flushBuffer p buf hdrs = Ok hdrs' ->
  Forall (fun h => header_ok h /\ length_typed h) hdrs'.
Proof.
  intros Hp Hh. unfold flushBuffer. rewrite Hp. destruct (String.eqb buf ""); [by intros [= <-]|].
  destruct (ParseHeader buf (Some NewParser_headerParsers)) as [hs| |] eqn:E; [| |done]; intros [= <-]; [|done].
  apply Forall_app. split; [done|by apply ParseHeader_length_typed in E].
Qed.

(** Adding checked headers to a new message. *)
Lemma add_headers_spec msg hdrs :
  msg_headers (msg_of msg) = emptyHeaders -> Forall (fun h => header_ok h /\ length_typed h) hdrs ->
  exists msg', add_headers msg hdrs = Ok msg' /\ point_ok (ReadBody msg').
Proof.
  intros He Hh. unfold add_headers. rewrite He.
  destruct (newHeaders_built hdrs) as (hs & Hn & Hok & _ & Hent).
  { eapply Forall_impl; [exact Hh|]. by intros h [? _]. }
  unfold newHeaders in Hn. rewrite Hn. cbn [mbind res_bind mret res_ret].
  eexists. split; [reflexivity|].
  assert (Hm : msg_headers (msg_of (with_msg_of msg (with_headers (msg_of msg) hs))) = hs)
    by (by destruct msg). cbn [point_ok]. rewrite Hm. split; [done|].
  rewrite GetHeaders_entry. change (ToLower "Content-Length") with "content-length".
  rewrite Hent. apply Forall_forall. intros h [_ Hin]%list_elem_of_filter.
  rewrite Forall_forall in Hh. by apply Hh.
Qed.

Lemma NewResponse_fresh id v c t : exists r, NewResponse id "" v c t [] "" = Ok r
  /\ msg_headers (res_msg r) = emptyHeaders.
Proof. eexists. split; reflexivity. Qed.

Section Safety.

Variable uuid : nat -> string.

Lemma start_message_fresh n line msg :
  start_message uuid n line = Ok msg -> msg_headers (msg_of msg) = emptyHeaders.
Proof.
  unfold start_message. destruct (isRequest line).
  - intros H. apply bind_ok in H as ([[m u] v] & _ & H). by injection H as <-.
  - destruct (isResponse line); [|done]. intros H. apply bind_ok in H as ([[v c] t] & _ & H).
    destruct (NewResponse_fresh (uuid n) v c t) as (r & Hr & Hh). rewrite Hr in H.
    by injection H as <-.
Qed.

Lemma start_message_no_panic n line : is_panic (start_message uuid n line) = false.
Proof.
  unfold start_message. destruct (isRequest line); [|destruct (isResponse line); [|done]].
  - apply bind_no_panic; [|by intros [[? ?] ?] _]. unfold ParseRequestLine.
    destruct (split_byte SP line) as [|? [|? [|? [|? ?]]]]; try done.
    apply bind_no_panic; [apply ParseUri_total|]. by intros [?|] _.
  - apply bind_no_panic; [|by intros [[? ?] ?] _]. unfold ParseStatusLine.
    destruct (split_byte SP line) as [|? [|? [|? ?]]]; try done.
    by apply bind_no_panic; [apply ParseUint_no_panic|].
Qed.

Lemma header_line_inv p msg buf hdrs line pt :
  parser_inv p -> point_ok (ReadHeaders msg buf hdrs) -> header_line p msg buf hdrs line = Ok pt -> point_ok pt.
Proof.
  intros [Hp _] [Hm Hh]. unfold header_line. destruct line as [|c line].
  - intros H. apply bind_ok in H as (hs & Hhs & H). apply bind_ok in H as (m & Hadd & H). injection H as <-.
    destruct (add_headers_spec msg hs Hm (flushBuffer_inv _ _ _ _ Hp Hh Hhs)) as (m' & Hm' & Hok).
    rewrite Hm' in Hadd. by injection Hadd as <-.
  - destruct (negb (is_abnf_ws c)).
    + intros H. apply bind_ok in H as (hs & Hhs & H). injection H as <-. split; [done|].
      by eapply flushBuffer_inv.
    + destruct (negb _); intros [= <-]; by split.
Qed.

Lemma step_inv p p' os : parser_inv p -> parse_step uuid p = Ok (Some (p', os)) -> parser_inv p'.
Proof.
  intros Hinv. pose proof Hinv as [Hp Hpt]. unfold parse_step.
  destruct (at_point p) as [|line|msg buf hdrs|msg] eqn:Eat.
  - destruct (NextLine (input p)) as [[l r]|]; [|done].
    destruct (start_message uuid (drawn p) l) as [msg| |] eqn:E; [| |done]; intros [= <- <-].
    + split; [done|]. split; [|constructor]. by apply start_message_fresh in E.
    + split; [done|]. cbn. by destruct (streamed p).
  - destruct (bodyLengths p) as [|[bl len] q]; [done|]. intros H.
    apply bind_ok in H as ([[c r]|] & _ & H); [|done]. by injection H as <- <-.
  - destruct (NextLine (input p)) as [[l r]|]; [|done]. intros H.
    apply bind_ok in H as (pt & Hl & H). injection H as <- <-. split; [done|].
    by eapply header_line_inv.
  - intros H. apply bind_ok in H as ([[[n|e] q]|] & _ & H); [| |done].
    + apply bind_ok in H as ([[c r]|] & _ & H); [|done]. apply bind_ok in H as (m & _ & H).
      by injection H as <- <-.
    + by injection H as <- <-.
Qed.

(** The three places where a step can panic. *)
Definition panic_cause (p : parser) : Prop :=
  match at_point p with
  | ReadStart => False
  | SkipRest line =>
      exists bl len q, bodyLengths p = (bl, len) :: q /\ (len < String.length line + 2)%nat
  | ReadHeaders _ buf _ => no_blank_section (field_text buf) = false
  | ReadBody msg => streamed p = true /\ is_panic (Message_String msg) = true
  end.

Lemma flushBuffer_panic p buf hdrs :
  headerParsers p = NewParser_headerParsers -> is_panic (flushBuffer p buf hdrs) = true ->
  no_blank_section (field_text buf) = false.
Proof.
  intros Hp. unfold flushBuffer. rewrite Hp. destruct (String.eqb buf ""); [done|].
  destruct (no_blank_section (field_text buf)) eqn:E; [|done].
  pose proof (ParseHeader_safe buf _ table_new E) as Hs.
  by destruct (ParseHeader buf (Some NewParser_headerParsers)).
Qed.

Lemma NextChunk_no_panic n s : (0 <= n)%Z -> is_panic (NextChunk n s) = false.
Proof. intros Hn. unfold NextChunk. rewrite (proj2 (Z.ltb_ge n 0)) by done. by destruct (_ <=? _)%nat. Qed.

Lemma is_panic_bind {A B} (m : res A) (f : A -> res B) :
  is_panic (m ≫= f) = true -> is_panic m = true \/ exists a, m = Ok a /\ is_panic (f a) = true.
Proof. destruct m; cbn; eauto. Qed.

Lemma body_length_panic p msg :
  point_ok (ReadBody msg) -> is_panic (body_length p msg) = true ->
  streamed p = true /\ is_panic (Message_String msg) = true.
Proof.
  intros [Hok Hl] H. unfold body_length in H.
  destruct (streamed p); [|by destruct (bodyLengths p) as [|[] ?]]. split; [done|].
  destruct (GetHeaders (msg_headers (msg_of msg)) "Content-Length") as [|h [|h' l]] eqn:E.
  - apply is_panic_bind in H as [?|(? & _ & ?)]; done.
  - exfalso. inversion Hl as [|? ? Hh _]; subst. destruct Hh as (n & ->); [|done].
    assert (Hin : h ∈ entry (msg_headers (msg_of msg)) "content-length")
      by (rewrite GetHeaders_entry in E; change (ToLower "Content-Length") with "content-length" in E;
          rewrite E; left).
    by apply (entry_keys _ _ _ Hok Hin).
  - apply is_panic_bind in H as [H|(? & _ & H)]; [exfalso|by apply is_panic_bind in H as [?|(? & _ & ?)]].
    destruct (mapM_String_ok (h :: h' :: l)) as (lines & Hs); [|by rewrite Hs in H].
    intros x Hx. rewrite <- E, GetHeaders_entry in Hx. by apply (entry_keys _ _ _ Hok Hx).
Qed.

Lemma step_panic p : parser_inv p -> is_panic (parse_step uuid p) = true -> panic_cause p.
Proof.
  intros [Hp Hpt]. unfold parse_step, panic_cause. destruct (at_point p) as [|line|msg buf hdrs|msg].
  - destruct (NextLine (input p)) as [[l r]|]; [|done].
    pose proof (start_message_no_panic (drawn p) l) as Hs. by destruct (start_message uuid (drawn p) l).
  - destruct (bodyLengths p) as [|[bl len] q]; [done|]. intros H. exists bl, len, q. split; [done|].
    apply is_panic_bind in H as [H|([[c r]|] & _ & H)]; [|done|done].
    destruct (Z.leb_spec 0 (Z.of_nat len - Z.of_nat (String.length line) - 2)) as [Hz|Hz]; [|lia].
    by rewrite NextChunk_no_panic in H.
  - destruct Hpt as [Hm Hh]. destruct (NextLine (input p)) as [[l r]|]; [|done]. intros H.
    apply is_panic_bind in H as [H|(pt & _ & H)]; [|done]. unfold header_line in H. destruct l as [|c l].
    + apply is_panic_bind in H as [H|(hs & Hhs & H)]; [by apply flushBuffer_panic in H|].
      destruct (add_headers_spec msg hs Hm (flushBuffer_inv _ _ _ _ Hp Hh Hhs)) as (m' & Hm' & _).
      by rewrite Hm' in H.
    + destruct (negb (is_abnf_ws c)); [|by destruct (negb _)].
      apply is_panic_bind in H as [H|(hs & _ & H)]; [by apply flushBuffer_panic in H|done].
  - intros H. apply is_panic_bind in H as [H|([[[n|e] q]|] & _ & H)]; [by apply body_length_panic| |done|done].
    apply is_panic_bind in H as [H|([[c r]|] & _ & H)]; [by rewrite NextChunk_no_panic in H by lia| |done].
    by apply is_panic_bind in H as [H|(? & _ & H)]; [destruct (negb _)|].
Qed.

(** The parsers that the program runs: made by [NewParser], written to, stepped. *)
Inductive reachable : parser -> Prop :=
  | reach_new s : reachable (NewParser s)
  | reach_write p data n p' : reachable p -> Write p data = Ok (n, p') -> reachable p'
  | reach_step p p' os : reachable p -> parse_step uuid p = Ok (Some (p', os)) -> reachable p'.

Lemma reachable_inv p : reachable p -> parser_inv p.
Proof.
  induction 1 as [s|p data n p' _ IH Hw|p p' os _ IH Hs].
  - done.
  - destruct IH as [Hp Hpt]. unfold Write in Hw. destruct (stopped p); [done|].
    destruct (streamed p); [by injection Hw as <- <-|].
    by destruct (getBodyLength data); injection Hw as <- <-.
  - by eapply step_inv.
Qed.

End Safety.

(** ** Messages back to back on a stream *)

Section Stream.

Variable uuid : nat -> string.

Definition exact_length (m : message) : Prop :=
  GetHeaders (msg_headers m) "Content-Length" = [HContentLength (N.of_nat (String.length (body m)))].

(** A message that its sender renders to [text] and its receiver, having drawn [n]
    identifiers, sees as [out]. *)
Definition sends (n : nat) (msg : Message) (text : string) (out : Message) : Prop :=
  message_wf (msg_of msg) /\ exact_length (msg_of msg)
  /\ match msg with
     | MResponse r => status_line_wf r /\ response_String r = Ok text
                      /\ out = MResponse (received_response uuid n r)
     | MRequest r => exists u r', request_line_wf r u /\ request_String r = Ok (text, r')
                     /\ out = MRequest (received_request uuid n r u)
     end.

Inductive sends_all : nat -> list string -> list Message -> Prop :=
  | sends_nil n : sends_all n [] []
  | sends_cons n msg text out texts outs :
      sends n msg text out -> sends_all (S n) texts outs -> sends_all n (text :: texts) (out :: outs).

Lemma with_kept msg m :
  (if String.eqb (TrimSpace m) "" then msg else with_msg_of msg (with_body (msg_of msg) m))
  = with_msg_of msg (if String.eqb (TrimSpace m) "" then msg_of msg else with_body (msg_of msg) m).
Proof. destruct (String.eqb (TrimSpace m) ""); [by destruct msg as [[]|[]]|done]. Qed.

(** The same without the Content-Length header, as a datagram carries it. *)
Definition renders (n : nat) (msg : Message) (text : string) (out : Message) : Prop :=
  message_wf (msg_of msg)
  /\ match msg with
     | MResponse r => status_line_wf r /\ response_String r = Ok text
                      /\ out = MResponse (received_response uuid n r)
     | MRequest r => exists u r', request_line_wf r u /\ request_String r = Ok (text, r')
                     /\ out = MRequest (received_request uuid n r u)
     end.

Lemma sends_renders n msg text out : sends n msg text out -> renders n msg text out.
Proof. intros (Hw & _ & H). by split. Qed.

(** The lines of such a message and what the parser makes of them. *)
Lemma renders_parts n msg text out :
  renders n msg text out ->
  exists line lines msg0 msg',
    no_CR line = true /\ forallb head_line lines = true /\ text = datagram line lines (body (msg_of msg))
    /\ start_message uuid n line = Ok msg0
    /\ after_headers NewParser_headerParsers msg0 "" [] lines = Ok msg'
    /\ msg_headers (msg_of msg') = msg_headers (msg_of msg)
    /\ out = (if String.eqb (TrimSpace (body (msg_of msg))) "" then msg'
              else with_msg_of msg' (with_body (msg_of msg') (body (msg_of msg)))).
Proof.
  intros [Hw Hmsg]. destruct msg as [r|r]; cbn [msg_of] in *.
  - destruct Hmsg as (u & r' & Hl & Ht & ->).
    destruct (request_StartLine_text r u Hl) as (r1 & Hs1 & Hm1).
    unfold request_String in Ht. rewrite Hs1 in Ht. cbn [mbind res_bind] in Ht. rewrite Hm1 in Ht.
    destruct (message_String_datagram
      (req_method r +:+ " " +:+ SipUri_String u +:+ " " +:+ sipVersion (req_msg r)) (req_msg r) Hw)
      as (lines & Hms & Hls & Hafter).
    rewrite Hms in Ht. injection Ht as <- _.
    eexists _, lines, _, _. split; [by apply Hl|]. split; [done|]. split; [done|].
    split; [by apply start_message_request|]. split; [by apply Hafter|]. split; [done|].
    unfold received_request, kept_body. by destruct (String.eqb (TrimSpace (body (req_msg r))) "").
  - destruct Hmsg as (Hl & Ht & ->).
    destruct (message_String_datagram (response_StartLine r) (res_msg r) Hw) as (lines & Hms & Hls & Hafter).
    unfold response_String in Ht. rewrite Hms in Ht. injection Ht as <-.
    eexists _, lines, _, _. split; [by apply Hl|]. split; [done|]. split; [done|].
    split; [by apply start_message_response|]. split; [by apply Hafter|]. split; [done|].
    unfold received_response, kept_body. by destruct (String.eqb (TrimSpace (body (res_msg r))) "").
Qed.

(** One such message at the front of the input is read whole and nothing more. *)
Lemma sends_step n msg text out p rest :
  sends n msg text out ->
  streamed p = true -> at_point p = ReadStart -> drawn p = n ->
  headerParsers p = NewParser_headerParsers -> input p = text +:+ rest ->
  exists k, nsteps uuid k p [Output out]
              (mkParser (headerParsers p) true (stopped p) rest (bodyLengths p) ReadStart (S n)).
Proof.
  intros Hs Hstr Hp <- Hh Hi. assert (Hcl : exact_length (msg_of msg)) by apply Hs.
  destruct (renders_parts _ _ _ _ (sends_renders _ _ _ _ Hs))
    as (line & lines & msg0 & msg' & Hcr & Hl & -> & Hs0 & Ha & Hm & ->).
  unfold exact_length in Hcl. rewrite <- Hm in Hcl. rewrite <- Hh in Ha.
  eapply run_nsteps.
  exact (run_streamed_message uuid p line lines (body (msg_of msg)) rest msg0 msg' 0
           Hstr Hp Hi Hcr Hl Hs0 Ha Hcl).
Qed.

(** One such datagram, written to an idle parser, is read whole. *)
Lemma renders_step n msg text out p :
  renders n msg text out -> idle p -> drawn p = n -> headerParsers p = NewParser_headerParsers ->
  exists p1, Write p text = Ok (String.length text, p1)
    /\ exists k, nsteps uuid k p1 [Output out] (rest_at p (S n)).
Proof.
  intros Hr Hp <- Hh.
  destruct (renders_parts _ _ _ _ Hr) as (line & lines & msg0 & msg' & Hcr & Hl & -> & Hs0 & Ha & _ & ->).
  destruct (run_datagram uuid p line lines (body (msg_of msg)) (length lines + 3) Hp Hcr Hl (le_n _))
    as (p1 & Hw & Hrun).
  exists p1. split; [done|]. unfold parse_datagram, drawn_after in Hrun. rewrite Hs0, Hh, Ha in Hrun.
  eapply run_nsteps. exact Hrun.
Qed.

(** Datagrams one after the other. *)
Inductive renders_all : nat -> list string -> list Message -> Prop :=
  | renders_nil n : renders_all n [] []
  | renders_cons n msg text out texts outs :
      renders n msg text out -> renders_all (S n) texts outs -> renders_all n (text :: texts) (out :: outs).

Lemma sends_all_steps n texts outs :
  sends_all n texts outs -> forall p,
  streamed p = true -> at_point p = ReadStart -> drawn p = n ->
  headerParsers p = NewParser_headerParsers -> input p = join "" texts ->
  exists k, nsteps uuid k p (map Output outs)
              (mkParser (headerParsers p) true (stopped p) "" (bodyLengths p) ReadStart (n + length texts)).
Proof.
  induction 1 as [n|n msg text out texts outs Hs _ IH]; intros p Hstr Hp Hn Hh Hi.
  - exists 0%nat. cbn. rewrite Nat.add_0_r, <- Hn. cbn in Hi. rewrite <- Hi, <- Hstr, <- Hp.
    destruct p; constructor.
  - destruct (sends_step n msg text out p (join "" texts) Hs) as (k & Hk); try done.
    { rewrite Hi. destruct texts; cbn; [by rewrite sapp_nil_r|done]. }
    edestruct IH as (k' & Hk').
    6:{ exists (k + k')%nat. cbn [map length]. rewrite Nat.add_succ_r, <- Nat.add_succ_l.
        exact (nsteps_trans uuid _ _ _ _ _ _ _ Hk Hk'). }
    all: done.
Qed.

End Stream.

Lemma is_ok_some {A} (r : res A) : is_ok r = true -> exists a, r = Ok a.
Proof. destruct r; cbn; [eauto|done|done]. Qed.

(** The state after one step, for the examples. *)
Definition next_state (uuid : nat -> string) (p : parser) : parser :=
  match parse_step uuid p with Ok (Some (p', _)) => p' | _ => p end.

Lemma reachable_next uuid p : reachable uuid p -> reachable uuid (next_state uuid p).
Proof.
  intros H. unfold next_state. destruct (parse_step uuid p) as [[[p' os]|]| |] eqn:E; try done.
  by eapply reach_step.
Qed.

(** ** Properties *)

(** the parser always comes to rest: from any state, after at most twice the
    unread bytes plus two steps, it waits for data (or it has panicked). *)
Theorem parser_terminates (uuid : nat -> string) (p : parser) :
  (exists k, run uuid (S (measure p)) p = Panic k)
  \/ exists p' os, run uuid (S (measure p)) p = Ok (p', os) /\ parse_step uuid p' = Ok None.
Proof. apply run_terminates. lia. Qed.

(** on an idle unstreamed parser a datagram with a clean header section (no CR
    inside a line) is consumed exactly, whatever its start line, headers and body: the
    result is the one outcome that [parse_datagram] computes from its parts, and the
    parser is idle again. *)
Theorem datagram_framing (uuid : nat -> string) (p : parser) (startLine b : string)
    (lines : list string) (fuel : nat) :
  idle p -> no_CR startLine = true -> forallb head_line lines = true -> (length lines + 3 <= fuel)%nat ->
  exists p1, Write p (datagram startLine lines b) = Ok (String.length (datagram startLine lines b), p1)
    /\ exists n, run uuid fuel p1
         = (o ← parse_datagram uuid (headerParsers p) (drawn p) startLine lines b;
            mret (rest_at p n, [o])).
Proof.
  intros Hp Hs Hl Hf. destruct (run_datagram uuid p startLine lines b fuel Hp Hs Hl Hf) as (p1 & Hw & Hr). eauto.
Qed.

Lemma datagram_framing_witness :
  exists p1, Write (NewParser false) (datagram "SIP/2.0 200 OK" ["CSeq: 1 BYE"; " x"] "hi")
             = Ok (37%nat, p1)
    /\ exists n, run (fun _ => "id") 6 p1
         = (o ← parse_datagram (fun _ => "id") NewParser_headerParsers 0 "SIP/2.0 200 OK" ["CSeq: 1 BYE"; " x"] "hi";
            mret (rest_at (NewParser false) n, [o])).
Proof.
  apply (datagram_framing (fun _ => "id") (NewParser false) "SIP/2.0 200 OK" "hi" ["CSeq: 1 BYE"; " x"] 6);
    [repeat split|reflexivity|reflexivity|cbn; lia].
Defined.

(** C24: how a stream is cut into segments does not matter: what the parser outputs
    for a first segment and then for a second is what it outputs for both at once, and
    it ends in the same state. *)
Theorem stream_segmentation (uuid : nat -> string) (p p1 p2 : parser) (segment : string)
    (os1 os2 : list outcome) :
  drain uuid p = Ok (p1, os1) -> drain uuid (extend p1 segment) = Ok (p2, os2) ->
  drain uuid (extend p segment) = Ok (p2, os1 ++ os2).
Proof. apply drain_segments. Qed.

Lemma stream_segmentation_witness :
  exists p2 os, drain (fun _ => "id") (extend (extend (NewParser true) "SIP/2.0 2") ("00 OK" +:+ CRLF))
                = Ok (p2, os).
Proof.
  destruct (is_ok_some (drain (fun _ => "id") (extend (NewParser true) "SIP/2.0 2")))
    as ((p1 & os1) & H1); [vm_compute; reflexivity|].
  assert (H2 : is_ok (match drain (fun _ => "id") (extend (NewParser true) "SIP/2.0 2") with
                      | Ok (q, _) => drain (fun _ => "id") (extend q ("00 OK" +:+ CRLF))
                      | r => r
                      end) = true) by (vm_compute; reflexivity).
  rewrite H1 in H2. destruct (is_ok_some _ H2) as ((p2 & os2) & H3).
  exists p2, (os1 ++ os2).
  apply (stream_segmentation (fun _ => "id") (extend (NewParser true) "SIP/2.0 2") p1 p2 _ os1 os2 H1 H3).
Defined.

(** What a text carries from the message that was rendered to the one that comes out. *)
Definition carried (text : string) (out : Message) : Prop :=
  exists msg, match msg with
    | MResponse r => response_String r = Ok text
    | MRequest r => exists r', request_String r = Ok (text, r')
    end
  /\ msg_headers (msg_of out) = msg_headers (msg_of msg) /\ sipVersion (msg_of out) = sipVersion (msg_of msg)
  /\ body (msg_of out) = (if String.eqb (TrimSpace (body (msg_of msg))) "" then "" else body (msg_of msg))
  /\ match msg, out with
     | MResponse r, MResponse r' => status r' = status r /\ reason r' = reason r
     | MRequest r, MRequest r' =>
         req_method r' = req_method r /\ recipient r' = None
         /\ exists u, start_recipient r = Ok (USip u) /\ dest (req_msg r') = Addr_String (FDomain u)
     | _, _ => False
     end.

Lemma renders_carried uuid n msg text out : renders uuid n msg text out -> carried text out.
Proof.
  intros (_ & Hm). exists msg. destruct msg as [r|r].
  - destruct Hm as (u & r' & Hl & Ht & ->). split; [by eexists|]. split_and!; try done.
    eexists. split; [apply Hl|done].
  - destruct Hm as (_ & Ht & ->). by split_and!.
Qed.


(** A response and a request for the witness. *)
Definition wire_headers (n : N) : headers :=
  match newHeaders [ HVia [sample_hop "10.0.0.1"]; HFrom sample_address; HTo sample_address;
                     HCallID "abc@host"; HCSeq 7 "BYE"; HContentLength n ] with
  | Ok hs => hs
  | _ => emptyHeaders
  end.

Definition wire_uri : SipUri :=
  mkSipUri true (Some (Str "alice")) (Some (Str "secret")) (mkAddr "example.com" (Some 5061%N))
    (Some NewParams) (Some NewParams).

Definition wire_response : response :=
  mkResponse (mkMessage (wire_headers 5) "" SipVersion "hello" "" "") 486%N "Busy Here" [].
Definition wire_request : request :=
  mkRequest (mkMessage (wire_headers 0) "" SipVersion "" "" "") "BYE" None.

Definition wire_list (n : N) : list Header :=
  [ HVia [sample_hop "10.0.0.1"]; HFrom sample_address; HTo sample_address;
    HCallID "abc@host"; HCSeq 7 "BYE"; HContentLength n ].

Lemma wire_list_wf n : (n < 2 ^ 32)%N -> no_CR (itoa n) = true -> Forall header_line_wf (wire_list n).
Proof.
  intros Hn Hcr. assert (Ha : address_wf sample_address) by apply sample_address_wf.
  assert (Hh : Forall hop_wf [sample_hop "10.0.0.1"]) by (pose proof sample_hops_wf as H; by inversion H).
  repeat (apply Forall_cons; split); [..|by apply Forall_nil].
  - split; [split; [by split|done]|split; vm_compute; reflexivity].
  - split; [done|split; vm_compute; reflexivity].
  - split; [done|split; vm_compute; reflexivity].
  - split; [split; [split; [done|split; vm_compute; reflexivity]|done]|split; vm_compute; reflexivity].
  - split; [split; [split; [done|split; [done|split; vm_compute; reflexivity]]|done]|split; vm_compute; reflexivity].
  - split; [done|]. split; [exact Hcr|reflexivity].
Qed.

Lemma wire_headers_wf n b :
  (n < 2 ^ 32)%N -> no_CR (itoa n) = true -> message_wf (mkMessage (wire_headers n) "" SipVersion b "" "").
Proof.
  intros Hn Hcr. unfold message_wf, wire_headers. cbn [msg_headers].
  pose proof (wire_list_wf n Hn Hcr) as Hwf. fold (wire_list n). set (l := wire_list n) in *.
  assert (Hok : Forall header_ok l).
  { destruct sample_address_wf as (_ & (u & Hu & Hwu & _) & ps & Hps & Hp & _).
    assert (Haok : address_ok sample_address).
    { split; [|eauto]. exists (USip u). split; [done|].
      destruct Hwu as (_ & _ & _ & us & hs & E1 & E2 & O1 & O2 & _). split; eauto. }
    assert (Hhop : hop_ok (sample_hop "10.0.0.1")).
    { eexists. split; [reflexivity|]. repeat apply Add_ok. apply NewParams_ok. }
    unfold l, wire_list. repeat (apply Forall_cons; split); try exact I; try exact Haok; try (by apply Forall_nil).
    exact Hhop. }
  destruct (newHeaders_built l Hok) as (hs & -> & Hhs & Ho & He). split; [done|].
  assert (HH : Headers hs = grouped l).
  { rewrite Headers_entry, Ho. unfold grouped. f_equal. apply map_ext, He. }
  rewrite HH. exact Hwf.
Qed.

Definition counted (n : nat) : string := itoa (N.of_nat n).

Definition wire_texts : list string :=
  [match response_String wire_response with Ok s => s | _ => "" end;
   match request_String wire_request with Ok (s, _) => s | _ => "" end].
Definition wire_outs : list Message :=
  [MResponse (received_response counted 0 wire_response);
   MRequest (received_request counted 1 wire_request wire_uri)].

Lemma wire_request_sends n :
  sends counted n (MRequest wire_request) (match request_String wire_request with Ok (s, _) => s | _ => "" end)
    (MRequest (received_request counted n wire_request wire_uri)).
Proof.
  destruct (request_String wire_request) as [[t2 r2]| |] eqn:E2; [|vm_compute in E2; discriminate E2..].
  split; [by apply (wire_headers_wf 0 "")|]. split; [vm_compute; reflexivity|].
  exists wire_uri, r2. split; [|split; [exact E2|reflexivity]].
  split; [vm_compute; reflexivity|]. split; [reflexivity|]. split; [reflexivity|].
  split; [|repeat split; vm_compute; reflexivity].
  do 3 (split; [vm_compute; reflexivity|]). exists NewParams, NewParams.
  split; [reflexivity|]. split; [reflexivity|]. split; [apply NewParams_ok|].
  split; [apply NewParams_ok|]. do 4 (split; [vm_compute; reflexivity|]). left. reflexivity.
Qed.

Lemma wire_sends : sends_all counted 0 wire_texts wire_outs.
Proof.
  unfold wire_texts, wire_outs.
  destruct (response_String wire_response) as [t1| |] eqn:E1; [|vm_compute in E1; discriminate E1..].
  apply (sends_cons _ 0 (MResponse wire_response)); [|apply (sends_cons _ 1 (MRequest wire_request));
    [apply wire_request_sends|constructor]].
  split; [by apply (wire_headers_wf 5 "hello")|]. split; [vm_compute; reflexivity|].
  split; [|split; [exact E1|reflexivity]]. repeat split; vm_compute; reflexivity.
Qed.

Lemma sends_all_renders uuid n texts outs : sends_all uuid n texts outs -> renders_all uuid n texts outs.
Proof. induction 1; econstructor; eauto using sends_renders. Qed.


(** in every reachable state the type assertion on the Content-Length header, the
    header container and the rendering of headers are safe: a step panics only on a
    header line with a blank section, on skipping a datagram shorter than its own first
    line, or when rendering a message without exactly one Content-Length panics. *)
Theorem reachable_panic (uuid : nat -> string) (p : parser) :
  reachable uuid p -> is_panic (parse_step uuid p) = true -> panic_cause p.
Proof. intros H%reachable_inv. by apply step_panic. Qed.

Lemma reachable_panic_witness :
  exists p, reachable (fun _ => "id") p /\ panic_cause p.
Proof.
  set (data := "SIP/2.0 200 OK" +:+ CRLF +:+ "Contact: <sip:a@b>, ,<sip:c@d>" +:+ CRLF +:+ CRLF).
  set (p2 := next_state (fun _ => "id") (next_state (fun _ => "id") (extend (NewParser true) data))).
  assert (Hr : reachable (fun _ => "id") p2).
  { apply reachable_next, reachable_next.
    eapply (reach_write _ (NewParser true) data); [constructor|reflexivity]. }
  exists p2. split; [exact Hr|]. apply (reachable_panic (fun _ => "id") p2 Hr).
  vm_compute. reflexivity.
Defined.

(** A streamed message without Content-Length is reported, and the parser goes on: the
    body it carries is read as the next start line. *)
Example missing_length_goes_on :
  match drain (fun _ => "id") (extend (NewParser true)
          ("SIP/2.0 200 OK" +:+ CRLF +:+ CRLF +:+ "body" +:+ CRLF)) with
  | Ok (_, os) => os = [Errs "missing required 'Content-Length' header";
                        Errs "%s failed to parse first line of message: %s"]
  | _ => False
  end.
Proof. vm_compute. reflexivity. Qed.

(** A lone CR before the end of the header section makes the parser miss it: the two
    datagrams become one message. *)
Example lone_CR_merges_datagrams :
  let d1 := "SIP/2.0 200 OK" +:+ CRLF +:+ "A: 1" +:+ String CR CRLF +:+ CRLF in
  let d2 := "SIP/2.0 486 Busy" +:+ CRLF +:+ CRLF in
  match Write (NewParser false) d1 with
  | Ok (_, p1) =>
      match Write p1 d2 with
      | Ok (_, p2) =>
          match drain (fun _ => "id") p2 with Ok (_, os) => length os = 1%nat | _ => False end
      | _ => False
      end
  | _ => False
  end.
Proof. vm_compute. reflexivity. Qed.
