(* ===== verification/ParserLife.v ===== *)
(** * The life of a parser: its goroutine, [Stop] and [Reset] (sip/parser.go)

    Parser.v has the steps of the parsing goroutine while its input is open.  Here the
    goroutine hands over what it produced, one outcome at a time, sees the end of the
    input when [Stop] has closed the pipe, and ends (or waits for ever on the queue of
    body lengths, whose output channel nobody closes). *)

From S2P Require Import Prelude GoStrings Params Base Uri Header Headers Auth HeaderParse.
From S2P Require Import HeaderRoundTrip Message Parser MessageRoundTrip.
From Stdlib Require Import NArith ZArith Lia.

#[local] Open Scope string_scope.
#[local] Open Scope list_scope.

(** ** The goroutine *)

(** Where the goroutine is: in its loop, behind the last message with the end of the
    input ahead, waiting for a body length that never comes, or behind [close(p.done)]. *)
Inductive goroutine : Set := Parsing | Ending | Hung | Ended.

(** [pending]: what the goroutine still has to send on [output] and [errs]. *)
Record parser_run := mkRun {
  prs : parser;
  pipe_closed : bool;
  pending : list outcome;
  at_parse : goroutine
}.

Definition start_parser (streamed : bool) : parser_run := mkRun (NewParser streamed) false [] Parsing.

(** The parser behind its last read: the pipe is closed and its buffer is empty. *)
Definition behind_end (p : parser) (q : list (nat * nat)) : parser :=
  mkParser (headerParsers p) (streamed p) (stopped p) "" q ReadStart (drawn p).

(** What is sent for a message whose header section is over, when the pipe is closed and
    its buffer is empty; [None]: the goroutine waits for a body length. *)
Definition end_body (p : parser) (msg : Message) : res (option (parser * list outcome)) :=
  l ← body_length p msg;
  match l with
  | None => mret None
  | Some (inr e, q) => mret (Some (behind_end p q, [Errs e]))
  | Some (inl n, q) =>
      if (n =? 0)%N then mret (Some (behind_end p q, [Output msg]))
      else _ ← Message_String msg; mret (Some (behind_end p q, [Errs "read message body failed: %w"]))
  end.

(** What is sent when the read that the goroutine waits for fails.  The headers that
    wait in the line buffer are dropped. *)
Definition end_of_input (p : parser) : res (option (parser * list outcome)) :=
  match at_point p with
  | ReadStart => mret (Some (behind_end p (bodyLengths p), []))
  | SkipRest _ => mret (match bodyLengths p with [] => None | _ :: q => Some (behind_end p q, []) end)
  | ReadHeaders msg _ hdrs => msg ← add_headers msg hdrs; end_body p msg
  | ReadBody msg => end_body p msg
  end.

Section Life.

Variable uuid : nat -> string.

(** A step of the goroutine; [None]: it waits. *)
Definition go_step (r : parser_run) : res (option parser_run) :=
  match at_parse r, pending r with
  | Parsing, [] =>
      s ← parse_step uuid (prs r);
      match s with
      | Some (p', os) => mret (Some (mkRun p' (pipe_closed r) os Parsing))
      | None =>
          if pipe_closed r then
            e ← end_of_input (prs r);
            match e with
            | Some (p', os) => mret (Some (mkRun p' true os Ending))
            | None => mret (Some (mkRun (prs r) true [] Hung))
            end
          else mret None
      end
  | Ending, [] => mret (Some (mkRun (prs r) (pipe_closed r) [] Ended))
  | _, _ => mret None
  end.

(** The receiver of [output] and [errs] takes the next outcome. *)
Definition take_outcome (r : parser_run) : option (outcome * parser_run) :=
  match pending r with
  | [] => None
  | o :: os => Some (o, mkRun (prs r) (pipe_closed r) os (at_parse r))
  end.

End Life.

(** ** The operations of the parser object *)

(** On a parser that is stopped and reset, the queue of body lengths and the pipe are
    still closed. *)
Definition run_Write (r : parser_run) (data : string) : res (nat * parser_run) :=
  if pipe_closed r && negb (stopped (prs r)) then
    if streamed (prs r) then Err "%s write data failed: %s"
    else match getBodyLength data with
         | None => mret (0%nat, r)
         | Some _ => Panic SendOnClosed
         end
  else
    '(n, p') ← Write (prs r) data;
    mret (n, mkRun p' (pipe_closed r) (pending r) (at_parse r)).

(** [Stop] up to the points where it waits. *)
Definition Stop (r : parser_run) : parser_run :=
  let p := prs r in
  mkRun (mkParser (headerParsers p) (streamed p) true (input p) (bodyLengths p) (at_point p) (drawn p))
    true (pending r) (at_parse r).

(** [Reset] of a parser whose goroutine has ended: the fields are as before, but for
    [stopped], and a new goroutine begins. *)
Definition Reset (r : parser_run) : parser_run :=
  let p := prs r in
  mkRun (mkParser (headerParsers p) (streamed p) false (input p) (bodyLengths p) ReadStart (drawn p))
    (pipe_closed r) [] Parsing.

(** ** Writing and parsing commute *)

Lemma body_length_queue p p1 q msg l q' :
  p1 = mkParser (headerParsers p) (streamed p) (stopped p) (input p) (bodyLengths p ++ q) (at_point p1) (drawn p) ->
  body_length p msg = Ok (Some (l, q')) -> body_length p1 msg = Ok (Some (l, q' ++ q)).
Proof.
  intros ->. unfold body_length. cbn [streamed bodyLengths]. destruct (streamed p).
  - destruct (GetHeaders _ _) as [|h [|h' hs]].
    + destruct (Message_String msg); try done. cbn. by intros [= <- <-].
    + destruct h; try done. cbn. by intros [= <- <-].
    + destruct (mapM_res _ _); try done. cbn. destruct (Message_String msg); try done. cbn. by intros [= <- <-].
  - destruct (bodyLengths p) as [|[n' len] l']; [done|]. cbn. by intros [= <- <-].
Qed.

Lemma bodyLengths_head p p' os q uuid :
  parse_step uuid p = Ok (Some (p', os)) ->
  parse_step uuid (mkParser (headerParsers p) (streamed p) (stopped p) (input p) (bodyLengths p ++ q) (at_point p) (drawn p))
  = Ok (Some (mkParser (headerParsers p') (streamed p') (stopped p') (input p') (bodyLengths p' ++ q) (at_point p') (drawn p'), os)).
Proof.
  unfold parse_step. cbn [at_point input drawn bodyLengths streamed headerParsers stopped].
  destruct (at_point p) as [|line|msg buf hdrs|msg].
  - destruct (NextLine (input p)) as [[l r]|]; [|done].
    by destruct (start_message uuid (drawn p) l); [| |done]; intros [= <- <-].
  - destruct (bodyLengths p) as [|[bl len] l]; [done|]. cbn [app]. intros H.
    apply bind_ok in H as ([[c r]|] & Hc & H); [|done]. rewrite Hc. by injection H as <- <-.
  - destruct (NextLine (input p)) as [[l r]|]; [|done].
    intros H. apply bind_ok in H as (pt & Hpt & H). injection H as <- <-.
    match goal with |- context [header_line ?x msg buf hdrs l] =>
      change (header_line x msg buf hdrs l) with (header_line p msg buf hdrs l) end.
    by rewrite Hpt.
  - intros H. apply bind_ok in H as (bl & Hbl & H).
    destruct bl as [[l q']|]; [|done]. rewrite (body_length_queue p _ q msg l q' eq_refl Hbl).
    cbn [mbind res_bind]. destruct l as [n|e].
    + apply bind_ok in H as ([[c r]|] & Hc & H); [|done]. rewrite Hc. cbn [mbind res_bind].
      apply bind_ok in H as (m & Hm & H). rewrite Hm. by injection H as <- <-.
    + by injection H as <- <-.
Qed.

Lemma step_mode uuid p p' os :
  parse_step uuid p = Ok (Some (p', os)) -> streamed p' = streamed p /\ stopped p' = stopped p.
Proof.
  unfold parse_step. destruct (at_point p) as [|line|msg buf hdrs|msg].
  - destruct (NextLine _) as [[l r]|]; [|done]. by destruct (start_message _ _ _); [| |done]; intros [= <- <-].
  - destruct (bodyLengths p) as [|[bl len] l]; [done|]. intros H.
    apply bind_ok in H as ([[c r]|] & Hc & H); [|done]. by injection H as <- <-.
  - destruct (NextLine _) as [[l r]|]; [|done]. intros H. apply bind_ok in H as (pt & _ & H).
    by injection H as <- <-.
  - intros H. apply bind_ok in H as ([[[k|e] q']|] & _ & H); [| |done]; [|by injection H as <- <-].
    apply bind_ok in H as ([[c r]|] & _ & H); [|done]. apply bind_ok in H as (m & _ & H). by injection H as <- <-.
Qed.

(** A step that is possible before a write is possible behind it, with the same outcome. *)
Lemma step_Write uuid p p' os data n p1 :
  parse_step uuid p = Ok (Some (p', os)) -> Write p data = Ok (n, p1) ->
  exists p1', Write p' data = Ok (n, p1') /\ parse_step uuid p1 = Ok (Some (p1', os)).
Proof.
  intros Hs Hw. destruct (step_mode _ _ _ _ Hs) as [Hm1 Hm2].
  unfold Write in *. rewrite Hm1, Hm2. destruct (stopped p) eqn:Esp; [done|].
  destruct (streamed p) eqn:Est.
  - injection Hw as <- <-. eexists. split; [done|].
    exact (step_extend uuid _ _ _ data Hs).
  - destruct (getBodyLength data) as [bl|]; injection Hw as <- <-; [|by exists p'].
    eexists. split; [done|].
    pose proof (bodyLengths_head _ _ _ [(bl, String.length data)] _ (step_extend uuid _ _ _ data Hs)) as H.
    unfold extend in H. cbn in H. rewrite Hm1, Hm2, Est, Esp in H. exact H.
Qed.

(** Whether a write succeeds depends on the mode only. *)
Lemma Write_mode p p' data :
  streamed p' = streamed p -> stopped p' = stopped p -> is_ok (Write p' data) = is_ok (Write p data).
Proof.
  intros H1 H2. unfold Write. rewrite H1, H2.
  destruct (stopped p), (streamed p); try done. by destruct (getBodyLength data).
Qed.

(** The parser after a list of writes. *)
Definition writes (p : parser) (ds : list string) : res parser :=
  foldM_res (fun p d => snd <$> Write p d) p ds.

Section Writes.

Variable uuid : nat -> string.

Lemma nsteps_mode k p os p' : nsteps uuid k p os p' -> streamed p' = streamed p /\ stopped p' = stopped p.
Proof.
  induction 1 as [|n p os p1 os1 p2 Hs _ [IH1 IH2]]; [done|]. apply step_mode in Hs as [H1 H2].
  by rewrite IH1, IH2, H1, H2.
Qed.

Lemma nsteps_Write k p os p' : nsteps uuid k p os p' -> forall data n p1,
  Write p data = Ok (n, p1) -> exists p1', Write p' data = Ok (n, p1') /\ nsteps uuid k p1 os p1'.
Proof.
  induction 1 as [p|n p os p1 os1 p2 Hs _ IH]; intros data m q Hq.
  - exists q. split; [done|constructor].
  - destruct (step_Write _ _ _ _ _ _ _ Hs Hq) as (q1 & Hq1 & Hs1).
    destruct (IH _ _ _ Hq1) as (q2 & Hq2 & Hn). exists q2. split; [done|]. by econstructor.
Qed.

Lemma nsteps_writes ds : forall k p os p' q,
  nsteps uuid k p os p' -> writes p' ds = Ok q -> exists p1, writes p ds = Ok p1 /\ nsteps uuid k p1 os q.
Proof.
  induction ds as [|d ds IH]; intros k p os p' q Hn Hq.
  - injection Hq as <-. by exists p.
  - unfold writes in Hq |- *. cbn [foldM_res] in Hq |- *.
    apply bind_ok in Hq as (q1 & Hq1 & Hq). destruct (Write p' d) as [[n q1']| |] eqn:E; try done.
    injection Hq1 as <-. destruct (nsteps_mode _ _ _ _ Hn) as [H1 H2].
    pose proof (Write_mode _ _ d H1 H2) as Hw. rewrite E in Hw.
    destruct (Write p d) as [[n' p1]| |] eqn:E1; try done.
    destruct (nsteps_Write _ _ _ _ Hn _ _ _ E1) as (q2 & Hq2 & Hn2). rewrite E in Hq2.
    injection Hq2 as -> <-. cbn. eapply IH; [exact Hn2|exact Hq].
Qed.

Lemma writes_snoc p ds d q n q' :
  writes p ds = Ok q -> Write q d = Ok (n, q') -> writes p (ds ++ [d]) = Ok q'.
Proof. intros H1 H2. unfold writes in *. rewrite foldM_res_app, H1. cbn. by rewrite H2. Qed.

Lemma writes_streamed ds : forall p,
  streamed p = true -> stopped p = false -> writes p ds = Ok (extend p (join "" ds)).
Proof.
  induction ds as [|d ds IH]; intros p Hs Hp.
  - cbn. unfold extend. rewrite sapp_nil_r. by destruct p.
  - assert (Hw : Write p d = Ok (String.length d, goto p (input p +:+ d) (at_point p)))
      by (unfold Write; by rewrite Hp, Hs).
    unfold writes. cbn [foldM_res]. rewrite Hw. cbn [fmap res_fmap snd mbind res_bind].
    change (writes (goto p (input p +:+ d) (at_point p)) ds = Ok (extend p (join "" (d :: ds)))).
    rewrite IH by done. unfold extend, goto. cbn. rewrite sapp_assoc. by destruct ds; cbn; rewrite ?sapp_nil_r.
Qed.

(** The data that was written, and what came of it so far. *)
Definition parsed (p0 : parser) (ds : list string) (os : list outcome) (p : parser) : Prop :=
  exists p1 k, writes p0 ds = Ok p1 /\ nsteps uuid k p1 os p.

Lemma parsed_start p : parsed p [] [] p.
Proof. exists p, 0%nat. split; [done|constructor]. Qed.

Lemma parsed_Write p0 ds os p d n p' :
  parsed p0 ds os p -> Write p d = Ok (n, p') -> parsed p0 (ds ++ [d]) os p'.
Proof.
  intros (p1 & k & Hw & Hn) Hd.
  destruct (nsteps_writes [d] _ _ _ _ p' Hn) as (p2 & Hp2 & Hn2).
  { unfold writes. cbn. by rewrite Hd. }
  exists p2, k. split; [|done]. unfold writes in *. by rewrite foldM_res_app, Hw.
Qed.

Lemma parsed_step p0 ds os p p' os' :
  parsed p0 ds os p -> parse_step uuid p = Ok (Some (p', os')) -> parsed p0 ds (os ++ os') p'.
Proof.
  intros (p1 & k & Hw & Hn) Hs. exists p1, (k + 1)%nat. split; [done|].
  eapply nsteps_trans; [exact Hn|]. rewrite <- (app_nil_r os'). by econstructor; [|constructor].
Qed.

(** At rest the outcomes are those of the writes. *)
Lemma parsed_blocked p0 ds os p k p1 os1 p' :
  parsed p0 ds os p -> parse_step uuid p = Ok None ->
  writes p0 ds = Ok p1 -> nsteps uuid k p1 os1 p' -> parse_step uuid p' = Ok None ->
  os = os1 /\ p = p'.
Proof.
  intros (p2 & k2 & Hw2 & Hn2) Hb Hw Hn Hb'. rewrite Hw in Hw2. injection Hw2 as <-.
  pose proof (nsteps_run uuid _ _ _ _ Hn Hb' (k + k2) ltac:(lia)) as H1.
  pose proof (nsteps_run uuid _ _ _ _ Hn2 Hb (k + k2) ltac:(lia)) as H2.
  rewrite H1 in H2. by injection H2 as <- <-.
Qed.

Lemma datagrams_steps n texts outs :
  renders_all uuid n texts outs -> forall p,
  idle p -> drawn p = n -> headerParsers p = NewParser_headerParsers ->
  exists p1 k, writes p texts = Ok p1
    /\ nsteps uuid k p1 (map Output outs) (mkParser (headerParsers p) false false "" [] ReadStart (n + length texts)).
Proof.
  induction 1 as [n|n msg text out texts outs Hr _ IH]; intros p Hp Hn Hh.
  - exists p, 0%nat. split; [done|]. cbn. destruct Hp as (H1 & H2 & H3 & H4 & H5).
    rewrite Nat.add_0_r. destruct p; cbn in *; subst. constructor.
  - destruct (renders_step _ _ _ _ _ p Hr Hp Hn Hh) as (p1 & Hw & k & Hk).
    destruct (IH (rest_at p (S n))) as (p2 & k2 & Hw2 & Hk2); [done..|].
    destruct (nsteps_writes _ _ _ _ _ _ Hk Hw2) as (p3 & Hw3 & Hk3).
    exists p3, (k + k2)%nat. split.
    + unfold writes. cbn [foldM_res]. rewrite Hw. exact Hw3.
    + cbn [map length]. rewrite Nat.add_succ_r, <- Nat.add_succ_l.
      exact (nsteps_trans uuid _ _ _ _ _ _ _ Hk3 Hk2).
Qed.

Lemma streamed_steps n texts outs ds :
  sends_all uuid n texts outs -> forall p,
  idle (mkParser (headerParsers p) false (stopped p) (input p) (bodyLengths p) (at_point p) (drawn p)) ->
  streamed p = true -> drawn p = n -> headerParsers p = NewParser_headerParsers ->
  join "" ds = join "" texts ->
  exists p1 k, writes p ds = Ok p1
    /\ nsteps uuid k p1 (map Output outs) (mkParser (headerParsers p) true false "" [] ReadStart (n + length texts)).
Proof.
  intros Hs p (H1 & H2 & H3 & H4 & _) H5 Hn Hh Hj. cbn in H1, H2, H3, H4.
  exists (extend p (join "" ds)). rewrite writes_streamed by done.
  destruct (sends_all_steps uuid n texts outs Hs (extend p (join "" ds))) as (k & Hk); try done.
  { cbn. by rewrite H2, Hj. }
  exists k. split; [done|]. cbn in Hk. by rewrite H3, H4 in Hk.
Qed.

End Writes.

(** ** The end of a parser *)

(** A parser that was stopped and reset takes no data: on a stream every write fails, on
    datagrams it panics. *)
Lemma Reset_dead r data :
  at_parse r = Ended ->
  match run_Write (Reset (Stop r)) data with
  | Ok (n, r') => n = 0%nat /\ r' = Reset (Stop r) /\ streamed (prs r) = false
  | Err _ => streamed (prs r) = true
  | Panic k => k = SendOnClosed /\ streamed (prs r) = false
  end.
Proof.
  intros _. unfold run_Write. cbn. destruct (streamed (prs r)); cbn; [done|]. by destruct (getBodyLength data).
Qed.

(** A stream that ends inside a header section: a message whose Content-Length: 0 was
    already read is delivered without the headers that were still to come. *)
Example truncated_message_delivered :
  match run_Write (start_parser true)
          ("SIP/2.0 200 OK" +:+ CRLF +:+ "Content-Length: 0" +:+ CRLF +:+ "CSeq: 1 BYE" +:+ CRLF +:+ "Vi") with
  | Ok (_, r) =>
      match drain (fun _ => "id") (prs r) with
      | Ok (p, os) => os = [] /\ match end_of_input p with Ok (Some (_, [Output _])) => True | _ => False end
      | _ => False
      end
  | _ => False
  end.
Proof. vm_compute. split; [reflexivity|exact I]. Qed.
