(* ===== verification/ParseMessage.v ===== *)
(** * [ParseMessage] (sip/parser.go)

    A parser made for one datagram: [ParseMessage] writes the datagram to it, takes the
    first thing the parser sends, and stops it.  The caller and the parsing goroutine are
    two goroutines with a pipe of limited buffering between them (ParserBuffer.v): the
    write returns when the goroutine has fetched the last byte, [Stop] when the goroutine
    has ended.  An event is a step of one of the two. *)

From S2P Require Import Prelude GoStrings Params Base Uri Header Headers Auth HeaderParse.
From S2P Require Import HeaderRoundTrip Message Parser ParserBuffer MessageRoundTrip ParserLife.
From Stdlib Require Import NArith ZArith Lia.

#[local] Open Scope string_scope.
#[local] Open Scope list_scope.

(** ** The caller and the goroutine *)

(** Where the caller is: in [Write], in the [select], in [Stop], or behind its return with
    what it took. *)
Inductive caller_point : Type :=
  | Writing
  | Selecting
  | Stopping (o : outcome)
  | CallReturned (o : outcome).

Record call := mkCall { run_of : parser_run; buffer_of : parserBuffer; caller : caller_point }.

Inductive call_event : Set := ParserGoes | WriteReturns | CallerTakes | StopReturns.

(** The read that the goroutine does next; [AtQueue]: it waits for a body length. *)
Inductive next_read : Type := ALine | AChunk (n : Z) | AtQueue.

Definition read_of (p : parser) : res next_read :=
  match at_point p with
  | ReadStart | ReadHeaders _ _ _ => mret ALine
  | SkipRest startLine =>
      mret match bodyLengths p with
           | [] => AtQueue
           | (_, len) :: _ => AChunk (Z.of_nat len - Z.of_nat (String.length startLine) - 2)
           end
  | ReadBody msg =>
      l ← body_length p msg;
      mret match l with Some (inl n, _) => AChunk (Z.of_N n) | _ => AtQueue end
  end.

(** The goroutine ran out of data: it holds all that was written. *)
Definition all_fetched (b : parserBuffer) : parserBuffer := mkBuffer (contents b) "".

Section Call.

Variable uuid : nat -> string.
(** The size of the buffer of the reader. *)
Variable size : nat.

(** What the next read of the goroutine does to the buffer. *)
Definition fetch (p : parser) (b : parserBuffer) : res parserBuffer :=
  r ← read_of p;
  match r with
  | ALine => mret match ParserBuffer.NextLine size b with Some (_, b) => b | None => all_fetched b end
  | AChunk n =>
      c ← ParserBuffer.NextChunk size n b;
      mret match c with Some (_, b) => b | None => all_fetched b end
  | AtQueue => mret b
  end.

(** The goroutine is about to read. *)
Definition reads (r : parser_run) : bool :=
  match at_parse r, pending r with Parsing, [] => true | _, _ => false end.

(** [ParseMessage], up to the point where its write waits. *)
Definition ParseMessage (data : string) : res call :=
  '(_, r) ← run_Write (start_parser false) data;
  mret (mkCall r (begin_Write newParserBuffer (input (prs r))) Writing).

(** [None]: the event cannot happen. *)
Definition call_step (s : call) (ev : call_event) : res (option call) :=
  match ev with
  | ParserGoes =>
      g ← go_step uuid (run_of s);
      match g with
      | Some r =>
          b ← (if reads (run_of s) then fetch (prs (run_of s)) (buffer_of s) else mret (buffer_of s));
          mret (Some (mkCall r b (caller s)))
      | None =>
          if reads (run_of s) && negb (String.eqb (unread (buffer_of s)) "") then
            b ← fetch (prs (run_of s)) (buffer_of s);
            mret (if String.eqb (unread b) "" then Some (mkCall (run_of s) b (caller s)) else None)
          else mret None
      end
  | WriteReturns =>
      mret match caller s with
           | Writing => if String.eqb (unread (buffer_of s)) ""
                        then Some (mkCall (run_of s) (buffer_of s) Selecting) else None
           | _ => None
           end
  | CallerTakes =>
      mret match caller s, take_outcome (run_of s) with
           | Selecting, Some (o, r) => Some (mkCall (Stop r) (buffer_of s) (Stopping o))
           | _, _ => None
           end
  | StopReturns =>
      mret match caller s, at_parse (run_of s) with
           | Stopping o, Ended => Some (mkCall (run_of s) (buffer_of s) (CallReturned o))
           | _, _ => None
           end
  end.

Fixpoint call_run (s : call) (evs : list call_event) : res (option call) :=
  match evs with
  | [] => mret (Some s)
  | ev :: evs =>
      s' ← call_step s ev;
      match s' with Some s' => call_run s' evs | None => mret None end
  end.

(** ** The buffer follows the parser *)

Hypothesis size_pos : (0 < size)%nat.

(** What a step of the goroutine reads, it reads through the buffer. *)
Lemma fetch_step p p' os b :
  parse_step uuid p = Ok (Some (p', os)) -> contents b = input p ->
  exists b', fetch p b = Ok b' /\ contents b' = input p'.
Proof.
  intros Hs Hb. unfold fetch, read_of. unfold parse_step in Hs.
  pose proof (NextLine_spec size size_pos b) as Hline. pose proof (fun n => NextChunk_spec size size_pos n b) as Hchunk.
  rewrite Hb in Hline, Hchunk. destruct (at_point p) as [|line|msg buf hdrs|msg].
  - destruct (Parser.NextLine (input p)) as [[l r]|]; [|done].
    destruct (ParserBuffer.NextLine size b) as [[l' b']|]; cbn [returns] in Hline; [|done].
    destruct Hline as [_ Hr]. eexists. split; [reflexivity|].
    revert Hs. by destruct (start_message uuid (drawn p) l); [| |done]; intros [= <- <-].
  - cbn [mbind res_bind mret res_ret]. destruct (bodyLengths p) as [|[bl len] q]; [done|].
    specialize (Hchunk (Z.of_nat len - Z.of_nat (String.length line) - 2)%Z).
    destruct (Parser.NextChunk _ (input p)) as [[[c r]|]| |]; try done.
    destruct (ParserBuffer.NextChunk size _ b) as [[[c' b']|]| |]; cbn [returns] in Hchunk; try done.
    destruct Hchunk as [_ Hr]. eexists. split; [reflexivity|]. by injection Hs as <- <-.
  - destruct (Parser.NextLine (input p)) as [[l r]|]; [|done].
    destruct (ParserBuffer.NextLine size b) as [[l' b']|]; cbn [returns] in Hline; [|done].
    destruct Hline as [_ Hr]. eexists. split; [reflexivity|].
    apply bind_ok in Hs as (pt & _ & Hs). by injection Hs as <- <-.
  - apply bind_ok in Hs as (l & -> & Hs). cbn [mbind res_bind mret res_ret].
    destruct l as [[[n|e] q]|]; [| |done].
    + specialize (Hchunk (Z.of_N n)).
      destruct (Parser.NextChunk _ (input p)) as [[[c r]|]| |]; try done.
      destruct (ParserBuffer.NextChunk size _ b) as [[[c' b']|]| |]; cbn [returns] in Hchunk; try done.
      destruct Hchunk as [_ Hr]. eexists. split; [reflexivity|].
      cbn [mbind res_bind] in Hs. apply bind_ok in Hs as (m & _ & Hs). by injection Hs as <- <-.
    + eexists. split; [reflexivity|]. by injection Hs as <- <-.
Qed.

(** What is not in the pipe does not come back to it. *)
Lemma fetch_unread p b b' : fetch p b = Ok b' -> unread b = "" -> unread b' = "".
Proof.
  unfold fetch. intros (r & _ & H)%bind_ok Hb. destruct r as [|n|].
  - injection H as <-. destruct (ParserBuffer.NextLine size b) as [[l b1]|] eqn:E; [|done].
    by eapply next_line_unread in E.
  - apply bind_ok in H as (c & Hc & H). injection H as <-. destruct c as [[l b1]|]; [|done].
    unfold ParserBuffer.NextChunk in Hc. destruct (n <? 0)%Z; [done|]. apply (inj Ok) in Hc.
    by eapply next_chunk_unread in Hc.
  - by injection H as <-.
Qed.

(** *** A stopped parser parses on *)

Definition set_stopped (p : parser) : parser :=
  mkParser (headerParsers p) (streamed p) true (input p) (bodyLengths p) (at_point p) (drawn p).

Lemma step_set_stopped p p' os :
  parse_step uuid p = Ok (Some (p', os)) -> parse_step uuid (set_stopped p) = Ok (Some (set_stopped p', os)).
Proof.
  unfold parse_step, set_stopped. cbn [at_point input drawn headerParsers streamed stopped bodyLengths].
  destruct (at_point p) as [|line|msg buf hdrs|msg].
  - destruct (Parser.NextLine (input p)) as [[l r]|]; [|done].
    by destruct (start_message uuid (drawn p) l); [| |done]; intros [= <- <-].
  - destruct (bodyLengths p) as [|[bl len] q]; [done|]. intros ([[c r]|] & -> & H)%bind_ok; [|done].
    by injection H as <- <-.
  - destruct (Parser.NextLine (input p)) as [[l r]|]; [|done]. intros (pt & Hpt & H)%bind_ok.
    injection H as <- <-. unfold goto. cbn [headerParsers streamed stopped bodyLengths drawn at_point input].
    match goal with |- context [header_line ?x msg buf hdrs l] =>
      change (header_line x msg buf hdrs l) with (header_line p msg buf hdrs l) end.
    by rewrite Hpt.
  - intros (l & Hl & H)%bind_ok.
    match goal with |- context [body_length ?x msg] => change (body_length x msg) with (body_length p msg) end.
    rewrite Hl. cbn [mbind res_bind]. destruct l as [[[n|e] q]|]; [| |done].
    + apply bind_ok in H as ([[c r]|] & Hc & H); [|done]. rewrite Hc. cbn [mbind res_bind].
      apply bind_ok in H as (m & Hm & H). rewrite Hm. by injection H as <- <-.
    + by injection H as <- <-.
Qed.

Lemma nsteps_set_stopped k p os p' :
  nsteps uuid k p os p' -> nsteps uuid k (set_stopped p) os (set_stopped p').
Proof. induction 1; econstructor; [by apply step_set_stopped|done]. Qed.

(** *** Behind a message nothing is read *)

Definition in_message (p : parser) : bool :=
  match at_point p with ReadHeaders _ _ _ | ReadBody _ => true | _ => false end.

Lemma header_line_in p msg buf hdrs l pt :
  header_line p msg buf hdrs l = Ok pt -> match pt with ReadHeaders _ _ _ | ReadBody _ => True | _ => False end.
Proof.
  unfold header_line. destruct l as [|c l].
  - intros (h & _ & H)%bind_ok. apply bind_ok in H as (m & _ & H). by injection H as <-.
  - destruct (negb _); [intros (h & _ & H)%bind_ok; by injection H as <-|].
    by destruct (negb _); intros [= <-].
Qed.

(** A step that sends nothing from inside a message stays in it. *)
Lemma silent_step p p' : parse_step uuid p = Ok (Some (p', [])) -> at_point p = ReadStart \/ in_message p = true ->
  in_message p' = true.
Proof.
  unfold parse_step, in_message. intros H [Hp|Hp].
  - rewrite Hp in H. destruct (Parser.NextLine (input p)) as [[l r]|]; [|done].
    destruct (start_message uuid (drawn p) l); [|by injection H|done]. by injection H as <-.
  - destruct (at_point p) as [|line|msg buf hdrs|msg]; try done.
    + destruct (Parser.NextLine (input p)) as [[l r]|]; [|done]. apply bind_ok in H as (pt & Hpt & H).
      apply header_line_in in Hpt. injection H as <-. unfold goto. cbn. by destruct pt.
    + apply bind_ok in H as ([[[n|e] q]|] & _ & H); [| |done]; [|by injection H].
      apply bind_ok in H as ([[c r]|] & _ & H); [|done]. by apply bind_ok in H as (m & _ & H).
Qed.

Lemma silent_stays k p os p' : nsteps uuid k p os p' -> os = [] -> in_message p = true -> in_message p' = true.
Proof.
  induction 1 as [|n p os p1 os1 p2 Hs _ IH]; [done|]. intros [-> ->]%app_nil Hp.
  apply IH; [done|]. eapply silent_step; [exact Hs|by right].
Qed.

Lemma silent_start k p os p' :
  nsteps uuid k p os p' -> os = [] -> at_point p = ReadStart -> at_point p' = ReadStart -> k = O /\ p = p'.
Proof.
  intros H Hos Hp Hp'. destruct H as [|n p os p1 os1 p2 Hs Hn]; [done|]. apply app_nil in Hos as [-> ->].
  assert (Hi : in_message p2 = true)
    by (eapply silent_stays; [exact Hn|done|]; eapply silent_step; [exact Hs|by left]).
  unfold in_message in Hi. by rewrite Hp' in Hi.
Qed.

Lemma output_start p p' m os : parse_step uuid p = Ok (Some (p', Output m :: os)) -> at_point p' = ReadStart.
Proof.
  unfold parse_step. intros H. destruct (at_point p) as [|line|msg buf hdrs|msg].
  - destruct (Parser.NextLine (input p)) as [[l r]|]; [|done]. by destruct (start_message uuid (drawn p) l).
  - destruct (bodyLengths p) as [|[bl len] q]; [done|]. by apply bind_ok in H as ([[c r]|] & _ & H).
  - destruct (Parser.NextLine (input p)) as [[l r]|]; [|done]. by apply bind_ok in H as (pt & _ & H).
  - apply bind_ok in H as ([[[n|e] q]|] & _ & H); [| |done]; [|by injection H].
    apply bind_ok in H as ([[c r]|] & _ & H); [|done]. apply bind_ok in H as (x & _ & H).
    by injection H as <- _ _.
Qed.

(** *** How far a call is *)

Section Progress.

(** The parser behind the datagram, and the one thing it sends. *)
Variables (fin : parser) (o : outcome).
Hypothesis fin_start : at_point fin = ReadStart.
Hypothesis fin_input : input fin = "".

(** The write does not wait for ever: all is fetched; or the parser still has to send, and
    it sends a message, or the next fetch takes all. *)
Definition fetched (b : parserBuffer) (p : parser) (pend : list outcome) : Prop :=
  unread b = ""
  \/ (pend = [] /\ ((exists m, o = Output m)
                     \/ (at_point p = ReadStart /\ buffered b = "" /\ (String.length (unread b) <= size)%nat))).

(** A call and the number of events to its return. *)
Inductive progress : call -> nat -> Prop :=
  | call_writing p b k os pend :
      nsteps uuid k p os fin -> pend ++ os = [o] -> contents b = input p -> fetched b p pend ->
      progress (mkCall (mkRun p false pend Parsing) b Writing) (k + 5)
  | call_selecting p b k os pend :
      nsteps uuid k p os fin -> pend ++ os = [o] -> contents b = input p -> unread b = "" ->
      progress (mkCall (mkRun p false pend Parsing) b Selecting) (k + 4)
  | call_stopping p b k :
      nsteps uuid k p [] (set_stopped fin) -> contents b = input p ->
      progress (mkCall (mkRun p true [] Parsing) b (Stopping o)) (k + 3)
  | call_ending p b : progress (mkCall (mkRun p true [] Ending) b (Stopping o)) 2
  | call_ended p b : progress (mkCall (mkRun p true [] Ended) b (Stopping o)) 1
  | call_returned p b : progress (mkCall (mkRun p true [] Ended) b (CallReturned o)) 0.

(** A step of the goroutine and what it fetches. *)
Lemma step_fetched p p1 os os1 k b :
  parse_step uuid p = Ok (Some (p1, os)) -> nsteps uuid k p1 os1 fin -> os ++ os1 = [o] ->
  contents b = input p -> fetched b p [] ->
  exists b1, fetch p b = Ok b1 /\ contents b1 = input p1 /\ fetched b1 p1 os.
Proof.
  intros Hs Hn Ho Hb Hf. destruct (fetch_step _ _ _ _ Hs Hb) as (b1 & Hb1 & Hc1). exists b1.
  split; [done|]. split; [done|]. destruct Hf as [Hu|[_ [[m Hm]|(Hp & He & Hl)]]].
  - left. by eapply fetch_unread.
  - destruct os as [|o' os]; [right; eauto|]. injection Ho as -> Ho. apply app_nil in Ho as [-> ->].
    rewrite Hm in Hs. destruct (silent_start _ _ _ _ Hn eq_refl (output_start _ _ _ _ Hs) fin_start) as [_ ->].
    left. rewrite fin_input in Hc1. unfold contents in Hc1. by destruct (buffered b1).
  - left. unfold fetch, read_of in Hb1. rewrite Hp in Hb1. apply (inj Ok) in Hb1. subst b1.
    pose proof (NextLine_fetches_all size size_pos b) as Hall.
    destruct (ParserBuffer.NextLine size b) as [[l b1]|]; [|done]. by eapply Hall.
Qed.

Lemma at_end : parse_step uuid (set_stopped fin) = Ok None.
Proof. unfold parse_step. cbn. by rewrite fin_start, fin_input. Qed.

Lemma nsteps_cases k p os f : nsteps uuid k p os f ->
  (k = O /\ os = [] /\ p = f)
  \/ exists k' p1 os0 os1, k = S k' /\ parse_step uuid p = Ok (Some (p1, os0)) /\ nsteps uuid k' p1 os1 f /\ os0 ++ os1 = os.
Proof. intros H. destruct H as [|n p os p1 os1 p2 Hs Hn]; [by left|]. right. eauto 10. Qed.

#[local] Ltac none := left; reflexivity.
#[local] Ltac call_cbn := cbn [call_step run_of go_step at_parse pending prs pipe_closed reads buffer_of caller].

(** Every event that can happen brings the return closer. *)
Lemma progress_step s n ev :
  progress s n ->
  call_step s ev = Ok None \/ exists s' n', call_step s ev = Ok (Some s') /\ n = S n' /\ progress s' n'.
Proof.
  intros [p b k os pend Hn Ho Hb Hf|p b k os pend Hn Ho Hb Hf|p b k Hn Hb|p b|p b|p b];
    destruct ev; try none.
  - destruct pend as [|x pend]; [|none]. cbn [app] in Ho. subst os. destruct (nsteps_cases _ _ _ _ Hn) as [(_ & ? & _)|(k' & p1 & os' & os1 & -> & Hs & Hn' & Ho)]; [done|].
    destruct (step_fetched _ _ _ _ _ _ Hs Hn' Ho Hb Hf) as (b1 & Hb1 & Hc1 & Hf1). right.
    exists (mkCall (mkRun p1 false os' Parsing) b1 Writing), (k' + 5)%nat. call_cbn.
    rewrite Hs. cbn [mbind res_bind]. rewrite Hb1. split; [done|]. split; [done|]. by econstructor.
  - destruct (String.eqb_spec (unread b) "") as [Hu|Hu].
    + right. exists (mkCall (mkRun p false pend Parsing) b Selecting), (k + 4)%nat. cbn. rewrite Hu. cbn.
      split; [done|]. split; [lia|]. by econstructor.
    + left. cbn. destruct (String.eqb_spec (unread b) ""); done.
  - destruct pend as [|x pend]; [|none]. cbn [app] in Ho. subst os. destruct (nsteps_cases _ _ _ _ Hn) as [(_ & ? & _)|(k' & p1 & os' & os1 & -> & Hs & Hn' & Ho)]; [done|].
    destruct (step_fetched _ _ _ _ _ _ Hs Hn' Ho Hb (or_introl Hf)) as (b1 & Hb1 & Hc1 & _). right.
    exists (mkCall (mkRun p1 false os' Parsing) b1 Selecting), (k' + 4)%nat. call_cbn.
    rewrite Hs. cbn [mbind res_bind]. rewrite Hb1. split; [done|]. split; [done|].
    econstructor; try done. by eapply fetch_unread.
  - destruct pend as [|x pend]; [none|]. injection Ho as -> Ho. apply app_nil in Ho as [-> ->]. right.
    exists (mkCall (mkRun (set_stopped p) true [] Parsing) b (Stopping o)), (k + 3)%nat.
    split; [done|]. split; [lia|]. constructor; [by apply nsteps_set_stopped|done].
  - right. destruct (nsteps_cases _ _ _ _ Hn) as [(-> & _ & ->)|(k' & p1 & os' & os1 & -> & Hs & Hn' & Ho)].
    + exists (mkCall (mkRun (behind_end (set_stopped fin) (bodyLengths fin)) true [] Ending) (all_fetched b) (Stopping o)), 2%nat.
      call_cbn. rewrite at_end.
      cbn [mbind res_bind]. unfold end_of_input, fetch, read_of. cbn [set_stopped at_point]. rewrite fin_start.
      cbn [mbind res_bind mret res_ret]. pose proof (NextLine_spec size size_pos b) as Hl. rewrite Hb in Hl.
      cbn [set_stopped input] in Hl. rewrite fin_input in Hl.
      destruct (ParserBuffer.NextLine size b) as [[? ?]|]; [done|]. split; [done|]. split; [done|]. constructor.
    + destruct (fetch_step _ _ _ _ Hs Hb) as (b1 & Hb1 & Hc1). apply app_nil in Ho as [-> ->].
      exists (mkCall (mkRun p1 true [] Parsing) b1 (Stopping o)), (k' + 3)%nat.
      call_cbn. rewrite Hs. cbn [mbind res_bind].
      rewrite Hb1. split; [done|]. split; [done|]. by constructor.
  - right. eexists _, 1%nat. split; [reflexivity|]. split; [done|]. constructor.
  - right. eexists _, 0%nat. split; [reflexivity|]. split; [done|]. constructor.
Qed.

Lemma progress_enabled s n : progress s (S n) -> exists ev s', call_step s ev = Ok (Some s').
Proof.
  intros Hp. cut (exists ev, call_step s ev <> Ok None).
  { intros [ev Hev]. destruct (progress_step s _ ev Hp) as [H|(s' & _ & H & _)]; [done|]. eauto. }
  remember (S n) as m eqn:Em.
  destruct Hp as [p b k os pend Hn Ho Hb Hf|p b k os pend Hn Ho Hb Hf|p b k Hn Hb|p b|p b|p b]; [..|done].
  - destruct pend as [|x pend].
    + exists ParserGoes. cbn [app] in Ho. subst os.
      destruct (nsteps_cases _ _ _ _ Hn) as [(_ & ? & _)|(k' & p1 & os' & os1 & -> & Hs & Hn' & Ho)]; [done|].
      destruct (step_fetched _ _ _ _ _ _ Hs Hn' Ho Hb Hf) as (b1 & Hb1 & _). call_cbn. rewrite Hs. cbn [mbind res_bind].
      by rewrite Hb1.
    + exists WriteReturns. destruct Hf as [Hu|[? _]]; [|done]. cbn. by rewrite Hu.
  - destruct pend as [|x pend]; [|by exists CallerTakes].
    exists ParserGoes. cbn [app] in Ho. subst os.
    destruct (nsteps_cases _ _ _ _ Hn) as [(_ & ? & _)|(k' & p1 & os' & os1 & -> & Hs & Hn' & Ho)]; [done|].
    destruct (fetch_step _ _ _ _ Hs Hb) as (b1 & Hb1 & _). call_cbn. rewrite Hs. cbn [mbind res_bind]. by rewrite Hb1.
  - exists ParserGoes. destruct (progress_step _ _ ParserGoes (call_stopping p b k Hn Hb)) as [H|(s' & n' & H & _)];
      [|by rewrite H]. exfalso. revert H. call_cbn.
    destruct (nsteps_cases _ _ _ _ Hn) as [(-> & _ & ->)|(k' & p1 & os' & os1 & -> & Hs & Hn' & Ho)].
    + rewrite at_end. cbn [mbind res_bind]. unfold end_of_input. cbn [set_stopped at_point]. rewrite fin_start.
      cbn [mbind res_bind mret res_ret]. by destruct (fetch _ _).
    + rewrite Hs. cbn [mbind res_bind]. by destruct (fetch _ _).
  - by exists ParserGoes.
  - by exists StopReturns.
Qed.

Lemma progress_returned s n : progress s n -> (n = O <-> exists o', caller s = CallReturned o') /\
  (forall o', caller s = CallReturned o' -> o' = o).
Proof.
  intros Hp. destruct Hp; cbn; (split; [split|]); try (by intros o' [=]); try lia; try (by intros [o' Ho]).
  by exists o.
Qed.

Lemma progress_run evs : forall s n, progress s n ->
  match call_run s evs with
  | Ok (Some s') => exists n', n = (length evs + n')%nat /\ progress s' n'
  | Ok None => True
  | _ => False
  end.
Proof.
  induction evs as [|ev evs IH]; intros s n Hp; cbn [call_run length]; [by exists n|].
  destruct (progress_step s n ev Hp) as [->|(s' & n' & -> & -> & Hp')]; [done|]. cbn [mbind res_bind].
  specialize (IH s' n' Hp'). destruct (call_run s' evs) as [[s2|]| |]; try done.
  destruct IH as (n2 & -> & H2). by exists n2.
Qed.

End Progress.

(** However the two goroutines are scheduled, the call returns, with [o], at the [n]-th
    event, and before that some event can happen. *)
Definition returns_at (s : call) (n : nat) (o : outcome) : Prop :=
  forall evs,
    match call_run s evs with
    | Ok (Some s') =>
        (length evs <= n)%nat
        /\ (length evs = n -> caller s' = CallReturned o)
        /\ (length evs < n -> exists ev s'', call_step s' ev = Ok (Some s''))%nat
    | Ok None => True
    | _ => False
    end.

Lemma progress_returns fin o s n :
  at_point fin = ReadStart -> input fin = "" -> progress fin o s n -> returns_at s n o.
Proof.
  intros H1 H2 Hp evs. pose proof (progress_run fin o H1 H2 evs s n Hp) as H.
  destruct (call_run s evs) as [[s'|]| |]; try done. destruct H as (n' & -> & Hp').
  destruct (progress_returned _ _ _ _ Hp') as [Hz Ho].
  split; [lia|]. split.
  - intros E. assert (n' = O) by lia. destruct (proj1 Hz H) as [o' Ho']. by rewrite Ho', (Ho _ Ho').
  - intros E. destruct n' as [|n']; [lia|]. by eapply progress_enabled.
Qed.

(** The call on a datagram that the parser answers with [o]. *)
Lemma datagram_call startLine lines b o :
  no_CR startLine = true -> forallb head_line lines = true ->
  parse_datagram uuid NewParser_headerParsers 0 startLine lines b = Ok o ->
  (String.length (datagram startLine lines b) <= size)%nat \/ (exists m, o = Output m) ->
  exists s n, ParseMessage (datagram startLine lines b) = Ok s /\ returns_at s n o.
Proof.
  intros Hs Hl Ho Hsize.
  assert (Hidle : idle (NewParser false)) by (by repeat split).
  destruct (run_datagram uuid (NewParser false) startLine lines b (length lines + 3) Hidle Hs Hl (le_n _)) as (p1 & Hw & Hr).
  change (headerParsers (NewParser false)) with NewParser_headerParsers in Hr.
  change (drawn (NewParser false)) with O in Hr. rewrite Ho in Hr. apply run_nsteps in Hr as [k Hk].
  assert (Hp1 : input p1 = datagram startLine lines b /\ at_point p1 = ReadStart).
  { unfold Write in Hw. cbn [stopped streamed NewParser] in Hw. destruct (getBodyLength _) as [bl|] eqn:Eb.
    - by injection Hw as <-.
    - rewrite getBodyLength_datagram in Eb by done. done. }
  destruct Hp1 as [Hi Hp]. unfold ParseMessage, run_Write. cbn [pipe_closed start_parser andb prs].
  change (NewParser false) with (prs (start_parser false)) in Hw.
  cbn [prs start_parser] in Hw. rewrite Hw. cbn [mbind res_bind mret res_ret prs].
  eexists _, (k + 5)%nat. split; [reflexivity|].
  apply (progress_returns (rest_at (NewParser false) (drawn_after uuid 0 startLine)) o); [done..|].
  apply (call_writing _ _ p1 _ k [o] []); [exact Hk|done|done|].
  right. split; [done|]. destruct Hsize as [Hsize|Hm]; [right|by left].
  split; [done|]. cbn [begin_Write newParserBuffer buffered unread String.append]. rewrite Hi. by split.
Qed.

End Call.

(** ** Properties *)

(** C36: [ParseMessage] returns, whatever the order in which its two goroutines go on, with
    the one message or error that the datagram parses to.  The datagram has a clean header
    section (no CR inside a line) and parses to a message, however long it is, or fits the
    buffer of the reader. *)
Theorem ParseMessage_returns (uuid : nat -> string) (size : nat) (startLine b : string)
    (lines : list string) (o : outcome) :
  (0 < size)%nat -> no_CR startLine = true -> forallb head_line lines = true ->
  parse_datagram uuid NewParser_headerParsers 0 startLine lines b = Ok o ->
  (String.length (datagram startLine lines b) <= size)%nat \/ (exists m, o = Output m) ->
  exists s n, ParseMessage (datagram startLine lines b) = Ok s /\ returns_at uuid size s n o.
Proof. intros Hp. by apply datagram_call. Qed.

Lemma ParseMessage_returns_witness :
  exists s n, ParseMessage (datagram "nonsense" ["CSeq: 1 BYE"] "hi") = Ok s
    /\ returns_at (fun _ => "id") 4096 s n (Errs "%s failed to parse first line of message: %s").
Proof.
  apply (ParseMessage_returns (fun _ => "id") 4096 "nonsense" "hi" ["CSeq: 1 BYE"]);
    [lia|reflexivity|reflexivity|vm_compute; reflexivity|left; vm_compute; lia].
Defined.

(** A message that was rendered comes back, through a buffer of any size. *)
Lemma ParseMessage_String (uuid : nat -> string) (size : nat) (msg out : Message) (text : string) :
  (0 < size)%nat -> renders uuid 0 msg text out ->
  exists s n, ParseMessage text = Ok s /\ returns_at uuid size s n (Output out).
Proof.
  intros Hp Hr. destruct (renders_parts _ _ _ _ _ Hr) as (line & lines & m0 & m & Hcr & Hl & -> & Hs0 & Ha & _ & ->).
  apply datagram_call; [done..| |by right; eexists]. unfold parse_datagram. by rewrite Hs0, Ha.
Qed.

(** Only [startLine] is read, and it is no start line. *)
Definition too_long (uuid : nat -> string) (size : nat) (data : string) : Prop :=
  exists startLine lines b e,
    data = datagram startLine lines b /\ no_CR startLine = true /\ forallb head_line lines = true
    /\ start_message uuid 0 startLine = Err e /\ (String.length startLine + 2 <= size < String.length data)%nat.

(** a call that never returns.  Data without an empty line is dropped by [Write], and
    the [select] waits for ever.  Data that does not begin with a start line and does not
    fit the buffer of the reader makes the parser wait with its error for the [select],
    and the [Write] before it wait for the parser.  After one event nothing can happen. *)
Theorem ParseMessage_hangs (uuid : nat -> string) (size : nat) (data : string) :
  (0 < size)%nat -> getBodyLength data = None \/ too_long uuid size data ->
  exists s, ParseMessage data = Ok s
    /\ forall evs, match call_run uuid size s evs with
                   | Ok (Some s') => (length evs <= 1)%nat /\ forall o, caller s' <> CallReturned o
                   | Ok None => True
                   | _ => False
                   end.
Proof.
  intros Hpos [Hd|(startLine & lines & b & e & -> & Hs & Hl & He & Hn)].
  - exists (mkCall (start_parser false) newParserBuffer Writing). split.
    { unfold ParseMessage, run_Write, Write. cbn. by rewrite Hd. }
    intros [|[] [|[] evs]]; cbn; done || (split; [lia|done]).
  - unfold ParseMessage, run_Write. cbn [pipe_closed start_parser andb prs]. unfold Write.
    cbn [stopped streamed NewParser]. rewrite getBodyLength_datagram by done.
    cbn [mbind res_bind mret res_ret]. eexists. split; [reflexivity|].
    set (data := datagram startLine lines b) in *. set (p1 := mkParser _ _ _ _ _ _ _).
    cbn [start_parser pending at_parse prs]. change (input p1) with data.
    assert (Hdata : data = startLine +:+ CRLF +:+ (lines_text lines +:+ CRLF +:+ b))
      by (subst p1 data; unfold datagram; cbn [lines_text]; by rewrite !sapp_assoc).
    destruct (NextLine_leaves size Hpos (begin_Write newParserBuffer data) startLine (lines_text lines +:+ CRLF +:+ b))
      as (b' & Hb' & Hne); [done|done|exact Hdata|exact Hn|].
    assert (Hstep : exists p2, parse_step uuid p1 = Ok (Some (p2, [Errs "%s failed to parse first line of message: %s"]))).
    { unfold parse_step. change (at_point p1) with ReadStart. change (input p1) with data. cbv iota.
      rewrite Hdata, NextLine_line by done. change (drawn p1) with O. rewrite He. by eexists. }
    destruct Hstep as [p2 Hstep].
    intros [|ev evs]; [split; [cbn; lia|done]|]. cbn [call_run]. destruct ev; try (cbn; done).
    + unfold call_step at 1. cbn [run_of go_step at_parse pending prs reads buffer_of]. rewrite Hstep.
      unfold fetch, read_of. change (at_point p1) with ReadStart. cbn [mbind res_bind mret res_ret]. rewrite Hb'.
      destruct evs as [|[] evs]; cbn; try done.
      destruct (String.eqb_spec (unread b') ""); [done|]. destruct evs; done.
    + assert (Hd : String.eqb data "" = false) by (apply String.eqb_neq; intros E; rewrite E in Hn; cbn in Hn; lia).
      clearbody data. cbn. by rewrite Hd.
Qed.

(** A datagram of noise that is longer than the buffer. *)
Lemma ParseMessage_hangs_witness :
  exists s, ParseMessage (datagram "nonsense" ["CSeq: 1 BYE"] "hello") = Ok s
    /\ forall evs s', call_run (fun _ => "id") 20 s evs = Ok (Some s') -> forall o, caller s' <> CallReturned o.
Proof.
  destruct (ParseMessage_hangs (fun _ => "id") 20 (datagram "nonsense" ["CSeq: 1 BYE"] "hello")) as (s & Hs & Hrun);
    [lia| |].
  - right. exists "nonsense", ["CSeq: 1 BYE"], "hello". eexists.
    split; [done|]. split; [done|]. split; [done|]. split; [reflexivity|]. vm_compute. lia.
  - exists s. split; [exact Hs|]. intros evs s' Hr. specialize (Hrun evs). rewrite Hr in Hrun. apply Hrun.
Defined.
