(* ===== verification/ConnHandler.v ===== *)
(** * Connections and their handlers (transport/connection.go, connection_handler.go)

    A handler serves one connection with three goroutines: one reads the socket and
    writes to the parser, one is the parser, and [ConnectionServer] passes what the parser
    sends up to the pool and watches the expiry timer.  They meet on unbuffered channels.
    A state says where each goroutine is; an event is one step of one of them, or one
    meeting of two.  The socket, the clock and the pool are the environment: what a read
    returns and when the timer fires are part of the event. *)

From S2P Require Import Prelude GoStrings Params Base Uri Header Headers Auth HeaderParse.
From S2P Require Import HeaderRoundTrip Message Parser MessageRoundTrip ParserLife.
From Stdlib Require Import NArith ZArith Lia.

#[local] Open Scope string_scope.
#[local] Open Scope list_scope.

(** ** Connections *)

(** What the program asks of a [net.Conn]: the network and the text of its addresses, and
    whether it is a [net.PacketConn]. *)
Record baseConn := mkBaseConn {
  conn_network : string;
  LocalAddr : string;
  RemoteAddr : string;
  is_PacketConn : bool
}.

Record connection := mkConnection {
  base : baseConn;
  Key : string;
  Streamed : bool;
  open : bool  (* the socket *)
}.

Definition CreateConnection (key : string) (b : baseConn) : connection :=
  mkConnection b key (negb (is_PacketConn b)) true.

Definition connection_Network (c : connection) : string := ToUpper (conn_network (base c)).

(** An error of the socket is not reported. *)
Definition connection_Close (c : connection) : connection :=
  mkConnection (base c) (Key c) (Streamed c) false.

Definition BufferSize : N := 65535 - 20 - 8.
(** Nanoseconds. *)
Definition SockTTL : Z := (60 * 60 * 1000000000)%Z.

(** ** Handlers *)

(** [ConnectionServer]: in its select, about to send on [output] or [handleError], or
    gone. *)
Inductive handler_error : Type :=
  | ExpiredError
  | ReadError (e : string)
  | ParseError (e : string).

Inductive server_point : Type :=
  | Selecting
  | PassMessage (msg : Message)
  | PassError (e : handler_error)
  | ServerGone.

(** The goroutine of [readConnection]: in a read, about to send an error of the read (the
    last one) or of a write to the parser, behind [return], waiting in [Stop], gone. *)
Inductive reader_point : Type :=
  | Reading
  | SendReadError (e : string)
  | SendWriteError (e : string)
  | Leaving
  | Stopping
  | ReaderGone.

Record connectionHandler := mkConnectionHandler {
  conn : connection;
  expiry : option Z;
  exTimer : option Z;  (* when it fires *)
  ttl : Z;
  cancel : bool;
  server : server_point;
  reader : reader_point;
  life : parser_run
}.

Definition CreateConnectionHandler (c : connection) (ttl now : Z) : connectionHandler :=
  let ex := if (0 <? ttl)%Z then Some (now + ttl)%Z else None in
  mkConnectionHandler c ex ex ttl false Selecting Reading (start_parser (Streamed c)).

Definition IsExpiry (h : connectionHandler) (now : Z) : bool :=
  match expiry h with None => false | Some t => (t <? now)%Z end.

(** [Close]: the channel is closed once, and the connection with it. *)
Definition handler_Close (h : connectionHandler) : connectionHandler :=
  if cancel h then h
  else mkConnectionHandler (connection_Close (conn h)) (expiry h) (exTimer h) (ttl h) true (server h) (reader h) (life h).

Definition with_server (h : connectionHandler) (s : server_point) : connectionHandler :=
  mkConnectionHandler (conn h) (expiry h) (exTimer h) (ttl h) (cancel h) s (reader h) (life h).
Definition with_reader (h : connectionHandler) (r : reader_point) : connectionHandler :=
  mkConnectionHandler (conn h) (expiry h) (exTimer h) (ttl h) (cancel h) (server h) r (life h).
Definition with_life (h : connectionHandler) (l : parser_run) : connectionHandler :=
  mkConnectionHandler (conn h) (expiry h) (exTimer h) (ttl h) (cancel h) (server h) (reader h) l.

(** Every message that was passed up moves the expiry of a connection that has one. *)
Definition refresh (h : connectionHandler) (now : Z) : connectionHandler :=
  match expiry h with
  | None => h
  | Some _ =>
      mkConnectionHandler (conn h) (Some (now + ttl h)%Z) (Some (now + ttl h)%Z) (ttl h) (cancel h)
        (server h) (reader h) (life h)
  end.

(** What a read of the socket gives. *)
Inductive read_result : Type :=
  | ReadData (data : string)
  | ReadTemporary
  | ReadFatal (e : string).

(** [bytes.Trim(data, "\x00")] is empty. *)
Definition blank (data : string) : bool := sforall (fun c => Ascii.eqb c Ascii.zero) data.

Definition on_read (h : connectionHandler) (r : read_result) : res connectionHandler :=
  match r with
  | ReadTemporary => mret h
  | ReadFatal e => mret (with_reader h (SendReadError e))
  | ReadData data =>
      if blank data then mret h
      else match run_Write (life h) data with
           | Ok (_, l) => mret (with_life h l)
           | Err e => mret (with_reader h (SendWriteError e))
           | Panic k => Panic k
           end
  end.

Definition server_of (o : outcome) : server_point :=
  match o with Output msg => PassMessage msg | Errs e => PassError (ParseError e) end.

(** The events. *)
Inductive event : Type :=
  | Reads (r : read_result)      (* the reader: one read *)
  | Parses                       (* the parser: one step *)
  | Sends                        (* the parser meets the server *)
  | ReportsError                 (* the reader meets the server *)
  | PassesUp (now : Z)           (* the server meets the pool *)
  | Expires (now : Z)            (* the timer meets the server *)
  | ServerCancels | ServerEnds   (* the server sees a closed channel *)
  | ReaderCancels                (* the reader sees the cancellation *)
  | Leaves | ReaderEnds          (* the deferred calls of the reader *)
  | Closes.                      (* [Close] by the pool *)

(** What the pool receives. *)
Inductive upward : Type :=
  | UpMessage (msg : Message)
  | UpError (e : handler_error).

Section Handler.

Variable uuid : nat -> string.

(** [Ok None]: the event is not possible.  [PassesUp] is the handler's half of a meeting with
    its pool; that the pool is there to take the item, and the panic when it has closed the
    channel instead, is in [pool_step] of Pool.v. *)
Definition handler_step (h : connectionHandler) (e : event) : res (option (connectionHandler * option upward)) :=
  match e, server h, reader h with
  | Reads r, _, Reading =>
      match r with
      | ReadData data =>
          if open (conn h) && (N.of_nat (String.length data) <=? BufferSize)%N
          then h' ← on_read h r; mret (Some (h', None))
          else mret None
      | _ => h' ← on_read h r; mret (Some (h', None))
      end
  | Parses, _, _ =>
      l ← go_step uuid (life h);
      match l with Some l => mret (Some (with_life h l, None)) | None => mret None end
  | Sends, Selecting, _ =>
      match take_outcome (life h) with
      | Some (o, l) => mret (Some (with_server (with_life h l) (server_of o), None))
      | None => mret None
      end
  | ReportsError, Selecting, SendReadError e =>
      mret (Some (with_reader (with_server h (PassError (ReadError e))) Leaving, None))
  | ReportsError, Selecting, SendWriteError e =>
      mret (Some (with_reader (with_server h (PassError (ReadError e))) Reading, None))
  | PassesUp now, PassMessage msg, _ =>
      mret (Some (refresh (with_server h Selecting) now, Some (UpMessage msg)))
  | PassesUp _, PassError err, _ => mret (Some (with_server h Selecting, Some (UpError err)))
  | Expires now, Selecting, _ =>
      match exTimer h with
      | Some t =>
          if (t <=? now)%Z
          then mret (Some (mkConnectionHandler (conn h) (expiry h) None (ttl h) (cancel h)
                             (PassError ExpiredError) (reader h) (life h), None))
          else mret None
      | None => mret None
      end
  | ServerCancels, ServerGone, _ => mret None
  | ServerCancels, _, _ => if cancel h then mret (Some (with_server h ServerGone, None)) else mret None
  | ServerEnds, Selecting, ReaderGone => mret (Some (with_server h ServerGone, None))
  | ReaderCancels, _, SendReadError _ | ReaderCancels, _, SendWriteError _ =>
      if cancel h then mret (Some (with_reader h Leaving, None)) else mret None
  | Leaves, _, Leaving =>
      mret (Some (with_reader (with_life (handler_Close h) (Stop (life h))) Stopping, None))
  | ReaderEnds, _, Stopping =>
      match at_parse (life h) with
      | Ended => mret (Some (with_reader h ReaderGone, None))
      | _ => mret None
      end
  | Closes, _, _ => mret (Some (handler_Close h, None))
  | _, _, _ => mret None
  end.

(** A run of a handler, with what it passes up. *)
Inductive handler_run : connectionHandler -> list event -> list upward -> connectionHandler -> Prop :=
  | hrun_nil h : handler_run h [] [] h
  | hrun_cons h e h1 up es ups h2 :
      handler_step h e = Ok (Some (h1, up)) -> handler_run h1 es ups h2 ->
      handler_run h (e :: es) (option_list up ++ ups) h2.

(** The same as a function: [None] when an event is not possible. *)
Fixpoint run_events (h : connectionHandler) (es : list event) : option (list upward * connectionHandler) :=
  match es with
  | [] => Some ([], h)
  | e :: es =>
      match handler_step h e with
      | Ok (Some (h1, up)) =>
          match run_events h1 es with
          | Some (ups, h2) => Some (option_list up ++ ups, h2)
          | None => None
          end
      | _ => None
      end
  end.

End Handler.

(** The data of the reads of a run; the parser is not given what is blank. *)
Definition segments (es : list event) : list string :=
  omap (fun e => match e with Reads (ReadData d) => Some d | _ => None end) es.

(** What the parser produced, among what was passed up. *)
Definition of_parser (u : upward) : option outcome :=
  match u with
  | UpMessage msg => Some (Output msg)
  | UpError (ParseError e) => Some (Errs e)
  | UpError _ => None
  end.
Definition in_hand (h : connectionHandler) : list outcome :=
  match server h with
  | PassMessage msg => [Output msg]
  | PassError (ParseError e) => [Errs e]
  | _ => []
  end.

(** ** Lemmas *)

Section Lemmas.

Variable uuid : nat -> string.
#[local] Abbreviation step := (handler_step uuid).
#[local] Abbreviation hrun := (handler_run uuid).

Lemma run_events_run es : forall h ups h', run_events uuid h es = Some (ups, h') -> hrun h es ups h'.
Proof.
  induction es as [|e es IH]; intros h ups h'; cbn; [intros [= <- <-]; constructor|].
  destruct (step h e) as [[[h1 up]|]| |] eqn:E; try done.
  destruct (run_events uuid h1 es) as [[ups1 h2]|] eqn:Er; [|done]. intros [= <- <-].
  econstructor; [exact E|]. by apply IH.
Qed.

Lemma go_step_open r r' :
  go_step uuid r = Ok (Some r') -> pipe_closed r = false -> at_parse r = Parsing ->
  pending r = [] /\ at_parse r' = Parsing /\ pipe_closed r' = false
  /\ parse_step uuid (prs r) = Ok (Some (prs r', pending r')).
Proof.
  unfold go_step. intros H Hc Ha. rewrite Ha in H. destruct (pending r) as [|o os]; [|done].
  apply bind_ok in H as (s & Hs & H). rewrite Hc in H. destruct s as [[p' os]|]; [|done]. by injection H as <-.
Qed.

Lemma go_step_closed r r' : go_step uuid r = Ok (Some r') -> pipe_closed r' = pipe_closed r.
Proof.
  unfold go_step. destruct (at_parse r), (pending r); try done; [|by intros [= <-]].
  intros H. apply bind_ok in H as (s & Hs & H). destruct s as [[p' os]|]; [by injection H as <-|].
  destruct (pipe_closed r); [|done]. apply bind_ok in H as (o & _ & H). by destruct o as [[]|]; injection H as <-.
Qed.

Lemma run_Write_open r data n r' :
  pipe_closed r = false -> run_Write r data = Ok (n, r') ->
  exists p', Write (prs r) data = Ok (n, p') /\ r' = mkRun p' false (pending r) (at_parse r).
Proof.
  unfold run_Write. intros ->. cbn. destruct (Write (prs r) data) as [[m p']| |]; try done. cbn.
  intros [= <- <-]. by exists p'.
Qed.

Lemma Write_mode_kept p data n p' : Write p data = Ok (n, p') -> stopped p' = stopped p /\ streamed p' = streamed p.
Proof.
  unfold Write. destruct (stopped p) eqn:E1; [done|]. destruct (streamed p) eqn:E2; [by intros [= _ <-]|].
  destruct (getBodyLength data); intros [= _ <-]; [done|]. by rewrite E1, E2.
Qed.

(** *** Delivery *)

Definition written (es : list event) : list string := filter (fun d => negb (blank d)) (segments es).

(** Everything the parser produced is passed up, in hand or pending; what the server had
    in hand when it left is lost. *)
Definition delivers (p0 : parser) (h : connectionHandler) (ds : list string) (os : list outcome) : Prop :=
  at_parse (life h) = Parsing /\ stopped (prs (life h)) = false
  /\ exists lost, parsed uuid p0 ds (os ++ lost ++ pending (life h)) (prs (life h))
       /\ (server h = ServerGone \/ lost = in_hand h).

(** Events that leave the parser alone. *)
Lemma delivers_keep p0 h h' up ds os :
  delivers p0 h ds os -> life h' = life h ->
  (up = None /\ (server h' = ServerGone \/ server h <> ServerGone /\ in_hand h' = in_hand h))
  \/ (server h <> ServerGone /\ omap of_parser (option_list up) ++ in_hand h' = in_hand h) ->
  delivers p0 h' (ds ++ []) (os ++ omap of_parser (option_list up)).
Proof.
  intros (Ha & Hst & lost & Hp & Hl) Hlife Hc. rewrite app_nil_r. unfold delivers. rewrite Hlife.
  split; [done|]. split; [done|]. destruct Hc as [[-> Hg]|[Hs Hin]].
  - cbn. rewrite app_nil_r. exists lost. split; [done|]. destruct Hg as [Hg|[Hs Hin]]; [by left|].
    destruct Hl as [Hl|Hl]; [done|right; congruence].
  - exists (in_hand h'). split; [|by right]. destruct Hl as [Hl|Hl]; [done|].
    rewrite Hl, <- Hin, <- app_assoc in Hp. by rewrite <- app_assoc.
Qed.

Lemma delivers_same p0 h h' ds os :
  delivers p0 h ds os -> life h' = life h -> server h' = server h ->
  delivers p0 h' (ds ++ []) (os ++ []).
Proof.
  intros (Ha & Hst & lost & Hp & Hl) Hlife Hs. rewrite !app_nil_r. unfold delivers, in_hand. rewrite Hlife, Hs.
  split; [done|]. split; [done|]. by exists lost.
Qed.

Lemma delivers_read p0 h r h' ds os :
  on_read h r = Ok h' -> pipe_closed (life h) = false -> delivers p0 h ds os ->
  delivers p0 h' (ds ++ written [Reads r]) (os ++ []).
Proof.
  intros H Hc Hd. destruct r as [d| |e]; cbn in H.
  - unfold written, segments. cbn. destruct (blank d) eqn:Eb; cbn.
    { injection H as <-. by eapply delivers_same. }
    destruct Hd as (Ha & Hst & lost & Hp & Hl).
    destruct (run_Write (life h) d) as [[n l]| |] eqn:Ew; [injection H as <-| |done].
    + destruct (run_Write_open _ _ _ _ Hc Ew) as (p' & Hw & ->). rewrite app_nil_r.
      split; [done|]. cbn. split; [by rewrite (proj1 (Write_mode_kept _ _ _ _ Hw))|].
      exists lost. split; [|done]. by eapply parsed_Write.
    + exfalso. revert Ew. unfold run_Write, Write. rewrite Hc, Hst. cbn.
      destruct (streamed _); [done|]. by destruct (getBodyLength d).
  - injection H as <-. by eapply delivers_same.
  - injection H as <-. by eapply delivers_same.
Qed.

Lemma run_Write_closed r data n r' : run_Write r data = Ok (n, r') -> pipe_closed r' = pipe_closed r.
Proof.
  unfold run_Write. destruct (pipe_closed r && _) eqn:Ep.
  - destruct (streamed _); [done|]. destruct (getBodyLength data); [done|]. by intros [= _ <-].
  - destruct (Write _ _) as [[m p']| |]; try done. cbn. by intros [= _ <-].
Qed.

Lemma on_read_closed h r h' : on_read h r = Ok h' -> pipe_closed (life h') = pipe_closed (life h).
Proof.
  unfold on_read. destruct r; [|by intros [= <-]..]. destruct (blank data); [by intros [= <-]|].
  destruct (run_Write (life h) data) as [[n l]| |] eqn:Ew; [|by intros [= <-]|done]. intros [= <-].
  by apply run_Write_closed in Ew.
Qed.

Lemma Reads_step h r h' up :
  step h (Reads r) = Ok (Some (h', up)) -> reader h = Reading /\ on_read h r = Ok h' /\ up = None.
Proof.
  unfold handler_step. destruct (reader h); try done. intros H. split; [done|].
  destruct r; [destruct (open (conn h) && _)%bool; [|done]|..]; apply bind_ok in H as (h1 & H1 & H);
    by injection H as <- <-.
Qed.

Lemma delivers_step p0 h e h' up ds os :
  step h e = Ok (Some (h', up)) -> pipe_closed (life h') = false -> delivers p0 h ds os ->
  delivers p0 h' (ds ++ written [e]) (os ++ omap of_parser (option_list up)).
Proof.
  intros H Hc Hd. pose proof H as Hstep.
  destruct e as [r| | | |now|now| | | | | |]; unfold handler_step in H;
    try change (written [_]) with (@nil string).
  - apply Reads_step in Hstep as (_ & Hr & ->). apply (delivers_read _ h); [done| |done].
    by rewrite <- (on_read_closed _ _ _ Hr).
  - apply bind_ok in H as ([l|] & Hgo & H); [|done]. injection H as <- <-. cbn in Hc.
    destruct Hd as (Ha & Hst & lost & Hp & Hl). rewrite !app_nil_r.
    rewrite (go_step_closed _ _ Hgo) in Hc. destruct (go_step_open _ _ Hgo Hc Ha) as (Hn & Ha' & _ & Hs).
    split; [done|]. cbn. split; [by rewrite (proj2 (step_mode _ _ _ _ Hs))|].
    exists lost. split; [|done]. rewrite Hn, app_nil_r in Hp.
    pose proof (parsed_step _ _ _ _ _ _ _ Hp Hs) as H. by rewrite <- app_assoc in H.
  - destruct (server h) eqn:Es; try done. destruct (take_outcome (life h)) as [[o l]|] eqn:Et; [|done].
    injection H as <- <-. unfold take_outcome in Et. destruct Hd as (Ha & Hst & lost & Hp & Hl).
    destruct (pending (life h)) as [|o' os'] eqn:En; [done|]. injection Et as -> <-. rewrite !app_nil_r.
    split; [done|]. split; [done|]. exists [o]. cbn.
    destruct Hl as [Hl| ->]; [congruence|]. unfold in_hand in Hp. rewrite Es in Hp. cbn in Hp.
    split; [done|right]. by destruct o.
  - destruct (server h) eqn:Es; try done. destruct (reader h); try done; injection H as <- <-;
      (eapply delivers_keep; [exact Hd|done|]); left; (split; [done|]); right; rewrite Es;
      (split; [done|]); unfold in_hand; by rewrite Es.
  - destruct (server h) eqn:Es; try done; injection H as <- <-.
    + eapply delivers_keep; [exact Hd|unfold refresh; cbn; by destruct (expiry h)|]. right. rewrite Es.
      split; [done|]. unfold in_hand. rewrite Es. unfold refresh. cbn. by destruct (expiry h).
    + eapply delivers_keep; [exact Hd|done|]. right. rewrite Es. split; [done|].
      unfold in_hand. rewrite Es. by destruct e.
  - destruct (server h) eqn:Es; try done. destruct (exTimer h); [|done]. destruct (_ <=? _)%Z; [|done].
    injection H as <- <-. eapply delivers_keep; [exact Hd|done|]. left. split; [done|]. right. rewrite Es.
    split; [done|]. unfold in_hand. by rewrite Es.
  - assert (Hx : h' = with_server h ServerGone /\ up = None).
    { destruct (server h); try done; destruct (cancel h); try done; by injection H as <- <-. }
    destruct Hx as [-> ->]. eapply delivers_keep; [exact Hd|done|]. left. split; [done|by left].
  - destruct (server h) eqn:Es; try done. destruct (reader h); try done. injection H as <- <-.
    eapply delivers_keep; [exact Hd|done|]. left. split; [done|by left].
  - destruct (reader h); try done; (destruct (cancel h); [|done]); injection H as <- <-; by eapply delivers_same.
  - destruct (reader h); try done. by injection H as <- <-.
  - destruct (reader h); try done. destruct (at_parse _); try done. injection H as <- <-. by eapply delivers_same.
  - injection H as <- <-. eapply delivers_same; [exact Hd|..]; unfold handler_Close; by destruct (cancel h).
Qed.

(** *** The invariant of a handler *)

(** A closed handler has closed its socket; the channels between the goroutines are
    closed only when nobody sends any more; an unlimited handler has no timer. *)
Record handler_ok (h : connectionHandler) : Prop := {
  ok_open : open (conn h) = negb (cancel h);
  ok_pipe : pipe_closed (life h) = match reader h with Stopping | ReaderGone => true | _ => false end;
  ok_cancel : pipe_closed (life h) = true -> cancel h = true;
  ok_stopped : stopped (prs (life h)) = pipe_closed (life h);
  ok_gone : reader h = ReaderGone -> at_parse (life h) = Ended;
  ok_ended : at_parse (life h) = Ended -> pending (life h) = [];
  ok_closed : pipe_closed (life h) = false -> at_parse (life h) = Parsing;
  ok_timer : forall t, exTimer h = Some t -> expiry h = Some t
}.

Lemma CreateConnectionHandler_ok c t now : open c = true -> handler_ok (CreateConnectionHandler c t now).
Proof. intros Hc. by split. Qed.

Lemma end_of_input_mode p p' os :
  end_of_input p = Ok (Some (p', os)) -> stopped p' = stopped p /\ streamed p' = streamed p.
Proof.
  assert (Hb : forall msg, end_body p msg = Ok (Some (p', os)) -> stopped p' = stopped p /\ streamed p' = streamed p).
  { intros msg H. apply bind_ok in H as ([[[n|e] q]|] & _ & H); [|by injection H as <-|done].
    destruct (n =? 0)%N; [by injection H as <-|]. apply bind_ok in H as (? & _ & H). by injection H as <-. }
  unfold end_of_input. destruct (at_point p).
  - by intros [= <-].
  - destruct (bodyLengths p); by intros [= <-].
  - intros H. apply bind_ok in H as (m & _ & H). by apply Hb in H.
  - apply Hb.
Qed.

Lemma go_step_ok r r' :
  go_step uuid r = Ok (Some r') ->
  pipe_closed r' = pipe_closed r /\ stopped (prs r') = stopped (prs r)
  /\ (at_parse r' = Ended -> pending r' = [])
  /\ (pipe_closed r = false -> at_parse r = Parsing -> at_parse r' = Parsing) /\ at_parse r <> Ended.
Proof.
  intros H. pose proof (go_step_closed _ _ H) as Hc. split; [done|].
  unfold go_step in H. destruct (at_parse r) eqn:Ea, (pending r); try done; [|by injection H as <-].
  apply bind_ok in H as (s & Hs & H). destruct s as [[p' os]|].
  { injection H as <-. cbn. by rewrite (proj2 (step_mode _ _ _ _ Hs)). }
  destruct (pipe_closed r) eqn:Ep; [|done]. apply bind_ok in H as (o & Ho & H).
  destruct o as [[p' os]|]; injection H as <-; cbn; [|by split].
  by rewrite (proj1 (end_of_input_mode _ _ _ Ho)).
Qed.

Lemma handler_ok_same h h' :
  handler_ok h -> conn h' = conn h -> cancel h' = cancel h -> life h' = life h ->
  (forall t, exTimer h' = Some t -> expiry h' = Some t) ->
  (reader h' = ReaderGone -> at_parse (life h) = Ended) ->
  (match reader h with Stopping | ReaderGone => true | _ => false end
   = match reader h' with Stopping | ReaderGone => true | _ => false end) ->
  handler_ok h'.
Proof.
  intros [] H1 H2 H3 H4 H5 H6. split; rewrite ?H1, ?H2, ?H3; try done. by rewrite <- H6.
Qed.

Lemma handler_Close_ok h : handler_ok h -> handler_ok (handler_Close h).
Proof. intros Hh. unfold handler_Close. destruct (cancel h) eqn:Ec; [done|]. by destruct Hh; split. Qed.

Lemma handler_ok_step h e h' up :
  step h e = Ok (Some (h', up)) -> handler_ok h -> handler_ok h'.
Proof.
  intros H Hh. pose proof H as Hstep. assert (Ht := ok_timer _ Hh).
  destruct e as [r| | | |now|now| | | | | |]; unfold handler_step in H.
  - apply Reads_step in Hstep as (Hr & Ho & ->). destruct r as [d| |e]; cbn in Ho.
    + destruct (blank d); [by injection Ho as <-|].
      assert (Hp : pipe_closed (life h) = false) by (rewrite (ok_pipe _ Hh); by rewrite Hr).
      destruct (run_Write (life h) d) as [[n l]| |] eqn:Ew; [injection Ho as <-| |done].
      * destruct (run_Write_open _ _ _ _ Hp Ew) as (p' & Hw & ->). destruct Hh. rewrite Hp, Hr in *.
        split; cbn; rewrite ?Hr; try done. by rewrite (proj1 (Write_mode_kept _ _ _ _ Hw)).
      * injection Ho as <-. eapply handler_ok_same; cbn; rewrite ?Hr; try done.
    + by injection Ho as <-.
    + injection Ho as <-. eapply handler_ok_same; cbn; rewrite ?Hr; try done.
  - apply bind_ok in H as ([l|] & Hgo & H); [|done]. injection H as <- <-.
    destruct (go_step_ok _ _ Hgo) as (G1 & G2 & G3 & G4 & G5). destruct Hh.
    split; cbn; rewrite ?G1, ?G2; try done.
    + intros Hg. by apply ok_gone0 in Hg.
    + intros Hc. by auto.
  - destruct (server h); try done. destruct (take_outcome (life h)) as [[o l]|] eqn:Et; [|done].
    injection H as <- <-. unfold take_outcome in Et. destruct (pending (life h)) as [|o' os'] eqn:En; [done|].
    injection Et as <- <-. destruct Hh. split; cbn; try done. rewrite En in ok_ended0.
    intros Ha. by apply ok_ended0 in Ha.
  - destruct (server h); try done.
    destruct (reader h) eqn:Er; try done; injection H as <- <-; eapply handler_ok_same; cbn; rewrite ?Er; done.
  - destruct (server h); try done; injection H as <- <-.
    + unfold refresh. cbn. destruct (expiry h) eqn:Ex; (eapply handler_ok_same; try done); cbn;
        first [apply (ok_gone _ Hh) | intros t Hx; rewrite Ex; by apply Ht].
    + eapply handler_ok_same; try done. apply (ok_gone _ Hh).
  - destruct (server h); try done. destruct (exTimer h); [|done]. destruct (_ <=? _)%Z; [|done].
    injection H as <- <-. eapply handler_ok_same; try done. apply (ok_gone _ Hh).
  - assert (Hx : h' = with_server h ServerGone).
    { destruct (server h); try done; destruct (cancel h); try done; by injection H as <- <-. }
    subst. eapply handler_ok_same; try done. apply (ok_gone _ Hh).
  - destruct (server h); try done. destruct (reader h) eqn:Er; try done. injection H as <- <-.
    eapply handler_ok_same; try done. intros _. by apply (ok_gone _ Hh).
  - destruct (reader h) eqn:Er; try done; (destruct (cancel h); [|done]); injection H as <- <-;
      (eapply handler_ok_same; cbn; rewrite ?Er; done).
  - destruct (reader h) eqn:Er; try done. injection H as <- <-. pose proof (handler_Close_ok _ Hh) as Hc.
    assert (Hcc : cancel (handler_Close h) = true) by (unfold handler_Close; by destruct (cancel h) eqn:E).
    destruct Hc. split; cbn; try done.
    + intros Ha. by apply (ok_ended _ Hh).
  - destruct (reader h) eqn:Er; try done. destruct (at_parse (life h)) eqn:Ea; try done. injection H as <- <-.
    eapply handler_ok_same; cbn; rewrite ?Er; done.
  - injection H as <- <-. by apply handler_Close_ok.
Qed.

Lemma handler_ok_run h es ups h' : hrun h es ups h' -> handler_ok h -> handler_ok h'.
Proof. induction 1; eauto using handler_ok_step. Qed.

Lemma closed_step h e h' up :
  step h e = Ok (Some (h', up)) -> pipe_closed (life h) = true -> pipe_closed (life h') = true.
Proof.
  intros H Hc. pose proof H as Hstep.
  destruct e as [r| | | |now|now| | | | | |]; unfold handler_step in H.
  - apply Reads_step in Hstep as (_ & Ho & _). by rewrite (on_read_closed _ _ _ Ho).
  - apply bind_ok in H as ([l|] & Hgo & H); [|done]. injection H as <- <-. cbn. by rewrite (go_step_closed _ _ Hgo).
  - destruct (server h); try done. unfold take_outcome in H. destruct (pending (life h)); [done|]. by injection H as <- <-.
  - destruct (server h), (reader h); try done; by injection H as <- <-.
  - destruct (server h); try done; injection H as <- <-; [|done]. unfold refresh. by destruct (expiry _).
  - destruct (server h); try done. destruct (exTimer h); [|done]. destruct (_ <=? _)%Z; [|done]. by injection H as <- <-.
  - destruct (server h); try done; destruct (cancel h); try done; by injection H as <- <-.
  - destruct (server h), (reader h); try done; by injection H as <- <-.
  - destruct (reader h); try done; destruct (cancel h); try done; by injection H as <- <-.
  - destruct (reader h); try done. by injection H as <- <-.
  - destruct (reader h); try done. destruct (at_parse _); try done. by injection H as <- <-.
  - injection H as <- <-. unfold handler_Close. by destruct (cancel h).
Qed.

Lemma closed_run h es ups h' : hrun h es ups h' -> pipe_closed (life h) = true -> pipe_closed (life h') = true.
Proof. induction 1; eauto using closed_step. Qed.

Lemma delivers_run p0 h es ups h' :
  hrun h es ups h' -> pipe_closed (life h') = false -> forall ds os, delivers p0 h ds os -> handler_ok h ->
  delivers p0 h' (ds ++ written es) (os ++ omap of_parser ups).
Proof.
  induction 1 as [h|h e h1 up es ups h2 Hs Hr IH]; intros Hc ds os Hd Hh.
  - cbn. by rewrite !app_nil_r.
  - assert (Hc1 : pipe_closed (life h1) = false).
    { destruct (pipe_closed (life h1)) eqn:E; [|done]. by rewrite (closed_run _ _ _ _ Hr E) in Hc. }
    assert (Hw : written (e :: es) = written [e] ++ written es).
    { unfold written, segments. cbn. destruct e as [[d| |]| | | | | | | | | | |]; cbn; try done. by destruct (blank d). }
    rewrite Hw, omap_app, !app_assoc. apply IH; [done| |by eapply handler_ok_step].
    by eapply delivers_step.
Qed.

Lemma delivers_start c t now : delivers (NewParser (Streamed c)) (CreateConnectionHandler c t now) [] [].
Proof. split; [done|]. split; [done|]. exists []. split; [apply parsed_start|by right]. Qed.

(** A handler at rest: nothing is under way and it was not closed. *)
Definition quiet (h : connectionHandler) : Prop :=
  server h = Selecting /\ pending (life h) = [] /\ pipe_closed (life h) = false
  /\ parse_step uuid (prs (life h)) = Ok None.

(** What a handler at rest has passed up is what the data parses to. *)
Lemma quiet_delivered c t now es ups h p1 k os p' :
  hrun (CreateConnectionHandler c t now) es ups h -> open c = true -> quiet h ->
  writes (NewParser (Streamed c)) (written es) = Ok p1 -> nsteps uuid k p1 os p' -> parse_step uuid p' = Ok None ->
  omap of_parser ups = os.
Proof.
  intros Hr Hc (Hs & Hp & Hpipe & Hb) Hw Hn Hb'.
  destruct (delivers_run _ _ _ _ _ Hr Hpipe [] [] (delivers_start c t now) (CreateConnectionHandler_ok c t now Hc))
    as (_ & _ & lost & Hparsed & Hl).
  assert (Hlost : lost = []) by (destruct Hl as [Hl|Hl]; [congruence|]; unfold in_hand in Hl; by rewrite Hs in Hl).
  rewrite Hp, Hlost in Hparsed. cbn [app] in Hparsed. rewrite app_nil_r in Hparsed.
  by destruct (parsed_blocked _ _ _ _ _ _ _ _ _ Hparsed Hb Hw Hn Hb').
Qed.

Lemma written_all es : Forall (fun d => blank d = false) (segments es) -> written es = segments es.
Proof.
  unfold written. induction 1 as [|d ds Hd _ IH]; [done|]. rewrite filter_cons, Hd. cbn. by rewrite IH.
Qed.

Lemma datagram_not_blank line lines b : blank (datagram line lines b) = false.
Proof.
  unfold datagram, blank. cbn [lines_text]. rewrite !sforall_app. change (sforall _ CRLF) with false.
  by destruct (sforall _ line).
Qed.

Lemma renders_not_blank n texts outs : renders_all uuid n texts outs -> Forall (fun d => blank d = false) texts.
Proof.
  induction 1 as [|n msg text out texts outs Hr _ IH]; [done|]. constructor; [|done].
  destruct (renders_parts _ _ _ _ _ Hr) as (line & lines & ? & ? & _ & _ & -> & _). apply datagram_not_blank.
Qed.

(** Only the parser can panic. *)
Lemma step_panic_parses h e : handler_ok h -> is_panic (step h e) = true -> e = Parses.
Proof.
  intros Hh. unfold handler_step.
  destruct e as [r| | | |now|now| | | | | |]; try done.
  - destruct (reader h) eqn:Er; try done. assert (Hp : pipe_closed (life h) = false) by (rewrite (ok_pipe _ Hh); by rewrite Er).
    assert (Hst := ok_stopped _ Hh). destruct r as [d| |e]; try done.
    destruct (open (conn h) && _)%bool; [|done]. unfold on_read. destruct (blank d); [done|].
    unfold run_Write, Write. rewrite Hst, Hp. cbn. destruct (streamed _); [done|]. by destruct (getBodyLength d).
  - destruct (server h); try done. by destruct (take_outcome (life h)) as [[]|].
  - by destruct (server h), (reader h).
  - by destruct (server h).
  - destruct (server h); try done. destruct (exTimer h); [|done]. by destruct (_ <=? _)%Z.
  - by destruct (server h), (cancel h).
  - by destruct (server h), (reader h).
  - by destruct (reader h), (cancel h).
  - by destruct (reader h).
  - by destruct (reader h), (at_parse (life h)).
Qed.

(** What goes up is what the server has in hand. *)
Lemma handler_up h e h' x :
  step h e = Ok (Some (h', Some x)) ->
  exists now, e = PassesUp now /\ match server h with PassMessage _ | PassError _ => True | _ => False end.
Proof.
  unfold handler_step. intros H. destruct e as [r| | | |now|now| | | | | |]; try done.
  - destruct (reader h); try done. destruct r; [destruct (open (conn h) && _)%bool; [|done]|..];
      by apply bind_ok in H as (h1 & _ & H).
  - by apply bind_ok in H as ([l|] & _ & H).
  - destruct (server h); try done. by destruct (take_outcome (life h)) as [[]|].
  - by destruct (server h), (reader h).
  - exists now. by destruct (server h).
  - destruct (server h); try done. destruct (exTimer h); [|done]. by destruct (_ <=? _)%Z.
  - by destruct (server h), (cancel h).
  - by destruct (server h), (reader h).
  - by destruct (reader h), (cancel h).
  - by destruct (reader h).
  - by destruct (reader h), (at_parse (life h)).
Qed.

(** A parser that waits for a server that has gone. *)
Record abandoned (h : connectionHandler) (os : list outcome) : Prop := {
  ab_server : server h = ServerGone;
  ab_pending : pending (life h) = os;
  ab_some : os <> [];
  ab_parse : at_parse (life h) <> Ended;
  ab_reader : reader h <> ReaderGone
}.

Lemma abandoned_step h e h' up os :
  abandoned h os -> step h e = Ok (Some (h', up)) -> abandoned h' os /\ up = None.
Proof.
  intros [Hs Hp Ho Ha Hr] H. pose proof H as Hstep.
  destruct e as [r| | | |now|now| | | | | |]; unfold handler_step in H; rewrite ?Hs in H; try done.
  - apply Reads_step in Hstep as (Hrd & Hon & ->). split; [|done]. destruct r as [d| |e]; cbn in Hon;
      [|by injection Hon as <-|by injection Hon as <-]. destruct (blank d); [by injection Hon as <-|].
    destruct (run_Write (life h) d) as [[n l]| |] eqn:Ew; [|by injection Hon as <-|done]. injection Hon as <-.
    assert (Hl : pending l = pending (life h) /\ at_parse l = at_parse (life h)).
    { revert Ew. unfold run_Write. destruct (pipe_closed _ && _)%bool.
      - destruct (streamed _); [done|]. destruct (getBodyLength d); [done|]. by intros [= _ <-].
      - destruct (Write _ _) as [[m p']| |]; try done. cbn. by intros [= _ <-]. }
    destruct Hl as [Hl1 Hl2]. split; cbn; [done|by rewrite Hl1|done|by rewrite Hl2|done].
  - apply bind_ok in H as ([l|] & Hgo & H); [|done]. unfold go_step in Hgo. rewrite Hp in Hgo.
    destruct (at_parse (life h)), os; done.
  - destruct (reader h) eqn:Er; try done; destruct (cancel h); try done; by injection H as <- <-.
  - destruct (reader h) eqn:Er; try done. injection H as <- <-. split; [|done].
    split; cbn; try done. unfold handler_Close. by destruct (cancel h).
  - destruct (reader h) eqn:Er; try done. destruct (at_parse (life h)) eqn:Ea; try done.
  - injection H as <- <-. split; [|done]. unfold handler_Close. by destruct (cancel h).
Qed.

Lemma abandoned_run h es ups h' os : hrun h es ups h' -> abandoned h os -> abandoned h' os /\ ups = [].
Proof.
  induction 1 as [|h e h1 up es ups h2 Hs _ IH]; intros Ha; [done|].
  destruct (abandoned_step _ _ _ _ _ Ha Hs) as [Ha1 ->]. by destruct (IH Ha1) as [Ha2 ->].
Qed.

(** Expiry is reported, nothing else: the socket stays open and the timer is not set again. *)
Lemma expiry_only_reports h now h' up :
  step h (Expires now) = Ok (Some (h', up)) ->
  conn h' = conn h /\ cancel h' = cancel h /\ exTimer h' = None /\ server h' = PassError ExpiredError.
Proof.
  unfold handler_step. destruct (server h); try done. destruct (exTimer h); [|done].
  destruct (_ <=? _)%Z; [|done]. by intros [= <- <-].
Qed.

(** A segment of NUL bytes is dropped, on a stream too. *)
Lemma nul_segment_dropped h : on_read h (ReadData (String Ascii.zero "")) = Ok h.
Proof. done. Qed.

End Lemmas.

(** ** Examples *)

Definition is_quiet (uuid : nat -> string) (h : connectionHandler) : bool :=
  match server h, pending (life h), pipe_closed (life h), parse_step uuid (prs (life h)) with
  | Selecting, [], false, Ok None => true
  | _, _, _, _ => false
  end.

Lemma is_quiet_spec uuid h : is_quiet uuid h = true -> quiet uuid h.
Proof.
  unfold is_quiet, quiet. destruct (server h), (pending (life h)), (pipe_closed (life h)),
    (parse_step uuid (prs (life h))) as [[|]| |]; done.
Qed.

(** The events that let a handler pass up all it has. *)
Fixpoint passing (uuid : nat -> string) (fuel : nat) (h : connectionHandler) : list event :=
  match fuel with
  | 0%nat => []
  | S fuel =>
      match handler_step uuid h (PassesUp 5), handler_step uuid h Sends, handler_step uuid h Parses with
      | Ok (Some (h', _)), _, _ => PassesUp 5 :: passing uuid fuel h'
      | _, Ok (Some (h', _)), _ => Sends :: passing uuid fuel h'
      | _, _, Ok (Some (h', _)) => Parses :: passing uuid fuel h'
      | _, _, _ => []
      end
  end.

Definition after_events (uuid : nat -> string) (h : connectionHandler) (es : list event) : connectionHandler :=
  match run_events uuid h es with Some (_, h') => h' | None => h end.

(** Reads and everything that follows from each. *)
Fixpoint reading (uuid : nat -> string) (h : connectionHandler) (ds : list string) : list event :=
  match ds with
  | [] => []
  | d :: ds =>
      let es := Reads (ReadData d) :: passing uuid 100 (after_events uuid h [Reads (ReadData d)]) in
      es ++ reading uuid (after_events uuid h es) ds
  end.

Definition sample_base (packet : bool) : baseConn :=
  mkBaseConn (if packet then "udp" else "tcp") "10.0.0.1:5060" "10.0.0.2:40000" packet.
Definition sample_handler (packet : bool) : connectionHandler :=
  CreateConnectionHandler (CreateConnection "k" (sample_base packet)) SockTTL 0.

Definition cut (n : nat) (s : string) : list string := [str_take n s; str_drop n s].

(** A run over the given segments that ends at rest. *)
Lemma sample_reading (packet : bool) (ds : list string) :
  match run_events counted (sample_handler packet) (reading counted (sample_handler packet) ds) with
  | Some (_, h) => is_quiet counted h
                   && bool_decide (segments (reading counted (sample_handler packet) ds) = ds)
  | None => false
  end = true ->
  exists ups h, handler_run counted (sample_handler packet) (reading counted (sample_handler packet) ds) ups h
    /\ quiet counted h /\ segments (reading counted (sample_handler packet) ds) = ds.
Proof.
  destruct (run_events _ _ _) as [[ups h]|] eqn:E; [|done]. intros H. apply andb_prop in H as [Hq Hs].
  exists ups, h. split; [by apply run_events_run|]. split; [by apply is_quiet_spec|]. by apply bool_decide_eq_true in Hs.
Qed.

(** ** Properties *)

(** C13: messages over a stream connection: if rendered requests and responses with exact
    Content-Length arrive cut into any segments (none of them all NUL), then however the
    reader, the parser, the server, the expiry timer and the pool are interleaved, a handler
    that has come to rest has passed up exactly these messages, as the parser reads them
    ([MessageRoundTrip.stream_round_trip]), in their order. *)
Theorem tcp_delivery (uuid : nat -> string) (c : connection) (t now : Z) (es : list event) (ups : list upward)
    (h : connectionHandler) (texts : list string) (outs : list Message) :
  Streamed c = true -> open c = true -> handler_run uuid (CreateConnectionHandler c t now) es ups h ->
  quiet uuid h -> sends_all uuid 0 texts outs -> join "" (segments es) = join "" texts ->
  Forall (fun d => blank d = false) (segments es) -> omap of_parser ups = map Output outs.
Proof.
  intros Hc Ho Hr Hq Hs Hj Hb.
  destruct (streamed_steps uuid 0 texts outs (segments es) Hs (NewParser (Streamed c))) as (p1 & k & Hw & Hn);
    try done. rewrite <- (written_all es Hb) in Hw. by eapply quiet_delivered.
Qed.

Lemma tcp_delivery_witness :
  exists es ups h, handler_run counted (sample_handler false) es ups h /\ omap of_parser ups = map Output wire_outs.
Proof.
  destruct (sample_reading false (cut 200 (join "" wire_texts))) as (ups & h & Hr & Hq & Hs);
    [vm_compute; reflexivity|].
  exists (reading counted (sample_handler false) (cut 200 (join "" wire_texts))), ups, h. split; [exact Hr|].
  apply (tcp_delivery counted (CreateConnection "k" (sample_base false)) SockTTL 0 _ ups h wire_texts wire_outs
           eq_refl eq_refl Hr Hq wire_sends); rewrite Hs.
  - vm_compute. reflexivity.
  - repeat constructor; vm_compute; reflexivity.
Defined.

(** messages over a packet connection: every datagram is one rendered request or
    response, with or without Content-Length; a handler that has come to rest has passed
    up exactly these messages, in their order. *)
Theorem udp_delivery (uuid : nat -> string) (c : connection) (t now : Z) (es : list event) (ups : list upward)
    (h : connectionHandler) (outs : list Message) :
  Streamed c = false -> open c = true -> handler_run uuid (CreateConnectionHandler c t now) es ups h ->
  quiet uuid h -> renders_all uuid 0 (segments es) outs -> omap of_parser ups = map Output outs.
Proof.
  intros Hc Ho Hr Hq Hs. pose proof (renders_not_blank _ _ _ _ Hs) as Hb.
  destruct (datagrams_steps uuid 0 (segments es) outs Hs (NewParser (Streamed c))) as (p1 & k & Hw & Hn);
    [by rewrite Hc|done..|]. rewrite <- (written_all es Hb) in Hw. by eapply quiet_delivered.
Qed.

Lemma udp_delivery_witness :
  exists es ups h, handler_run counted (sample_handler true) es ups h /\ omap of_parser ups = map Output wire_outs.
Proof.
  destruct (sample_reading true wire_texts) as (ups & h & Hr & Hq & Hs); [vm_compute; reflexivity|].
  exists (reading counted (sample_handler true) wire_texts), ups, h. split; [exact Hr|].
  apply (udp_delivery counted (CreateConnection "k" (sample_base true)) SockTTL 0 _ ups h wire_outs
           eq_refl eq_refl Hr Hq). rewrite Hs. apply sends_all_renders, wire_sends.
Defined.

(** A run whose end passes a test. *)
Lemma sample_run_end (es : list event) (good : list upward -> connectionHandler -> bool) :
  match run_events counted (sample_handler false) es with Some (ups, h) => good ups h | None => false end = true ->
  exists ups h, handler_run counted (sample_handler false) es ups h /\ good ups h = true.
Proof.
  destruct (run_events counted (sample_handler false) es) as [[ups h]|] eqn:E; [|done].
  intros H. exists ups, h. split; [by apply run_events_run|exact H].
Qed.

(** a handler that is closed while its parser has an outcome to hand over can be left
    by its server alone: from then on, whatever happens, the outcome stays where it is, and
    neither the parser nor the reader ever ends. *)
Theorem closed_handler_leaks (uuid : nat -> string) (h h' : connectionHandler) (es : list event) (ups : list upward)
    (os : list outcome) :
  abandoned h os -> handler_run uuid h es ups h' ->
  ups = [] /\ pending (life h') = os /\ at_parse (life h') <> Ended /\ reader h' <> ReaderGone.
Proof. intros Ha Hr. by destruct (abandoned_run _ _ _ _ _ _ Hr Ha) as [[] ->]. Qed.

Definition leaking_events : list event :=
  [Reads (ReadData ("junk" +:+ CRLF)); Parses; Closes; ServerCancels].

Lemma leaking_run :
  exists h, handler_run counted (sample_handler false) leaking_events [] h
    /\ abandoned h [Errs "%s failed to parse first line of message: %s"].
Proof.
  destruct (sample_run_end leaking_events
    (fun ups h => match ups, server h, pending (life h), at_parse (life h), reader h with
                  | [], ServerGone, [Errs e], Parsing, Reading => String.eqb e "%s failed to parse first line of message: %s"
                  | _, _, _, _, _ => false
                  end)) as (ups & h & Hr & Hg); [vm_compute; reflexivity|].
  destruct ups; [|done]. exists h. split; [exact Hr|].
  destruct (server h) eqn:Es, (pending (life h)) as [|[m|k] [|]] eqn:Ep, (at_parse (life h)) eqn:Ea, (reader h) eqn:Er; try done.
  apply String.eqb_eq in Hg as ->. split; [done..|by rewrite Ea|by rewrite Er].
Qed.

Lemma closed_handler_leaks_witness :
  exists h, handler_run counted (sample_handler false) leaking_events [] h
    /\ forall es ups h', handler_run counted h es ups h' -> reader h' <> ReaderGone.
Proof.
  destruct leaking_run as (h & Hr & Ha). exists h. split; [exact Hr|].
  intros es ups h' Hr'. apply (closed_handler_leaks counted h h' es ups _ Ha Hr').
Defined.
