(* ===== verification/Pool.v ===== *)
(** * Pools of handlers (transport/connection_pool.go, transport/listener_pool.go)

    The two pools of the program are the same text over two kinds of handlers.  A pool
    owns the handlers under their keys, and its goroutine [ListenHandlers] passes up what
    the handlers send, one item at a time, until the pool is cancelled; then it closes the
    handlers, waits for their servers and closes the channels.  What a pool needs of a
    handler is the class [PoolHandler]; ConnPool.v has the
    two instances.

    The handlers are objects: the heap lists all that were ever put, the map refers to
    them by their position.  A [Put] checks the cancellation first and inserts later; the
    two halves are separate events besides the [Put] that runs without interruption. *)

From S2P Require Import Prelude GoStrings.
From Stdlib Require Import Lia.

#[local] Open Scope string_scope.
#[local] Open Scope list_scope.

(** ** What a handler promises to its pool *)

(** [handler_gone]: the server has called [done].  A handler whose server is gone sends
    nothing any more, and closing a handler is one of its events. *)
Class PoolHandler (H Item Ev : Type) := {
  close_handler : H -> H;
  handler_gone : H -> bool;
  step_handler : H -> Ev -> res (option (H * option Item));
  close_event : Ev;
  close_is_event : forall h, step_handler h close_event = Ok (Some (close_handler h, None));
  gone_silent : forall h e h' up, handler_gone h = true -> step_handler h e = Ok (Some (h', up)) ->
    handler_gone h' = true /\ up = None;
  handler_closed : H -> bool;
  close_closes : forall h, handler_closed (close_handler h) = true;
  closed_stays : forall h e h' up, handler_closed h = true -> step_handler h e = Ok (Some (h', up)) ->
    handler_closed h' = true
}.

Section Pool.
Context {H Item Ev : Type} {HP : PoolHandler H Item Ev}.

(** "connection" or "listener" *)
Variable noun : string.

(** [ListenHandlers]: in its select, about to pass an item on, waiting for the handlers,
    behind the closing of the channels. *)
Inductive loop_point : Type :=
  | Listening
  | Passing (x : Item)
  | Releasing
  | Released.

Record pool := mkPool {
  heap : list H;
  handleMap : gmap string nat;
  pcancel : bool;
  loop : loop_point;
  putting : list (string * H)  (* Puts between their check and their insertion *)
}.

Definition CreatePool : pool := mkPool [] ∅ false Listening [].

(** *** The operations *)

Definition pool_get (p : pool) (key : string) : res nat :=
  match handleMap p !! key with
  | Some i => mret i
  | None => Err (noun +:+ " %s not found in the pool")
  end.

Definition closed_error (op : string) : string := "[" +:+ op +:+ " " +:+ noun +:+ "] -> " +:+ noun +:+ " pool closed".
Definition empty_error (op : string) : string := "[" +:+ op +:+ " " +:+ noun +:+ "] -> empty " +:+ noun +:+ " key".

Definition pool_put (p : pool) (key : string) (h : H) : res pool :=
  match pool_get p key with
  | Ok _ => Err "key %s already exists in the pool"
  | _ => mret (mkPool (heap p ++ [h]) (<[key := length (heap p)]> (handleMap p)) (pcancel p) (loop p) (putting p))
  end.

(** The guard that [Put], [Get] and [Del] begin with. *)
Definition guarded {A} (op : string) (p : pool) (key : string) (k : res A) : res A :=
  if pcancel p then Err (closed_error op)
  else if String.eqb key "" then Err (empty_error op)
  else k.

Definition Put (p : pool) (key : string) (h : H) : res pool := guarded "Put" p key (pool_put p key h).

Definition Get (p : pool) (key : string) : res nat := guarded "Get" p key (pool_get p key).

Definition pool_del (p : pool) (key : string) : res pool :=
  match pool_get p key with
  | Ok i => mret (mkPool (alter close_handler i (heap p)) (delete key (handleMap p)) (pcancel p) (loop p) (putting p))
  | _ => Err "key %s already exists in the pool"
  end.

Definition Del (p : pool) (key : string) : res pool := guarded "Del" p key (pool_del p key).

(** The handlers of the map are closed one after the other. *)
Definition delAll (p : pool) : pool :=
  mkPool (foldr (fun i hp => alter close_handler i hp) (heap p) (map snd (map_to_list (handleMap p))))
    ∅ (pcancel p) (loop p) (putting p).

Definition DelAll (p : pool) : res pool :=
  if pcancel p then Err (closed_error "DelAll") else mret (delAll p).

(** [range]: the order in which the map is walked.  The slice is made with its final
    length and then appended to: its first half are nil values. *)
Definition pool_all (range : gmap string nat -> list (string * nat)) (p : pool) : list (option nat) :=
  replicate (size (handleMap p)) None ++ map (fun kv => Some kv.2) (range (handleMap p)).

Definition All (range : gmap string nat -> list (string * nat)) (p : pool) : list (option nat) :=
  if pcancel p then [] else pool_all range p.

Definition allKeys (range : gmap string nat -> list (string * nat)) (p : pool) : list string :=
  replicate (size (handleMap p)) "" ++ map fst (range (handleMap p)).

Definition Length (p : pool) : nat := size (handleMap p).

(** *** The events *)

Inductive pool_event : Type :=
  | Puts (key : string) (h : H)
  | PutChecks (key : string) (h : H)
  | PutInserts
  | Dels (key : string)
  | DelsAll
  | Cancels
  | Handles (i : nat) (e : Ev)  (* a handler moves, perhaps to meet the loop *)
  | PassesOn                    (* the loop meets the layer above *)
  | SeesCancel
  | Releases.

(** What is seen of an event: an item taken from a handler, or passed up. *)
Inductive pool_out : Type :=
  | Took (i : nat) (x : Item)
  | Passed (x : Item).

Definition with_loop (p : pool) (l : loop_point) : pool :=
  mkPool (heap p) (handleMap p) (pcancel p) l (putting p).
Definition with_putting (p : pool) (l : list (string * H)) : pool :=
  mkPool (heap p) (handleMap p) (pcancel p) (loop p) l.

(** What a caller sees of an error is not part of the state. *)
Definition or_same (p : pool) (r : res pool) : pool := match r with Ok p' => p' | _ => p end.

Definition pool_step (p : pool) (e : pool_event) : res (option (pool * option pool_out)) :=
  match e with
  | Puts key h => mret (Some (or_same p (Put p key h), None))
  | PutChecks key h =>
      mret (Some (match guarded "Put" p key (mret tt) with
                  | Ok _ => with_putting p (putting p ++ [(key, h)])
                  | _ => p
                  end, None))
  | PutInserts =>
      match putting p with
      | (key, h) :: l => mret (Some (with_putting (or_same p (pool_put p key h)) l, None))
      | [] => mret None
      end
  | Dels key => mret (Some (or_same p (Del p key), None))
  | DelsAll => mret (Some (or_same p (DelAll p), None))
  | Cancels => mret (Some (mkPool (heap p) (handleMap p) true (loop p) (putting p), None))
  | Handles i e =>
      match heap p !! i with
      | None => mret None
      | Some h =>
          s ← step_handler h e;
          match s with
          | None => mret None
          | Some (h', up) =>
              let p' := mkPool (<[i := h']> (heap p)) (handleMap p) (pcancel p) (loop p) (putting p) in
              match up, loop p with
              | None, _ => mret (Some (p', None))
              | Some x, Listening => mret (Some (with_loop p' (Passing x), Some (Took i x)))
              | Some _, Released => Panic SendOnClosed
              | Some _, _ => mret None
              end
          end
      end
  | PassesOn =>
      match loop p with
      | Passing x => mret (Some (with_loop p Listening, Some (Passed x)))
      | _ => mret None
      end
  | SeesCancel =>
      match loop p with
      | Listening | Passing _ => if pcancel p then mret (Some (with_loop (delAll p) Releasing, None)) else mret None
      | _ => mret None
      end
  | Releases =>
      match loop p with
      | Releasing => if forallb handler_gone (heap p) then mret (Some (with_loop p Released, None)) else mret None
      | _ => mret None
      end
  end.

Inductive pool_run : pool -> list pool_event -> list pool_out -> pool -> Prop :=
  | prun_nil p : pool_run p [] [] p
  | prun_cons p e p1 out es outs p2 :
      pool_step p e = Ok (Some (p1, out)) -> pool_run p1 es outs p2 ->
      pool_run p (e :: es) (option_list out ++ outs) p2.

(** Every [Put] of the run is uninterrupted. *)
Definition uninterrupted (e : pool_event) : bool :=
  match e with PutChecks _ _ | PutInserts => false | _ => true end.

(** *** The specification: a finite map *)

Definition view (p : pool) : gmap string H := omap (fun i => heap p !! i) (handleMap p).

#[local] Arguments view : simpl never.

Record pool_ok (p : pool) : Prop := {
  ok_refs : forall k i, handleMap p !! k = Some i -> (i < length (heap p))%nat;
  ok_inj : forall k1 k2 i, handleMap p !! k1 = Some i -> handleMap p !! k2 = Some i -> k1 = k2
}.

(** ** Lemmas *)

Lemma CreatePool_ok : pool_ok CreatePool.
Proof. split; intros *; cbn [handleMap CreatePool]; by rewrite lookup_empty. Qed.

Lemma view_lookup p k : view p !! k = handleMap p !! k ≫= fun i => heap p !! i.
Proof. unfold view. by rewrite lookup_omap. Qed.

Lemma view_None p k : pool_ok p -> view p !! k = None <-> handleMap p !! k = None.
Proof.
  intros Hp. rewrite view_lookup. destruct (handleMap p !! k) as [i|] eqn:E; cbn; [|done].
  destruct (lookup_lt_is_Some_2 _ _ (ok_refs _ Hp _ _ E)) as [h ->]. done.
Qed.

Lemma pool_get_spec p key :
  match pool_get p key with
  | Ok i => handleMap p !! key = Some i
  | Err _ => handleMap p !! key = None
  | Panic _ => False
  end.
Proof. unfold pool_get. by destruct (handleMap p !! key). Qed.

Lemma pool_put_spec p key h :
  pool_ok p ->
  match pool_put p key h with
  | Ok p' => view p !! key = None /\ view p' = <[key := h]> (view p) /\ pool_ok p'
             /\ heap p' = heap p ++ [h] /\ loop p' = loop p /\ pcancel p' = pcancel p /\ putting p' = putting p
  | Err _ => is_Some (view p !! key)
  | Panic _ => False
  end.
Proof.
  intros Hp. unfold pool_put. pose proof (pool_get_spec p key) as Hg.
  destruct (pool_get p key) as [i|e|]; [| |done].
  - rewrite view_lookup, Hg. cbn. apply lookup_lt_is_Some_2, (ok_refs _ Hp _ _ Hg).
  - cbn. split; [by apply view_None|]. split; [|split; [|done]].
    + apply map_eq. intros k. rewrite view_lookup. cbn. destruct (decide (k = key)) as [->|Hk].
      * rewrite !lookup_insert_eq. cbn. by rewrite lookup_app_r, Nat.sub_diag by lia.
      * rewrite !lookup_insert_ne, view_lookup by done. destruct (handleMap p !! k) as [i|] eqn:Ek; [|done].
        cbn. by rewrite lookup_app_l by by eapply ok_refs.
    + split; cbn.
      * intros k i. rewrite length_app. cbn. destruct (decide (k = key)) as [->|Hk].
        -- rewrite lookup_insert_eq. intros [= <-]. lia.
        -- rewrite lookup_insert_ne by done. intros Hi. apply (ok_refs _ Hp) in Hi. lia.
      * intros k1 k2 i. destruct (decide (k1 = key)) as [->|H1], (decide (k2 = key)) as [->|H2];
          rewrite ?lookup_insert_eq, ?lookup_insert_ne by done; try done.
        -- intros [= <-] Hi. apply (ok_refs _ Hp) in Hi. lia.
        -- intros Hi [= <-]. apply (ok_refs _ Hp) in Hi. lia.
        -- apply (ok_inj _ Hp).
Qed.

Lemma pool_del_spec p key :
  pool_ok p ->
  match pool_del p key with
  | Ok p' => view p' = delete key (view p) /\ pool_ok p'
             /\ (exists i, handleMap p !! key = Some i /\ heap p' = alter close_handler i (heap p))
             /\ loop p' = loop p /\ pcancel p' = pcancel p /\ putting p' = putting p
  | Err _ => view p !! key = None
  | Panic _ => False
  end.
Proof.
  intros Hp. unfold pool_del. pose proof (pool_get_spec p key) as Hg.
  destruct (pool_get p key) as [i|e|]; [| |done]; [|by apply view_None].
  cbn. split; [|split; [|split; [by eauto|done]]].
  - apply map_eq. intros k. rewrite view_lookup. cbn. destruct (decide (k = key)) as [->|Hk].
    + by rewrite !lookup_delete_eq.
    + rewrite !lookup_delete_ne, view_lookup by done. destruct (handleMap p !! k) as [j|] eqn:Ej; [|done].
      cbn. rewrite list_lookup_alter_ne; [done|]. intros ->. by apply Hk, (ok_inj _ Hp _ _ j).
  - split; cbn.
    + intros k j. rewrite length_alter. intros [_ Hj]%lookup_delete_Some. by eapply ok_refs.
    + intros k1 k2 j [_ H1]%lookup_delete_Some [_ H2]%lookup_delete_Some. by eapply ok_inj.
Qed.

Lemma delAll_ok p : pool_ok (delAll p).
Proof. split; intros *; cbn [handleMap delAll]; by rewrite lookup_empty. Qed.

Lemma delAll_view p : view (delAll p) = ∅.
Proof. apply map_eq. intros k. rewrite view_lookup. cbn [handleMap delAll]. by rewrite !lookup_empty. Qed.

Lemma foldr_close_length (l : list nat) (hp : list H) :
  length (foldr (fun i hp => alter close_handler i hp) hp l) = length hp.
Proof. induction l as [|i l IH]; [done|]. cbn. by rewrite length_alter. Qed.

(** The handlers of the map are closed, each once, the others are left alone. *)
Lemma foldr_close_lookup (l : list nat) (hp : list H) i :
  NoDup l ->
  foldr (fun i hp => alter close_handler i hp) hp l !! i
  = if decide (i ∈ l) then close_handler <$> hp !! i else hp !! i.
Proof.
  induction 1 as [|j l Hj _ IH]; [done|]. cbn [foldr]. destruct (decide (i = j)) as [->|Hi].
  - rewrite list_lookup_alter_eq, IH. rewrite decide_False by done. by rewrite decide_True by left.
  - rewrite list_lookup_alter_ne by done. rewrite IH.
    destruct (decide (i ∈ l)) as [Hl|Hl]; [by rewrite decide_True by by right|].
    rewrite decide_False; [done|]. intros [?|?]%elem_of_cons; done.
Qed.

Lemma refs_NoDup p : pool_ok p -> NoDup (map snd (map_to_list (handleMap p))).
Proof.
  intros Hp. apply NoDup_fmap_2_strong; [|apply NoDup_map_to_list].
  intros [k1 i] [k2 j] H1 H2 He. cbn in He. subst. apply elem_of_map_to_list in H1, H2.
  by rewrite (ok_inj _ Hp k1 k2 j).
Qed.

Lemma in_refs p i : i ∈ map snd (map_to_list (handleMap p)) <-> exists k, handleMap p !! k = Some i.
Proof.
  rewrite list_elem_of_fmap. split.
  - intros ([k j] & -> & Hk%elem_of_map_to_list). by exists k.
  - intros [k Hk%elem_of_map_to_list]. by exists (k, i).
Qed.

Lemma delAll_closed p k i :
  pool_ok p -> handleMap p !! k = Some i -> heap (delAll p) !! i = close_handler <$> heap p !! i.
Proof.
  intros Hp Hk. cbn. rewrite foldr_close_lookup by by apply refs_NoDup.
  by rewrite decide_True by (apply in_refs; eauto).
Qed.

Lemma delAll_other p i :
  pool_ok p -> (forall k, handleMap p !! k <> Some i) -> heap (delAll p) !! i = heap p !! i.
Proof.
  intros Hp Hk. cbn. rewrite foldr_close_lookup by by apply refs_NoDup.
  rewrite decide_False; [done|]. intros [k Hi]%in_refs. by apply (Hk k).
Qed.

Lemma guarded_ok {A} op p key (k : res A) a :
  guarded op p key k = Ok a -> pcancel p = false /\ key <> "" /\ k = Ok a.
Proof.
  unfold guarded. destruct (pcancel p); [done|]. destruct (String.eqb_spec key ""); [done|]. done.
Qed.

(** Opening a result that is kept or ignored. *)
Lemma Puts_cases p key h :
  pool_ok p ->
  or_same p (Put p key h) = p
  \/ (pcancel p = false /\ pool_put p key h = Ok (or_same p (Put p key h))).
Proof.
  intros Hp. destruct (Put p key h) as [p'| |] eqn:E; [right|by left..]. cbn.
  unfold Put in E. apply guarded_ok in E as (? & _ & ?). done.
Qed.

Lemma Dels_cases p key :
  or_same p (Del p key) = p \/ (pcancel p = false /\ pool_del p key = Ok (or_same p (Del p key))).
Proof.
  destruct (Del p key) as [p'| |] eqn:E; [right|by left..]. cbn.
  unfold Del in E. apply guarded_ok in E as (? & _ & ?). done.
Qed.

Lemma with_heap_ok p i h : pool_ok p -> forall l q, pool_ok (mkPool (<[i := h]> (heap p)) (handleMap p) (pcancel p) l q).
Proof.
  intros Hp l q. split; cbn; [|by apply ok_inj]. intros k j. rewrite length_insert. by apply ok_refs.
Qed.

Lemma put_keeps_ok p key h p' : pool_put p key h = Ok p' -> pool_ok p -> pool_ok p'.
Proof. intros E Hp. pose proof (pool_put_spec p key h Hp) as Hs. rewrite E in Hs. tauto. Qed.

Lemma del_keeps_ok p key p' : pool_del p key = Ok p' -> pool_ok p -> pool_ok p'.
Proof. intros E Hp. pose proof (pool_del_spec p key Hp) as Hs. rewrite E in Hs. tauto. Qed.

Lemma with_loop_ok p l : pool_ok p -> pool_ok (with_loop p l).
Proof. by intros [? ?]; split. Qed.
Lemma with_putting_ok p l : pool_ok p -> pool_ok (with_putting p l).
Proof. by intros [? ?]; split. Qed.

Lemma pool_ok_step p e p' out : pool_step p e = Ok (Some (p', out)) -> pool_ok p -> pool_ok p'.
Proof.
  intros H1 Hp. destruct e as [key h|key h| |key| | |i e| | |]; cbn [pool_step] in H1.
  - injection H1 as <- <-. destruct (Puts_cases p key h Hp) as [->|[_ E]]; [done|]. by eapply put_keeps_ok.
  - injection H1 as <- <-. destruct (guarded _ _ _ _); [by apply with_putting_ok|done..].
  - destruct (putting p) as [|[key h] l]; [done|]. injection H1 as <- <-. apply with_putting_ok.
    destruct (pool_put p key h) eqn:E; [by eapply put_keeps_ok|done..].
  - injection H1 as <- <-. destruct (Dels_cases p key) as [->|[_ E]]; [done|]. by eapply del_keeps_ok.
  - injection H1 as <- <-. unfold DelAll. destruct (pcancel p); [done|]. apply delAll_ok.
  - injection H1 as <- <-. by destruct Hp; split.
  - destruct (heap p !! i) as [h|] eqn:Eh; [|done]. apply bind_ok in H1 as ([[h' up]|] & _ & H1); [|done].
    destruct up as [x|]; [destruct (loop p); try done|]; injection H1 as <- <-; by apply (with_heap_ok p).
  - destruct (loop p); try done. injection H1 as <- <-. by apply with_loop_ok.
  - destruct (loop p); try done; (destruct (pcancel p); [|done]); injection H1 as <- <-;
      apply with_loop_ok, delAll_ok.
  - destruct (loop p); try done. destruct (forallb _ _); [|done]. injection H1 as <- <-. by apply with_loop_ok.
Qed.

Lemma pool_ok_run p es outs p' : pool_run p es outs p' -> pool_ok p -> pool_ok p'.
Proof. induction 1; eauto using pool_ok_step. Qed.

(** What holds of the handlers that are put and is kept by their steps, holds of all. *)
Definition put_handler (e : pool_event) : option H :=
  match e with Puts _ h | PutChecks _ h => Some h | _ => None end.

Lemma heap_forall_step (P : H -> Prop) p e p' out :
  (forall h ev h' up, P h -> step_handler h ev = Ok (Some (h', up)) -> P h') ->
  (forall h, put_handler e = Some h -> P h) ->
  Forall P (heap p) /\ Forall (fun kh => P kh.2) (putting p) -> pool_step p e = Ok (Some (p', out)) ->
  Forall P (heap p') /\ Forall (fun kh => P kh.2) (putting p').
Proof.
  intros Hstep Hnew [Hh Hp] H1.
  assert (Hclose : forall i hp, Forall P hp -> Forall P (alter close_handler i hp)).
  { intros i hp Hf. apply Forall_alter; [done|]. intros h _ Hx. exact (Hstep _ _ _ _ Hx (close_is_event h)). }
  assert (Hall : forall l, Forall P (foldr (fun i hp => alter close_handler i hp) (heap p) l))
    by (induction l; cbn; auto).
  assert (Hput : forall key h, P h -> Forall P (heap (or_same p (pool_put p key h)))
                 /\ putting (or_same p (pool_put p key h)) = putting p).
  { intros key h Hx. unfold pool_put. destruct (pool_get p key); cbn; [done| |]; split; try done;
      (apply Forall_app; split; [done|by constructor]). }
  destruct e as [key h|key h| |key| | |i e| | |]; cbn [pool_step put_handler] in H1, Hnew.
  - injection H1 as <- <-. unfold Put, guarded. destruct (pcancel p); [done|]. destruct (String.eqb key ""); [done|].
    destruct (Hput key h (Hnew _ eq_refl)) as [H1 ->]. by split.
  - injection H1 as <- <-. destruct (guarded _ _ _ _); try done. split; [done|]. cbn.
    apply Forall_app. split; [done|]. constructor; [by apply Hnew|done].
  - destruct (putting p) as [|[key h] l] eqn:El; [done|]. injection H1 as <- <-. inversion Hp as [|? ? Hx Hl]; subst.
    split; [by apply Hput|done].
  - injection H1 as <- <-. unfold Del, guarded, pool_del. destruct (pcancel p); [done|].
    destruct (String.eqb key ""); [done|]. destruct (pool_get p key); [|done..]. cbn. split; [by apply Hclose|done].
  - injection H1 as <- <-. unfold DelAll. destruct (pcancel p); [done|]. cbn. by split.
  - by injection H1 as <- <-.
  - destruct (heap p !! i) as [h|] eqn:Eh; [|done]. apply bind_ok in H1 as ([[h' up]|] & Hs & H1); [|done].
    assert (Forall P (<[i := h']> (heap p))).
    { apply Forall_insert; [done|]. rewrite Forall_lookup in Hh. eauto. }
    destruct up as [x|]; [destruct (loop p); try done|]; by injection H1 as <- <-.
  - destruct (loop p); try done. by injection H1 as <- <-.
  - destruct (loop p); try done; (destruct (pcancel p); [|done]); injection H1 as <- <-; cbn; by split.
  - destruct (loop p); try done. destruct (forallb _ _); [|done]. by injection H1 as <- <-.
Qed.

Lemma heap_forall_run (P : H -> Prop) p es outs p' :
  (forall h ev h' up, P h -> step_handler h ev = Ok (Some (h', up)) -> P h') ->
  pool_run p es outs p' -> Forall (fun e => forall h, put_handler e = Some h -> P h) es ->
  Forall P (heap p) /\ Forall (fun kh => P kh.2) (putting p) ->
  Forall P (heap p') /\ Forall (fun kh => P kh.2) (putting p').
Proof.
  intros Hstep. induction 1 as [|p e p1 out es outs p2 Hs _ IH]; [done|]. intros [He Hes]%Forall_cons Hp.
  apply IH; [done|]. by eapply heap_forall_step.
Qed.

(** *** Closed channels *)

Record release_ok (p : pool) : Prop := {
  rel_cancel : loop p = Releasing \/ loop p = Released -> pcancel p = true;
  rel_gone : loop p = Released -> Forall (fun h => handler_gone h = true) (heap p);
  rel_putting : putting p = []
}.

Lemma release_ok_same p p' :
  release_ok p -> loop p' = loop p -> (pcancel p = true -> pcancel p' = true) -> putting p' = putting p ->
  (pcancel p = true -> heap p' = heap p \/ loop p <> Released) ->
  release_ok p'.
Proof.
  intros [Hc Hg Hq] Hl Hpc Hp Hh. split; rewrite ?Hl, ?Hp; [by auto| |done].
  intros Hr. destruct (Hh (Hc (or_intror Hr))) as [->|]; [auto|done].
Qed.

Lemma release_ok_step p e p' out :
  pool_step p e = Ok (Some (p', out)) -> uninterrupted e = true -> pool_ok p -> release_ok p -> release_ok p'.
Proof.
  intros H1 Hu Hok Hp. pose proof Hp as [Hc Hg Hq].
  destruct e as [key h|key h| |key| | |i e| | |]; cbn [pool_step] in H1; try done.
  - injection H1 as <- <-. destruct (Puts_cases p key h Hok) as [->|[Hn E]]; [done|].
    pose proof (pool_put_spec p key h Hok) as Hs. rewrite E in Hs. destruct Hs as (_ & _ & _ & _ & Hl & Hpc & Hpp).
    eapply release_ok_same; [exact Hp|done|congruence|done|congruence].
  - injection H1 as <- <-. destruct (Dels_cases p key) as [->|[Hn E]]; [done|].
    pose proof (pool_del_spec p key Hok) as Hs. rewrite E in Hs. destruct Hs as (_ & _ & _ & Hl & Hpc & Hpp).
    eapply release_ok_same; [exact Hp|done|congruence|done|congruence].
  - injection H1 as <- <-. unfold DelAll. destruct (pcancel p) eqn:Ec; [done|].
    eapply release_ok_same; [exact Hp|done|done|done|congruence].
  - injection H1 as <- <-. by eapply release_ok_same; [exact Hp|..]; auto.
  - destruct (heap p !! i) as [h|] eqn:Eh; [|done].
    apply bind_ok in H1 as ([[h' up]|] & Hs & H1); [|done]. destruct up as [x|].
    + destruct (loop p) eqn:El; try done. injection H1 as <- <-. by split; cbn; [intros [?|?]|..].
    + injection H1 as <- <-. split; cbn; [done| |done]. intros Hr. specialize (Hg Hr).
      apply Forall_insert; [done|]. rewrite Forall_lookup in Hg.
      by destruct (gone_silent _ _ _ _ (Hg _ _ Eh) Hs).
  - destruct (loop p) eqn:El; try done. injection H1 as <- <-. by split; cbn; [intros [?|?]|..].
  - destruct (loop p) eqn:El; try done; destruct (pcancel p) eqn:Ec; try done; injection H1 as <- <-;
      (split; cbn; [done..|by rewrite Hq]).
  - destruct (loop p) eqn:El; try done. destruct (forallb _ _) eqn:Ef; [|done]. injection H1 as <- <-.
    split; cbn; [auto| |done]. intros _. apply Forall_forall. intros h Hh.
    eapply forallb_forall in Ef; [exact Ef|by apply list_elem_of_In].
Qed.

Lemma release_ok_run p es outs p' :
  pool_run p es outs p' -> forallb uninterrupted es = true -> pool_ok p -> release_ok p -> release_ok p'.
Proof.
  induction 1; [done|]. cbn. intros [Hu Hus]%andb_prop Hok Hr.
  eauto using pool_ok_step, release_ok_step.
Qed.

(** *** What is passed up *)

Definition taken (outs : list pool_out) : list Item :=
  omap (fun o => match o with Took _ x => Some x | _ => None end) outs.
Definition passed (outs : list pool_out) : list Item :=
  omap (fun o => match o with Passed x => Some x | _ => None end) outs.
Definition taken_from (i : nat) (outs : list pool_out) : list Item :=
  omap (fun o => match o with Took j x => if decide (j = i) then Some x else None | _ => None end) outs.

Definition in_passing (p : pool) : list Item := match loop p with Passing x => [x] | _ => [] end.

(** The loop has been left. *)
Definition loop_over (p : pool) : bool := match loop p with Releasing | Released => true | _ => false end.

Lemma loop_over_step p e p' out :
  pool_step p e = Ok (Some (p', out)) -> loop_over p = true -> loop_over p' = true /\ out = None.
Proof.
  unfold loop_over. intros H1 Ho. destruct e as [key h|key h| |key| | |i e| | |]; cbn [pool_step] in H1.
  - injection H1 as <- <-. unfold Put, guarded, pool_put. destruct (pcancel p); [done|]. destruct (String.eqb key ""); [done|].
    by destruct (pool_get p key).
  - injection H1 as <- <-. by destruct (guarded _ _ _ _).
  - destruct (putting p) as [|[key h] l]; [done|]. injection H1 as <- <-. cbn. unfold pool_put. by destruct (pool_get p key).
  - injection H1 as <- <-. unfold Del, guarded, pool_del. destruct (pcancel p); [done|]. destruct (String.eqb key ""); [done|].
    by destruct (pool_get p key).
  - injection H1 as <- <-. unfold DelAll. by destruct (pcancel p).
  - by injection H1 as <- <-.
  - destruct (heap p !! i) as [h|]; [|done]. apply bind_ok in H1 as ([[h' up]|] & _ & H1); [|done].
    destruct up as [x|]; [by destruct (loop p)|]. by injection H1 as <- <-.
  - by destruct (loop p).
  - by destruct (loop p).
  - destruct (loop p); try done. destruct (forallb _ _); [|done]. by injection H1 as <- <-.
Qed.

Lemma loop_over_run p es outs p' : pool_run p es outs p' -> loop_over p = true -> loop_over p' = true /\ outs = [].
Proof.
  induction 1 as [|p e p1 out es outs p2 Hs _ IH]; intros Ho; [done|].
  destruct (loop_over_step _ _ _ _ Hs Ho) as [Ho1 ->]. by destruct (IH Ho1) as [? ->].
Qed.

(** One step of the queue of length one that the loop is. *)
Lemma in_passing_step p e p1 out :
  pool_step p e = Ok (Some (p1, out)) ->
  in_passing p ++ taken (option_list out) = passed (option_list out) ++ in_passing p1
  \/ (loop_over p1 = true /\ out = None).
Proof.
  unfold in_passing. intros H1. destruct e as [key h|key h| |key| | |i e| | |]; cbn [pool_step] in H1.
  - left. injection H1 as <- <-. cbn. rewrite app_nil_r.
    unfold Put, guarded, pool_put. destruct (pcancel p); [done|]. destruct (String.eqb key ""); [done|].
    by destruct (pool_get p key).
  - left. injection H1 as <- <-. cbn. rewrite app_nil_r. by destruct (guarded _ _ _ _).
  - left. destruct (putting p) as [|[key h] l]; [done|]. injection H1 as <- <-. cbn. rewrite app_nil_r.
    unfold pool_put. by destruct (pool_get p key).
  - left. injection H1 as <- <-. cbn. rewrite app_nil_r.
    unfold Del, guarded, pool_del. destruct (pcancel p); [done|]. destruct (String.eqb key ""); [done|].
    by destruct (pool_get p key).
  - left. injection H1 as <- <-. cbn. rewrite app_nil_r. unfold DelAll. by destruct (pcancel p).
  - left. injection H1 as <- <-. cbn. by rewrite app_nil_r.
  - left. destruct (heap p !! i) as [h|]; [|done]. apply bind_ok in H1 as ([[h' up]|] & _ & H1); [|done].
    destruct up as [x|]; [destruct (loop p) eqn:El; try done|]; injection H1 as <- <-; cbn; [done|by rewrite app_nil_r].
  - left. destruct (loop p) eqn:El; try done. by injection H1 as <- <-.
  - right. destruct (loop p) eqn:El; try done; (destruct (pcancel p); [|done]); by injection H1 as <- <-.
  - right. destruct (loop p) eqn:El; try done. destruct (forallb _ _); [|done]. by injection H1 as <- <-.
Qed.

Lemma pool_fifo p es outs p' :
  pool_run p es outs p' ->
  exists lost, in_passing p ++ taken outs = passed outs ++ lost ++ in_passing p'
    /\ (loop_over p' = false -> lost = []).
Proof.
  induction 1 as [p|p e p1 out es outs p2 Hs Hr IH].
  - exists []. cbn. by rewrite app_nil_r.
  - unfold taken, passed. rewrite !omap_app. fold (taken (option_list out)) (taken outs) (passed (option_list out)) (passed outs).
    destruct (in_passing_step _ _ _ _ Hs) as [He|[Ho ->]].
    + destruct IH as (lost & IH & Hl). exists lost. split; [|done].
      by rewrite app_assoc, He, <- !app_assoc, IH.
    + destruct (loop_over_run _ _ _ _ Hr Ho) as [Ho2 ->]. cbn. exists (in_passing p).
      assert (Hn : in_passing p2 = []) by (unfold in_passing, loop_over in *; by destruct (loop p2)).
      rewrite Hn, !app_nil_r. split; [done|]. intros Hf. by rewrite Hf in Ho2.
Qed.

(** *** The part of one handler in a run *)

Inductive item_run : H -> list Ev -> list Item -> H -> Prop :=
  | irun_nil h : item_run h [] [] h
  | irun_cons h e h1 up es ups h2 :
      step_handler h e = Ok (Some (h1, up)) -> item_run h1 es ups h2 ->
      item_run h (e :: es) (option_list up ++ ups) h2.

Lemma item_run_app h es ups h1 es1 ups1 h2 :
  item_run h es ups h1 -> item_run h1 es1 ups1 h2 -> item_run h (es ++ es1) (ups ++ ups1) h2.
Proof. induction 1; intros; [done|]. cbn. rewrite <- app_assoc. econstructor; eauto. Qed.

Lemma item_run_close h : item_run h [close_event] [] (close_handler h).
Proof.
  exact (irun_cons h close_event (close_handler h) None [] [] (close_handler h) (close_is_event h) (irun_nil _)).
Qed.

(** Events that only close. *)
Definition only_closes (evs : list Ev) : Prop :=
  forall A (f : Ev -> option A), f close_event = None -> omap f evs = [].

(** The events of one handler among those of the pool, through a view that ignores the
    closing. *)
Definition on_handler {A} (i : nat) (f : Ev -> option A) (e : pool_event) : option A :=
  match e with Handles j e => if decide (j = i) then f e else None | _ => None end.

Lemma item_run_alter (i j : nat) h (hp : list H) :
  hp !! i = Some h ->
  exists evs h', alter close_handler j hp !! i = Some h' /\ item_run h evs [] h' /\ only_closes evs.
Proof.
  intros Hh. destruct (decide (i = j)) as [->|Hne].
  - exists [close_event], (close_handler h). rewrite list_lookup_alter_eq, Hh. split; [done|].
    split; [apply item_run_close|]. intros A f Hf. cbn. by rewrite Hf.
  - exists [], h. rewrite list_lookup_alter_ne by done. split; [done|]. by split; [constructor|].
Qed.

Lemma item_run_close_all (i : nat) (l : list nat) : forall h (hp : list H),
  hp !! i = Some h ->
  exists evs h', foldr (fun i hp => alter close_handler i hp) hp l !! i = Some h' /\ item_run h evs [] h'
    /\ only_closes evs.
Proof.
  induction l as [|j l IH]; intros h hp Hh; cbn.
  - exists [], h. split; [done|]. by split; [constructor|].
  - destruct (IH _ _ Hh) as (evs & h1 & H1 & Hr1 & Hc1).
    destruct (item_run_alter i j _ _ H1) as (evs2 & h2 & H2 & Hr2 & Hc2).
    exists (evs ++ evs2), h2. split; [done|]. split; [apply (item_run_app _ _ _ _ _ _ _ Hr1 Hr2)|].
    intros A f Hf. by rewrite omap_app, Hc1, Hc2.
Qed.

Lemma item_run_same (i : nat) h (hp hp' : list H) :
  hp !! i = Some h -> hp' !! i = Some h ->
  exists evs h', hp' !! i = Some h' /\ item_run h evs [] h' /\ only_closes evs.
Proof. intros _ Hh. exists [], h. split; [done|]. by split; [constructor|]. Qed.

Lemma pool_step_handler p e p1 out i h :
  pool_step p e = Ok (Some (p1, out)) -> pool_ok p -> heap p !! i = Some h ->
  exists evs h', heap p1 !! i = Some h' /\ item_run h evs (taken_from i (option_list out)) h'
    /\ forall A (f : Ev -> option A), f close_event = None -> omap f evs = omap (on_handler i f) [e].
Proof.
  intros H1 Hp Hh.
  assert (Happ : forall x, (heap p ++ [x]) !! i = Some h) by (intros x; by apply lookup_app_l_Some).
  destruct e as [key x|key x| |key| | |j e| | |]; cbn [pool_step] in H1.
  - injection H1 as <- <-. eapply item_run_same; [exact Hh|].
    destruct (Puts_cases p key x Hp) as [->|[Hn E]]; [done|].
    pose proof (pool_put_spec p key x Hp) as Hs. rewrite E in Hs. destruct Hs as (_ & _ & _ & -> & _). apply Happ.
  - injection H1 as <- <-. eapply item_run_same; [exact Hh|]. by destruct (guarded _ _ _ _).
  - destruct (putting p) as [|[key x] l]; [done|]. injection H1 as <- <-. eapply item_run_same; [exact Hh|]. cbn.
    pose proof (pool_put_spec p key x Hp) as Hs. destruct (pool_put p key x) as [p'| |]; [|done..]. cbn.
    destruct Hs as (_ & _ & _ & -> & _). apply Happ.
  - injection H1 as <- <-. destruct (Dels_cases p key) as [->|[Hn E]]; [by eapply item_run_same|].
    pose proof (pool_del_spec p key Hp) as Hs. rewrite E in Hs. destruct Hs as (_ & _ & (j & _ & ->) & _).
    by apply item_run_alter.
  - injection H1 as <- <-. unfold DelAll. destruct (pcancel p); [by eapply item_run_same|]. by apply item_run_close_all.
  - injection H1 as <- <-. by eapply item_run_same.
  - destruct (heap p !! j) as [x|] eqn:Ej; [|done].
    apply bind_ok in H1 as ([[x' up]|] & Hs & H1); [|done].
    assert (Hg : heap p1 = <[j := x']> (heap p) /\ taken_from i (option_list out)
                 = if decide (j = i) then option_list up else []).
    { destruct up as [y|]; [destruct (loop p); try done|]; injection H1 as <- <-; cbn; (split; [done|]);
        by destruct (decide (j = i)). }
    destruct Hg as [-> ->]. cbn [omap list_omap on_handler]. destruct (decide (j = i)) as [->|Hne].
    + exists [e], x'. rewrite list_lookup_insert_eq by (by eapply lookup_lt_Some). split; [done|].
      rewrite Hh in Ej. injection Ej as <-. split; [|done].
      rewrite <- (app_nil_r (option_list up)). econstructor; [exact Hs|constructor].
    + exists [], h. rewrite list_lookup_insert_ne by done. split; [done|]. by split; [constructor|].
  - destruct (loop p); try done. injection H1 as <- <-. by eapply item_run_same.
  - destruct (loop p); try done; (destruct (pcancel p); [|done]); injection H1 as <- <-; by apply item_run_close_all.
  - destruct (loop p); try done. destruct (forallb _ _); [|done]. injection H1 as <- <-. by eapply item_run_same.
Qed.

Lemma pool_run_handler p es outs p' : pool_run p es outs p' -> pool_ok p -> forall i h,
  heap p !! i = Some h ->
  exists evs h', heap p' !! i = Some h' /\ item_run h evs (taken_from i outs) h'
    /\ forall A (f : Ev -> option A), f close_event = None -> omap f evs = omap (on_handler i f) es.
Proof.
  induction 1 as [p|p e p1 out es outs p2 Hs _ IH]; intros Hp i h Hh.
  - exists [], h. split; [done|]. by split; [constructor|].
  - destruct (pool_step_handler _ _ _ _ _ _ Hs Hp Hh) as (ev1 & h1 & Hh1 & Hr1 & Hf1).
    destruct (IH (pool_ok_step _ _ _ _ Hs Hp) _ _ Hh1) as (ev2 & h2 & Hh2 & Hr2 & Hf2).
    exists (ev1 ++ ev2), h2. split; [done|]. split; [unfold taken_from; rewrite omap_app; by eapply item_run_app|].
    intros A f Hf. rewrite omap_app, Hf1, Hf2 by done. symmetry. apply (omap_app _ [e] es).
Qed.

(** *** Handlers stay in the map *)

Definition removes (e : pool_event) : bool :=
  match e with Dels _ | DelsAll | SeesCancel => true | _ => false end.

Lemma map_kept p es outs p' : pool_run p es outs p' -> pool_ok p -> forallb (fun e => negb (removes e)) es = true ->
  forall k i, handleMap p !! k = Some i -> handleMap p' !! k = Some i.
Proof.
  induction 1 as [p|p e p1 out es outs p2 Hs _ IH]; [done|]. cbn. intros Hp [He Hes]%andb_prop k i Hk.
  apply IH; [by eapply pool_ok_step|done|]. clear IH Hes.
  assert (Hput : forall key h, handleMap (or_same p (pool_put p key h)) !! k = Some i).
  { intros key h. unfold pool_put. pose proof (pool_get_spec p key) as Hg.
    destruct (pool_get p key) as [j|e'|] eqn:Eg; [done| |done]. cbn.
    rewrite lookup_insert_ne; [done|]. intros ->. congruence. }
  destruct e as [key h|key h| |key| | |j e| | |]; cbn [pool_step] in Hs; try done.
  - injection Hs as <- <-. destruct (Puts_cases p key h Hp) as [->|[_ E]]; [done|].
    specialize (Hput key h). by rewrite E in Hput.
  - injection Hs as <- <-. by destruct (guarded _ _ _ _).
  - destruct (putting p) as [|[key h] l]; [done|]. injection Hs as <- <-. apply Hput.
  - by injection Hs as <- <-.
  - destruct (heap p !! j); [|done]. apply bind_ok in Hs as ([[h' up]|] & _ & Hs); [|done].
    destruct up; [destruct (loop p); try done|]; by injection Hs as <- <-.
  - destruct (loop p); try done. by injection Hs as <- <-.
  - destruct (loop p); try done. destruct (forallb _ _); [|done]. by injection Hs as <- <-.
Qed.

(** *** Closing *)

(** A handler that is not in the map has been closed. *)
Definition closed_ok (p : pool) : Prop :=
  forall i h, heap p !! i = Some h -> handler_closed h = true \/ exists k, handleMap p !! k = Some i.

(** Behind the loop the map is empty. *)
Definition emptied (p : pool) : Prop := loop_over p = true -> handleMap p = ∅ /\ pcancel p = true.

Lemma close_closed h : handler_closed h = true -> handler_closed (close_handler h) = true.
Proof. intros _. apply close_closes. Qed.

Lemma put_closed_ok p key h p' : pool_put p key h = Ok p' -> closed_ok p -> closed_ok p'.
Proof.
  unfold pool_put. pose proof (pool_get_spec p key) as Hg.
  destruct (pool_get p key) as [|e|]; [done| |done]. intros [= <-] Hp i x. cbn. intros Hi.
  destruct (decide (i = length (heap p))) as [->|Hne].
  - right. exists key. by rewrite lookup_insert_eq.
  - apply lookup_app_Some in Hi as [Hi|[Hl Hi]].
    + destruct (Hp _ _ Hi) as [Hx|[k Hk]]; [by left|right]. exists k.
      rewrite lookup_insert_ne; [done|]. intros ->. congruence.
    + apply list_lookup_singleton_Some in Hi as [Hi _]. lia.
Qed.

Lemma closed_ok_alter p j hm pc l q :
  closed_ok p -> (forall k i, handleMap p !! k = Some i -> i <> j -> hm !! k = Some i) ->
  closed_ok (mkPool (alter close_handler j (heap p)) hm pc l q).
Proof.
  intros Hp Hm i x. cbn. destruct (decide (i = j)) as [->|Hne].
  - rewrite list_lookup_alter_eq. destruct (heap p !! j); [|done]. intros [= <-]. left. apply close_closes.
  - rewrite list_lookup_alter_ne by done. intros Hx. destruct (Hp _ _ Hx) as [|[k Hk]]; [by left|right; eauto].
Qed.

Lemma delAll_all_closed p i h :
  pool_ok p -> closed_ok p -> heap (delAll p) !! i = Some h -> handler_closed h = true.
Proof.
  intros Hok Hp. cbn. rewrite foldr_close_lookup by by apply refs_NoDup.
  destruct (decide _) as [_|Hn].
  - destruct (heap p !! i); [|done]. intros [= <-]. apply close_closes.
  - intros Hh. destruct (Hp _ _ Hh) as [|Hk]; [done|]. by apply in_refs in Hk.
Qed.

Lemma closed_ok_step p e p' out :
  pool_step p e = Ok (Some (p', out)) -> pool_ok p -> closed_ok p -> closed_ok p'.
Proof.
  intros H1 Hok Hp. destruct e as [key h|key h| |key| | |i e| | |]; cbn [pool_step] in H1.
  - injection H1 as <- <-. destruct (Puts_cases p key h Hok) as [->|[_ E]]; [done|]. by eapply put_closed_ok.
  - injection H1 as <- <-. by destruct (guarded _ _ _ _).
  - destruct (putting p) as [|[key h] l]; [done|]. injection H1 as <- <-.
    destruct (pool_put p key h) eqn:E; [|done..]. by apply (put_closed_ok _ _ _ _ E).
  - injection H1 as <- <-. destruct (Dels_cases p key) as [->|[_ E]]; [done|]. revert E. unfold pool_del.
    pose proof (pool_get_spec p key) as Hg. destruct (pool_get p key) as [j| |]; [|done..]. intros E.
    apply (inj Ok) in E. rewrite <- E. apply closed_ok_alter; [done|]. intros k i Hk Hi.
    rewrite lookup_delete_ne; [done|]. intros ->. congruence.
  - injection H1 as <- <-. unfold DelAll. destruct (pcancel p); [done|]. intros i h Hh. left. by eapply delAll_all_closed.
  - by injection H1 as <- <-.
  - destruct (heap p !! i) as [h|] eqn:Eh; [|done]. apply bind_ok in H1 as ([[h' up]|] & Hs & H1); [|done].
    assert (Hq : closed_ok (mkPool (<[i := h']> (heap p)) (handleMap p) (pcancel p) (loop p) (putting p))).
    { intros j x. cbn. intros [(-> & -> & _)|[Hne Hx]]%list_lookup_insert_Some; [|by apply Hp].
      destruct (Hp _ _ Eh) as [Hc|Hk]; [left|by right]. by eapply closed_stays. }
    destruct up as [x|]; [destruct (loop p); try done|]; by injection H1 as <- <-.
  - destruct (loop p); try done. by injection H1 as <- <-.
  - destruct (loop p); try done; (destruct (pcancel p); [|done]); injection H1 as <- <-;
      intros i h Hh; left; by apply (delAll_all_closed p i).
  - destruct (loop p); try done. destruct (forallb _ _); [|done]. by injection H1 as <- <-.
Qed.

Lemma emptied_step p e p' out :
  pool_step p e = Ok (Some (p', out)) -> uninterrupted e = true -> release_ok p -> emptied p -> emptied p'.
Proof.
  intros H1 Hu Hr Hp. destruct (loop_over p) eqn:Ho.
  - destruct (Hp Ho) as [He Hc]. intros _.
    destruct e as [key h|key h| |key| | |i e| | |]; cbn [pool_step] in H1; try done.
    + injection H1 as <- <-. unfold Put, guarded. by rewrite Hc.
    + injection H1 as <- <-. unfold Del, guarded. by rewrite Hc.
    + injection H1 as <- <-. unfold DelAll. by rewrite Hc.
    + by injection H1 as <- <-.
    + destruct (heap p !! i) as [h|]; [|done]. apply bind_ok in H1 as ([[h' up]|] & _ & H1); [|done].
      destruct up; [destruct (loop p); try done|]; by injection H1 as <- <-.
    + unfold loop_over in Ho. by destruct (loop p).
    + unfold loop_over in Ho. by destruct (loop p).
    + destruct (loop p); try done. destruct (forallb _ _); [|done]. by injection H1 as <- <-.
  - intros Ho'. destruct e as [key h|key h| |key| | |i e| | |]; cbn [pool_step] in H1; try done.
    + injection H1 as <- <-. unfold Put, guarded, pool_put, loop_over in *. destruct (pcancel p); [cbn in Ho'; congruence|].
      destruct (String.eqb key ""); [cbn in Ho'; congruence|]. cbn in Ho'. by destruct (pool_get p key); cbn in Ho'; rewrite Ho in Ho'.
    + injection H1 as <- <-. unfold Del, guarded, pool_del, loop_over in *. destruct (pcancel p); [cbn in Ho'; congruence|].
      destruct (String.eqb key ""); [cbn in Ho'; congruence|]. by destruct (pool_get p key); cbn in Ho'; rewrite Ho in Ho'.
    + injection H1 as <- <-. unfold DelAll, loop_over in *. destruct (pcancel p); cbn in Ho'; by rewrite Ho in Ho'.
    + injection H1 as <- <-. unfold loop_over in *. cbn in Ho'. by rewrite Ho in Ho'.
    + destruct (heap p !! i) as [h|]; [|done]. apply bind_ok in H1 as ([[h' up]|] & _ & H1); [|done].
      unfold loop_over in *. destruct up; [destruct (loop p); try done; by injection H1 as <- <-|].
      injection H1 as <- <-. cbn in Ho'. by rewrite Ho in Ho'.
    + destruct (loop p); try done; by injection H1 as <- <-.
    + destruct (loop p) eqn:El; try done; (destruct (pcancel p) eqn:Ec; [|done]); injection H1 as <- <-; by cbn.
    + unfold loop_over in Ho. by destruct (loop p).
Qed.

Lemma all_closed_run p es outs p' :
  pool_run p es outs p' -> forallb uninterrupted es = true -> pool_ok p -> release_ok p -> closed_ok p -> emptied p ->
  closed_ok p' /\ emptied p'.
Proof.
  induction 1; [done|]. cbn. intros [Hu Hus]%andb_prop Hok Hr Hc He.
  eauto 10 using pool_ok_step, release_ok_step, closed_ok_step, emptied_step.
Qed.

Lemma CreatePool_closed : closed_ok CreatePool /\ emptied CreatePool /\ release_ok CreatePool.
Proof. split; [by intros i h Hh|]. split; [done|]. by split; cbn; [intros [?|?]|..]. Qed.

(** Only a handler can panic. *)
Lemma pool_step_panic p e :
  release_ok p -> is_panic (pool_step p e) = true ->
  exists i ev h, e = Handles i ev /\ heap p !! i = Some h /\ is_panic (step_handler h ev) = true.
Proof.
  intros Hr. destruct e as [key h|key h| |key| | |i ev| | |]; cbn [pool_step]; try done.
  - destruct (putting p) as [|[? ?]]; done.
  - destruct (heap p !! i) as [h|] eqn:Eh; [|done]. intros Hpan. exists i, ev, h. split; [done|]. split; [done|].
    destruct (step_handler h ev) as [[[h' [x|]]|]| |] eqn:Es; try done. cbn in Hpan.
    destruct (loop p) eqn:El; try done. pose proof (rel_gone _ Hr El) as Hg. rewrite Forall_lookup in Hg.
    by destruct (gone_silent _ _ _ _ (Hg _ _ Eh) Es).
  - by destruct (loop p).
  - destruct (loop p); try done; by destruct (pcancel p).
  - destruct (loop p); try done. by destruct (forallb _ _).
Qed.

End Pool.
