(* ===== verification/ListenHandler.v ===== *)
(** * Listeners and their handlers (transport/listener_handler.go)

    A handler serves one listener with two goroutines: one accepts connections, the other
    passes them, and the error that ends the first, up to the pool; [ListenerServer] waits
    for both.  As in ConnHandler.v a state says where each goroutine is and an event is
    one step of one of them or one meeting of two. *)

From S2P Require Import Prelude GoStrings Params Base Uri Header Headers Auth HeaderParse.
From S2P Require Import HeaderRoundTrip Message Parser ParserLife ConnHandler Pool.
From Stdlib Require Import NArith ZArith Lia.

#[local] Open Scope string_scope.
#[local] Open Scope list_scope.

Inductive listener_type : Set := TCPListener | UnixListener | OtherListener.

Record netListener := mkNetListener {
  ls_type : listener_type;
  Addr_text : string;
  ls_open : bool
}.

Definition listenerNetwork (ls : netListener) : string :=
  match ls_type ls with TCPListener => "tcp" | UnixListener => "unix" | OtherListener => "" end.

Definition listener_Close (ls : netListener) : netListener := mkNetListener (ls_type ls) (Addr_text ls) false.

(** The error that is passed up, without the address of the handler object. *)
Record ListenerHandlerError := mkListenerHandlerError {
  lerr : string;
  lerr_key : string;
  lerr_net : string;
  lerr_addr : string
}.

(** [acceptConnections]: in [Accept], about to send, or gone with its channels closed. *)
Inductive acceptor_point : Type :=
  | Accepting
  | SendConnection (c : connection)
  | SendAcceptError (e : string)
  | AcceptorGone.

(** [pipeOutputs] *)
Inductive pipe_point : Type :=
  | PipeSelecting
  | PipeConnection (c : connection)
  | PipeError (e : ListenerHandlerError)
  | PipeGone.

Record listenerHandler := mkListenerHandler {
  lkey : string;
  listener : netListener;
  lcancel : bool;
  acceptor : acceptor_point;
  pipe : pipe_point;
  lserver_gone : bool
}.

Definition CreateListenerHandler (key : string) (ls : netListener) : listenerHandler :=
  mkListenerHandler key ls false Accepting PipeSelecting false.

Definition lhandler_Close (h : listenerHandler) : listenerHandler :=
  if lcancel h then h
  else mkListenerHandler (lkey h) (listener_Close (listener h)) true (acceptor h) (pipe h) (lserver_gone h).

Definition with_acceptor (h : listenerHandler) (a : acceptor_point) : listenerHandler :=
  mkListenerHandler (lkey h) (listener h) (lcancel h) a (pipe h) (lserver_gone h).
Definition with_pipe (h : listenerHandler) (p : pipe_point) : listenerHandler :=
  mkListenerHandler (lkey h) (listener h) (lcancel h) (acceptor h) p (lserver_gone h).

(** What [Accept] gives. *)
Inductive accept_result : Type :=
  | AcceptConn (b : baseConn)
  | AcceptTemporary
  | AcceptFatal (e : string).

(** The connection made of an accepted one: its key is the network and the remote address. *)
Definition accepted_conn (b : baseConn) : connection :=
  CreateConnection (ToLower (conn_network b) +:+ ":" +:+ RemoteAddr b) b.

Definition on_accept (h : listenerHandler) (r : accept_result) : listenerHandler :=
  match r with
  | AcceptConn b => with_acceptor h (SendConnection (accepted_conn b))
  | AcceptTemporary => h
  | AcceptFatal e => with_acceptor h (SendAcceptError e)
  end.

Definition wrap_error (h : listenerHandler) (e : string) : ListenerHandlerError :=
  mkListenerHandlerError e (lkey h) (listenerNetwork (listener h)) (Addr_text (listener h)).

Inductive levent : Type :=
  | Accepts (r : accept_result)
  | GivesConnection | GivesError     (* the acceptor meets the pipe *)
  | AcceptorCancels
  | PipePasses                       (* the pipe meets the pool *)
  | PipeCancels | PipeEnds           (* the pipe sees a closed channel *)
  | ListenerServerEnds               (* both are gone: [Close] and [done] *)
  | ListenerCloses.                  (* [Close] by the pool *)

Inductive lupward : Type :=
  | UpConnection (c : connection)
  | UpListenerError (e : ListenerHandlerError).

(** [Ok None]: the event is not possible. *)
Definition listener_step (h : listenerHandler) (e : levent) : res (option (listenerHandler * option lupward)) :=
  match e, acceptor h, pipe h with
  | Accepts r, Accepting, _ =>
      match r with
      | AcceptConn _ => if ls_open (listener h) then mret (Some (on_accept h r, None)) else mret None
      | _ => mret (Some (on_accept h r, None))
      end
  | GivesConnection, SendConnection c, PipeSelecting =>
      mret (Some (with_pipe (with_acceptor h Accepting) (PipeConnection c), None))
  | GivesError, SendAcceptError e, PipeSelecting =>
      mret (Some (with_pipe (with_acceptor h AcceptorGone) (PipeError (wrap_error h e)), None))
  | AcceptorCancels, SendConnection _, _ | AcceptorCancels, SendAcceptError _, _ =>
      if lcancel h then mret (Some (with_acceptor h AcceptorGone, None)) else mret None
  | PipePasses, _, PipeConnection c => mret (Some (with_pipe h PipeSelecting, Some (UpConnection c)))
  | PipePasses, _, PipeError e => mret (Some (with_pipe h PipeSelecting, Some (UpListenerError e)))
  | PipeCancels, _, PipeGone => mret None
  | PipeCancels, _, _ => if lcancel h then mret (Some (with_pipe h PipeGone, None)) else mret None
  | PipeEnds, AcceptorGone, PipeSelecting => mret (Some (with_pipe h PipeGone, None))
  | ListenerServerEnds, AcceptorGone, PipeGone =>
      if lserver_gone h then mret None
      else
        let h := lhandler_Close h in
        mret (Some (mkListenerHandler (lkey h) (listener h) (lcancel h) AcceptorGone PipeGone true, None))
  | ListenerCloses, _, _ => mret (Some (lhandler_Close h, None))
  | _, _, _ => mret None
  end.

Inductive listener_run : listenerHandler -> list levent -> list lupward -> listenerHandler -> Prop :=
  | lrun_nil h : listener_run h [] [] h
  | lrun_cons h e h1 up es ups h2 :
      listener_step h e = Ok (Some (h1, up)) -> listener_run h1 es ups h2 ->
      listener_run h (e :: es) (option_list up ++ ups) h2.

(** ** Lemmas *)

(** The connections that a run accepts, and those it passes up. *)
Definition accepts (es : list levent) : list connection :=
  omap (fun e => match e with Accepts (AcceptConn b) => Some (accepted_conn b) | _ => None end) es.
Definition up_connections (ups : list lupward) : list connection :=
  omap (fun u => match u with UpConnection c => Some c | _ => None end) ups.

(** Accepted connections on their way up. *)
Definition on_the_way (h : listenerHandler) : list connection :=
  match pipe h with PipeConnection c => [c] | _ => [] end
  ++ match acceptor h with SendConnection c => [c] | _ => [] end.

Lemma cancelled_step h e h' up :
  listener_step h e = Ok (Some (h', up)) -> lcancel h = true -> lcancel h' = true.
Proof.
  unfold listener_step. intros H Hc.
  destruct e as [r| | | | | | | |]; try done.
  - destruct (acceptor h); try done. destruct r; [destruct (ls_open _); [|done]|..]; by injection H as <- <-.
  - destruct (acceptor h), (pipe h); try done; by injection H as <- <-.
  - destruct (acceptor h), (pipe h); try done; by injection H as <- <-.
  - rewrite Hc in H. destruct (acceptor h); try done; by injection H as <- <-.
  - destruct (pipe h); try done; by injection H as <- <-.
  - rewrite Hc in H. destruct (pipe h); try done; by injection H as <- <-.
  - destruct (acceptor h), (pipe h); try done; by injection H as <- <-.
  - destruct (acceptor h), (pipe h); try done. destruct (lserver_gone h); [done|]. injection H as <- <-. cbn.
    unfold lhandler_Close. by rewrite Hc.
  - injection H as <- <-. unfold lhandler_Close. by rewrite Hc.
Qed.

Lemma cancelled_run h es ups h' : listener_run h es ups h' -> lcancel h = true -> lcancel h' = true.
Proof. induction 1; eauto using cancelled_step. Qed.

(** Until it is cancelled a handler loses no connection. *)
Lemma on_the_way_step h e h' up :
  listener_step h e = Ok (Some (h', up)) -> lcancel h' = false ->
  on_the_way h ++ accepts [e] = up_connections (option_list up) ++ on_the_way h'.
Proof.
  intros H Hc'. assert (Hc : lcancel h = false).
  { destruct (lcancel h) eqn:E; [|done]. by rewrite (cancelled_step _ _ _ _ H E) in Hc'. }
  unfold on_the_way, listener_step in *. destruct e as [r| | | | | | | |].
  - destruct (acceptor h) eqn:Ea; try done. destruct r; [destruct (ls_open _); [|done]|..]; injection H as <- <-;
      cbn; rewrite ?Ea, ?app_nil_r; done.
  - destruct (acceptor h) eqn:Ea, (pipe h) eqn:Ep; try done; injection H as <- <-. done.
  - destruct (acceptor h) eqn:Ea, (pipe h) eqn:Ep; try done; injection H as <- <-. done.
  - rewrite Hc in H. destruct (acceptor h); done.
  - destruct (pipe h) eqn:Ep; try done; injection H as <- <-; cbn; by rewrite ?app_nil_r.
  - rewrite Hc in H. destruct (pipe h); done.
  - destruct (acceptor h) eqn:Ea, (pipe h) eqn:Ep; try done; injection H as <- <-. cbn. by rewrite Ea.
  - destruct (acceptor h) eqn:Ea, (pipe h) eqn:Ep; try done. by destruct (lserver_gone h); [|injection H as <- <-].
  - injection H as <- <-. unfold lhandler_Close in *. rewrite Hc in Hc'. done.
Qed.

Lemma on_the_way_run h es ups h' :
  listener_run h es ups h' -> lcancel h' = false ->
  on_the_way h ++ accepts es = up_connections ups ++ on_the_way h'.
Proof.
  induction 1 as [h|h e h1 up es ups h2 Hs Hr IH]; intros Hc; [by rewrite app_nil_r|].
  assert (Hc1 : lcancel h1 = false).
  { destruct (lcancel h1) eqn:E; [|done]. by rewrite (cancelled_run _ _ _ _ Hr E) in Hc. }
  pose proof (on_the_way_step _ _ _ _ Hs Hc1) as H1. pose proof (IH Hc) as H2.
  unfold accepts, up_connections. rewrite omap_app.
  change (omap _ (e :: es)) with (omap (fun e => match e with Accepts (AcceptConn b) => Some (accepted_conn b) | _ => None end) ([e] ++ es)).
  rewrite omap_app. fold (accepts [e]) (accepts es) (up_connections (option_list up)) (up_connections ups).
  by rewrite app_assoc, H1, <- !app_assoc, H2.
Qed.

(** ** A handler in a pool *)

Lemma lhandler_gone_silent h e h' up :
  lserver_gone h && match acceptor h, pipe h with AcceptorGone, PipeGone => true | _, _ => false end = true ->
  listener_step h e = Ok (Some (h', up)) ->
  lserver_gone h' && match acceptor h', pipe h' with AcceptorGone, PipeGone => true | _, _ => false end = true
  /\ up = None.
Proof.
  intros [Hg Hp]%andb_prop H. unfold listener_step in H.
  destruct (acceptor h) eqn:Ea; try done. destruct (pipe h) eqn:Ep; try done.
  destruct e as [r| | | | | | | |]; try done; [by rewrite Hg in H|].
  injection H as <- <-. unfold lhandler_Close. destruct (lcancel h); cbn; by rewrite Hg, Ea, Ep.
Qed.

Lemma lhandler_Close_closes h : lcancel (lhandler_Close h) = true.
Proof. unfold lhandler_Close. by destruct (lcancel h) eqn:E. Qed.

#[export] Instance listener_PoolHandler : PoolHandler listenerHandler lupward levent := {|
  close_handler := lhandler_Close;
  handler_gone := fun h => lserver_gone h && match acceptor h, pipe h with AcceptorGone, PipeGone => true | _, _ => false end;
  step_handler := listener_step;
  close_event := ListenerCloses;
  close_is_event := fun h => eq_refl;
  gone_silent := lhandler_gone_silent;
  handler_closed := lcancel;
  close_closes := lhandler_Close_closes;
  closed_stays := fun h e h' up Hc Hs => cancelled_step h e h' up Hs Hc
|}.
