(* ===== verification/ConnPool.v ===== *)
(** * The connection pool and the listener pool (transport/connection_pool.go, listener_pool.go)

    The instances of the pool of Pool.v: what their methods are, and the theorems about
    the map they implement, the order in which they pass messages up, and their end. *)

From S2P Require Import Prelude GoStrings Params Base Uri Header Headers Auth HeaderParse.
From S2P Require Import HeaderRoundTrip Message Parser MessageRoundTrip ParserLife ConnHandler Pool ListenHandler.
From Stdlib Require Import NArith ZArith Lia.

#[local] Open Scope string_scope.
#[local] Open Scope list_scope.

Lemma server_gone_silent uuid h e h' up :
  match server h with ServerGone => true | _ => false end = true ->
  handler_step uuid h e = Ok (Some (h', up)) ->
  match server h' with ServerGone => true | _ => false end = true /\ up = None.
Proof.
  destruct (server h) eqn:Es; try done. intros _ H. unfold handler_step in H. rewrite Es in H.
  destruct e as [r| | | |now|now| | | | | |]; try done.
  - destruct (reader h); try done.
    assert (Hon : forall h1, on_read h r = Ok h1 -> server h1 = ServerGone).
    { intros h1. unfold on_read. destruct r; [|by intros [= <-]..]. destruct (blank data); [by intros [= <-]|].
      destruct (run_Write _ _) as [[]| |]; [by intros [= <-]..|done]. }
    destruct r; [destruct (open (conn h) && _)%bool; [|done]|..]; apply bind_ok in H as (h1 & H1 & H);
      injection H as <- <-; by rewrite (Hon _ H1).
  - apply bind_ok in H as ([l|] & _ & H); [|done]. injection H as <- <-. cbn. by rewrite Es.
  - destruct (reader h); try done; destruct (cancel h); try done; injection H as <- <-; cbn; by rewrite Es.
  - destruct (reader h); try done. injection H as <- <-. cbn. unfold handler_Close. destruct (cancel h); cbn; by rewrite Es.
  - destruct (reader h); try done. destruct (at_parse _); try done. injection H as <- <-. cbn. by rewrite Es.
  - injection H as <- <-. unfold handler_Close. destruct (cancel h); cbn; by rewrite Es.
Qed.

Lemma handler_Close_closes h : cancel (handler_Close h) = true.
Proof. unfold handler_Close. by destruct (cancel h) eqn:E. Qed.

Lemma cancel_stays uuid h e h' up :
  cancel h = true -> handler_step uuid h e = Ok (Some (h', up)) -> cancel h' = true.
Proof.
  intros Hc H. unfold handler_step in H.
  destruct e as [r| | | |now|now| | | | | |]; try done.
  - destruct (reader h); try done.
    assert (Hon : forall h1, on_read h r = Ok h1 -> cancel h1 = true).
    { intros h1. unfold on_read. destruct r; [|by intros [= <-]..]. destruct (blank data); [by intros [= <-]|].
      destruct (run_Write _ _) as [[]| |]; [by intros [= <-]..|done]. }
    destruct r; [destruct (open (conn h) && _)%bool; [|done]|..]; apply bind_ok in H as (h1 & H1 & H);
      injection H as <- <-; by rewrite (Hon _ H1).
  - apply bind_ok in H as ([l|] & _ & H); [|done]. by injection H as <- <-.
  - destruct (server h); try done. destruct (take_outcome _) as [[? ?]|]; [|done]. by injection H as <- <-.
  - destruct (server h), (reader h); try done; by injection H as <- <-.
  - destruct (server h); try done; injection H as <- <-; [|done]. unfold refresh. by destruct (expiry _).
  - destruct (server h); try done. destruct (exTimer h); [|done]. destruct (_ <=? _)%Z; [|done]. by injection H as <- <-.
  - rewrite Hc in H. destruct (server h); try done; by injection H as <- <-.
  - destruct (server h), (reader h); try done; by injection H as <- <-.
  - rewrite Hc in H. destruct (reader h); try done; by injection H as <- <-.
  - destruct (reader h); try done. injection H as <- <-. cbn. apply handler_Close_closes.
  - destruct (reader h); try done. destruct (at_parse _); try done. by injection H as <- <-.
  - injection H as <- <-. apply handler_Close_closes.
Qed.

#[export] Instance connection_PoolHandler (uuid : nat -> string) : PoolHandler connectionHandler upward event := {|
  close_handler := handler_Close;
  handler_gone := fun h => match server h with ServerGone => true | _ => false end;
  step_handler := handler_step uuid;
  close_event := Closes;
  close_is_event := fun h => eq_refl;
  gone_silent := server_gone_silent uuid;
  handler_closed := cancel;
  close_closes := handler_Close_closes;
  closed_stays := cancel_stays uuid
|}.

(** ** The connection pool *)

Module ConnectionPool.
Section ConnectionPool.

Variable uuid : nat -> string.

Definition connectionPool : Type := @pool connectionHandler upward.

Definition CreateConnectionPool : connectionPool := CreatePool.

#[local] Existing Instance connection_PoolHandler.

(** [Put], at the time [now]. *)
Definition Put (p : connectionPool) (c : connection) (ttl now : Z) : res connectionPool :=
  Pool.Put "connection" p (Key c) (CreateConnectionHandler c ttl now).

(** [Get]: the connection of the handler. *)
Definition Get (p : connectionPool) (key : string) : res connection :=
  i ← Pool.Get "connection" p key;
  h ← deref (heap p !! i);
  mret (conn h).

Definition Del (p : connectionPool) (key : string) : res connectionPool :=
  Pool.Del (HP := connection_PoolHandler uuid) "connection" p key.
Definition DelAll (p : connectionPool) : res connectionPool :=
  Pool.DelAll (HP := connection_PoolHandler uuid) "connection" p.

(** [All]: [None] is a nil connection. *)
Definition All (range : gmap string nat -> list (string * nat)) (p : connectionPool) : list (option connection) :=
  map (fun o => i ← o; conn <$> heap p !! i) (Pool.All range p).

Definition ListenHandlers (p : connectionPool) (e : pool_event) : res (option (connectionPool * option pool_out)) :=
  pool_step (HP := connection_PoolHandler uuid) "connection" p e.

End ConnectionPool.
End ConnectionPool.

(** ** The listener pool *)

Module ListenerPool.

Definition listenerPool : Type := @pool listenerHandler lupward.

Definition CreateListenerPool : listenerPool := CreatePool.

(** *** Under the lock *)

Definition put (p : listenerPool) (key : string) (ls : netListener) : res listenerPool :=
  pool_put "listener" p key (CreateListenerHandler key ls).

Definition get (p : listenerPool) (key : string) : res nat := pool_get "listener" p key.

Definition del (p : listenerPool) (key : string) : res listenerPool := pool_del "listener" p key.

Definition delAll (p : listenerPool) : listenerPool := Pool.delAll p.

(** The slices of [all] and [allKeys] are made with the final length and then appended to. *)
Definition all (range : gmap string nat -> list (string * nat)) (p : listenerPool) : list (option netListener) :=
  map (fun o => i ← o; listener <$> heap p !! i) (pool_all range p).

Definition allKeys (range : gmap string nat -> list (string * nat)) (p : listenerPool) : list string :=
  Pool.allKeys range p.

Definition Length (p : listenerPool) : nat := Pool.Length p.

(** *** The methods *)

Definition Put (p : listenerPool) (key : string) (ls : netListener) : res listenerPool :=
  guarded "listener" "Put" p key (put p key ls).

Definition Get (p : listenerPool) (key : string) : res netListener :=
  i ← guarded "listener" "Get" p key (get p key);
  h ← deref (heap p !! i);
  mret (listener h).

Definition Del (p : listenerPool) (key : string) : res listenerPool := guarded "listener" "Del" p key (del p key).

Definition DelAll (p : listenerPool) : res listenerPool :=
  if pcancel p then Err (closed_error "listener" "DelAll") else mret (delAll p).

Definition All (range : gmap string nat -> list (string * nat)) (p : listenerPool) : list (option netListener) :=
  if pcancel p then [] else all range p.

Definition ListenHandlers (p : listenerPool) (e : pool_event) : res (option (listenerPool * option pool_out)) :=
  pool_step "listener" p e.

End ListenerPool.

(** ** Lemmas *)

Section Views.
Context {H Item Ev : Type} {HP : PoolHandler H Item Ev}.

Lemma view_size (p : @pool H Item) : pool_ok p -> size (view p) = size (handleMap p).
Proof.
  intros Hp. rewrite <- !size_dom. f_equal. apply set_eq. intros k. rewrite !elem_of_dom.
  pose proof (view_None p k Hp) as Hn. split; intros [x Hx];
    (destruct (view p !! k) eqn:E1, (handleMap p !! k) eqn:E2; [done|..]; exfalso; naive_solver).
Qed.

Lemma pool_get_view noun (p : @pool H Item) key :
  pool_ok p ->
  match pool_get noun p key with
  | Ok i => exists h, heap p !! i = Some h /\ view p !! key = Some h
  | Err _ => view p !! key = None
  | Panic _ => False
  end.
Proof.
  intros Hp. pose proof (pool_get_spec noun p key) as Hg. destruct (pool_get noun p key) as [i| |]; [|by apply view_None|done].
  destruct (lookup_lt_is_Some_2 _ _ (ok_refs _ Hp _ _ Hg)) as [h Hh]. exists h. split; [done|].
  by rewrite view_lookup, Hg.
Qed.

End Views.

(** The runs of a connection handler are its runs in a pool. *)
Lemma item_run_handler uuid h evs ups h' :
  item_run (HP := connection_PoolHandler uuid) h evs ups h' -> handler_run uuid h evs ups h'.
Proof. induction 1; econstructor; eauto. Qed.

(** What the reader of handler [i] gets during a run of the pool. *)
Definition read_of (e : event) : option string := match e with Reads (ReadData d) => Some d | _ => None end.
Definition read_by (i : nat) (es : list (@pool_event connectionHandler event)) : list string :=
  omap (on_handler i read_of) es.

(** The same as [pool_run] as a function. *)
Fixpoint run_pool {H Item Ev} {HP : PoolHandler H Item Ev} (noun : string) (p : @pool H Item)
    (es : list (@pool_event H Ev)) : option (list (@pool_out Item) * @pool H Item) :=
  match es with
  | [] => Some ([], p)
  | e :: es =>
      match pool_step noun p e with
      | Ok (Some (p1, out)) =>
          match run_pool noun p1 es with
          | Some (outs, p2) => Some (option_list out ++ outs, p2)
          | None => None
          end
      | _ => None
      end
  end.

Lemma run_pool_run {H Item Ev} {HP : PoolHandler H Item Ev} noun es : forall p outs p',
  run_pool noun p es = Some (outs, p') -> pool_run noun p es outs p'.
Proof.
  induction es as [|e es IH]; intros p outs p'; cbn; [intros [= <- <-]; constructor|].
  destruct (pool_step noun p e) as [[[p1 out]|]| |] eqn:E; try done.
  destruct (run_pool noun p1 es) as [[outs1 p2]|] eqn:Er; [|done]. intros [= <- <-].
  econstructor; [exact E|]. by apply IH.
Qed.

(** ** Properties *)

(** C32: a pool implements a finite map from keys to handlers, and reports an error in
    exactly the cases where the map says so: [Put] inserts a new key, [Get] looks a key up,
    [Del] removes it, [DelAll] empties the map and [Length] counts the keys; a cancelled
    pool and an empty key are refused. *)
Theorem pool_refines_map {H Item Ev : Type} {HP : PoolHandler H Item Ev} (noun : string)
    (p : @pool H Item) (key : string) (h : H) :
  pool_ok p ->
  match Pool.Put noun p key h with
  | Ok p' => pcancel p = false /\ key <> "" /\ view p !! key = None
             /\ view p' = <[key := h]> (view p) /\ pool_ok p'
  | Err _ => pcancel p = true \/ key = "" \/ is_Some (view p !! key)
  | Panic _ => False
  end
  /\ match Pool.Get noun p key with
     | Ok i => pcancel p = false /\ key <> "" /\ exists h', heap p !! i = Some h' /\ view p !! key = Some h'
     | Err _ => pcancel p = true \/ key = "" \/ view p !! key = None
     | Panic _ => False
     end
  /\ match Pool.Del noun p key with
     | Ok p' => pcancel p = false /\ key <> "" /\ is_Some (view p !! key)
                /\ view p' = delete key (view p) /\ pool_ok p'
     | Err _ => pcancel p = true \/ key = "" \/ view p !! key = None
     | Panic _ => False
     end
  /\ match Pool.DelAll noun p with
     | Ok p' => pcancel p = false /\ view p' = ∅ /\ pool_ok p'
     | Err _ => pcancel p = true
     | Panic _ => False
     end
  /\ Length p = size (view p).
Proof.
  intros Hp. pose proof (pool_put_spec noun p key h Hp) as H1. pose proof (pool_get_view noun p key Hp) as H2.
  pose proof (pool_del_spec noun p key Hp) as H3.
  unfold Pool.Put, Pool.Get, Pool.Del, Pool.DelAll, guarded.
  destruct (pcancel p) eqn:Ec; [split_and!; auto; by rewrite view_size|].
  split; [|split; [|split; [|split; [split_and!; [done|apply delAll_view|apply delAll_ok]|by rewrite view_size]]]];
    (destruct (String.eqb_spec key "") as [|Hk]; [by auto|]).
  - destruct (pool_put noun p key h); [|by auto|done]. tauto.
  - destruct (pool_get noun p key); [by auto|by auto|done].
  - destruct (pool_del noun p key); [|by auto|done]. destruct H3 as (Hv & Hok & (i & Hi & _) & _).
    split_and!; try done. rewrite view_lookup, Hi. cbn. apply lookup_lt_is_Some_2. by eapply ok_refs.
Qed.

Definition sample_pool : ConnectionPool.connectionPool :=
  or_same CreatePool (ConnectionPool.Put CreatePool (CreateConnection "k" (sample_base false)) SockTTL 0).

Lemma sample_pool_ok : pool_ok sample_pool.
Proof.
  pose proof (pool_put_spec (Item := upward) "connection" CreatePool "k" (sample_handler false)
    CreatePool_ok) as H. apply H.
Qed.

Lemma pool_refines_map_witness :
  exists p' : ConnectionPool.connectionPool,
    Pool.Del (HP := connection_PoolHandler counted) "connection" sample_pool "k" = Ok p' /\ view p' = ∅.
Proof.
  destruct (pool_refines_map (HP := connection_PoolHandler counted) "connection" sample_pool "k"
              (sample_handler false) sample_pool_ok) as (_ & _ & Hd & _).
  destruct (Pool.Del (HP := connection_PoolHandler counted) "connection" sample_pool "k") as [p'| |] eqn:E;
    [|discriminate E|discriminate E].
  exists p'. split; [reflexivity|]. apply (inj Ok) in E. subst p'. reflexivity.
Defined.

(** a pool passes up, one by one and in the order in which it took them, the items of
    its handlers; only the item in its hand when it is cancelled is lost.  What it takes of
    one handler is what this handler sends, in its order. *)
Theorem pool_order {H Item Ev : Type} {HP : PoolHandler H Item Ev} (noun : string)
    (p p' : @pool H Item) (es : list (@pool_event H Ev)) (outs : list (@pool_out Item)) :
  pool_ok p -> loop p = Listening -> pool_run noun p es outs p' ->
  (exists lost, taken outs = passed outs ++ lost ++ in_passing p' /\ (loop_over p' = false -> lost = []))
  /\ forall i h, heap p !! i = Some h ->
       exists evs h', heap p' !! i = Some h' /\ item_run h evs (taken_from i outs) h'.
Proof.
  intros Hp Hl Hr. split.
  - pose proof (pool_fifo _ _ _ _ _ Hr) as Hf. unfold in_passing in Hf at 1. by rewrite Hl in Hf.
  - intros i h Hh. destruct (pool_run_handler _ _ _ _ _ Hr Hp _ _ Hh) as (evs & h' & H1 & H2 & _). eauto.
Qed.

(** C14: messages through the connection pool: while the pool serves any number of other
    connections, the messages that arrive on one stream connection, cut into any segments,
    are taken from its handler in their order, each once, once that handler is at rest. *)
Theorem pool_delivery (uuid : nat -> string) (p p' : ConnectionPool.connectionPool) (c : connection) (t now : Z)
    (i : nat) (es : list pool_event) (outs : list pool_out) (h : connectionHandler)
    (texts : list string) (msgs : list Message) :
  pool_ok p -> heap p !! i = Some (CreateConnectionHandler c t now) -> Streamed c = true -> open c = true ->
  pool_run (HP := connection_PoolHandler uuid) "connection" p es outs p' -> heap p' !! i = Some h -> quiet uuid h ->
  sends_all uuid 0 texts msgs -> join "" (read_by i es) = join "" texts ->
  Forall (fun d => blank d = false) (read_by i es) ->
  omap of_parser (taken_from i outs) = map Output msgs.
Proof.
  intros Hp Hi Hc Ho Hr Hh Hq Hs Hj Hb.
  destruct (pool_run_handler _ _ _ _ _ Hr Hp _ _ Hi) as (evs & h' & H1 & H2 & Hf).
  rewrite Hh in H1. injection H1 as <-. specialize (Hf _ read_of eq_refl).
  change (omap read_of evs) with (segments evs) in Hf. fold (read_by i es) in Hf. rewrite <- Hf in Hj, Hb.
  destruct (streamed_steps uuid 0 texts msgs (segments evs) Hs (NewParser (Streamed c))) as (p1 & k & Hw & Hn);
    try done. rewrite <- (written_all evs Hb) in Hw.
  eapply quiet_delivered; [apply item_run_handler, H2|done..].
Qed.

(** The events of a handler as events of its pool. *)
Definition lift_events (i : nat) (es : list event) : list (@pool_event connectionHandler event) :=
  flat_map (fun e => match e with PassesUp _ => [Handles i e; PassesOn] | _ => [Handles i e] end) es.

Definition sample_pool_events : list (@pool_event connectionHandler event) :=
  Puts "j" (sample_handler true)
  :: lift_events 0 (reading counted (sample_handler false) (cut 200 (join "" wire_texts))).

Lemma sample_pool_run :
  exists outs p h, pool_run (HP := connection_PoolHandler counted) "connection" sample_pool sample_pool_events outs p
    /\ heap p !! 0%nat = Some h /\ quiet counted h.
Proof.
  destruct (run_pool (HP := connection_PoolHandler counted) "connection" sample_pool sample_pool_events)
    as [[outs p]|] eqn:E.
  - assert (Ht : match run_pool (HP := connection_PoolHandler counted) "connection" sample_pool sample_pool_events with
                 | Some (_, p) => match heap p !! 0%nat with Some h => is_quiet counted h | None => false end
                 | None => false
                 end = true) by (vm_compute; reflexivity).
    rewrite E in Ht. destruct (heap p !! 0%nat) as [h|] eqn:Eh; [|done].
    exists outs, p, h. split; [by apply run_pool_run|]. split; [exact Eh|by apply is_quiet_spec].
  - assert (Ht : match run_pool (HP := connection_PoolHandler counted) "connection" sample_pool sample_pool_events with
                 | Some _ => true | None => false end = true) by (vm_compute; reflexivity).
    by rewrite E in Ht.
Qed.

Lemma pool_order_witness :
  exists outs (p : ConnectionPool.connectionPool) h, heap p !! 0%nat = Some h
    /\ exists lost, taken outs = passed outs ++ lost ++ in_passing p.
Proof.
  destruct sample_pool_run as (outs & p & h & Hr & Hh & _).
  destruct (pool_order (HP := connection_PoolHandler counted) "connection" sample_pool p sample_pool_events outs
              sample_pool_ok eq_refl Hr) as ((lost & Hl & _) & _).
  exists outs, p, h. split; [exact Hh|]. exists lost. exact Hl.
Defined.

Lemma pool_delivery_witness :
  exists outs (p : ConnectionPool.connectionPool),
    pool_run (HP := connection_PoolHandler counted) "connection" sample_pool sample_pool_events outs p
    /\ omap of_parser (taken_from 0 outs) = map Output wire_outs.
Proof.
  destruct sample_pool_run as (outs & p & h & Hr & Hh & Hq). exists outs, p. split; [exact Hr|].
  assert (Hs : read_by 0 sample_pool_events = cut 200 (join "" wire_texts)) by (vm_compute; reflexivity).
  apply (pool_delivery counted sample_pool p (CreateConnection "k" (sample_base false)) SockTTL 0 0
           sample_pool_events outs h wire_texts wire_outs sample_pool_ok eq_refl eq_refl eq_refl Hr Hh Hq wire_sends);
    rewrite Hs; [vm_compute; reflexivity|]. repeat constructor; vm_compute; reflexivity.
Defined.

(** The handlers that are put are new ones, for open connections. *)
Definition puts_new (e : @pool_event connectionHandler event) : Prop :=
  forall h, put_handler e = Some h ->
    exists c ttl now, h = CreateConnectionHandler c ttl now /\ open c = true.

Lemma pool_handlers_ok uuid es outs (p : ConnectionPool.connectionPool) :
  pool_run (HP := connection_PoolHandler uuid) "connection" CreatePool es outs p -> Forall puts_new es ->
  Forall handler_ok (heap p).
Proof.
  intros Hr Hn.
  apply (heap_forall_run (HP := connection_PoolHandler uuid) "connection" handler_ok CreatePool es outs p).
  - intros h ev h' up Hh Hs. exact (handler_ok_step uuid h ev h' up Hs Hh).
  - done.
  - eapply Forall_impl; [exact Hn|]. intros e He h Hp. destruct (He h Hp) as (c & ttl & now & -> & Ho).
    by apply CreateConnectionHandler_ok.
  - by split; constructor.
Qed.

(** What can panic in a pool of connections. *)
Lemma pool_panics uuid (p : ConnectionPool.connectionPool) i e h :
  heap p !! i = Some h -> handler_ok h ->
  is_panic (pool_step (HP := connection_PoolHandler uuid) "connection" p (Handles i e)) = true ->
  e = Parses
  \/ (loop p = Released /\ exists now, e = PassesUp now
      /\ match server h with PassMessage _ | PassError _ => True | _ => False end).
Proof.
  intros Hh Hok Hp. cbn [pool_step] in Hp. rewrite Hh in Hp.
  destruct (step_handler h e) as [[[h' up]|]|er|k] eqn:Es; cbn in Hp; [|done|done|].
  - destruct up as [x|]; [|done]. right. destruct (loop p); try done. split; [done|].
    cbn [step_handler connection_PoolHandler] in Es. by apply handler_up in Es.
  - left. apply (step_panic_parses uuid h e Hok). cbn [step_handler connection_PoolHandler] in Es. by rewrite Es.
Qed.

(** C35: the handlers of a connection pool, in every state that the pool reaches with new
    handlers for open connections.  A handler can panic in a step of its parser, and when
    it passes something up and the pool has already closed its channels, then always;
    this second panic cannot come while no [Put] was interrupted between its check and its
    insertion.  The channels between the goroutines of a handler are closed only when
    nobody sends on them any more; its socket is open exactly until it is closed, and its
    timer is only set when the connection has an expiry. *)
Theorem handler_safe (uuid : nat -> string) (es : list pool_event) (outs : list pool_out)
    (p : ConnectionPool.connectionPool) (i : nat) (h : connectionHandler) :
  pool_run (HP := connection_PoolHandler uuid) "connection" CreatePool es outs p -> Forall puts_new es ->
  heap p !! i = Some h ->
  let panics e := is_panic (ConnectionPool.ListenHandlers uuid p (Handles i e)) = true in
  (forall e, panics e -> e = Parses \/ (loop p = Released /\ exists now, e = PassesUp now))
  /\ (forall now, loop p = Released ->
        match server h with PassMessage _ | PassError _ => panics (PassesUp now) | _ => ~ panics (PassesUp now) end)
  /\ (forallb uninterrupted es = true -> forall e, panics e -> e = Parses)
  /\ (reader h = ReaderGone -> cancel h = true /\ take_outcome (life h) = None)
  /\ open (conn h) = negb (cancel h)
  /\ (exTimer h <> None -> expiry h <> None).
Proof.
  intros Hr Hn Hi panics. pose proof (pool_handlers_ok _ _ _ _ Hr Hn) as Hall. rewrite Forall_lookup in Hall.
  pose proof (Hall _ _ Hi) as Hh. unfold panics, ConnectionPool.ListenHandlers. split; [|split; [|split; [|split; [|split]]]].
  - intros e [->|(Hl & now & -> & _)]%(pool_panics uuid p i e h Hi Hh); eauto.
  - intros now Hl. cbn [pool_step]. rewrite Hi. cbn [step_handler connection_PoolHandler]. unfold handler_step.
    destruct (server h); cbn; by rewrite ?Hl.
  - intros Hu e [->|(Hl & now & -> & Hs)]%(pool_panics uuid p i e h Hi Hh); [done|].
    destruct (CreatePool_closed (HP := connection_PoolHandler uuid)) as (_ & _ & Hr0).
    pose proof (release_ok_run (HP := connection_PoolHandler uuid) _ _ _ _ _ Hr Hu CreatePool_ok Hr0) as Hrel.
    pose proof (rel_gone _ Hrel Hl) as Hg. rewrite Forall_lookup in Hg. specialize (Hg _ _ Hi).
    cbn in Hg. by destruct (server h).
  - intros Hg. split; [apply (ok_cancel _ Hh); by rewrite (ok_pipe _ Hh), Hg|].
    unfold take_outcome. by rewrite (ok_ended _ Hh (ok_gone _ Hh Hg)).
  - by apply ok_open.
  - destruct (exTimer h) as [x|] eqn:E; [|done]. intros _. by rewrite (ok_timer _ Hh x E).
Qed.

(** A [Put] that is overtaken by the end of the pool. *)
Definition overtaken_events : list (@pool_event connectionHandler event) :=
  [PutChecks "k" (sample_handler false); Cancels; SeesCancel; Releases; PutInserts;
   Handles 0 (Reads (ReadFatal "reset")); Handles 0 ReportsError].

Lemma overtaken_new : Forall puts_new overtaken_events.
Proof.
  constructor.
  - intros h [= <-]. exists (CreateConnection "k" (sample_base false)), SockTTL, 0%Z. split; reflexivity.
  - repeat (constructor; [intros h Hp; discriminate Hp|]). constructor.
Qed.

Lemma overtaken_run :
  match run_pool (HP := connection_PoolHandler counted) "connection" CreatePool overtaken_events with
  | Some (_, p) => match loop p, server <$> heap p !! 0%nat with Released, Some (PassError _) => true | _, _ => false end
  | None => false
  end = true.
Proof. vm_compute. reflexivity. Qed.

Lemma handler_safe_witness :
  exists outs (p : ConnectionPool.connectionPool),
    pool_run (HP := connection_PoolHandler counted) "connection" CreatePool overtaken_events outs p
    /\ is_panic (ConnectionPool.ListenHandlers counted p (Handles 0 (PassesUp 5))) = true.
Proof.
  pose proof overtaken_run as Ht.
  destruct (run_pool (HP := connection_PoolHandler counted) "connection" CreatePool overtaken_events) as [[outs p]|] eqn:E;
    [|discriminate Ht].
  pose proof (run_pool_run _ _ _ _ _ E) as Hr. destruct (loop p) eqn:El; try discriminate Ht.
  destruct (heap p !! 0%nat) as [h|] eqn:Eh; [|discriminate Ht]. cbn in Ht.
  destruct (handler_safe counted overtaken_events outs p 0 h Hr overtaken_new Eh) as (_ & H1 & _).
  exists outs, p. split; [exact Hr|]. specialize (H1 5%Z El). destruct (server h); try discriminate Ht. exact H1.
Defined.

(** as long as no [Put] is interrupted between its check and its insertion, a pool
    that is cancelled closes every handler it was ever given, closes its channels only when
    all their servers are gone, and no step of it panics unless a handler itself does. *)
Theorem pool_end {H Item Ev : Type} {HP : PoolHandler H Item Ev} (noun : string)
    (p : @pool H Item) (es : list (@pool_event H Ev)) (outs : list (@pool_out Item)) :
  pool_run noun CreatePool es outs p -> forallb uninterrupted es = true ->
  (loop_over p = true -> Forall (fun h => handler_closed h = true) (heap p) /\ Length p = 0%nat)
  /\ (loop p = Released -> Forall (fun h => handler_gone h = true) (heap p))
  /\ forall e, is_panic (pool_step noun p e) = true ->
       exists i ev h, e = Handles i ev /\ heap p !! i = Some h /\ is_panic (step_handler h ev) = true.
Proof.
  intros Hr Hu. destruct CreatePool_closed as (Hc0 & He0 & Hr0).
  destruct (all_closed_run _ _ _ _ _ Hr Hu CreatePool_ok Hr0 Hc0 He0) as [Hc He].
  pose proof (release_ok_run _ _ _ _ _ Hr Hu CreatePool_ok Hr0) as Hrel.
  split; [|split; [apply (rel_gone _ Hrel)|intros e; by apply pool_step_panic]].
  intros Ho. destruct (He Ho) as [Hm _]. split; [|unfold Length; by rewrite Hm].
  apply Forall_lookup. intros i h Hh. destruct (Hc _ _ Hh) as [|[k Hk]]; [done|]. by rewrite Hm, lookup_empty in Hk.
Qed.

Definition ending_events : list (@pool_event listenerHandler levent) :=
  [Puts "tcp:0.0.0.0:5060" (CreateListenerHandler "tcp:0.0.0.0:5060" (mkNetListener TCPListener "0.0.0.0:5060" true));
   Cancels; SeesCancel; Handles 0 PipeCancels; Handles 0 (Accepts (AcceptFatal "closed"));
   Handles 0 AcceptorCancels; Handles 0 ListenerServerEnds; Releases].

Lemma pool_end_witness :
  exists outs (p : ListenerPool.listenerPool),
    pool_run "listener" CreatePool ending_events outs p /\ loop p = Released
    /\ Forall (fun h => lserver_gone h = true) (heap p) /\ Forall (fun h => lcancel h = true) (heap p).
Proof.
  destruct (run_pool "listener" CreatePool ending_events) as [[outs p]|] eqn:E; [|vm_compute in E; discriminate E].
  pose proof (run_pool_run _ _ _ _ _ E) as Hr.
  destruct (pool_end "listener" p ending_events outs Hr eq_refl) as (H1 & H2 & _).
  vm_compute in E. injection E as <- <-. eexists _, _. split; [exact Hr|]. split; [reflexivity|].
  split; [|exact (proj1 (H1 eq_refl))].
  eapply Forall_impl; [exact (H2 eq_refl)|]. intros h Hh. apply andb_prop in Hh. apply Hh.
Defined.

(** A [Put] that checked the pool before it was cancelled and inserts behind its end: the
    new handler is served by nobody, and the first thing it sends panics. *)
Example late_put_panics :
  let h := CreateListenerHandler "k" (mkNetListener TCPListener "a" true) in
  match run_pool "listener" CreatePool
          [PutChecks "k" h; Cancels; SeesCancel; Releases; PutInserts;
           Handles 0 (Accepts (AcceptConn (sample_base false))); Handles 0 GivesConnection] with
  | Some (_, p) => pool_step "listener" p (Handles 0 PipePasses) = Panic SendOnClosed
  | None => False
  end.
Proof. vm_compute. reflexivity. Qed.

(** The first half of what [All] returns is nil. *)
Lemma All_starts_nil range (p : ConnectionPool.connectionPool) :
  pcancel p = false -> handleMap p <> ∅ -> ConnectionPool.All range p !! 0%nat = Some None.
Proof.
  intros Hc Hm. unfold ConnectionPool.All, Pool.All, pool_all. rewrite Hc.
  destruct (size (handleMap p)) eqn:E; [by apply map_size_empty_inv in E|]. done.
Qed.
