(* ===== verification/TxKey.v ===== *)
(** * Transaction keys (transaction/tx.go)

    The keys under which the transaction layer files its transactions, for requests
    that a server receives and for responses that a client receives. *)

From S2P Require Import Prelude GoStrings Params Base Uri Header Headers Auth HeaderParse.
From S2P Require Import Message.
From Stdlib Require Import NArith Lia.

#[local] Open Scope string_scope.
#[local] Open Scope list_scope.

Definition TxKey : Type := string.

(** The text of the [branch] parameter, when it is a branch of RFC 3261: the magic
    cookie and something behind it.  A parameter without a value is a nil interface. *)
Definition rfc3261_branch (branch : option MaybeString) : res (option string) :=
  match branch with
  | None => mret None
  | Some v =>
      s ← deref v;
      mret (if negb (String.eqb s "") && HasPrefix RFC3261BranchMagicCookie s
               && negb (String.eqb (TrimPrefix RFC3261BranchMagicCookie s) "")
            then Some s else None)
  end.

(** The method that takes part in a server key. *)
Definition server_method (method : RequestMethod) : RequestMethod :=
  if String.eqb method ACK || String.eqb method CANCEL then INVITE else method.

Definition sep : string := "__".

Definition MakeServerTxKey (msg : message) : res TxKey :=
  let hs := msg_headers msg in
  match headers_ViaHop hs with
  | None => Err "'Via' header not found or empty in message '%s'"
  | Some firstViaHop =>
      match headers_CSeq hs with
      | None => Err "'CSeq' header not found in message '%s'"
      | Some (seqNo, methodName) =>
          let method := server_method methodName in
          ps ← deref (VParams firstViaHop);
          branch ← rfc3261_branch (Get ps "branch");
          match branch with
          | Some b =>
              let port := match VPort firstViaHop with
                          | None => DefaultPort (Transport firstViaHop)
                          | Some p => p
                          end in
              mret (join sep [b; VHost firstViaHop; itoa port; method])
          | None =>
              match headers_From hs with
              | None => Err "'From' header not found in message '%s'"
              | Some from =>
                  fps ← deref (HParams from);
                  match Get fps "tag" with
                  | None => Err "'tag' param not found in 'From' header of message '%s'"
                  | Some fromTag =>
                      match headers_CallID hs with
                      | None => Err "'Call-ID' header not found in message '%s'"
                      | Some callId =>
                          tag ← deref fromTag;
                          via ← ViaHop_String firstViaHop;
                          mret (join sep [tag; "Call-ID: " +:+ callId; method; itoa seqNo; via])
                      end
                  end
              end
          end
      end
  end.

Definition MakeClientTxKey (msg : message) : res TxKey :=
  let hs := msg_headers msg in
  match headers_CSeq hs with
  | None => Err "'CSeq' header not found in message '%s'"
  | Some (_, methodName) =>
      let method := if String.eqb methodName ACK then INVITE else methodName in
      match headers_ViaHop hs with
      | None => Err "'Via' header not found or empty in message '%s'"
      | Some firstViaHop =>
          ps ← deref (VParams firstViaHop);
          branch ← rfc3261_branch (Get ps "branch");
          match branch with
          | None => Err "'branch' not found or empty in 'Via' header of message '%s'"
          | Some b => mret (join sep [b; method])
          end
      end
  end.

(** ** Shape of the keys *)

(** What identifies a transaction of RFC 3261. *)
Record tx_id := mkTxId { id_branch : string; id_host : string; id_port : Port; id_method : RequestMethod }.

(** The branch, sent-by and method of a message whose top Via hop has an RFC 3261 branch. *)
Definition server_id (msg : message) : option tx_id :=
  match headers_ViaHop (msg_headers msg), headers_CSeq (msg_headers msg) with
  | Some hop, Some (_, method) =>
      match VParams hop with
      | Some ps =>
          match rfc3261_branch (Get ps "branch") with
          | Ok (Some b) =>
              Some (mkTxId b (VHost hop) (default (DefaultPort (Transport hop)) (VPort hop)) (server_method method))
          | _ => None
          end
      | None => None
      end
  | _, _ => None
  end.

Definition server_key (i : tx_id) : TxKey := join sep [id_branch i; id_host i; itoa (id_port i); id_method i].

Lemma MakeServerTxKey_id msg i : server_id msg = Some i -> MakeServerTxKey msg = Ok (server_key i).
Proof.
  unfold server_id, MakeServerTxKey.
  destruct (headers_ViaHop (msg_headers msg)) as [hop|]; [|done].
  destruct (headers_CSeq (msg_headers msg)) as [[n m]|]; [|done].
  destruct (VParams hop) as [ps|]; [|done]. cbn [deref mbind res_bind].
  destruct (rfc3261_branch _) as [[b|]| |]; try done. cbn [mbind res_bind].
  intros [= <-]. unfold server_key. cbn. by destruct (VPort hop).
Qed.

(** The branch and the method of a client key. *)
Definition client_id (msg : message) : option (string * RequestMethod) :=
  match headers_ViaHop (msg_headers msg), headers_CSeq (msg_headers msg) with
  | Some hop, Some (_, method) =>
      match VParams hop with
      | Some ps =>
          match rfc3261_branch (Get ps "branch") with
          | Ok (Some b) => Some (b, if String.eqb method ACK then INVITE else method)
          | _ => None
          end
      | None => None
      end
  | _, _ => None
  end.

Lemma MakeClientTxKey_id msg c : client_id msg = Some c -> MakeClientTxKey msg = Ok (join sep [c.1; c.2]).
Proof.
  unfold client_id, MakeClientTxKey.
  destruct (headers_ViaHop (msg_headers msg)) as [hop|]; [|done].
  destruct (headers_CSeq (msg_headers msg)) as [[n m]|]; [|done].
  destruct (VParams hop) as [ps|]; [|done]. cbn [deref mbind res_bind].
  destruct (rfc3261_branch _) as [[b|]| |]; try done. by intros [= <-].
Qed.

(** Membership of a literal name in a list of literal names. *)
Ltac in_names := apply list_elem_of_In; cbn; tauto.

(** *** Keys depend on the identifying headers only *)

Lemma MakeServerTxKey_ext m1 m2 :
  (forall n, n ∈ ["via"; "from"; "call-id"; "cseq"] ->
     entry (msg_headers m1) n = entry (msg_headers m2) n) ->
  MakeServerTxKey m1 = MakeServerTxKey m2.
Proof.
  intros H. unfold MakeServerTxKey, headers_ViaHop.
  rewrite !headers_Via_head, !headers_CSeq_head, !headers_From_head, !headers_CallID_head.
  rewrite (H "via"), (H "cseq"), (H "from"), (H "call-id") by in_names. done.
Qed.

Lemma MakeClientTxKey_ext m1 m2 :
  (forall n, n ∈ ["via"; "cseq"] -> entry (msg_headers m1) n = entry (msg_headers m2) n) ->
  MakeClientTxKey m1 = MakeClientTxKey m2.
Proof.
  intros H. unfold MakeClientTxKey, headers_ViaHop.
  rewrite !headers_Via_head, !headers_CSeq_head. rewrite (H "via"), (H "cseq") by in_names. done.
Qed.

(** *** Prefixes *)

Lemma HasPrefix_app p s : HasPrefix p (p +:+ s) = true.
Proof. induction p as [|a p IH]; cbn; [done|]. by rewrite Ascii.eqb_refl. Qed.

Lemma HasPrefix_split p s : HasPrefix p s = true -> exists t, s = p +:+ t.
Proof.
  revert s. induction p as [|a p IH]; intros s; [by exists s|]. destruct s as [|b s]; [done|]. cbn.
  intros [->%Ascii.eqb_eq H]%andb_true_iff. destruct (IH s H) as [t ->]. by exists t.
Qed.

Lemma TrimPrefix_app p s : TrimPrefix p (p +:+ s) = s.
Proof. unfold TrimPrefix. by rewrite HasPrefix_app, str_drop_app. Qed.

(** *** Injectivity *)

(** What stands before the first occurrence of a character is determined by the text. *)
Lemma first_split c s1 s2 t1 t2 :
  sforall (fun a => negb (Ascii.eqb c a)) s1 = true -> sforall (fun a => negb (Ascii.eqb c a)) s2 = true ->
  s1 +:+ String c t1 = s2 +:+ String c t2 -> s1 = s2 /\ t1 = t2.
Proof.
  intros H1 H2 E. pose proof (index_byte_app c s1 t1 H1) as I1.
  rewrite E, (index_byte_app c s2 t2 H2) in I1. injection I1 as I1.
  pose proof (f_equal (str_take (String.length s1)) E) as Et.
  pose proof (f_equal (str_drop (String.length s1)) E) as Ed.
  rewrite str_take_app, <- I1, str_take_app in Et. rewrite str_drop_app, <- I1, str_drop_app in Ed.
  split; [done|]. by injection Ed.
Qed.

Definition no_underscore (s : string) : bool := sforall (fun c => negb (Ascii.eqb "_" c)) s.

Lemma underscore_split s1 s2 t1 t2 :
  no_underscore s1 = true -> no_underscore s2 = true ->
  s1 +:+ String "_" t1 = s2 +:+ String "_" t2 -> s1 = s2 /\ t1 = t2.
Proof. apply first_split. Qed.

Lemma join_sep_inj l1 l2 :
  forallb no_underscore l1 = true -> forallb no_underscore l2 = true -> l1 <> [] -> l2 <> [] ->
  join sep l1 = join sep l2 -> l1 = l2.
Proof.
  assert (Hlone : forall s t l, no_underscore s = true -> s = t +:+ sep +:+ l -> False).
  { intros s t l Hs ->. unfold no_underscore in Hs. rewrite !sforall_app, !andb_true_iff in Hs.
    destruct Hs as (_ & Hs & _). by vm_compute in Hs. }
  revert l2. induction l1 as [|s1 l1 IH]; [done|]. intros [|s2 l2] H1 H2 _ Hne E; [done|].
  cbn in H1, H2. apply andb_true_iff in H1 as [Hs1 H1], H2 as [Hs2 H2].
  destruct l1 as [|x1 l1], l2 as [|x2 l2].
  - cbn in E. by subst.
  - exfalso. exact (Hlone _ _ _ Hs1 E).
  - exfalso. exact (Hlone _ _ _ Hs2 (eq_sym E)).
  - apply (underscore_split s1 s2 (String "_" (join sep (x1 :: l1))) (String "_" (join sep (x2 :: l2))))
      in E as [-> E]; [|done|done].
    injection E as E. f_equal. by apply IH.
Qed.

(** An identity without underscores in its texts. *)
Definition clean_id (i : tx_id) : bool :=
  no_underscore (id_branch i) && no_underscore (id_host i) && no_underscore (id_method i).

Lemma itoa_no_underscore n : no_underscore (itoa n) = true.
Proof.
  unfold no_underscore. eapply sforall_weaken; [|apply itoa_digits].
  intros c Hc. destruct (Ascii.eqb_spec "_" c) as [<-|]; [done|done].
Qed.

Lemma server_key_inj i j :
  clean_id i = true -> clean_id j = true -> server_key i = server_key j -> i = j.
Proof.
  unfold clean_id. rewrite !andb_true_iff. intros [[? ?] ?] [[? ?] ?] E.
  apply join_sep_inj in E; try done;
    [|by cbn; rewrite itoa_no_underscore, !andb_true_iff|by cbn; rewrite itoa_no_underscore, !andb_true_iff].
  injection E as E1 E2 E3 E4. apply itoa_inj in E3. destruct i, j; cbn in *. by subst.
Qed.

(** ** The properties *)

(** a response made by [CreateResponse] has the server key of its request, so that
    the layer finds the transaction that waits for it, and the client key of its request,
    so that the peer that sent the request finds its own; also where no key can be made. *)
Theorem response_same_keys (id rndTag : string) (req : request) (code : StatusCode) (s d : string) :
  headers_ok (msg_headers (req_msg req)) -> request_Source req = Ok s -> request_Destination req = Ok d ->
  exists r, CreateResponse id rndTag req code = Ok r
    /\ MakeServerTxKey (res_msg r) = MakeServerTxKey (req_msg req)
    /\ MakeClientTxKey (res_msg r) = MakeClientTxKey (req_msg req).
Proof.
  intros Hok Hs Hd.
  destruct (CreateResponse_entries id rndTag req code s d Hok Hs Hd) as (hs & -> & _ & Hn & _).
  eexists. split; [reflexivity|]. cbn [res_msg].
  split; [apply MakeServerTxKey_ext|apply MakeClientTxKey_ext]; intros n Hin; apply Hn;
    apply list_elem_of_In in Hin; apply list_elem_of_In; cbn in *; tauto.
Qed.

(** A request as the parser makes it. *)
Definition sample_via (branch : string) (port : option Port) : Header :=
  HVia [mkViaHop "SIP" "2.0" "UDP" "10.0.0.9" port (Some (Add NewParams "branch" (Some branch)))].

Definition keyed_message (method branch : string) : message :=
  mkMessage (mkHeaders (<["via" := [sample_via branch None]]>
                        (<["cseq" := [HCSeq 7 method]]> (hmap sample_headers)))
               ["via"; "from"; "cseq"]) "id" SipVersion "" "10.0.0.9:5060" "10.0.0.1:5060".

Lemma response_same_keys_witness :
  exists r, CreateResponse "r1" "42" sample_request 180%N = Ok r
    /\ MakeServerTxKey (res_msg r) = MakeServerTxKey (req_msg sample_request).
Proof.
  destruct (response_same_keys "r1" "42" sample_request 180%N "10.0.0.9:5060" "10.0.0.1:5060"
    sample_headers_ok eq_refl eq_refl) as (r & H1 & H2 & _).
  exists r. split; [exact H1|exact H2].
Defined.

(** *** The specification: RFC 3261, 17.2.3, in its own words *)

(** A branch of RFC 3261 is the cookie followed by something. *)
Definition modern_branch (b : string) : Prop := exists rest, b = "z9hG4bK" +:+ rest /\ rest <> "".

(** An ACK and a CANCEL belong to the transaction of the INVITE. *)
Definition matched_method (method : string) : string :=
  match method with "ACK" | "CANCEL" => "INVITE" | _ => method end.

(** The port of a hop without one. *)
Definition assumed_port (transport : string) : Port :=
  if String.eqb (ToLower transport) "tls" then 5061%N else 5060%N.

(** The message has a top Via hop with a branch of RFC 3261 and a CSeq, and these are its
    branch, sent-by and method. *)
Definition identified_by (msg : message) (i : tx_id) : Prop :=
  exists hop n method ps, headers_ViaHop (msg_headers msg) = Some hop
    /\ headers_CSeq (msg_headers msg) = Some (n, method) /\ VParams hop = Some ps
    /\ Get ps "branch" = Some (Some (id_branch i)) /\ modern_branch (id_branch i)
    /\ id_host i = VHost hop
    /\ id_port i = match VPort hop with Some p => p | None => assumed_port (Transport hop) end
    /\ id_method i = matched_method method.

(** The message has a branch as RFC 2543 knew it, or none, and this is what identified its
    transaction then: tag, Call-ID, method, sequence number and the top Via hop. *)
Definition identified_2543 (msg : message) (tag callId method : string) (n : N) (via : string) : Prop :=
  exists hop ps m from fps, headers_ViaHop (msg_headers msg) = Some hop
    /\ headers_CSeq (msg_headers msg) = Some (n, m) /\ VParams hop = Some ps
    /\ (Get ps "branch" = None \/ exists b, Get ps "branch" = Some (Some b) /\ ~ modern_branch b)
    /\ headers_From (msg_headers msg) = Some from /\ HParams from = Some fps
    /\ Get fps "tag" = Some (Some tag) /\ headers_CallID (msg_headers msg) = Some callId
    /\ ViaHop_String hop = Ok via /\ method = matched_method m.

Lemma modern_branch_test b :
  if negb (String.eqb b "") && HasPrefix RFC3261BranchMagicCookie b
     && negb (String.eqb (TrimPrefix RFC3261BranchMagicCookie b) "")
  then modern_branch b else ~ modern_branch b.
Proof.
  change RFC3261BranchMagicCookie with "z9hG4bK". destruct (HasPrefix "z9hG4bK" b) eqn:Hp.
  - destruct (HasPrefix_split _ _ Hp) as [rest ->]. rewrite (TrimPrefix_app "z9hG4bK"). cbn [negb andb].
    destruct (String.eqb_spec rest "") as [->|Hr]; cbn.
    + intros (rest & E & Hn). apply Hn. by injection E as <-.
    + exists rest. by split.
  - rewrite andb_false_r. cbn. intros (rest & -> & _). by rewrite HasPrefix_app in Hp.
Qed.

Lemma rfc3261_branch_modern b : modern_branch b -> rfc3261_branch (Some (Some b)) = Ok (Some b).
Proof.
  intros Hb. pose proof (modern_branch_test b) as Ht. unfold rfc3261_branch. cbn [deref mbind res_bind].
  by destruct (_ && _).
Qed.

Lemma rfc3261_branch_old b : ~ modern_branch b -> rfc3261_branch (Some (Some b)) = Ok None.
Proof.
  intros Hb. pose proof (modern_branch_test b) as Ht. unfold rfc3261_branch. cbn [deref mbind res_bind].
  by destruct (_ && _).
Qed.

Lemma server_method_matched m : server_method m = matched_method m.
Proof.
  unfold server_method, matched_method. destruct (String.eqb_spec m ACK) as [->|Ha]; [done|].
  destruct (String.eqb_spec m CANCEL) as [->|Hc]; [done|]. cbn. by repeat case_match.
Qed.

Lemma identified_key msg i : identified_by msg i -> MakeServerTxKey msg = Ok (server_key i).
Proof.
  intros (hop & n & method & ps & Hh & Hc & Hp & Hb & Hm & Ehost & Eport & Emethod).
  apply MakeServerTxKey_id. unfold server_id.
  rewrite Hh, Hc, Hp, Hb, rfc3261_branch_modern, server_method_matched, <- Emethod by done. f_equal.
  destruct i as [b h p m]. cbn in *. subst h p. f_equal. destruct (VPort hop); [done|]. cbn.
  unfold DefaultPort, assumed_port. destruct (String.eqb _ "tls"); [done|]. by repeat case_match.
Qed.

Lemma identified_2543_key msg tag callId method n via :
  identified_2543 msg tag callId method n via ->
  MakeServerTxKey msg = Ok (join "__" [tag; "Call-ID: " +:+ callId; method; itoa n; via]).
Proof.
  intros (hop & ps & m & from & fps & Hh & Hc & Hp & Hb & Hf & Hfp & Ht & Hci & Hv & ->).
  assert (Hnone : rfc3261_branch (Get ps "branch") = Ok None).
  { destruct Hb as [-> |(b & -> & Hb)]; [done|by apply rfc3261_branch_old]. }
  unfold MakeServerTxKey. rewrite Hh, Hc, Hp. cbn [deref mbind res_bind]. rewrite Hnone. cbn [mbind res_bind].
  rewrite Hf, Hfp. cbn [deref mbind res_bind]. rewrite Ht, Hci. cbn [deref mbind res_bind]. rewrite Hv.
  cbn [mbind res_bind]. by rewrite server_method_matched.
Qed.

(** C25: the server key decides what RFC 3261 (17.2.3) matches.  For messages whose branch is
    the cookie z9hG4bK and something behind it, with no underscore in branch, host and
    method, the keys are equal exactly when branch, sent-by host and port (5061 for TLS
    and 5060 otherwise where none is given) and method agree, an ACK or a CANCEL counting
    as the INVITE it belongs to.  Where the branch is missing or has no cookie, or nothing
    behind it, the key is made of the From tag, the Call-ID, this method, the sequence
    number and the top Via hop instead. *)
Theorem server_keys_match (m1 m2 : message) (i j : tx_id) :
  identified_by m1 i -> identified_by m2 j -> clean_id i = true -> clean_id j = true ->
  (exists k, MakeServerTxKey m1 = Ok k)
  /\ (MakeServerTxKey m1 = MakeServerTxKey m2 <-> i = j)
  /\ forall m tag callId method n via, identified_2543 m tag callId method n via ->
       MakeServerTxKey m = Ok (join "__" [tag; "Call-ID: " +:+ callId; method; itoa n; via]).
Proof.
  intros H1 H2 Hi Hj. rewrite (identified_key _ _ H1), (identified_key _ _ H2).
  split; [by eexists|]. split; [|exact identified_2543_key].
  split; [|by intros ->]. intros [= E]. exact (server_key_inj i j Hi Hj E).
Qed.

Lemma keyed_identified method b :
  modern_branch b -> identified_by (keyed_message method b) (mkTxId b "10.0.0.9" 5060%N (matched_method method)).
Proof.
  intros Hb. exists (mkViaHop "SIP" "2.0" "UDP" "10.0.0.9" None (Some (Add NewParams "branch" (Some b)))), 7%N, method,
    (Add NewParams "branch" (Some b)).
  do 7 (split; [first [exact Hb|reflexivity]|]). reflexivity.
Qed.

Lemma server_keys_match_witness :
  MakeServerTxKey (keyed_message "CANCEL" "z9hG4bKabc") = MakeServerTxKey (keyed_message "INVITE" "z9hG4bKabc")
  /\ MakeServerTxKey (keyed_message "CANCEL" "z9hG4bKabc") <> MakeServerTxKey (keyed_message "INVITE" "z9hG4bKabd").
Proof.
  split.
  - destruct (server_keys_match (keyed_message "CANCEL" "z9hG4bKabc") (keyed_message "INVITE" "z9hG4bKabc")
      (mkTxId "z9hG4bKabc" "10.0.0.9" 5060%N "INVITE") (mkTxId "z9hG4bKabc" "10.0.0.9" 5060%N "INVITE"))
      as (_ & [_ H] & _);
      [apply (keyed_identified "CANCEL"); exists "abc"; split; [reflexivity|discriminate]
      |apply (keyed_identified "INVITE"); exists "abc"; split; [reflexivity|discriminate]
      |vm_compute; reflexivity|vm_compute; reflexivity|].
    apply H. reflexivity.
  - destruct (server_keys_match (keyed_message "CANCEL" "z9hG4bKabc") (keyed_message "INVITE" "z9hG4bKabd")
      (mkTxId "z9hG4bKabc" "10.0.0.9" 5060%N "INVITE") (mkTxId "z9hG4bKabd" "10.0.0.9" 5060%N "INVITE"))
      as (_ & [H _] & _);
      [apply (keyed_identified "CANCEL"); exists "abc"; split; [reflexivity|discriminate]
      |apply (keyed_identified "INVITE"); exists "abd"; split; [reflexivity|discriminate]
      |vm_compute; reflexivity|vm_compute; reflexivity|].
    intros E. discriminate (H E).
Defined.

(** the client key decides what RFC 3261 (17.1.3) matches: with underscore-free
    texts, client keys are equal exactly when branch and method agree (an ACK counting as
    an INVITE); and although client and server transactions share one pool, no client key
    is a server key of an RFC 3261 message. *)
Theorem client_keys_match (m1 m2 : message) (c1 c2 : string * RequestMethod) :
  client_id m1 = Some c1 -> client_id m2 = Some c2 ->
  forallb no_underscore [c1.1; c1.2; c2.1; c2.2] = true ->
  (MakeClientTxKey m1 = MakeClientTxKey m2 <-> c1 = c2)
  /\ forall m3 i, server_id m3 = Some i -> clean_id i = true -> MakeServerTxKey m3 <> MakeClientTxKey m1.
Proof.
  intros H1 H2 Hu. cbn in Hu. rewrite !andb_true_iff in Hu. destruct Hu as (U1 & U2 & U3 & U4 & _).
  rewrite (MakeClientTxKey_id _ _ H1), (MakeClientTxKey_id _ _ H2). split.
  - split; [|by intros ->]. intros E. apply (inj Ok), join_sep_inj in E; try done;
      [|by cbn; rewrite U1, U2|by cbn; rewrite U3, U4].
    destruct c1, c2. by injection E as -> ->.
  - intros m3 i Hi Hc. rewrite (MakeServerTxKey_id _ _ Hi). intros E%(inj Ok). unfold clean_id in Hc.
    rewrite !andb_true_iff in Hc. destruct Hc as [[C1 C2] C3].
    apply join_sep_inj in E; try done; [by cbn; rewrite itoa_no_underscore, C1, C2, C3|by cbn; rewrite U1, U2].
Qed.

Lemma client_keys_match_witness :
  MakeServerTxKey (keyed_message "INVITE" "z9hG4bKabc") <> MakeClientTxKey (keyed_message "INVITE" "z9hG4bKabc").
Proof.
  apply (proj2 (client_keys_match (keyed_message "INVITE" "z9hG4bKabc") (keyed_message "ACK" "z9hG4bKabc")
    ("z9hG4bKabc", "INVITE") ("z9hG4bKabc", "INVITE") eq_refl eq_refl eq_refl)
    (keyed_message "INVITE" "z9hG4bKabc") (mkTxId "z9hG4bKabc" "10.0.0.9" 5060%N "INVITE"));
    vm_compute; reflexivity.
Defined.

(** An underscore in the branch or the host makes keys of different transactions equal. *)
Example keys_collide :
  server_key (mkTxId "z9hG4bKa" "b__c" 5060%N "INVITE") = server_key (mkTxId "z9hG4bKa__b" "c" 5060%N "INVITE").
Proof. reflexivity. Qed.

(** A branch parameter without a value panics. *)
Example valueless_branch_panics :
  MakeServerTxKey (mkMessage (mkHeaders
    (<["via" := [HVia [mkViaHop "SIP" "2.0" "UDP" "h" None (Some (Add NewParams "branch" None))]]]>
     (<["cseq" := [HCSeq 7 "INVITE"]]> ∅)) ["via"; "cseq"]) "id" SipVersion "" "" "")
  = Panic NilDereference.
Proof. vm_compute. reflexivity. Qed.
