(* ===== verification/Fsm.v ===== *)
(** * State machines of transactions

    The transactions run on the state machine package github.com/discoviking/fsm, which is
    not part of the repository.  Its [Spin] is a parameter of the transaction models; the
    class [FsmSpin] states what its documentation says of it: an input for which the
    current state has no outcome is rejected and changes nothing, otherwise the machine
    takes the state of the outcome and runs its action, and an input that the action
    returns is fed back in; a panic of the action is not caught.  What happens when an
    action calls [Spin] of its own machine is not documented: such an action is an [Err]
    of the model, which then says no more about the run.  [spin_run] is a machine that satisfies the class. *)

From S2P Require Import Prelude GoStrings.
From Stdlib Require Import Lia.

#[local] Open Scope list_scope.

(** [Spin] called from an action of the same machine. *)
Definition nested_spin {A} : res A := Err "Spin called from an action of its machine".

Section Fsm.
Context {State Input Action Tx : Type}.

(** The table of a machine: the map [Outcomes] of every state it defines. *)
Variable outcomes : State -> Input -> option (State * Action).

(** The action methods; [None] is [fsm.NO_INPUT]. *)
Variable perform : Action -> Tx -> res (Tx * option Input).

(** The error, if any, is the second component. *)
Definition spin_type : Type := State * Tx -> Input -> res ((State * Tx) * option string).

Class FsmSpin (Spin : spin_type) : Prop := {
  spin_rejects s t i :
    outcomes s i = None -> exists e, Spin (s, t) i = Ok ((s, t), Some e);
  spin_stops s t i s' a t' :
    outcomes s i = Some (s', a) -> perform a t = Ok (t', None) -> Spin (s, t) i = Ok ((s', t'), None);
  spin_feeds s t i s' a t' i' :
    outcomes s i = Some (s', a) -> perform a t = Ok (t', Some i') -> Spin (s, t) i = Spin (s', t') i';
  spin_panics s t i s' a k :
    outcomes s i = Some (s', a) -> perform a t = Panic k -> Spin (s, t) i = Panic k;
  spin_errs s t i s' a e :
    outcomes s i = Some (s', a) -> perform a t = Err e -> Spin (s, t) i = Err e
}.

(** ** A machine of this kind *)

Fixpoint spin_run (fuel : nat) (c : State * Tx) (i : Input) : res ((State * Tx) * option string) :=
  match fuel with
  | O => Ok (c, Some "out of fuel")
  | S fuel =>
      match outcomes c.1 i with
      | None => Ok (c, Some "invalid input")
      | Some (s', a) =>
          '(t', next) ← perform a c.2;
          match next with
          | None => Ok ((s', t'), None)
          | Some i' => spin_run fuel (s', t') i'
          end
      end
  end.

(** An action that feeds an input leads to a smaller rank, so that chains end. *)
Variable rank : State -> Input -> nat.
Hypothesis rank_decreases : forall s i s' a t t' i',
  outcomes s i = Some (s', a) -> perform a t = Ok (t', Some i') -> (rank s' i' < rank s i)%nat.

Lemma spin_run_enough n m c i :
  (rank c.1 i < n)%nat -> (rank c.1 i < m)%nat -> spin_run n c i = spin_run m c i.
Proof.
  revert m c i. induction n as [|n IH]; intros m c i Hn Hm; [lia|]. destruct m as [|m]; [lia|].
  cbn. destruct (outcomes c.1 i) as [[s' a]|] eqn:Eo; [|done].
  destruct (perform a c.2) as [[t' [i'|]]| |] eqn:Ep; try done. cbn.
  pose proof (rank_decreases _ _ _ _ _ _ _ Eo Ep). apply IH; cbn; lia.
Qed.

Lemma spin_run_FsmSpin n :
  (forall s i, (rank s i <= n)%nat) -> FsmSpin (spin_run (S n)).
Proof.
  intros Hb. constructor.
  - intros s t i Ho. cbn. rewrite Ho. eauto.
  - intros s t i s' a t' Ho Hp. cbn. rewrite Ho. cbn. by rewrite Hp.
  - intros s t i s' a t' i' Ho Hp.
    transitivity (spin_run n (s', t') i').
    { cbn [spin_run fst snd]. rewrite Ho. cbn. by rewrite Hp. }
    pose proof (rank_decreases _ _ _ _ _ _ _ Ho Hp). specialize (Hb s i). apply spin_run_enough; cbn; lia.
  - intros s t i s' a k Ho Hp. cbn. rewrite Ho. cbn. by rewrite Hp.
  - intros s t i s' a e Ho Hp. cbn. rewrite Ho. cbn. by rewrite Hp.
Qed.

(** What every action that a chain of inputs [Q] can lead to preserves, the machine
    preserves. *)
Lemma spin_preserves_along (Spin : spin_type) (Q : Input -> Prop) (P : Tx -> Prop) :
  FsmSpin Spin ->
  (forall s i s' a t t' n, Q i -> outcomes s i = Some (s', a) -> P t -> perform a t = Ok (t', n) ->
     P t' /\ (forall i', n = Some i' -> Q i')) ->
  forall s t i s' t' e, Q i -> P t -> Spin (s, t) i = Ok ((s', t'), e) -> P t'.
Proof.
  intros Hspin Hp s t i. remember (rank s i) as n eqn:En. revert s t i En.
  induction (lt_wf n) as [n _ IH]. intros s t i -> s' t' e Hq Ht Hs.
  destruct (outcomes s i) as [[s1 a]|] eqn:Ho.
  - destruct (perform a t) as [[t1 next]| |] eqn:Ha.
    + destruct (Hp _ _ _ _ _ _ _ Hq Ho Ht Ha) as [Ht1 Hn]. destruct next as [i1|].
      * rewrite (spin_feeds s t i s1 a t1 i1 Ho Ha) in Hs.
        exact (IH _ (rank_decreases _ _ _ _ _ _ _ Ho Ha) s1 t1 i1 eq_refl s' t' e (Hn _ eq_refl) Ht1 Hs).
      * rewrite (spin_stops s t i s1 a t1 Ho Ha) in Hs. by injection Hs as <- <- <-.
    + by rewrite (spin_errs s t i s1 a _ Ho Ha) in Hs.
    + by rewrite (spin_panics s t i s1 a _ Ho Ha) in Hs.
  - destruct (spin_rejects s t i Ho) as [e' He]. rewrite He in Hs. by injection Hs as <- <- <-.
Qed.

(** What every action preserves, the machine preserves. *)
Lemma spin_preserves (Spin : spin_type) (P : Tx -> Prop) :
  FsmSpin Spin -> (forall a t t' n, P t -> perform a t = Ok (t', n) -> P t') ->
  forall s t i s' t' e, P t -> Spin (s, t) i = Ok ((s', t'), e) -> P t'.
Proof.
  intros Hspin Hp s t i s' t' e. apply (spin_preserves_along Spin (fun _ => True) P Hspin); [|done].
  intros s0 i0 s1 a t0 t1 n _ _ Ht Ha. split; [by eapply Hp|done].
Qed.

End Fsm.

#[global] Arguments spin_type : clear implicits.
#[global] Arguments spin_rejects {State Input Action Tx outcomes perform Spin _}.
#[global] Arguments spin_stops {State Input Action Tx outcomes perform Spin _}.
#[global] Arguments spin_feeds {State Input Action Tx outcomes perform Spin _}.
#[global] Arguments spin_panics {State Input Action Tx outcomes perform Spin _}.
#[global] Arguments spin_errs {State Input Action Tx outcomes perform Spin _}.
