(* ===== verification/Transport.v ===== *)
(** * The transport layer (transport/transport.go, protocolPool.go, protocol.go, protocolFactory.go)

    The layer keeps a pool of protocols and sends a message over one of them; for a
    request it rewrites the sent-by part of the top Via header, offers [rport], adds a
    Contact to an INVITE and tries the protocols in an order that depends on the size of
    the message.  The sockets under a protocol, the resolver and the local address are
    parameters.  What the transaction layer relies on is the class [TransportLayer]; the
    layer of this file is an instance. *)

From S2P Require Import Prelude GoStrings Params Base Uri Header Headers Auth HeaderParse.
From S2P Require Import Message TxKey.
From Stdlib Require Import NArith Lia.

#[local] Open Scope string_scope.
#[local] Open Scope list_scope.

(** ** What the layer promises to its clients *)

(** A request after sending is still the same request.  Its method, version, body,
    addresses and every header but Via and Contact are unchanged, and so is its client
    transaction key.  Of the Via headers only the top hop may differ, in transport, host,
    port and an added [rport].  Only an INVITE without a Contact may get one, which is the
    address of its From. *)
Definition rport_added (o o' : option headerParams) : Prop :=
  o' = o \/ (let ps := default NewParams o in Has ps "rport" = false /\ o' = Some (Add ps "rport" None)).

Definition same_hop (hop hop' : ViaHop) : Prop :=
  ProtocolName hop' = ProtocolName hop /\ ProtocolVersion hop' = ProtocolVersion hop
  /\ rport_added (VParams hop) (VParams hop').

Definition same_via (l l' : list Header) : Prop :=
  l' = l
  \/ exists hop hop' hops rest, l = HVia (hop :: hops) :: rest /\ l' = HVia (hop' :: hops) :: rest
     /\ same_hop hop hop'.

Definition contact_offered (r r' : request) : Prop :=
  let l := entry (msg_headers (req_msg r)) "contact" in
  let l' := entry (msg_headers (req_msg r')) "contact" in
  l' = l
  \/ (IsInvite r = true /\ headers_Contact (msg_headers (req_msg r)) = None
      /\ exists from u rest, headers_From (msg_headers (req_msg r)) = Some from /\ Address from = Some u
         /\ (rest = [] \/ rest = l) /\ l' = HContact (mkAddress None (Some (Uri_Copy u)) None) :: rest).

Record same_request (r r' : request) : Prop := {
  same_method : req_method r' = req_method r;
  same_version : sipVersion (req_msg r') = sipVersion (req_msg r);
  same_addresses : src (req_msg r') = src (req_msg r) /\ dest (req_msg r') = dest (req_msg r);
  same_body : body (req_msg r') = body (req_msg r);
  same_entries : forall k, k <> "via" -> k <> "contact" ->
    entry (msg_headers (req_msg r')) k = entry (msg_headers (req_msg r)) k;
  same_vias : same_via (entry (msg_headers (req_msg r)) "via") (entry (msg_headers (req_msg r')) "via");
  same_contact : contact_offered r r';
  same_key : forall k, MakeClientTxKey (req_msg r) = Ok k -> MakeClientTxKey (req_msg r') = Ok k
}.

Definition same_message (m m' : Message) : Prop :=
  match m, m' with
  | MRequest r, MRequest r' => same_request r r'
  | MResponse r, MResponse r' => r' = r
  | _, _ => False
  end.

(** [W] is the state of the layer; [Send] also writes to the message it is given, and
    the error, if any, is its last component. *)
Class TransportLayer (W : Type) := {
  Send : W -> Message -> res (W * Message * option string);
  IsReliable : W -> string -> res bool;
  sent : W -> list Message;
  Send_same : forall w m w' m' e, Send w m = Ok (w', m', e) -> same_message m m';
  Send_logs : forall w m w' m' e, Send w m = Ok (w', m', e) ->
    sent w' = sent w ++ match e with None => [m'] | Some _ => [] end
}.

Lemma Has_Add ps k v : Has (Add ps k v) k = true.
Proof.
  unfold Has. apply bool_decide_true. change (is_Some (Get (Add ps k v) k)). rewrite Get_Add, decide_True by done.
  eauto.
Qed.

#[export] Instance rport_added_pre : PreOrder rport_added.
Proof.
  split; [by left|]. intros o1 o2 o3 [-> |[H1 ->]] [-> |[H2 H3]]; [by left|by right|by right|].
  exfalso. change (Has (Add (default NewParams o1) "rport" None) "rport" = false) in H2. by rewrite Has_Add in H2.
Qed.

#[export] Instance same_hop_pre : PreOrder same_hop.
Proof.
  split; [intros h; split; [done|]; split; [done|by left]|]. intros h1 h2 h3 (N1 & V1 & P1) (N2 & V2 & P2). split_and!; [congruence|congruence|by etrans].
Qed.

#[export] Instance same_via_pre : PreOrder same_via.
Proof.
  split; [by left|]. intros l1 l2 l3 [-> |(h1 & h2 & hs & t & -> & -> & H1)] H; [done|].
  destruct H as [-> |(h2' & h3 & hs' & t' & [= <- <- <-] & -> & H2)]; right; [by exists h1, h2, hs, t|].
  exists h1, h3, hs, t. split_and!; [done|done|by etrans].
Qed.

Lemma headers_Contact_head hs :
  headers_Contact hs = match entry hs "contact" with HContact v :: _ => Some v | _ => None end.
Proof.
  unfold headers_Contact, first_header. rewrite GetHeaders_entry. change (ToLower "Contact") with "contact".
  by destruct (entry hs "contact") as [|[] ?].
Qed.

(** A request that has got a Contact has one. *)
Lemma contact_entry hs a l : entry hs "contact" = HContact a :: l -> headers_Contact hs = Some a.
Proof. intros H. rewrite headers_Contact_head. by rewrite H. Qed.

Lemma contact_offered_trans r1 r2 r3 :
  req_method r2 = req_method r1 ->
  entry (msg_headers (req_msg r2)) "from" = entry (msg_headers (req_msg r1)) "from" ->
  contact_offered r1 r2 -> contact_offered r2 r3 -> contact_offered r1 r3.
Proof.
  intros Hm Hf [H1|(Hi & Hc & from & u & rest & Hfrom & Hu & Hr & H1)] H2.
  - unfold contact_offered in *. cbn in *. rewrite H1 in H2. destruct H2 as [H2|(Hi & Hc & from & u & rest & Hfrom & H2)];
      [by left|right].
    unfold IsInvite, headers_Contact, headers_From, first_header in *. rewrite GetHeaders_entry in *.
    rewrite Hm in Hi. change (ToLower "Contact") with "contact" in *. change (ToLower "From") with "from" in *.
    rewrite H1 in Hc. rewrite Hf in Hfrom. split; [done|]. split; [done|]. by exists from, u, rest.
  - destruct H2 as [H2|(_ & Hc2 & _)]; [|by rewrite (contact_entry _ _ _ H1) in Hc2].
    right. split; [done|]. split; [done|]. exists from, u, rest. by rewrite H2.
Qed.

#[export] Instance same_request_pre : PreOrder same_request.
Proof.
  split; [split; by first [done|left|reflexivity]|].
  intros r1 r2 r3 [M1 W1 [S1 D1] B1 E1 V1 C1 K1] [M2 W2 [S2 D2] B2 E2 V2 C2 K2].
  split; [congruence|congruence|split; congruence|congruence| |by etrans| |auto].
  - intros k Hv Hc. by rewrite E2, E1.
  - eapply contact_offered_trans; [done|by apply E1|done|done].
Qed.

Lemma same_message_refl m : same_message m m.
Proof. destruct m; cbn; [reflexivity|done]. Qed.

(** ** The protocol pool *)

Record protocol := mkProtocol { network : string; reliable : bool; streamed : bool }.

Definition protocolKey_String (key : string) : string := ToUpper key.

Definition Network (p : protocol) : string := ToUpper (network p).

(** The map may hold a nil protocol. *)
Definition protocolPool : Type := gmap string (option protocol).

Definition protocolPool_put (pool : protocolPool) (key : string) (p : option protocol) : protocolPool :=
  <[protocolKey_String key := p]> pool.
Definition protocolPool_get (pool : protocolPool) (key : string) : option (option protocol) :=
  pool !! protocolKey_String key.
Definition protocolPool_del (pool : protocolPool) (key : string) : protocolPool * bool :=
  match protocolPool_get pool key with
  | None => (pool, false)
  | Some _ => (delete (protocolKey_String key) pool, true)
  end.

Definition CreateUdpProtocol : protocol := mkProtocol "udp" false false.
Definition CreateTcpProtocol : protocol := mkProtocol "tcp" true true.

(** An unknown network gives a nil protocol and no error. *)
Definition protocolFactory (network : string) : option protocol :=
  let n := ToLower network in
  if String.eqb n "udp" then Some CreateUdpProtocol
  else if String.eqb n "tcp" then Some CreateTcpProtocol
  else None.

(** ** The layer *)

(** [outbox] records what the protocols have accepted: protocol, target and message. *)
Record layer := mkLayer {
  protocols : protocolPool;
  canceled : bool;
  outbox : list (string * Addr * Message)
}.

Definition CreateLayer : layer := mkLayer ∅ false [].

Definition layer_Close (tpl : layer) : layer := mkLayer (protocols tpl) true (outbox tpl).

(** The method call on a nil protocol panics. *)
Definition layer_IsReliable (tpl : layer) (network : string) : res bool :=
  match protocolPool_get (protocols tpl) network with
  | Some p => p ← deref p; mret (reliable p)
  | None => mret false
  end.

Definition MTU : nat := 1500.

Section Layer.

(** The local address as text. *)
Variable localIP : string.
(** The answer of the resolver for a host that is not an address: targets and ports. *)
Variable LookupSRV : string -> string -> list (string * Port).
(** [Send] and [Listen] of a protocol: the error, if any; [Send] of the UDP protocol may
    also panic (Protocols.v).  What was accepted so far stands for the state of the
    protocols. *)
Variable protocol_Send : string -> list (string * Addr * Message) -> Addr -> Message -> res (option string).
Variable protocol_Listen : string -> Addr -> option string.

Definition Listen (tpl : layer) (network addr : string) : res (layer * option string) :=
  if canceled tpl then mret (tpl, Some "[tpl_layer] -> transport layer is canceled")
  else
    let '(p, tpl) :=
      match protocolPool_get (protocols tpl) network with
      | Some p => (p, tpl)
      | None =>
          let p := protocolFactory network in
          (p, mkLayer (protocolPool_put (protocols tpl) network p) (canceled tpl) (outbox tpl))
      end in
    match NewTargetFromAddr addr with
    | Err e => mret (tpl, Some e)
    | Panic k => Panic k
    | Ok lAddr =>
        p ← deref p;
        mret (tpl, protocol_Listen (Network p) (FillTargetHostAndPort network lAddr))
    end.

(** Writing through the pointer to the top Via hop. *)
Definition set_hop (m : message) (f : ViaHop -> ViaHop) : message :=
  match headers_Via (msg_headers m) with
  | Some (hop :: hops) => with_headers m (set_first (msg_headers m) "via" (HVia (f hop :: hops)))
  | _ => m
  end.

(** The host and [rport] that every request gets. *)
Definition offer_rport (hop : ViaHop) : ViaHop :=
  let ps := default NewParams (VParams hop) in
  mkViaHop (ProtocolName hop) (ProtocolVersion hop) (Header.Transport hop) localIP (VPort hop)
    (Some (if Has ps "rport" then ps else Add ps "rport" None)).

(** The transport and port of the protocol that is tried. *)
Definition sent_by (nt : string) (hop : ViaHop) : ViaHop :=
  mkViaHop (ProtocolName hop) (ProtocolVersion hop) (ToUpper nt) (VHost hop)
    (Some (DefaultPort nt)) (VParams hop).

(** RFC 3261, 12.1.2: an INVITE carries a Contact. *)
Definition add_contact (r : request) : res request :=
  if IsInvite r then
    match headers_Contact (msg_headers (req_msg r)), headers_From (msg_headers (req_msg r)) with
    | None, Some from =>
        u ← deref (Address from);
        mret (with_msg r (with_headers (req_msg r)
                (PrependHeaderAfter (msg_headers (req_msg r))
                   (HContact (mkAddress None (Some (Uri_Copy u)) None)) "CSeq")))
    | _, _ => mret r
    end
  else mret r.

(** The lookup of a service record.  The answer is dropped: the cases of the switch on the
    network are spelled in capitals.  A target without text panics. *)
Definition srv_lookup (nt : string) (target : Addr) : res unit :=
  match LookupSRV (ToLower nt) (Host target) with
  | (t, _) :: _ => if String.eqb t "" then Panic SliceOutOfRange else mret tt
  | [] => mret tt
  end.

Definition accept (tpl : layer) (p : protocol) (target : Addr) (m : Message) : layer :=
  mkLayer (protocols tpl) (canceled tpl) (outbox tpl ++ [(Network p, target, m)]).

(** The loop over the protocols; [err] is the last error. *)
Fixpoint try_nets (tpl : layer) (nets : list string) (r : request) (err : option string)
    : res (layer * request * option string) :=
  match nets with
  | [] => mret (tpl, r, err)
  | nt :: rest =>
      match protocolPool_get (protocols tpl) nt with
      | None => try_nets tpl rest r (Some "[tpl_layer] -> protocol %s is not supported")
      | Some p =>
          let r := with_msg r (set_hop (req_msg r) (sent_by nt)) in
          d ← request_Destination r;
          match NewTargetFromAddr d with
          | Err e => try_nets tpl rest r (Some e)
          | Panic k => Panic k
          | Ok target =>
              _ ← srv_lookup nt target;
              p ← deref p;
              e ← protocol_Send (Network p) (outbox tpl) target (MRequest r);
              match e with
              | None => mret (accept tpl p target (MRequest r), r, None)
              | Some e => try_nets tpl rest r (Some e)
              end
          end
      end
  end.

Definition send_request (tpl : layer) (r : request) : res (layer * request * option string) :=
  '(text, r) ← request_String r;
  let nets := if (MTU - 200 <? String.length text)%nat then ["tcp"; "udp"] else ["udp"; "tcp"] in
  let r := with_msg r (set_hop (req_msg r) offer_rport) in
  r ← add_contact r;
  try_nets tpl nets r None.

Definition send_response (tpl : layer) (r : response) (hop : ViaHop) : res (layer * option string) :=
  match protocolPool_get (protocols tpl) (Header.Transport hop) with
  | None => mret (tpl, Some "[tpl_layer] -> protocol %s is not supported")
  | Some p =>
      d ← response_Destination r;
      match NewTargetFromAddr d with
      | Err e => mret (tpl, Some e)
      | Panic k => Panic k
      | Ok target =>
          p ← deref p;
          e ← protocol_Send (Network p) (outbox tpl) target (MResponse r);
          match e with
          | None => mret (accept tpl p target (MResponse r), None)
          | Some e => mret (tpl, Some e)
          end
      end
  end.

Definition layer_Send (tpl : layer) (m : Message) : res (layer * Message * option string) :=
  if canceled tpl then mret (tpl, m, Some "[tpl_layer] -> transport layer is canceled")
  else
    match m with
    | MRequest r =>
        match headers_ViaHop (msg_headers (req_msg r)) with
        | None =>
            '(_, r) ← request_String r;
            mret (tpl, MRequest r, Some "[tpl_layer] -> missing required 'Via' header")
        | Some _ => '(tpl, r, e) ← send_request tpl r; mret (tpl, MRequest r, e)
        end
    | MResponse r =>
        match headers_ViaHop (msg_headers (res_msg r)) with
        | None =>
            _ ← response_String r;
            mret (tpl, m, Some "[tpl_layer] -> missing required 'Via' header")
        | Some hop => '(tpl, e) ← send_response tpl r hop; mret (tpl, m, e)
        end
    end.

End Layer.

(** ** Lemmas *)

Lemma PrependHeaderAfter_other hs h after k :
  k <> key_of h -> entry (PrependHeaderAfter hs h after) k = entry hs k.
Proof.
  intros Hk. unfold PrependHeaderAfter, PrependHeader, entry.
  destruct (hmap hs !! ToLower after); cbn.
  - destruct (last_position (key_of h) (headerOrder hs)); cbn; by rewrite lookup_insert_ne.
  - destruct (hmap hs !! key_of h); cbn; by rewrite lookup_insert_ne.
Qed.

Lemma headers_Via_entry hs v : headers_Via hs = Some v -> exists l, entry hs "via" = HVia v :: l.
Proof.
  rewrite headers_Via_head. destruct (entry hs "via") as [|[] l]; cbn; try done. intros [= ->]. eauto.
Qed.

Lemma set_hop_spec m f hop hops :
  headers_Via (msg_headers m) = Some (hop :: hops) ->
  headers_Via (msg_headers (set_hop m f)) = Some (f hop :: hops)
  /\ forall k, k <> "via" -> entry (msg_headers (set_hop m f)) k = entry (msg_headers m) k.
Proof.
  intros Hv. unfold set_hop. rewrite Hv. destruct (headers_Via_entry _ _ Hv) as [l Hl]. cbn. split.
  - rewrite headers_Via_head, set_first_entry, decide_True, Hl by done. done.
  - intros k Hk. by rewrite set_first_entry, decide_False.
Qed.

(** The parts of a hop that make the branch of a key. *)
Definition keeps_branch (f : ViaHop -> ViaHop) : Prop :=
  forall hop ps, VParams hop = Some ps ->
    exists ps', VParams (f hop) = Some ps' /\ Get ps' "branch" = Get ps "branch".

Lemma offer_rport_keeps localIP : keeps_branch (offer_rport localIP).
Proof.
  intros hop ps Hps. unfold offer_rport. rewrite Hps. cbn. eexists. split; [done|].
  destruct (Has ps "rport"); [done|]. by rewrite Get_Add, decide_False.
Qed.

Lemma sent_by_keeps nt : keeps_branch (sent_by nt).
Proof. intros hop ps Hps. cbn. eauto. Qed.

Lemma set_hop_client_key m f k :
  keeps_branch f -> MakeClientTxKey m = Ok k -> MakeClientTxKey (set_hop m f) = Ok k.
Proof.
  intros Hf. unfold MakeClientTxKey, headers_ViaHop.
  destruct (headers_CSeq (msg_headers m)) as [[n method]|] eqn:Ec; [|done].
  destruct (headers_Via (msg_headers m)) as [[|hop hops]|] eqn:Ev; try done.
  destruct (set_hop_spec m f hop hops Ev) as [Hv Ho]. rewrite Hv.
  rewrite headers_CSeq_head, Ho, <- headers_CSeq_head, Ec by done.
  destruct (VParams hop) as [ps|] eqn:Ep; [|done]. destruct (Hf hop ps Ep) as (ps' & -> & Hg).
  cbn [deref mbind res_bind]. by rewrite Hg.
Qed.

Definition keeps_hop (f : ViaHop -> ViaHop) : Prop := keeps_branch f /\ forall hop, same_hop hop (f hop).

Lemma offer_rport_hop localIP : keeps_hop (offer_rport localIP).
Proof.
  split; [apply offer_rport_keeps|]. intros hop. split; [done|]. split; [done|]. cbn.
  destruct (VParams hop) as [ps|]; [|right; by split]. cbn.
  destruct (Has ps "rport") eqn:E; [by left|right]. by split.
Qed.

Lemma sent_by_hop nt : keeps_hop (sent_by nt).
Proof. split; [apply sent_by_keeps|]. intros hop. split; [done|]. split; [done|]. by left. Qed.

Lemma set_hop_fields m f :
  sipVersion (set_hop m f) = sipVersion m /\ src (set_hop m f) = src m /\ dest (set_hop m f) = dest m
  /\ body (set_hop m f) = body m.
Proof. unfold set_hop. by destruct (headers_Via _) as [[|? ?]|]. Qed.

Lemma set_hop_via m f :
  (forall hop, same_hop hop (f hop)) -> same_via (entry (msg_headers m) "via") (entry (msg_headers (set_hop m f)) "via").
Proof.
  intros Hf. unfold set_hop. destruct (headers_Via (msg_headers m)) as [[|hop hops]|] eqn:E; [by left| |by left].
  destruct (headers_Via_entry _ _ E) as [l Hl]. right. exists hop, (f hop), hops, l. split; [done|].
  cbn [msg_headers with_headers]. by rewrite set_first_entry, decide_True, Hl.
Qed.

Lemma set_hop_entry m f k :
  k <> "via" -> entry (msg_headers (set_hop m f)) k = entry (msg_headers m) k.
Proof.
  intros Hk. destruct (headers_Via (msg_headers m)) as [[|hop hops]|] eqn:E;
    [unfold set_hop; by rewrite E|by apply (set_hop_spec _ f _ _ E)|unfold set_hop; by rewrite E].
Qed.

Lemma set_hop_same r f : keeps_hop f -> same_request r (with_msg r (set_hop (req_msg r) f)).
Proof.
  intros [Hb Hf]. destruct (set_hop_fields (req_msg r) f) as (Hv & Hs & Hd & Hbo).
  split; cbn; try done.
  - intros k Hk _. by apply set_hop_entry.
  - by apply set_hop_via.
  - left. by apply set_hop_entry.
  - intros k. by apply set_hop_client_key.
Qed.

Lemma request_String_same r text r' : request_String r = Ok (text, r') -> same_request r r'.
Proof.
  unfold request_String, request_StartLine. destruct (start_recipient r) as [u| |]; try done. cbn.
  destruct (message_String _ _) as [t| |]; try done. cbn. intros [= _ <-]. by split; first [done|left].
Qed.

Lemma contact_prepended_entry hs h after :
  exists rest, (rest = [] \/ rest = entry hs (key_of h))
    /\ entry (PrependHeaderAfter hs h after) (key_of h) = h :: rest.
Proof.
  unfold PrependHeaderAfter, PrependHeader, entry. destruct (hmap hs !! ToLower after); cbn.
  - destruct (last_position (key_of h) (headerOrder hs)); cbn; rewrite lookup_insert_eq; cbn; eauto.
  - destruct (hmap hs !! key_of h); cbn; rewrite lookup_insert_eq; cbn; eauto.
Qed.

Lemma add_contact_same r r' : add_contact r = Ok r' -> same_request r r'.
Proof.
  unfold add_contact. destruct (IsInvite r) eqn:Hi; [|by intros [= <-]].
  destruct (headers_Contact _) eqn:Hc; [by intros [= <-]|].
  destruct (headers_From _) as [from|] eqn:Hf; [|by intros [= <-]].
  destruct (Address from) as [u|] eqn:Hu; [|done]. cbn [deref mbind res_bind]. intros [= <-].
  split; try done; cbn [req_msg with_msg with_headers msg_headers].
  - intros k _ Hk. by apply PrependHeaderAfter_other.
  - left. by apply PrependHeaderAfter_other.
  - right. split; [done|]. split; [done|].
    destruct (contact_prepended_entry (msg_headers (req_msg r)) (HContact (mkAddress None (Some (Uri_Copy u)) None))
      "CSeq") as (rest & Hr & He). by exists from, u, rest.
  - intros k <-. apply MakeClientTxKey_ext. cbn. intros n Hn. apply PrependHeaderAfter_other.
    apply list_elem_of_In in Hn. cbn in Hn. by destruct Hn as [<-|[<-|[]]].
Qed.

Section LayerLemmas.
Variable localIP : string.
Variable LookupSRV : string -> string -> list (string * Port).
Variable protocol_Send : string -> list (string * Addr * Message) -> Addr -> Message -> res (option string).

#[local] Abbreviation try := (try_nets LookupSRV protocol_Send).
#[local] Abbreviation lsend := (layer_Send localIP LookupSRV protocol_Send).

(** What a call has added to the outbox. *)
Definition logged (tpl tpl' : layer) (m' : Message) (e : option string) : Prop :=
  protocols tpl' = protocols tpl /\ canceled tpl' = canceled tpl /\
  match e with
  | Some _ => outbox tpl' = outbox tpl
  | None => exists net target, outbox tpl' = outbox tpl ++ [(net, target, m')]
  end.

Lemma try_nets_spec nets tpl r err tpl' r' e :
  (nets <> [] \/ is_Some err) ->
  try tpl nets r err = Ok (tpl', r', e) -> same_request r r' /\ logged tpl tpl' (MRequest r') e.
Proof.
  revert r err. induction nets as [|nt nets IH]; intros r err; cbn [try_nets].
  { intros [?|[err' ->]]; [done|]. intros [= <- <- <-]. by split. }
  intros _. destruct (protocolPool_get (protocols tpl) nt) as [p|]; [|by apply IH; eauto].
  set (r1 := with_msg r (set_hop (req_msg r) (sent_by nt))).
  assert (H1 : same_request r r1) by (apply set_hop_same, sent_by_hop).
  assert (Hgo : forall e', try tpl nets r1 (Some e') = Ok (tpl', r', e) ->
    same_request r r' /\ logged tpl tpl' (MRequest r') e).
  { intros e' H. apply IH in H as [H2 H3]; [|by eauto]. split; [by etrans|done]. }
  destruct (request_Destination r1) as [d| |]; cbn [mbind res_bind]; try done.
  destruct (NewTargetFromAddr d) as [target|e'|]; [|by apply Hgo|done].
  destruct (srv_lookup _ _ _) as [[]| |]; cbn [mbind res_bind]; try done.
  destruct p as [p|]; cbn [deref mbind res_bind]; [|done].
  destruct (protocol_Send _ _ _ _) as [[e'|]| |]; cbn [mbind res_bind]; try done; [by apply Hgo|].
  intros [= <- <- <-]. split; [done|]. repeat split. cbn. eauto.
Qed.

Lemma send_request_spec tpl r tpl' r' e :
  send_request localIP LookupSRV protocol_Send tpl r = Ok (tpl', r', e) ->
  same_request r r' /\ logged tpl tpl' (MRequest r') e.
Proof.
  unfold send_request. destruct (request_String r) as [[text r1]| |] eqn:Es; try done.
  cbn [mbind res_bind]. set (r2 := with_msg r1 (set_hop (req_msg r1) (offer_rport localIP))).
  destruct (add_contact r2) as [r3| |] eqn:Ea; try done. cbn [mbind res_bind].
  intros H. apply try_nets_spec in H as [H1 H2]; [|left; by destruct (_ <? _)%nat].
  split; [|done]. etrans; [by eapply request_String_same|].
  etrans; [apply set_hop_same, (offer_rport_hop localIP)|]. etrans; [by eapply add_contact_same|done].
Qed.

Lemma layer_Send_spec tpl m tpl' m' e :
  lsend tpl m = Ok (tpl', m', e) -> same_message m m' /\ logged tpl tpl' m' e.
Proof.
  unfold layer_Send. destruct (canceled tpl) eqn:Hc.
  { intros [= <- <- <-]. split; [apply same_message_refl|by split]. }
  destruct m as [r|r].
  - destruct (headers_ViaHop _); cbn [mbind res_bind].
    + destruct (send_request _ _ _ tpl r) as [[[tpl1 r1] e1]| |] eqn:E; try done.
      intros [= <- <- <-]. by apply send_request_spec in E.
    + destruct (request_String r) as [[text r1]| |] eqn:E; try done. intros [= <- <- <-].
      split; [by eapply request_String_same|by split].
  - destruct (headers_ViaHop _) as [hop|]; cbn [mbind res_bind].
    + unfold send_response. destruct (protocolPool_get _ _) as [p|]; [|by intros [= <- <- <-]].
      destruct (response_Destination r) as [d| |]; cbn [mbind res_bind]; try done.
      destruct (NewTargetFromAddr d); [|by intros [= <- <- <-]|done].
      destruct p as [p|]; cbn [deref mbind res_bind]; [|done].
      destruct (protocol_Send _ _ _ _) as [[e'|]| |]; cbn [mbind res_bind]; try done; intros [= <- <- <-]; [by split|].
      split; [done|]. repeat split. cbn. eauto.
    + destruct (response_String r); try done. by intros [= <- <- <-].
Qed.

Definition layer_sent (tpl : layer) : list Message := map snd (outbox tpl).

Lemma layer_Send_same tpl m tpl' m' e : lsend tpl m = Ok (tpl', m', e) -> same_message m m'.
Proof. intros H%layer_Send_spec. apply H. Qed.

Lemma layer_Send_logs tpl m tpl' m' e :
  lsend tpl m = Ok (tpl', m', e) ->
  layer_sent tpl' = layer_sent tpl ++ match e with None => [m'] | Some _ => [] end.
Proof.
  intros H. apply layer_Send_spec in H as [_ (_ & _ & H)]. unfold layer_sent.
  destruct e.
  - rewrite H, app_nil_r.
    done.
  - destruct H as (net & target & ->). by rewrite map_app.
Qed.

(** The layer keeps the promises of the interface. *)
#[export] Instance layer_TransportLayer : TransportLayer layer := {
  Send := lsend;
  IsReliable := layer_IsReliable;
  sent := layer_sent;
  Send_same := layer_Send_same;
  Send_logs := layer_Send_logs
}.

(** *** What goes out for a request *)

Lemma set_hop_ViaHop m f hop :
  headers_ViaHop (msg_headers m) = Some hop -> headers_ViaHop (msg_headers (set_hop m f)) = Some (f hop).
Proof.
  unfold headers_ViaHop. destruct (headers_Via (msg_headers m)) as [[|h hops]|] eqn:E; try done.
  intros [= ->]. by destruct (set_hop_spec m f hop hops E) as [-> _].
Qed.

(** The protocol that takes a request and what it is given. *)
Definition taken (tpl tpl' : layer) (nt : string) (r' : request) : Prop :=
  exists p d target, protocolPool_get (protocols tpl) nt = Some (Some p)
    /\ request_Destination r' = Ok d /\ NewTargetFromAddr d = Ok target
    /\ tpl' = accept tpl p target (MRequest r').

Lemma try_nets_taken nets tpl r err tpl' r' hop :
  (nets <> [] \/ is_Some err) -> headers_ViaHop (msg_headers (req_msg r)) = Some hop ->
  try tpl nets r err = Ok (tpl', r', None) ->
  exists nt, nt ∈ nets /\ taken tpl tpl' nt r'
    /\ headers_ViaHop (msg_headers (req_msg r')) = Some (sent_by nt hop).
Proof.
  revert r err hop. induction nets as [|nt nets IH]; intros r err hop; cbn [try_nets].
  { intros [?|[err' ->]]; [done|]. by intros _ [= _ _ <-]. }
  assert (Hmore : forall P : string -> Prop, (exists n, n ∈ nets /\ P n) -> exists n, n ∈ nt :: nets /\ P n).
  { intros P (n & Hn & HP). exists n. split; [by right|done]. }
  intros _ Hh. destruct (protocolPool_get (protocols tpl) nt) as [p|] eqn:Ep;
    [|intros H; apply Hmore; eapply IH; [right; eauto|exact Hh|exact H]].
  set (r1 := with_msg r (set_hop (req_msg r) (sent_by nt))).
  assert (Hh1 : headers_ViaHop (msg_headers (req_msg r1)) = Some (sent_by nt hop)) by by apply set_hop_ViaHop.
  assert (Hgo : forall e', try tpl nets r1 (Some e') = Ok (tpl', r', None) ->
    exists n, n ∈ nt :: nets /\ taken tpl tpl' n r'
      /\ headers_ViaHop (msg_headers (req_msg r')) = Some (sent_by n hop)).
  { intros e' H. apply Hmore. eapply (IH r1 (Some e') (sent_by nt hop)); [right; eauto|done|done]. }
  destruct (request_Destination r1) as [d| |] eqn:Ed; cbn [mbind res_bind]; try done.
  destruct (NewTargetFromAddr d) as [target|e'|] eqn:Et; [|by apply Hgo|done].
  destruct (srv_lookup _ _ _) as [[]| |]; cbn [mbind res_bind]; try done.
  destruct p as [p|]; cbn [deref mbind res_bind]; [|done].
  destruct (protocol_Send _ _ _ _) as [[e'|]| |]; cbn [mbind res_bind]; try done; [by apply Hgo|].
  intros [= <- <-]. exists nt. split; [by left|]. split; [|done]. by exists p, d, target.
Qed.

Lemma add_contact_ViaHop r r' :
  add_contact r = Ok r' -> headers_ViaHop (msg_headers (req_msg r')) = headers_ViaHop (msg_headers (req_msg r)).
Proof.
  unfold add_contact. destruct (IsInvite r); [|by intros [= <-]].
  destruct (headers_Contact _); [by intros [= <-]|].
  destruct (headers_From _) as [from|]; [|by intros [= <-]].
  destruct (Address from) as [u|]; [|done]. cbn. intros [= <-]. unfold headers_ViaHop.
  rewrite !headers_Via_head. cbn. by rewrite PrependHeaderAfter_other.
Qed.

Lemma send_request_taken tpl r tpl' r' hop :
  headers_ViaHop (msg_headers (req_msg r)) = Some hop ->
  send_request localIP LookupSRV protocol_Send tpl r = Ok (tpl', r', None) ->
  exists nt, nt ∈ ["udp"; "tcp"] /\ taken tpl tpl' nt r'
    /\ headers_ViaHop (msg_headers (req_msg r')) = Some (sent_by nt (offer_rport localIP hop)).
Proof.
  intros Hh. unfold send_request. destruct (request_String r) as [[text r1]| |] eqn:Es; try done.
  cbn [mbind res_bind]. set (r2 := with_msg r1 (set_hop (req_msg r1) (offer_rport localIP))).
  destruct (add_contact r2) as [r3| |] eqn:Ea; try done. cbn [mbind res_bind].
  assert (H2 : headers_ViaHop (msg_headers (req_msg r2)) = Some (offer_rport localIP hop)).
  { apply set_hop_ViaHop. revert Es. unfold request_String, request_StartLine.
    destruct (start_recipient r); try done. cbn. destruct (message_String _ _); try done. by intros [= _ <-]. }
  rewrite <- (add_contact_ViaHop r2 r3 Ea) in H2.
  intros H. eapply try_nets_taken in H; [|left; by destruct (_ <? _)%nat|exact H2].
  destruct H as (nt & Hn & H). exists nt. split; [|done].
  destruct (_ <? _)%nat; [|done]. apply list_elem_of_In. apply list_elem_of_In in Hn. cbn in *. tauto.
Qed.

(** Trying the protocols changes only the top Via hop. *)
Lemma try_nets_keeps nets tpl r err tpl' r' e :
  try tpl nets r err = Ok (tpl', r', e) ->
  recipient r' = recipient r
  /\ forall k, k <> "via" -> entry (msg_headers (req_msg r')) k = entry (msg_headers (req_msg r)) k.
Proof.
  revert r err. induction nets as [|nt nets IH]; intros r err; cbn [try_nets]; [by intros [= _ <- _]|].
  destruct (protocolPool_get (protocols tpl) nt) as [p|]; [|by apply IH].
  set (r1 := with_msg r (set_hop (req_msg r) (sent_by nt))).
  assert (H1 : forall k, k <> "via" -> entry (msg_headers (req_msg r1)) k = entry (msg_headers (req_msg r)) k).
  { intros k Hk. by apply set_hop_entry. }
  assert (Hgo : forall e', try tpl nets r1 (Some e') = Ok (tpl', r', e) ->
    recipient r' = recipient r
    /\ forall k, k <> "via" -> entry (msg_headers (req_msg r')) k = entry (msg_headers (req_msg r)) k).
  { intros e' [Hr He]%IH. split; [done|]. intros k Hk. by rewrite He, H1. }
  destruct (request_Destination r1) as [d| |]; cbn [mbind res_bind]; try done.
  destruct (NewTargetFromAddr d) as [target|e'|]; [|by apply Hgo|done].
  destruct (srv_lookup _ _ _) as [[]| |]; cbn [mbind res_bind]; try done.
  destruct p as [p|]; cbn [deref mbind res_bind]; [|done].
  destruct (protocol_Send _ _ _ _) as [[e'|]| |]; cbn [mbind res_bind]; try done; [by apply Hgo|].
  by intros [= _ <- _].
Qed.

Lemma send_request_recipient tpl r tpl' r' e :
  send_request localIP LookupSRV protocol_Send tpl r = Ok (tpl', r', e) ->
  exists text r1, request_String r = Ok (text, r1) /\ recipient r' = recipient r1.
Proof.
  unfold send_request. intros H. apply bind_ok in H as ([text r1] & Hs & H). exists text, r1. split; [done|].
  apply bind_ok in H as (r3 & Ha & H). apply try_nets_keeps in H as [-> _].
  revert Ha. unfold add_contact. destruct (IsInvite _); [|by intros [= <-]].
  destruct (headers_Contact _); [by intros [= <-]|]. destruct (headers_From _) as [from|]; [|by intros [= <-]].
  destruct (Address from); [|done]. by intros [= <-].
Qed.

(** An INVITE without a Contact gets one. *)
Lemma send_request_contact tpl r tpl' r' e from u :
  send_request localIP LookupSRV protocol_Send tpl r = Ok (tpl', r', e) ->
  IsInvite r = true -> headers_Contact (msg_headers (req_msg r)) = None ->
  headers_From (msg_headers (req_msg r)) = Some from -> Address from = Some u ->
  headers_Contact (msg_headers (req_msg r')) = Some (mkAddress None (Some (Uri_Copy u)) None).
Proof.
  unfold send_request. intros H Hi Hc Hf Hu. apply bind_ok in H as ([text r1] & Hs & H).
  apply bind_ok in H as (r3 & Ha & H). apply try_nets_keeps in H as [_ H].
  assert (H1 : req_method r1 = req_method r /\ req_msg r1 = req_msg r).
  { revert Hs. unfold request_String, request_StartLine. intros Hs.
    apply bind_ok in Hs as ([line r0] & Hs & Hs2). apply bind_ok in Hs as (u1 & _ & [= _ <-]).
    by apply bind_ok in Hs2 as (t & _ & [= _ <-]). }
  destruct H1 as [Hm1 Hg1].
  apply contact_entry with (l := tail (entry (msg_headers (req_msg r')) "contact")).
  rewrite H by done. revert Ha. unfold add_contact, IsInvite. cbn [req_method with_msg req_msg]. rewrite Hm1, Hg1.
  unfold IsInvite in Hi. rewrite Hi. rewrite headers_Contact_head, set_hop_entry, <- headers_Contact_head, Hc by done.
  rewrite headers_From_head, set_hop_entry, <- headers_From_head, Hf by done. rewrite Hu.
  cbn [deref mbind res_bind]. intros [= <-]. cbn [req_msg with_msg msg_headers with_headers].
  destruct (contact_prepended_entry (msg_headers (set_hop (req_msg r) (offer_rport localIP)))
    (HContact (mkAddress None (Some (Uri_Copy u)) None)) "CSeq") as (rest & _ & He).
  change (key_of (HContact (mkAddress None (Some (Uri_Copy u)) None))) with "contact" in He. by rewrite He.
Qed.

Lemma request_Destination_ext r1 r2 :
  dest (req_msg r1) = dest (req_msg r2) -> recipient r1 = recipient r2 ->
  entry (msg_headers (req_msg r1)) "route" = entry (msg_headers (req_msg r2)) "route" ->
  DefaultPort (msg_Transport (req_msg r1)) = DefaultPort (msg_Transport (req_msg r2)) ->
  request_Destination r1 = request_Destination r2.
Proof.
  intros Hd Hr He Ht. unfold request_Destination. rewrite !GetHeaders_entry.
  change (ToLower "Route") with "route". rewrite Hd, Hr, He. unfold uri_address. by rewrite Ht.
Qed.

(** Both protocols aim at the same destination. *)
Lemma second_net_Destination r hop nt1 nt2 :
  headers_ViaHop (msg_headers (req_msg r)) = Some hop ->
  DefaultPort (ToUpper nt1) = DefaultPort (ToUpper nt2) ->
  let r1 := with_msg r (set_hop (req_msg r) (sent_by nt1)) in
  request_Destination (with_msg r1 (set_hop (req_msg r1) (sent_by nt2))) = request_Destination r1.
Proof.
  intros Hh Hp r1. assert (Hh1 : headers_ViaHop (msg_headers (req_msg r1)) = Some (sent_by nt1 hop))
    by by apply set_hop_ViaHop.
  assert (Hd : forall m f, dest (set_hop m f) = dest m).
  { intros m f. unfold set_hop. by destruct (headers_Via _) as [[|? ?]|]. }
  assert (He : forall m f, entry (msg_headers (set_hop m f)) "route" = entry (msg_headers m) "route").
  { intros m f. unfold set_hop. destruct (headers_Via _) as [[|? ?]|]; [done| |done].
    cbn [msg_headers with_headers]. by rewrite set_first_entry, decide_False. }
  apply request_Destination_ext; [apply Hd|done|apply He|].
  unfold msg_Transport. cbn [req_msg with_msg].
  by rewrite (set_hop_ViaHop _ (sent_by nt2) _ Hh1), Hh1.
Qed.

(** With protocols that accept everything, the first one takes the request. *)
Lemma try_nets_first nt1 nt2 tpl r tpl' r' hop p1 p2 :
  (forall net out target m, protocol_Send net out target m = Ok None) ->
  headers_ViaHop (msg_headers (req_msg r)) = Some hop ->
  DefaultPort (ToUpper nt1) = DefaultPort (ToUpper nt2) ->
  protocolPool_get (protocols tpl) nt1 = Some (Some p1) ->
  protocolPool_get (protocols tpl) nt2 = Some (Some p2) ->
  try tpl [nt1; nt2] r None = Ok (tpl', r', None) ->
  exists target, outbox tpl' = outbox tpl ++ [(Network p1, target, MRequest r')].
Proof.
  intros Hall Hh Hp H1 H2. cbn [try_nets]. rewrite H1, H2, (second_net_Destination r hop nt1 nt2 Hh Hp).
  destruct (request_Destination _) as [d| |]; cbn [mbind res_bind]; try done.
  destruct (NewTargetFromAddr d) as [target| |]; try done.
  destruct (srv_lookup _ nt1 target) as [u| |]; cbn [deref mbind res_bind]; try done.
  rewrite !Hall. cbn [mbind res_bind]. intros [= <- <-]. by exists target.
Qed.

End LayerLemmas.

(** ** The properties *)

(** C26: a request that [Send] reports as sent was given to one protocol of the pool (UDP
    or TCP), for the address its destination denotes.  Its top Via hop names the local
    address, this protocol and its port, carries [rport] and still has its branch; an
    INVITE that had no Contact has got one with the address of its From; its Request-URI
    is the one that rendering it computes; and the request is otherwise the one that was
    to be sent: method, version, body, addresses, the other Via hops and all other headers
    are the same, and so is its client key. *)
Theorem Send_request_rewrites (localIP : string) (LookupSRV : string -> string -> list (string * Port))
    (protocol_Send : string -> list (string * Addr * Message) -> Addr -> Message -> res (option string))
    (tpl tpl' : layer) (r : request) (m' : Message) (hop : ViaHop) (ps : headerParams) :
  headers_ViaHop (msg_headers (req_msg r)) = Some hop -> VParams hop = Some ps ->
  layer_Send localIP LookupSRV protocol_Send tpl (MRequest r) = Ok (tpl', m', None) ->
  exists r' nt ps', m' = MRequest r' /\ nt ∈ ["udp"; "tcp"] /\ taken tpl tpl' nt r' /\ same_request r r'
    /\ headers_ViaHop (msg_headers (req_msg r'))
       = Some (mkViaHop (ProtocolName hop) (ProtocolVersion hop) (ToUpper nt) localIP
                 (Some (DefaultPort nt)) (Some ps'))
    /\ ps' = (if Has ps "rport" then ps else Add ps "rport" None)
    /\ (exists text r1, request_String r = Ok (text, r1) /\ recipient r' = recipient r1)
    /\ (forall from u, IsInvite r = true -> headers_Contact (msg_headers (req_msg r)) = None ->
          headers_From (msg_headers (req_msg r)) = Some from -> Address from = Some u ->
          headers_Contact (msg_headers (req_msg r')) = Some (mkAddress None (Some (Uri_Copy u)) None)).
Proof.
  intros Hh Hps H. pose proof (layer_Send_spec _ _ _ _ _ _ _ _ H) as [Hsame _].
  unfold layer_Send in H. destruct (canceled tpl); [done|]. rewrite Hh in H.
  destruct (send_request _ _ _ tpl r) as [[[tpl1 r1] e1]| |] eqn:E; try done.
  injection H as <- <- ->. destruct (send_request_taken _ _ _ _ _ _ _ _ Hh E) as (nt & Hn & Ht & Hv).
  exists r1, nt, (if Has ps "rport" then ps else Add ps "rport" None).
  split; [done|]. split; [done|]. split; [done|]. split; [done|].
  split; [rewrite Hv; unfold sent_by, offer_rport; by rewrite Hps|]. split; [done|].
  split; [exact (send_request_recipient _ _ _ _ _ _ _ _ E)|].
  intros from u Hi Hc Hf Hu. exact (send_request_contact _ _ _ _ _ _ _ _ _ _ E Hi Hc Hf Hu).
Qed.

Definition both_protocols : layer :=
  mkLayer (protocolPool_put (protocolPool_put ∅ "udp" (protocolFactory "udp")) "tcp" (protocolFactory "tcp"))
    false [].

Definition no_srv : string -> string -> list (string * Port) := fun _ _ => [].
Definition always_accepts : string -> list (string * Addr * Message) -> Addr -> Message -> res (option string) :=
  fun _ _ _ _ => Ok None.

Definition outgoing (method b : string) : request :=
  let m := keyed_message method "z9hG4bKabc" in
  mkRequest (with_body m b) method None.

(** The network, the target and the top Via hop of what the layer accepted. *)
Definition accepted (r : res (layer * Message * option string)) : list (string * Addr * option ViaHop) :=
  match r with
  | Ok (tpl, _, _) => map (fun x => (x.1.1, x.1.2, match x.2 with MRequest r => headers_ViaHop (msg_headers (req_msg r))
                                                                  | MResponse r => headers_ViaHop (msg_headers (res_msg r)) end)) (outbox tpl)
  | _ => []
  end.

(** A step of the layer whose result is not written out. *)
Lemma step_result {A B} (x : res (A * B * option string)) :
  match x with Ok (_, _, None) => true | _ => false end = true ->
  exists a b, x = Ok (a, b, None).
Proof. destruct x as [[[a b] [e|]]| |]; try done. eauto. Qed.

Lemma Send_request_rewrites_witness :
  exists tpl' r' nt ps', layer_Send "10.0.0.1" no_srv always_accepts both_protocols
      (MRequest (outgoing "MESSAGE" "hi")) = Ok (tpl', MRequest r', None)
    /\ headers_ViaHop (msg_headers (req_msg r'))
       = Some (mkViaHop "SIP" "2.0" (ToUpper nt) "10.0.0.1" (Some (DefaultPort nt)) (Some ps')).
Proof.
  destruct (step_result (layer_Send "10.0.0.1" no_srv always_accepts both_protocols
    (MRequest (outgoing "MESSAGE" "hi")))) as (tpl' & m' & E); [vm_compute; reflexivity|].
  destruct (Send_request_rewrites "10.0.0.1" no_srv always_accepts both_protocols tpl'
    (outgoing "MESSAGE" "hi") m' (mkViaHop "SIP" "2.0" "UDP" "10.0.0.9" None
      (Some (Add NewParams "branch" (Some "z9hG4bKabc")))) (Add NewParams "branch" (Some "z9hG4bKabc")))
    as (r' & nt & ps' & -> & _ & _ & _ & Hv & _); [vm_compute; reflexivity|reflexivity|exact E|].
  exists tpl', r', nt, ps'. split; [exact E|exact Hv].
Defined.

(** RFC 3261, 18.1.1: with both protocols registered and willing, a request whose
    text has more than 1300 bytes goes over TCP and any other over UDP. *)
Theorem Send_request_by_size (localIP : string) (LookupSRV : string -> string -> list (string * Port))
    (protocol_Send : string -> list (string * Addr * Message) -> Addr -> Message -> res (option string))
    (tpl tpl' : layer) (r r1 : request) (m' : Message) (text : string) (udp tcp : protocol) :
  (forall net out target m, protocol_Send net out target m = Ok None) ->
  protocolPool_get (protocols tpl) "udp" = Some (Some udp) ->
  protocolPool_get (protocols tpl) "tcp" = Some (Some tcp) ->
  request_String r = Ok (text, r1) ->
  layer_Send localIP LookupSRV protocol_Send tpl (MRequest r) = Ok (tpl', m', None) ->
  exists target, outbox tpl' = outbox tpl ++
    [(if (1300 <? String.length text)%nat then Network tcp else Network udp, target, m')].
Proof.
  intros Hall Hu Ht Htext H. unfold layer_Send in H. destruct (canceled tpl); [done|].
  destruct (headers_ViaHop _) as [hop|] eqn:Hh; [|by rewrite Htext in H].
  unfold send_request in H. rewrite Htext in H. cbn [mbind res_bind] in H.
  change (MTU - 200)%nat with 1300%nat in H.
  set (r2 := with_msg r1 (set_hop (req_msg r1) (offer_rport localIP))) in H.
  destruct (add_contact r2) as [r3| |] eqn:Ea; try done. cbn [mbind res_bind] in H.
  assert (H3 : headers_ViaHop (msg_headers (req_msg r3)) = Some (offer_rport localIP hop)).
  { rewrite (add_contact_ViaHop r2 r3 Ea). apply set_hop_ViaHop. revert Htext.
    unfold request_String, request_StartLine. destruct (start_recipient r); try done. cbn.
    destruct (message_String _ _); try done. by intros [= _ <-]. }
  destruct (1300 <? String.length text)%nat;
    destruct (try_nets _ _ _ _ _ _) as [[[tpl1 r4] e4]| |] eqn:E; try done; injection H as <- <- ->.
  - exact (try_nets_first _ _ "tcp" "udp" _ _ _ _ _ _ _ Hall H3 eq_refl Ht Hu E).
  - exact (try_nets_first _ _ "udp" "tcp" _ _ _ _ _ _ _ Hall H3 eq_refl Hu Ht E).
Qed.

Lemma Send_request_by_size_witness :
  exists tpl' m' target, layer_Send "10.0.0.1" no_srv always_accepts both_protocols
      (MRequest (outgoing "MESSAGE" "hi")) = Ok (tpl', m', None)
    /\ outbox tpl' = [("UDP", target, m')].
Proof.
  destruct (step_result (layer_Send "10.0.0.1" no_srv always_accepts both_protocols
    (MRequest (outgoing "MESSAGE" "hi")))) as (tpl' & m' & E); [vm_compute; reflexivity|].
  destruct (Send_request_by_size "10.0.0.1" no_srv always_accepts both_protocols tpl'
    (outgoing "MESSAGE" "hi")
    (match request_String (outgoing "MESSAGE" "hi") with Ok (_, r) => r | _ => outgoing "" "" end) m'
    (match request_String (outgoing "MESSAGE" "hi") with Ok (t, _) => t | _ => "" end)
    CreateUdpProtocol CreateTcpProtocol) as (target & H);
    [reflexivity|vm_compute; reflexivity|vm_compute; reflexivity|vm_compute; reflexivity|exact E|].
  exists tpl', m', target. split; [exact E|]. rewrite H. vm_compute. reflexivity.
Defined.

(** *** Behaviours that surprise *)

(** An INVITE without a Contact gets one without parameters, so that copying the
    request after it was sent panics. *)
Example sent_invite_copy_panics :
  match layer_Send "10.0.0.1" no_srv always_accepts both_protocols (MRequest (outgoing "INVITE" "")) with
  | Ok (_, MRequest r, None) => is_panic (request_Copy "id2" r)
  | _ => false
  end = true.
Proof. vm_compute. reflexivity. Qed.

(** A resolver answer never changes the target; an empty target name panics. *)
Example srv_answer_unused :
  accepted (layer_Send "10.0.0.1" (fun _ _ => [("sip.example.org.", 5070%N)]) always_accepts both_protocols
              (MRequest (outgoing "MESSAGE" "hi")))
  = accepted (layer_Send "10.0.0.1" no_srv always_accepts both_protocols (MRequest (outgoing "MESSAGE" "hi"))).
Proof. vm_compute. reflexivity. Qed.

(** listening on a network other than UDP and TCP dereferences a nil protocol: the
    factory reports no error for it. *)
Theorem Listen_unknown_panics (protocol_Listen : string -> Addr -> option string) (tpl : layer)
    (network addr : string) (lAddr : Addr) :
  canceled tpl = false -> protocolPool_get (protocols tpl) network = None ->
  ToLower network <> "udp" -> ToLower network <> "tcp" -> NewTargetFromAddr addr = Ok lAddr ->
  Listen protocol_Listen tpl network addr = Panic NilDereference.
Proof.
  intros Hc Hp Hu Ht Ha. unfold Listen. rewrite Hc, Hp, Ha. unfold protocolFactory.
  by rewrite (proj2 (String.eqb_neq _ _) Hu), (proj2 (String.eqb_neq _ _) Ht).
Qed.

Lemma Listen_unknown_panics_witness :
  Listen (fun _ _ => None) CreateLayer "tls" "10.0.0.1:5061" = Panic NilDereference.
Proof.
  apply (Listen_unknown_panics (fun _ _ => None) CreateLayer "tls" "10.0.0.1:5061"
    (mkAddr "10.0.0.1" (Some 5061%N))); [reflexivity|reflexivity|discriminate|discriminate|vm_compute; reflexivity].
Defined.
