(* ===== verification/NoticeLoop.v ===== *)
(** * Passing messages up from the protocols (transport/transport.go)

    The goroutine [listenProtocolNotice] of the transport layer takes what the protocols
    send on [receiveMessage] and [receiveError], and offers it on [upMessage] and [upError]
    to the transaction layer.  All four channels are unbuffered: one value at a time is in
    the hands of the goroutine.  When the layer is closed it waits for its protocols and
    closes the channels. *)

From S2P Require Import Prelude GoStrings Params Base Uri Header Headers Auth HeaderParse.
From S2P Require Import Message TxKey Transport.
From Stdlib Require Import Lia.

#[local] Open Scope string_scope.
#[local] Open Scope list_scope.

(** What goes up: a message or an error. *)
Definition notice : Type := (Message + string)%type.

(** In the select, in the inner select of [handleMessage] or [handleError], in [release]
    with the protocols that it goes through, waiting for the first one, or returned, with
    the channels closed.  A protocol of the pool may be nil. *)
Inductive notice_point : Type :=
  | Noticing
  | PassingUp (n : notice)
  | Releasing (rest : list (option protocol))
  | Noticed.

Record notice_loop := mkNoticeLoop {
  pool_of : protocolPool;
  cancel : bool;
  at_notice : notice_point
}.

(** [CreateLayer] starts the goroutine. *)
Definition start_notice (pool : protocolPool) : notice_loop := mkNoticeLoop pool false Noticing.

(** What can happen: [Close]; a protocol hands a value over; the transaction layer takes
    the value; the goroutine finds the layer closed, in either select; the channel [Done]
    of the protocol that [release] waits for is closed; [Listen], in another goroutine, puts
    the protocol for a network into the pool. *)
Inductive notice_event : Type :=
  | Closes
  | Receives (n : notice)
  | TakenUp
  | SeesCancel (order : list (option protocol))
  | IsDone
  | Puts (network : string).

(** [for _, protocol := range protocols.all()]: the next protocol is taken out of the pool,
    under the name it has itself, and waited for; a nil protocol panics. *)
Definition release_next (pool : protocolPool) (rest : list (option protocol)) : res (protocolPool * notice_point) :=
  match rest with
  | [] => mret (pool, Noticed)
  | p :: _ => p ← deref p; mret (fst (protocolPool_del pool (Network p)), Releasing rest)
  end.

#[export] Instance protocol_eq_dec : EqDecision protocol.
Proof. solve_decision. Defined.

(** [protocols.all()]: the values of the map, in some order. *)
Definition all_of (pool : protocolPool) (order : list (option protocol)) : bool :=
  bool_decide (order ≡ₚ map snd (map_to_list pool)).

(** The next state and what the transaction layer receives; [None]: not possible now. *)
Definition notice_step (l : notice_loop) (e : notice_event) : res (option (notice_loop * option notice)) :=
  match e, at_notice l with
  | Puts network, a =>
      mret (Some (mkNoticeLoop (protocolPool_put (pool_of l) network (protocolFactory network)) (cancel l) a, None))
  | Closes, a => mret (Some (mkNoticeLoop (pool_of l) true a, None))
  | Receives n, Noticing => mret (Some (mkNoticeLoop (pool_of l) (cancel l) (PassingUp n), None))
  | TakenUp, PassingUp n => mret (Some (mkNoticeLoop (pool_of l) (cancel l) Noticing, Some n))
  | SeesCancel _, PassingUp _ =>
      if cancel l then mret (Some (mkNoticeLoop (pool_of l) (cancel l) Noticing, None)) else mret None
  | SeesCancel order, Noticing =>
      if cancel l && all_of (pool_of l) order then
        '(pool, a) ← release_next (pool_of l) order;
        mret (Some (mkNoticeLoop pool (cancel l) a, None))
      else mret None
  | IsDone, Releasing (_ :: rest) =>
      '(pool, a) ← release_next (pool_of l) rest;
      mret (Some (mkNoticeLoop pool (cancel l) a, None))
  | _, _ => mret None
  end.

(** A run with what went up in it. *)
Inductive notice_run : notice_loop -> list notice_event -> list notice -> notice_loop -> Prop :=
  | notices_nil l : notice_run l [] [] l
  | notices_step l e l1 o es ups l2 :
      notice_step l e = Ok (Some (l1, o)) -> notice_run l1 es ups l2 ->
      notice_run l (e :: es) (option_list o ++ ups) l2.

Lemma step_quiet l e l1 es ups l2 :
  notice_step l e = Ok (Some (l1, None)) -> notice_run l1 es ups l2 -> notice_run l (e :: es) ups l2.
Proof. exact (notices_step l e l1 None es ups l2). Qed.

Lemma step_up l e l1 n es ups l2 :
  notice_step l e = Ok (Some (l1, Some n)) -> notice_run l1 es ups l2 -> notice_run l (e :: es) (n :: ups) l2.
Proof. exact (notices_step l e l1 (Some n) es ups l2). Qed.

(** ** Lemmas *)

(** What the protocols handed over, and what is in the hands of the goroutine. *)
Definition received_notices (es : list notice_event) : list notice :=
  omap (fun e => match e with Receives n => Some n | _ => None end) es.
Definition held (l : notice_loop) : list notice := match at_notice l with PassingUp n => [n] | _ => [] end.

(** *** What goes up *)

Lemma release_next_at pool rest pool' a :
  release_next pool rest = Ok (pool', a) -> a = Noticed \/ exists l, a = Releasing l.
Proof.
  destruct rest as [|p rest]; cbn [release_next]; intros E.
  - apply (inj Ok) in E. simplify_eq. by left.
  - apply bind_ok in E as (q & _ & E). apply (inj Ok) in E. simplify_eq. eauto.
Qed.

(** One step keeps the order of what was received; only a closed layer loses anything. *)
Record step_facts (l : notice_loop) (e : notice_event) (l1 : notice_loop) (o : option notice) : Prop := {
  stays_canceled : cancel l = true -> cancel l1 = true;
  ended_is_final : at_notice l = Noticed -> at_notice l1 = Noticed /\ o = None;
  nothing_invented : sublist (option_list o ++ held l1) (held l ++ received_notices [e]);
  nothing_lost : cancel l1 = false -> option_list o ++ held l1 = held l ++ received_notices [e]
}.

Lemma step_has_facts l e l1 o : notice_step l e = Ok (Some (l1, o)) -> step_facts l e l1 o.
Proof.
  destruct l as [pool c a]. intros E.
  assert (Hrel : forall order rest,
    release_next pool order = Ok (pool_of l1, at_notice l1) -> cancel l1 = c -> o = None ->
    a = Releasing rest \/ (a = Noticing /\ c = true) -> step_facts (mkNoticeLoop pool c a) e l1 o
    \/ exists n, e = Receives n).
  { intros order rest Hr Hc -> Ha. destruct (release_next_at _ _ _ _ Hr) as [H1|[r H1]];
      (destruct e; [left|right; eauto|left..]);
      destruct l1 as [pool1 c1 a1]; cbn in *; subst; destruct Ha as [->|[-> ->]]; by split. }
  destruct e as [|n| |order| |nw], a as [|m|rest|]; cbn [notice_step at_notice pool_of cancel] in E; try done;
    try (apply (inj Ok) in E; simplify_eq; split; cbn; rewrite ?app_nil_r; done).
  - destruct c; [|done]. cbn [andb] in E. destruct (all_of _ _); [|done].
    apply bind_ok in E as ([pool' a'] & Hr & E). apply (inj Ok) in E. simplify_eq.
    destruct (Hrel order [] Hr) as [H|[n H]]; eauto. done.
  - destruct c; [|done]. apply (inj Ok) in E. simplify_eq. split; try done. cbn. apply sublist_nil_l.
  - destruct rest as [|p rest]; [done|].
    apply bind_ok in E as ([pool' a'] & Hr & E). apply (inj Ok) in E. simplify_eq.
    destruct (Hrel rest (p :: rest) Hr) as [H|[n H]]; eauto. done.
Qed.

Lemma received_notices_app es es' : received_notices (es ++ es') = received_notices es ++ received_notices es'.
Proof. apply omap_app. Qed.

Lemma run_facts l es ups l' :
  notice_run l es ups l' ->
  (cancel l = true -> cancel l' = true) /\ (at_notice l = Noticed -> at_notice l' = Noticed /\ ups = [])
  /\ sublist (ups ++ held l') (held l ++ received_notices es)
  /\ (cancel l' = false -> ups ++ held l' = held l ++ received_notices es).
Proof.
  induction 1 as [l|l e l1 o es ups l2 Hs _ (I1 & I2 & I3 & I4)].
  - unfold received_notices. cbn [omap list_omap]. by rewrite !app_nil_r.
  - destruct (step_has_facts _ _ _ _ Hs) as [H1 H2 H3 H4].
    change (e :: es) with ([e] ++ es). rewrite received_notices_app, <- (app_assoc (option_list o)).
    split; [auto|]. split; [|split].
    + intros Ha. apply H2 in Ha as [Ha ->]. apply I2 in Ha as [Ha ->]. done.
    + etrans; [apply sublist_app; [reflexivity|exact I3]|]. rewrite !app_assoc. by apply sublist_app.
    + intros Hc. rewrite I4 by done. rewrite app_assoc, H4, <- app_assoc; [done|].
      destruct (cancel l1) eqn:E; [|done]. by rewrite I1 in Hc.
Qed.

(** *** The end *)

(** [Listen] files every protocol under its own name. *)
Definition pool_keyed (pool : protocolPool) : Prop :=
  forall key p, pool !! key = Some (Some p) -> key = Network p.

Lemma pool_del_delete pool key : fst (protocolPool_del pool key) = delete (ToUpper key) pool.
Proof.
  unfold protocolPool_del, protocolPool_get, protocolKey_String.
  destruct (pool !! ToUpper key) eqn:E; [done|]. symmetry. by apply delete_id.
Qed.

Lemma Network_upper p : ToUpper (Network p) = Network p.
Proof. apply ToUpper_idem. Qed.

Lemma put_keyed pool network :
  pool_keyed pool -> pool_keyed (protocolPool_put pool network (protocolFactory network)).
Proof.
  intros Hk key p Hi. unfold protocolPool_put in Hi.
  apply (lookup_insert_Some (M := gmap string)) in Hi as [[<- Hp]|[_ H]]; [|by apply Hk].
  unfold protocolKey_String, protocolFactory in *. rewrite <- (ToUpper_ToLower network).
  destruct (String.eqb_spec (ToLower network) "udp") as [->|_]; [by injection Hp as <-|].
  destruct (String.eqb_spec (ToLower network) "tcp") as [->|_]; [by injection Hp as <-|done].
Qed.

Lemma Listen_keyed protocol_Listen tpl network addr tpl' e :
  pool_keyed (protocols tpl) -> Listen protocol_Listen tpl network addr = Ok (tpl', e) -> pool_keyed (protocols tpl').
Proof.
  intros Hk. pose proof (put_keyed _ network Hk) as Hp. unfold Listen.
  destruct (canceled tpl); [intros E; apply (inj Ok) in E; by simplify_eq|].
  destruct (protocolPool_get (protocols tpl) network) as [p|];
    (destruct (NewTargetFromAddr addr) as [a|s|k]; intros E; [|apply (inj Ok) in E; by simplify_eq|done];
     apply bind_ok in E as (q & _ & E); apply (inj Ok) in E; by simplify_eq).
Qed.

Lemma release_keyed pool rest pool' a :
  pool_keyed pool -> release_next pool rest = Ok (pool', a) -> pool_keyed pool'.
Proof.
  intros Hk. destruct rest as [|p rest]; cbn [release_next]; intros E.
  - apply (inj Ok) in E. by simplify_eq.
  - apply bind_ok in E as (q & _ & E). apply (inj Ok) in E. simplify_eq. rewrite pool_del_delete.
    intros key v Hd. apply (lookup_delete_Some (M := gmap string)) in Hd as [_ Hv]. by apply Hk.
Qed.

Lemma run_keyed l es ups l' : notice_run l es ups l' -> pool_keyed (pool_of l) -> pool_keyed (pool_of l').
Proof.
  induction 1 as [l|l e l1 o es ups l2 Hs _ IH]; [done|]. intros Hk. apply IH. clear IH. revert Hs.
  assert (Hr : forall rest o' (X : res (option (notice_loop * option notice))),
    X = ('(pool, a) ← release_next (pool_of l) rest; mret (Some (mkNoticeLoop pool (cancel l) a, None))) ->
    X = Ok (Some (l1, o')) -> pool_keyed (pool_of l1)).
  { intros rest o' X -> E. apply bind_ok in E as ([pool' a'] & Hr & E). apply (inj Ok) in E. simplify_eq.
    by apply release_keyed in Hr. }
  unfold notice_step. destruct e as [|n| |order| |nw], (at_notice l) as [|m|rest|] eqn:Ha; intros E; try done;
    try (apply (inj Ok) in E; simplify_eq; cbn [pool_of]; by auto using put_keyed).
  - destruct (cancel l && _); [|done]. eapply Hr; [reflexivity|exact E].
  - destruct (cancel l); [|done]. apply (inj Ok) in E. by simplify_eq.
  - destruct rest as [|p rest]; [done|]. eapply Hr; [reflexivity|exact E].
Qed.

(** The pool holds nothing but these protocols. *)
Definition pool_within (pool : protocolPool) (ps : list protocol) : Prop :=
  forall key v, pool !! key = Some v -> exists p, p ∈ ps /\ v = Some p /\ key = Network p.

Lemma pool_within_next pool p ps : pool_within pool (p :: ps) -> pool_within (delete (Network p) pool) ps.
Proof.
  intros H key v Hd. apply (lookup_delete_Some (M := gmap string)) in Hd as [Hne Hv].
  apply H in Hv as (q & Hq & -> & ->). apply elem_of_cons in Hq as [->|Hq]; [done|]. eauto.
Qed.

Lemma pool_within_nil pool : pool_within pool [] -> pool = ∅.
Proof.
  intros H. apply map_empty. intros key. destruct (pool !! key) as [v|] eqn:E; [|done].
  apply H in E as (p & Hp & _). by apply elem_of_nil in Hp.
Qed.

Lemma release_run ps : forall pool pool1 a,
  pool_within pool ps -> release_next pool (map Some ps) = Ok (pool1, a) ->
  notice_run (mkNoticeLoop pool1 true a) (replicate (length ps) IsDone) [] (mkNoticeLoop ∅ true Noticed).
Proof.
  induction ps as [|p ps IH]; intros pool pool1 a Hw E; cbn [map release_next] in E.
  - apply (inj Ok) in E. simplify_eq. rewrite (pool_within_nil _ Hw). apply notices_nil.
  - cbn [deref mbind res_bind] in E. apply (inj Ok) in E. simplify_eq.
    rewrite pool_del_delete, Network_upper. apply pool_within_next in Hw.
    destruct (release_next (delete (Network p) pool) (map Some ps)) as [[pool2 a2]|s|k] eqn:E2;
      [|by destruct ps..].
    apply (step_quiet _ _ (mkNoticeLoop pool2 true a2)); [|by apply (IH (delete (Network p) pool))].
    unfold notice_step. cbn [at_notice pool_of cancel length]. by rewrite E2.
Qed.

(** A pool with the program's protocols only. *)
Lemma keyed_within pool ps :
  pool_keyed pool -> map snd (map_to_list pool) ≡ₚ map Some ps -> pool_within pool ps.
Proof.
  intros Hk Hp key v Hv.
  assert (Hin : v ∈ map Some ps).
  { rewrite <- Hp. apply list_elem_of_In, in_map_iff. exists (key, v). split; [done|].
    apply list_elem_of_In. by apply elem_of_map_to_list. }
  apply list_elem_of_In, in_map_iff in Hin as (p & <- & Hin). apply list_elem_of_In in Hin.
  exists p. split; [done|]. split; [done|]. by apply Hk.
Qed.

(** ** Properties *)

(** what the protocols hand over goes up to the transaction layer in the order in
    which it came; while the layer is open nothing is lost, one value at most being on
    its way; once it is closed, and its pool holds no nil protocol, the goroutine can
    always finish: it waits for each protocol, with an empty pool at the end, and
    nothing goes up any more. *)
Theorem notices_in_order (es : list notice_event) (ups : list notice) (l : notice_loop) (ps : list protocol) :
  notice_run (start_notice ∅) es ups l ->
  sublist ups (received_notices es)
  /\ (cancel l = false -> ups ++ held l = received_notices es /\ (length (held l) <= 1)%nat)
  /\ (cancel l = true -> at_notice l = Noticing -> map snd (map_to_list (pool_of l)) ≡ₚ map Some ps ->
      notice_run l (SeesCancel (map Some ps) :: replicate (length ps) IsDone) [] (mkNoticeLoop ∅ true Noticed))
  /\ (at_notice l = Noticed -> forall es' ups' l', notice_run l es' ups' l' -> ups' = []).
Proof.
  intros Hrun. destruct (run_facts _ _ _ _ Hrun) as (_ & _ & H1 & H2). cbn in H1, H2.
  split; [etrans; [|exact H1]; by apply sublist_inserts_r|]. split; [|split].
  - intros Hc. split; [by apply H2|]. unfold held. destruct (at_notice l); cbn; lia.
  - intros Hc Ha Hp. assert (Hw : pool_within (pool_of l) ps).
    { apply keyed_within; [|done]. by apply (run_keyed _ _ _ _ Hrun). }
    destruct l as [pool c a]. cbn [cancel at_notice pool_of] in *. subst.
    destruct (release_next pool (map Some ps)) as [[pool1 a1]|s|k] eqn:E; [|by destruct ps..].
    apply (step_quiet _ _ (mkNoticeLoop pool1 true a1)); [|by apply (release_run _ pool)].
    unfold notice_step. cbn [at_notice cancel pool_of]. unfold all_of. rewrite bool_decide_true by done.
    cbn [andb]. by rewrite E.
  - intros Ha es' ups' l' Hr. by apply (run_facts _ _ _ _ Hr).
Qed.

(** A protocol for an unknown network is nil; it stays in the pool when [Listen] fails for
    the address, and closing the layer panics. *)
Lemma release_nil_panics pool rest : release_next pool (None :: rest) = Panic NilDereference.
Proof. done. Qed.

Definition sample_notices : list notice_event :=
  [Puts "udp"; Receives (inr "first"); TakenUp; Receives (inr "second"); Closes; TakenUp].

Lemma notices_in_order_witness :
  exists l, notice_run (start_notice ∅) (sample_notices ++ [SeesCancel [Some CreateUdpProtocol]; IsDone]) [inr "first"; inr "second"] l
    /\ at_notice l = Noticed /\ pool_of l = ∅.
Proof.
  set (l := mkNoticeLoop {["UDP" := Some CreateUdpProtocol]} true Noticing).
  assert (H : forall es2 l2, notice_run l es2 [] l2 ->
    notice_run (start_notice ∅) (sample_notices ++ es2) [inr "first"; inr "second"] l2).
  { intros es2 l2 H. unfold sample_notices. cbn [app].
    repeat first [exact H|eapply step_quiet; [reflexivity|]|eapply step_up; [reflexivity|]]. }
  exists (mkNoticeLoop ∅ true Noticed). split; [|done]. apply H.
  apply (notices_in_order sample_notices [inr "first"; inr "second"] l [CreateUdpProtocol]); [|done|done|done].
  rewrite <- (app_nil_r sample_notices). apply H, notices_nil.
Defined.
