(* ===== verification/Protocols.v ===== *)
(** * The UDP and TCP protocols (transport/udp.go, transport/tcp.go)

    Both protocols keep a connection pool; TCP keeps a listener pool too, whose new
    connections [pipePools] puts into the connection pool.  What the program asks of the
    package net is a parameter: resolving an address, opening sockets, writing. *)

From S2P Require Import Prelude GoStrings Params Base Uri Header Headers Auth HeaderParse.
From S2P Require Import HeaderRoundTrip Message Parser MessageRoundTrip TxKey Transport.
From S2P Require Import ParserLife ConnHandler Pool ListenHandler ConnPool.
From Stdlib Require Import NArith ZArith Lia.

#[local] Open Scope string_scope.
#[local] Open Scope list_scope.

(** A resolved address: its text and its port. *)
Record endpoint := mkEndpoint { ep_text : string; ep_port : Port }.

Definition Source (m : Message) : res string :=
  match m with MRequest r => request_Source r | MResponse r => mret (src (res_msg r)) end.

(** What was written: through which connection, to which address (packets), which text. *)
Definition write_log : Type := list (string * option endpoint * string).

Record udpProtocol := mkUdpProtocol {
  udp_connections : ConnectionPool.connectionPool;
  udp_written : write_log
}.

Record tcpProtocol := mkTcpProtocol {
  tcp_connections : ConnectionPool.connectionPool;
  listeners : ListenerPool.listenerPool;
  tcp_written : write_log
}.

Definition new_udp : udpProtocol := mkUdpProtocol ConnectionPool.CreateConnectionPool [].
Definition new_tcp : tcpProtocol :=
  mkTcpProtocol ConnectionPool.CreateConnectionPool ListenerPool.CreateListenerPool [].

Definition no_host_error (proto : string) : string := "[" +:+ proto +:+ "_protocol] -> empty remote target host".

Section Protocols.

(** [net.ResolveUDPAddr] and [net.ResolveTCPAddr]: [inr] is the error. *)
Variable ResolveAddr : string -> string -> endpoint + string.
Variable ListenUDP : string -> endpoint -> baseConn + string.
Variable ListenTCP : string -> endpoint -> netListener + string.
Variable DialTCP : string -> endpoint -> baseConn + string.
(** Writing a text to a connection, or through a packet connection to an address: the error. *)
Variable net_write : connection -> option endpoint -> string -> option string.
(** The order in which a map is walked. *)
Variable range : gmap string nat -> list (string * nat).

(** *** UDP *)

Definition udp_resolveAddr (addr : Addr) : endpoint + string :=
  ResolveAddr (ToLower (Network CreateUdpProtocol)) (Addr_Addr addr).

Definition udp_Listen (u : udpProtocol) (addr : Addr) (now : Z) : udpProtocol * option string :=
  let addr := FillTargetHostAndPort (Network CreateUdpProtocol) addr in
  match udp_resolveAddr addr with
  | inr e => (u, Some e)
  | inl localAddr =>
      match ListenUDP (ToLower (Network CreateUdpProtocol)) localAddr with
      | inr e => (u, Some e)
      | inl udpConn =>
          let c := CreateConnection ("udp:0.0.0.0:" +:+ itoa (ep_port localAddr)) udpConn in
          match ConnectionPool.Put (udp_connections u) c 0 now with
          | Ok p => (mkUdpProtocol p (udp_written u), None)
          | Err e => (u, Some e)
          | Panic _ => (u, None)
          end
      end
  end.

(** The port of the source of a message; an error of the split leaves it empty. *)
Definition source_port (m : Message) : res string :=
  s ← Source m;
  mret (match SplitHostPort s with Ok (_, port) => port | _ => "" end).

(** The connection of the source port, or else the first of all; [None] is a nil
    connection. *)
Definition udp_connection (u : udpProtocol) (port : string) : res (option connection) :=
  match ConnectionPool.Get (udp_connections u) ("udp:0.0.0.0:" +:+ port) with
  | Ok c => mret (Some c)
  | Panic k => Panic k
  | Err _ =>
      match ConnectionPool.All range (udp_connections u) with
      | [] => Err "[udp_protocol] -> connection not found: %w"
      | c :: _ => mret c
      end
  end.

Definition udp_Send (u : udpProtocol) (rAddr : Addr) (m : Message) : res (udpProtocol * option string) :=
  if String.eqb (Host rAddr) "" then mret (u, Some (no_host_error "udp"))
  else
    match udp_resolveAddr rAddr with
    | inr e => mret (u, Some e)
    | inl remoteAddr =>
        port ← source_port m;
        match udp_connection u port with
        | Err e => mret (u, Some e)
        | Panic k => Panic k
        | Ok c =>
            c ← deref c;
            text ← Message_String m;
            match net_write c (Some remoteAddr) text with
            | Some e => mret (u, Some e)
            | None => mret (mkUdpProtocol (udp_connections u)
                              (udp_written u ++ [(Key c, Some remoteAddr, text)]), None)
            end
        end
    end.

(** *** TCP *)

Definition tcp_resolveAddr (addr : Addr) : endpoint + string :=
  ResolveAddr (ToLower (Network CreateTcpProtocol)) (Addr_Addr addr).

Definition tcp_Listen (t : tcpProtocol) (addr : Addr) : tcpProtocol * option string :=
  let addr := FillTargetHostAndPort (Network CreateTcpProtocol) addr in
  match tcp_resolveAddr addr with
  | inr e => (t, Some e)
  | inl localAddr =>
      match ListenTCP (ToLower (Network CreateTcpProtocol)) localAddr with
      | inr e => (t, Some e)
      | inl ls =>
          match ListenerPool.Put (listeners t) ("tcp:0.0.0.0:" +:+ itoa (ep_port localAddr)) ls with
          | Ok p => (mkTcpProtocol (tcp_connections t) p (tcp_written t), None)
          | Err e => (t, Some e)
          | Panic _ => (t, None)
          end
      end
  end.

Definition with_connections (t : tcpProtocol) (p : ConnectionPool.connectionPool) : tcpProtocol :=
  mkTcpProtocol p (listeners t) (tcp_written t).

(** [pipePools]: a connection that the listener pool passes on. *)
Definition pipe_connection (t : tcpProtocol) (c : connection) (now : Z) : tcpProtocol :=
  with_connections t (or_same (tcp_connections t) (ConnectionPool.Put (tcp_connections t) c SockTTL now)).

Definition getOrCreateConnection (t : tcpProtocol) (remoteAddr : endpoint) (now : Z)
    : res (tcpProtocol * connection) :=
  let key := "tcp:" +:+ ep_text remoteAddr in
  match ConnectionPool.Get (tcp_connections t) key with
  | Ok c => mret (t, c)
  | Panic k => Panic k
  | Err _ =>
      match DialTCP (ToLower (Network CreateTcpProtocol)) remoteAddr with
      | inr e => Err e
      | inl tcpConn =>
          let c := CreateConnection key tcpConn in
          p ← ConnectionPool.Put (tcp_connections t) c SockTTL now;
          mret (with_connections t p, c)
      end
  end.

Definition tcp_Send (t : tcpProtocol) (rAddr : Addr) (m : Message) (now : Z) : res (tcpProtocol * option string) :=
  if String.eqb (Host rAddr) "" then mret (t, Some (no_host_error "tcp"))
  else
    match tcp_resolveAddr rAddr with
    | inr e => mret (t, Some e)
    | inl remoteAddr =>
        match getOrCreateConnection t remoteAddr now with
        | Err e => mret (t, Some e)
        | Panic k => Panic k
        | Ok (t, c) =>
            text ← Message_String m;
            match net_write c None text with
            | Some e => mret (t, Some e)
            | None => mret (mkTcpProtocol (tcp_connections t) (listeners t)
                              (tcp_written t ++ [(Key c, None, text)]), None)
            end
        end
    end.

(** The goroutines of the TCP protocol: its two pools and [pipePools], which meets the
    listener pool.  What goes up is an item of the connection pool or an error of the
    listener pool. *)
Inductive tcp_event : Type :=
  | OfConnections (e : @pool_event connectionHandler event)
  | OfListeners (e : @pool_event listenerHandler levent) (now : Z).

Inductive tcp_up : Type :=
  | TcpItem (x : upward)
  | TcpListenerError (e : ListenerHandlerError).

Variable uuid : nat -> string.

Definition tcp_step (t : tcpProtocol) (e : tcp_event) : res (option (tcpProtocol * option tcp_up)) :=
  match e with
  | OfConnections e =>
      s ← ConnectionPool.ListenHandlers uuid (tcp_connections t) e;
      mret (match s with
            | Some (p, out) =>
                Some (with_connections t p, match out with Some (Passed x) => Some (TcpItem x) | _ => None end)
            | None => None
            end)
  | OfListeners e now =>
      s ← ListenerPool.ListenHandlers (listeners t) e;
      mret (match s with
            | Some (p, out) =>
                let t := mkTcpProtocol (tcp_connections t) p (tcp_written t) in
                Some (match out with
                      | Some (Passed (UpConnection c)) => (pipe_connection t c now, None)
                      | Some (Passed (UpListenerError e)) => (t, Some (TcpListenerError e))
                      | _ => (t, None)
                      end)
            | None => None
            end)
  end.

End Protocols.

(** ** Lemmas *)

Lemma conn_Get_view (p : ConnectionPool.connectionPool) key :
  pool_ok p -> pcancel p = false -> key <> "" ->
  match view p !! key with
  | Some h => ConnectionPool.Get p key = Ok (conn h)
  | None => exists e, ConnectionPool.Get p key = Err e
  end.
Proof.
  intros Hp Hc Hk. unfold ConnectionPool.Get, Pool.Get, guarded.
  rewrite Hc, (proj2 (String.eqb_neq _ _) Hk). pose proof (pool_get_view "connection" p key Hp) as Hv.
  destruct (pool_get "connection" p key) as [i|e|]; [|rewrite Hv; cbn; eauto|done].
  destruct Hv as (h & Hh & ->). cbn. by rewrite Hh.
Qed.

Lemma conn_Put_spec (p : ConnectionPool.connectionPool) c ttl now p' :
  pool_ok p -> ConnectionPool.Put p c ttl now = Ok p' ->
  pool_ok p' /\ pcancel p' = false /\ Key c <> "" /\ view p !! Key c = None
  /\ view p' = <[Key c := CreateConnectionHandler c ttl now]> (view p).
Proof.
  intros Hp H. unfold ConnectionPool.Put, Pool.Put in H. apply guarded_ok in H as (Hc & Hk & H).
  pose proof (pool_put_spec (Item := upward) "connection" p (Key c) (CreateConnectionHandler c ttl now) Hp) as Hs.
  rewrite H in Hs. destruct Hs as (Hn & Hv & Hok & _ & _ & Hpc & _). by rewrite Hpc.
Qed.

Lemma tcp_key_nonempty a : "tcp:" +:+ a <> "".
Proof. done. Qed.

Section Sends.

Variable ResolveAddr : string -> string -> endpoint + string.
Variable DialTCP : string -> endpoint -> baseConn + string.
Variable net_write : connection -> option endpoint -> string -> option string.

Lemma getOrCreateConnection_spec t a now t' c :
  pool_ok (tcp_connections t) -> getOrCreateConnection DialTCP t a now = Ok (t', c) ->
  pool_ok (tcp_connections t') /\ pcancel (tcp_connections t') = false
  /\ (exists h, view (tcp_connections t') !! ("tcp:" +:+ ep_text a) = Some h /\ conn h = c)
  /\ listeners t' = listeners t /\ tcp_written t' = tcp_written t
  /\ (t' = t \/ view (tcp_connections t) !! ("tcp:" +:+ ep_text a) = None).
Proof.
  intros Hp H. unfold getOrCreateConnection in H. set (key := "tcp:" +:+ ep_text a) in *.
  destruct (pcancel (tcp_connections t)) eqn:Ec.
  - unfold ConnectionPool.Get, Pool.Get, guarded in H. rewrite Ec in H. cbn in H.
    destruct (DialTCP _ _) as [b|]; [|done]. unfold ConnectionPool.Put, Pool.Put, guarded in H. by rewrite Ec in H.
  - pose proof (conn_Get_view _ key Hp Ec (tcp_key_nonempty _)) as Hv.
    destruct (view (tcp_connections t) !! key) as [h|] eqn:Eh.
    + rewrite Hv in H. injection H as <- <-. split_and!; eauto.
    + destruct Hv as [e Hv]. rewrite Hv in H. destruct (DialTCP _ _) as [b|]; [|done].
      apply bind_ok in H as (p & Hput & H). injection H as <- <-.
      destruct (conn_Put_spec _ _ _ _ _ Hp Hput) as (Hok & Hpc & _ & _ & Hv').
      split_and!; try done; [|by right]. eexists. split; [cbn; rewrite Hv'; apply lookup_insert_eq|done].
Qed.

End Sends.

(** The socket of a port; without it the first of all connections is nil. *)
Lemma udp_connection_view (range : gmap string nat -> list (string * nat)) u port :
  (forall hm, range hm ≡ₚ map_to_list hm) ->
  pool_ok (udp_connections u) -> pcancel (udp_connections u) = false ->
  udp_connection range u port
  = match view (udp_connections u) !! ("udp:0.0.0.0:" +:+ port) with
    | Some h => Ok (Some (conn h))
    | None => if (Length (udp_connections u) =? 0)%nat then Err "[udp_protocol] -> connection not found: %w"
              else Ok None
    end.
Proof.
  intros Hrange Hp Hc. unfold udp_connection.
  pose proof (conn_Get_view (udp_connections u) ("udp:0.0.0.0:" +:+ port) Hp Hc ltac:(done)) as Hv.
  destruct (view (udp_connections u) !! _) as [h|]; [by rewrite Hv|].
  destruct Hv as [e ->]. unfold ConnectionPool.All, Pool.All, pool_all, Length. rewrite Hc.
  destruct (Nat.eqb_spec (size (handleMap (udp_connections u))) 0) as [Hz|Hz].
  - apply map_size_empty_inv in Hz. rewrite Hz, map_size_empty. specialize (Hrange ∅).
    rewrite map_to_list_empty in Hrange. apply Permutation_nil_r in Hrange. by rewrite Hrange.
  - by destruct (size (handleMap (udp_connections u))).
Qed.

(** A handler that was closed stays closed, and keeps its place in the pool. *)
Lemma dead_run uuid (p p' : ConnectionPool.connectionPool) es outs key i h :
  pool_ok p -> handleMap p !! key = Some i -> heap p !! i = Some h -> handler_ok h -> cancel h = true ->
  pool_run (HP := connection_PoolHandler uuid) "connection" p es outs p' ->
  forallb (fun e => negb (removes e)) es = true ->
  exists h', view p' !! key = Some h' /\ open (conn h') = false.
Proof.
  intros Hp Hk Hi Hh Hc Hr Hes.
  destruct (pool_run_handler _ _ _ _ _ Hr Hp _ _ Hi) as (evs & h' & H1 & H2 & _).
  apply item_run_handler in H2. exists h'. split.
  - by rewrite view_lookup, (map_kept _ _ _ _ _ Hr Hp Hes _ _ Hk).
  - assert (Hc' : cancel h' = true).
    { clear -H2 Hc. induction H2; eauto using cancel_stays. }
    by rewrite (ok_open _ (handler_ok_run _ _ _ _ _ H2 Hh)), Hc'.
Qed.

(** ** Examples *)

Definition sample_resolve (network address : string) : endpoint + string :=
  match SplitHostPort address with
  | Ok (_, port) => inl (mkEndpoint address (to_uint16 (Atoi_value port)))
  | _ => inr "missing port in address"
  end.
Definition sample_listen (network : string) (a : endpoint) : baseConn + string :=
  inl (mkBaseConn network (ep_text a) "" true).
Definition sample_dial (network : string) (a : endpoint) : baseConn + string :=
  inl (mkBaseConn network "10.0.0.1:40000" (ep_text a) false).
Definition sample_write (c : connection) (a : option endpoint) (text : string) : option string :=
  if open c then None else Some "use of closed network connection".

Definition udp_at (port : Port) : udpProtocol :=
  (udp_Listen sample_resolve sample_listen new_udp (mkAddr "10.0.0.1" (Some port)) 0).1.

Definition sample_target : Addr := mkAddr "10.0.0.2" (Some 5060%N).
Definition sample_response (source : string) : Message :=
  MResponse (mkResponse (mkMessage (wire_headers 5) "" SipVersion "hello" source "") 486%N "Busy Here" []).

Lemma udp_at_ok port : pool_ok (udp_connections (udp_at port)).
Proof.
  unfold udp_at, udp_Listen. destruct (udp_resolveAddr sample_resolve _) as [a|]; [|apply CreatePool_ok].
  destruct (sample_listen _ a) as [b|]; [|apply CreatePool_ok].
  destruct (ConnectionPool.Put _ _ _ _) as [p| |] eqn:E; [|apply CreatePool_ok..].
  by apply conn_Put_spec in E; [destruct E|apply CreatePool_ok].
Qed.

(** A service whose UDP socket is not on port 5060 cannot send a request: the layer writes
    the default port into the Via header, the source of the message is that port, and the
    protocol takes the first, nil, connection. *)
Example request_needs_default_port :
  let send u := Transport.layer_Send "10.0.0.1" no_srv
    (fun net _ target m => if String.eqb net "UDP" then snd <$> udp_Send sample_resolve sample_write map_to_list u target m
                           else mret (Some "no route")) both_protocols (MRequest (outgoing "MESSAGE" "hi")) in
  (match send (udp_at 5060%N) with Ok (_, _, None) => true | _ => false end) = true
  /\ send (udp_at 5080%N) = Panic NilDereference.
Proof. vm_compute. split; reflexivity. Qed.

(** ** Properties *)

(** UDP sends through the connection under the port of the message's source, to the
    address the destination resolves to.  When there is none, an empty pool gives an error,
    and any other pool a nil connection: the call panics. *)
Theorem udp_Send_spec (ResolveAddr : string -> string -> endpoint + string)
    (net_write : connection -> option endpoint -> string -> option string)
    (range : gmap string nat -> list (string * nat)) (u : udpProtocol) (rAddr : Addr) (m : Message)
    (a : endpoint) (port text : string) :
  (forall hm, range hm ≡ₚ map_to_list hm) ->
  pool_ok (udp_connections u) -> pcancel (udp_connections u) = false -> Host rAddr <> "" ->
  udp_resolveAddr ResolveAddr rAddr = inl a -> source_port m = Ok port -> Message_String m = Ok text ->
  udp_Send ResolveAddr net_write range u rAddr m
  = match view (udp_connections u) !! ("udp:0.0.0.0:" +:+ port) with
    | Some h => match net_write (conn h) (Some a) text with
                | Some e => Ok (u, Some e)
                | None => Ok (mkUdpProtocol (udp_connections u)
                                (udp_written u ++ [(Key (conn h), Some a, text)]), None)
                end
    | None => if (Length (udp_connections u) =? 0)%nat
              then Ok (u, Some "[udp_protocol] -> connection not found: %w")
              else Panic NilDereference
    end.
Proof.
  intros Hrange Hp Hc Hh Ha Hs Ht. unfold udp_Send. rewrite (proj2 (String.eqb_neq _ _) Hh), Ha, Hs.
  cbn [mbind res_bind]. rewrite udp_connection_view by done.
  destruct (view (udp_connections u) !! _) as [h|]; [|by destruct (_ =? _)%nat].
  cbn [deref mbind res_bind mret res_ret]. rewrite Ht. cbn [mbind res_bind].
  by destruct (net_write (conn h) (Some a) text).
Qed.

Lemma udp_Send_spec_witness :
  exists text, Message_String (sample_response "10.0.0.1:5060") = Ok text
    /\ udp_Send sample_resolve sample_write map_to_list (udp_at 5060%N) sample_target (sample_response "10.0.0.1:5060")
       = Ok (mkUdpProtocol (udp_connections (udp_at 5060%N))
               [("udp:0.0.0.0:5060", Some (mkEndpoint "10.0.0.2:5060" 5060%N), text)], None).
Proof.
  destruct (Message_String (sample_response "10.0.0.1:5060")) as [text| |] eqn:Et;
    [|vm_compute in Et; discriminate Et..].
  exists text. split; [reflexivity|].
  rewrite (udp_Send_spec sample_resolve sample_write map_to_list (udp_at 5060%N) sample_target
             (sample_response "10.0.0.1:5060") (mkEndpoint "10.0.0.2:5060" 5060%N) "5060" text
             (fun _ => reflexivity _) (udp_at_ok _) eq_refl ltac:(discriminate) eq_refl eq_refl Et).
  reflexivity.
Defined.

(** TCP keeps one connection per remote address: a message that was sent was written
    whole to the connection under the address it was sent to, which was in the pool or was
    dialled and put there, and the next message to this address finds the same connection. *)
Theorem tcp_Send_reuses (ResolveAddr : string -> string -> endpoint + string)
    (DialTCP : string -> endpoint -> baseConn + string)
    (net_write : connection -> option endpoint -> string -> option string)
    (t t' : tcpProtocol) (rAddr : Addr) (m : Message) (now : Z) :
  pool_ok (tcp_connections t) ->
  tcp_Send ResolveAddr DialTCP net_write t rAddr m now = Ok (t', None) ->
  exists a c text, tcp_resolveAddr ResolveAddr rAddr = inl a /\ Message_String m = Ok text
    /\ net_write c None text = None /\ tcp_written t' = tcp_written t ++ [(Key c, None, text)]
    /\ pool_ok (tcp_connections t')
    /\ (tcp_connections t' = tcp_connections t
        \/ view (tcp_connections t) !! ("tcp:" +:+ ep_text a) = None)
    /\ forall later, getOrCreateConnection DialTCP t' a later = Ok (t', c).
Proof.
  intros Hp H. unfold tcp_Send in H. destruct (String.eqb (Host rAddr) ""); [done|].
  destruct (tcp_resolveAddr ResolveAddr rAddr) as [a|e] eqn:Ea; [|done].
  destruct (getOrCreateConnection DialTCP t a now) as [[t1 c]| |] eqn:Eg; [|done..].
  apply bind_ok in H as (text & Ht & H). destruct (net_write c None text) eqn:Ew; [done|]. injection H as <-.
  destruct (getOrCreateConnection_spec _ _ _ _ _ _ Hp Eg) as (Hok & Hpc & (h & Hv & Hch) & _ & Hw & Hsame).
  exists a, c, text. split_and!; try done.
  - cbn. by rewrite Hw.
  - destruct Hsame as [->|]; [by left|by right].
  - intros later. unfold getOrCreateConnection. cbn [tcp_connections].
    pose proof (conn_Get_view _ ("tcp:" +:+ ep_text a) Hok Hpc (tcp_key_nonempty _)) as Hg. rewrite Hv in Hg.
    by rewrite Hg, Hch.
Qed.

Lemma tcp_Send_reuses_witness :
  exists t' c, tcp_Send sample_resolve sample_dial sample_write new_tcp sample_target (sample_response "") 0 = Ok (t', None)
    /\ getOrCreateConnection sample_dial t' (mkEndpoint "10.0.0.2:5060" 5060%N) 7 = Ok (t', c).
Proof.
  destruct (tcp_Send sample_resolve sample_dial sample_write new_tcp sample_target (sample_response "") 0)
    as [[t' [e|]]| |] eqn:E.
  - assert (Ht : match tcp_Send sample_resolve sample_dial sample_write new_tcp sample_target (sample_response "") 0
                 with Ok (_, Some _) => true | _ => false end = false) by (vm_compute; reflexivity).
    rewrite E in Ht. discriminate Ht.
  - destruct (tcp_Send_reuses sample_resolve sample_dial sample_write new_tcp t' sample_target (sample_response "") 0
                CreatePool_ok E) as (a & c & text & Ha & _ & _ & _ & _ & _ & Hl).
    exists t', c. split; [reflexivity|]. injection Ha as <-. apply (Hl 7%Z).
  - assert (Ht : is_ok (tcp_Send sample_resolve sample_dial sample_write new_tcp sample_target (sample_response "") 0)
                 = true) by (vm_compute; reflexivity).
    rewrite E in Ht. discriminate Ht.
  - assert (Ht : is_ok (tcp_Send sample_resolve sample_dial sample_write new_tcp sample_target (sample_response "") 0)
                 = true) by (vm_compute; reflexivity).
    rewrite E in Ht. discriminate Ht.
Defined.

(** a connection that is closed, by the peer for example, stays in the pool, and TCP
    never connects to its address again: whatever the connections do later, sending to this
    address fails and changes nothing. *)
Theorem tcp_never_reconnects (uuid : nat -> string) (ResolveAddr : string -> string -> endpoint + string)
    (DialTCP : string -> endpoint -> baseConn + string)
    (net_write : connection -> option endpoint -> string -> option string)
    (p : ConnectionPool.connectionPool) (es : list pool_event) (outs : list pool_out) (t : tcpProtocol)
    (rAddr : Addr) (a : endpoint) (i : nat) (h : connectionHandler) (m : Message) (text : string) (now : Z) :
  (forall c ep s, open c = false -> is_Some (net_write c ep s)) ->
  pool_ok p -> handleMap p !! ("tcp:" +:+ ep_text a) = Some i -> heap p !! i = Some h ->
  handler_ok h -> cancel h = true ->
  pool_run (HP := connection_PoolHandler uuid) "connection" p es outs (tcp_connections t) ->
  forallb (fun e => negb (removes e)) es = true -> pcancel (tcp_connections t) = false ->
  Host rAddr <> "" -> tcp_resolveAddr ResolveAddr rAddr = inl a -> Message_String m = Ok text ->
  exists e, tcp_Send ResolveAddr DialTCP net_write t rAddr m now = Ok (t, Some e).
Proof.
  intros Hw Hp Hk Hi Hh Hc Hr Hes Hpc Hhost Ha Ht.
  destruct (dead_run _ _ _ _ _ _ _ _ Hp Hk Hi Hh Hc Hr Hes) as (h' & Hv & Ho).
  unfold tcp_Send. rewrite (proj2 (String.eqb_neq _ _) Hhost), Ha. unfold getOrCreateConnection.
  pose proof (conn_Get_view _ ("tcp:" +:+ ep_text a) (pool_ok_run _ _ _ _ _ Hr Hp) Hpc (tcp_key_nonempty _)) as Hg.
  rewrite Hv in Hg. rewrite Hg. cbn [mret res_ret]. rewrite Ht. cbn [mbind res_bind].
  destruct (Hw (conn h') None text Ho) as [e He]. exists e. by rewrite He.
Qed.

(** A pool whose one connection was closed. *)
Definition dead_handler : connectionHandler :=
  handler_Close (CreateConnectionHandler
    (CreateConnection "tcp:10.0.0.2:5060" (mkBaseConn "tcp" "10.0.0.1:40000" "10.0.0.2:5060" false)) SockTTL 0).
Definition dead_pool : ConnectionPool.connectionPool :=
  or_same CreatePool (pool_put "connection" CreatePool "tcp:10.0.0.2:5060" dead_handler).

Lemma tcp_never_reconnects_witness :
  exists e, tcp_Send sample_resolve sample_dial sample_write
      (mkTcpProtocol dead_pool ListenerPool.CreateListenerPool []) sample_target (sample_response "") 0
    = Ok (mkTcpProtocol dead_pool ListenerPool.CreateListenerPool [], Some e).
Proof.
  destruct (Message_String (sample_response "")) as [text| |] eqn:Et; [|vm_compute in Et; discriminate Et..].
  apply (tcp_never_reconnects counted sample_resolve sample_dial sample_write dead_pool [] []
           (mkTcpProtocol dead_pool ListenerPool.CreateListenerPool []) sample_target
           (mkEndpoint "10.0.0.2:5060" 5060%N) 0 dead_handler (sample_response "") text 0).
  - intros c ep s Hc. unfold sample_write. rewrite Hc. eauto.
  - pose proof (pool_put_spec (Item := upward) "connection" CreatePool "tcp:10.0.0.2:5060" dead_handler CreatePool_ok)
      as Hp. apply Hp.
  - reflexivity.
  - reflexivity.
  - apply handler_Close_ok, CreateConnectionHandler_ok. reflexivity.
  - reflexivity.
  - constructor.
  - reflexivity.
  - reflexivity.
  - discriminate.
  - reflexivity.
  - exact Et.
Defined.

(** An accepted connection whose key the pool still has is dropped: nobody serves it, and
    its socket is not closed. *)
Lemma accepted_dropped t c now h :
  pool_ok (tcp_connections t) -> view (tcp_connections t) !! Key c = Some h -> pipe_connection t c now = t.
Proof.
  intros Hp Hv. unfold pipe_connection. destruct (ConnectionPool.Put _ _ _ _) as [p| |] eqn:E; [|by destruct t..].
  apply conn_Put_spec in E; [|done]. destruct E as (_ & _ & _ & Hn & _). congruence.
Qed.
