(* ===== verification/ConnIO.v ===== *)
(** * Reading and writing connections (transport/connection.go)

    The methods of a connection pass on to the [net.Conn] below it; the packet methods
    first assert that it is a [net.PacketConn].  The connection below is a parameter:
    what its methods answer. *)

From S2P Require Import Prelude GoStrings Params Base Uri Header Headers Auth HeaderParse.
From S2P Require Import HeaderRoundTrip Message Parser MessageRoundTrip TxKey Transport.
From S2P Require Import ParserLife ConnHandler Pool ListenHandler ConnPool Protocols.
From Stdlib Require Import NArith ZArith Lia.

#[local] Open Scope string_scope.
#[local] Open Scope list_scope.

Section ConnIO.

(** What was read, from where, and the error; how many bytes were written. *)
Variable conn_Read : baseConn -> nat -> string * option string.
Variable packet_ReadFrom : baseConn -> nat -> string * string * option string.
Variable conn_Write : baseConn -> string -> nat * option string.
Variable packet_WriteTo : baseConn -> string -> endpoint -> nat * option string.
Variables conn_SetDeadline conn_SetReadDeadline conn_SetWriteDeadline : baseConn -> Z -> option string.

Definition Read (c : connection) (size : nat) : string * option string := conn_Read (base c) size.

Definition ReadFrom (c : connection) (size : nat) : res (string * string * option string) :=
  if is_PacketConn (base c) then mret (packet_ReadFrom (base c) size) else Panic TypeAssertion.

Definition Write (c : connection) (buf : string) : nat * option string := conn_Write (base c) buf.

Definition WriteTo (c : connection) (buf : string) (remoteAddr : endpoint) : res (nat * option string) :=
  if is_PacketConn (base c) then mret (packet_WriteTo (base c) buf remoteAddr) else Panic TypeAssertion.

Definition connection_LocalAddr (c : connection) : string := LocalAddr (base c).
Definition connection_RemoteAddr (c : connection) : string := RemoteAddr (base c).

Definition SetDeadline (c : connection) (t : Z) : option string := conn_SetDeadline (base c) t.
Definition SetReadDeadline (c : connection) (t : Z) : option string := conn_SetReadDeadline (base c) t.
Definition SetWriteDeadline (c : connection) (t : Z) : option string := conn_SetWriteDeadline (base c) t.

(** One read of the goroutine of [readConnection]. *)
Definition read_once (c : connection) (size : nat) : res (string * option string) :=
  if Streamed c then mret (Read c size)
  else '(data, _, err) ← ReadFrom c size; mret (data, err).

(** ** The assertions hold *)

(** A connection as [CreateConnection] makes it, open or closed. *)
Definition made (c : connection) : Prop := Streamed c = negb (is_PacketConn (base c)).

Lemma CreateConnection_made key b : made (CreateConnection key b).
Proof. done. Qed.

Lemma Close_made c : made c -> made (connection_Close c).
Proof. done. Qed.

(** A step of a handler changes its connection at most by closing it. *)
Lemma step_conn uuid h e h' up :
  handler_step uuid h e = Ok (Some (h', up)) ->
  base (conn h') = base (conn h) /\ Streamed (conn h') = Streamed (conn h).
Proof.
  assert (Hclose : forall h, base (conn (handler_Close h)) = base (conn h) /\ Streamed (conn (handler_Close h)) = Streamed (conn h))
    by (intros h0; unfold handler_Close; by destruct (cancel h0)).
  assert (Hon : forall r h1, on_read h r = Ok h1 -> conn h1 = conn h).
  { intros r h1. unfold on_read. destruct r; [|by intros [= <-]..]. destruct (blank data); [by intros [= <-]|].
    destruct (run_Write _ _) as [[]| |]; [by intros [= <-]..|done]. }
  intros H. unfold handler_step in H. destruct e as [r| | | |now|now| | | | | |].
  - destruct (reader h); try done.
    destruct r; [destruct (open (conn h) && _)%bool; [|done]|..]; apply bind_ok in H as (h1 & H1 & H);
      injection H as <- <-; by rewrite (Hon _ _ H1).
  - apply bind_ok in H as ([l|] & _ & H); [|done]. by injection H as <- <-.
  - destruct (server h); try done. destruct (take_outcome _) as [[? ?]|]; [|done]. by injection H as <- <-.
  - destruct (server h), (reader h); try done; by injection H as <- <-.
  - destruct (server h); try done; injection H as <- <-; [|done]. unfold refresh. by destruct (expiry _).
  - destruct (server h); try done. destruct (exTimer h); [|done]. destruct (_ <=? _)%Z; [|done]. by injection H as <- <-.
  - destruct (server h), (cancel h); try done; by injection H as <- <-.
  - destruct (server h), (reader h); try done; by injection H as <- <-.
  - destruct (reader h), (cancel h); try done; by injection H as <- <-.
  - destruct (reader h); try done. injection H as <- <-. apply Hclose.
  - destruct (reader h); try done. destruct (at_parse _); try done. by injection H as <- <-.
  - injection H as <- <-. apply Hclose.
Qed.

(** All connections of a pool. *)
Definition conns (P : connection -> Prop) (p : ConnectionPool.connectionPool) : Prop :=
  forall i h, heap p !! i = Some h -> P (conn h).

Variable P : connection -> Prop.
Hypothesis P_step : forall c c', base c' = base c -> Streamed c' = Streamed c -> P c -> P c'.

Lemma alter_conns i (hp : list connectionHandler) :
  (forall j h, hp !! j = Some h -> P (conn h)) ->
  forall j h, alter handler_Close i hp !! j = Some h -> P (conn h).
Proof.
  intros Hp j h Hj. destruct (decide (i = j)) as [->|Hne].
  - rewrite list_lookup_alter_eq in Hj. apply fmap_Some in Hj as (h0 & H0 & ->).
    apply (P_step (conn h0)); [unfold handler_Close; by destruct (cancel h0)..|by eapply Hp].
  - rewrite list_lookup_alter_ne in Hj by done. by eapply Hp.
Qed.

Lemma put_conns p key h p' :
  conns P p -> P (conn h) -> pool_put (Item := upward) "connection" p key h = Ok p' -> conns P p'.
Proof.
  intros Hp Hh. unfold pool_put. destruct (pool_get _ p key); try done; intros [= <-] i h0;
    cbn; (intros [Hi|[_ Hi]]%lookup_app_Some; [by eapply Hp|]);
    apply list_lookup_singleton_Some in Hi as [_ <-]; done.
Qed.

Lemma delAll_conns uuid p : conns P p -> conns P (Pool.delAll (HP := connection_PoolHandler uuid) p).
Proof.
  intros Hp. unfold Pool.delAll, conns. cbn. induction (map snd _) as [|j js IH]; [exact Hp|].
  cbn. apply alter_conns, IH.
Qed.

Variable uuid : nat -> string.

Definition pool_conns (p : ConnectionPool.connectionPool) : Prop :=
  conns P p /\ Forall (fun kh => P (conn kh.2)) (putting p).

(** The handler that an event puts. *)
Definition puts (e : @pool_event connectionHandler event) : option connectionHandler :=
  match e with Puts _ h | PutChecks _ h => Some h | _ => None end.

Lemma guarded_inv {B} op (p : ConnectionPool.connectionPool) key (r : res B) x : guarded "connection" op p key r = Ok x -> r = Ok x.
Proof. unfold guarded. by destruct (pcancel p); [|destruct (String.eqb key "")]. Qed.

Lemma or_same_conns (p : ConnectionPool.connectionPool) r :
  conns P p -> Forall (fun kh => P (conn kh.2)) (putting p) ->
  (forall p', r = Ok p' -> conns P p' /\ putting p' = putting p) -> pool_conns (or_same p r).
Proof. intros Hp Hl Hr. destruct r as [p'| |]; try done. destruct (Hr _ eq_refl) as [H1 H2]. split; [exact H1|]. cbn. by rewrite H2. Qed.

Lemma step_conns p e p' out :
  pool_conns p -> (forall h, puts e = Some h -> P (conn h)) ->
  pool_step (HP := connection_PoolHandler uuid) "connection" p e = Ok (Some (p', out)) -> pool_conns p'.
Proof.
  intros [Hp Hl] He. destruct e as [key h|key h| |key| | |i ev| | |]; cbn [pool_step].
  - intros [= <- _]. apply or_same_conns; [done..|]. intros p1 Hr%guarded_inv. split; [eapply put_conns; [exact Hp| |exact Hr]; by apply He|].
    unfold pool_put in Hr. destruct (pool_get _ p key); try done; by injection Hr as <-.
  - intros [= <- _]. destruct (guarded _ _ _ _ _); [|done..]. split; [exact Hp|]. cbn. apply Forall_app.
    split; [done|]. constructor; [by apply He|constructor].
  - destruct (putting p) as [|[key h] l] eqn:Eq; [done|]. intros [= <- _]. inversion Hl as [|? ? Hh Hl']; subst. split; [|done].
    unfold conns. cbn. destruct (pool_put "connection" p key h) as [p1| |] eqn:Hr; [|exact Hp..].
    cbn. eapply put_conns; [exact Hp|exact Hh|exact Hr].
  - intros [= <- _]. apply or_same_conns; [done..|]. intros p1 Hr%guarded_inv. unfold pool_del in Hr.
    destruct (pool_get _ p key) as [i| |]; try done. injection Hr as <-. split; [|done]. unfold conns. cbn.
    apply alter_conns, Hp.
  - intros [= <- _]. apply or_same_conns; [done..|]. intros p1. unfold Pool.DelAll. destruct (pcancel p); [done|].
    intros [= <-]. split; [by apply delAll_conns|done].
  - intros [= <- _]. by split.
  - destruct (heap p !! i) as [h|] eqn:Hi; [|done]. intros ([[h' up]|] & Hs & Hr)%bind_ok; [|done].
    destruct (step_conn _ _ _ _ _ Hs) as [Hb Hst].
    assert (Hnew : conns P (mkPool (<[i := h']> (heap p)) (handleMap p) (pcancel p) (loop p) (putting p))).
    { intros j h0. cbn. intros [(-> & <- & _)|[_ Hj]]%list_lookup_insert_Some; [|by eapply Hp].
      apply (P_step (conn h)); [done..|]. by eapply Hp. }
    destruct up; [destruct (loop p); try done|]; injection Hr as <- _; by split.
  - destruct (loop p); try done. intros [= <- _]. by split.
  - destruct (loop p); try done; (destruct (pcancel p); [|done]); intros [= <- _];
      (split; [exact (delAll_conns uuid p Hp)|done]).
  - destruct (loop p); try done. destruct (forallb _ _); [|done]. intros [= <- _]. by split.
Qed.

Lemma run_conns p es outs p' :
  pool_conns p -> (forall e h, e ∈ es -> puts e = Some h -> P (conn h)) ->
  pool_run (HP := connection_PoolHandler uuid) "connection" p es outs p' -> pool_conns p'.
Proof.
  intros Hp He Hr. revert Hp He. induction Hr as [|p e p1 out es outs p2 Hs Hr IH]; intros Hp He; [done|].
  apply IH.
  - eapply step_conns; [exact Hp| |exact Hs]. intros h. apply He. left.
  - intros e' h Hin. apply He. by right.
Qed.

End ConnIO.

(** ** The property *)

(** The bases below the handlers that a run puts. *)
Definition made_handler (udp : bool) (h : connectionHandler) : Prop :=
  exists key b ttl now, h = CreateConnectionHandler (CreateConnection key b) ttl now
    /\ (udp = true -> is_PacketConn b = true).

(** in every run of a connection pool whose connections are made by
    [CreateConnection], no read of a handler panics, although it asserts the kind of the
    socket without a test: packets are read from packet connections only.  If all of them
    are packet connections, as in the pool of the UDP protocol, no [WriteTo] panics; on a
    stream connection it does. *)
Theorem connection_io_safe (conn_Read : baseConn -> nat -> string * option string)
    (packet_ReadFrom : baseConn -> nat -> string * string * option string)
    (packet_WriteTo : baseConn -> string -> endpoint -> nat * option string)
    (uuid : nat -> string) (udp : bool) (es : list pool_event) (outs : list pool_out)
    (p : ConnectionPool.connectionPool) :
  pool_run (HP := connection_PoolHandler uuid) "connection" CreatePool es outs p ->
  (forall e h, e ∈ es -> puts e = Some h -> made_handler udp h) ->
  forall i h, heap p !! i = Some h ->
    (forall size, exists r, read_once conn_Read packet_ReadFrom (conn h) size = Ok r)
    /\ (udp = true -> forall buf a, WriteTo packet_WriteTo (conn h) buf a = Ok (packet_WriteTo (base (conn h)) buf a))
    /\ (Streamed (conn h) = true -> forall buf a, WriteTo packet_WriteTo (conn h) buf a = Panic TypeAssertion).
Proof.
  intros Hr He i h Hi.
  set (P := fun c => made c /\ (udp = true -> is_PacketConn (base c) = true)).
  assert (HP : pool_conns P p).
  { refine (run_conns P _ uuid CreatePool es outs p _ _ Hr); [|split; [intros j h1 Hj; discriminate Hj|constructor]|].
    - intros c c' Hb Hs [Hm Hu]. unfold P, made in *. by rewrite Hb, Hs.
    - intros e h0 Hin Hp. destruct (He e h0 Hin Hp) as (key & b & ttl & now & -> & Hu). by split. }
  destruct (proj1 HP _ _ Hi) as [Hm Hu]. unfold made in Hm. unfold read_once, ReadFrom, WriteTo. rewrite Hm.
  destruct (is_PacketConn (base (conn h))); cbn; (split; [|split]); try done.
  - intros size. destruct (packet_ReadFrom _ size) as [[d a] e]. eauto.
  - eauto.
  - intros Hudp. by specialize (Hu Hudp).
Qed.

Definition io_events : list (@pool_event connectionHandler event) := [Puts "k" (sample_handler false)].

Lemma connection_io_safe_witness :
  exists p : ConnectionPool.connectionPool, exists h, heap p !! 0%nat = Some h
    /\ WriteTo (fun _ buf _ => (String.length buf, None)) (conn h) "SIP" (mkEndpoint "10.0.0.9:5060" 5060%N) = Panic TypeAssertion.
Proof.
  destruct (run_pool (HP := connection_PoolHandler counted) "connection" CreatePool io_events) as [[outs p]|] eqn:E;
    [|discriminate E].
  exists p. pose proof (run_pool_run _ _ _ _ _ E) as Hr. apply (inj Some) in E. injection E as _ <-.
  exists (sample_handler false). split; [reflexivity|].
  apply (connection_io_safe (fun _ _ => ("", None)) (fun _ _ => ("", "", None)) (fun _ buf _ => (String.length buf, None))
    counted false io_events outs _ Hr) with (i := 0%nat); [|reflexivity|reflexivity].
  intros e h Hin Hp. apply list_elem_of_singleton in Hin as ->. injection Hp as <-.
  exists "k", (sample_base false), SockTTL, 0%Z. split; [reflexivity|done].
Defined.
