(* ===== verification/TxCommon.v ===== *)
(** * What client and server transactions share (transaction/base.go, tx.go, error.go)

    Durations, the fields of [commonTx] and the errors a transaction reports. *)

From S2P Require Import Prelude GoStrings Params Base Uri Header Headers Auth HeaderParse.
From S2P Require Import Message TxKey Transport.
From Stdlib Require Import NArith ZArith Lia.

#[local] Open Scope string_scope.
#[local] Open Scope list_scope.

(** ** Durations: [time.Duration] is a 64-bit count of nanoseconds *)

Definition Duration : Type := Z.

Definition wrap64 (z : Z) : Z := ((z + 2 ^ 63) mod 2 ^ 64 - 2 ^ 63)%Z.

Definition Millisecond : Duration := 1000000%Z.
Definition Second : Duration := (1000 * Millisecond)%Z.

Definition T1 : Duration := (500 * Millisecond)%Z.
Definition T2 : Duration := (4 * Second)%Z.
Definition T4 : Duration := (5 * Second)%Z.
Definition TimeA : Duration := T1.
Definition TimeB : Duration := (64 * T1)%Z.
Definition TimeD : Duration := (32 * Second)%Z.
Definition TimeE : Duration := T1.
Definition TimeG : Duration := T1.
Definition TimeH : Duration := (64 * T1)%Z.
Definition TimeI : Duration := T4.
Definition TimeJ : Duration := (64 * T1)%Z.
Definition TimeK : Duration := T4.
Definition Time1xx : Duration := (200 * Millisecond)%Z.

(** [d *= 2] and its capped form. *)
Definition double (d : Duration) : Duration := wrap64 (d * 2).
Definition double_capped (d : Duration) : Duration :=
  let d := double d in if (T2 <? d)%Z then T2 else d.

(** A timer is nil or was last armed with a duration; stopping one before it is set to
    nil has no trace in the model. *)
Definition timer : Type := option Duration.

(** [timer.Reset(d)] *)
Definition Reset (t : timer) (d : Duration) : res timer :=
  match t with None => Panic NilDereference | Some _ => mret (Some d) end.

(** ** Errors *)

Inductive tx_error : Type :=
  | TxTransportError (err : option string) (key : TxKey)
  | TxTimeoutError (key : TxKey).

(** ** The common fields

    [errs] is what was put on the channel of this name; [closed] tells that the [done]
    channel, and with it the others, was closed. *)
Record commonTx := mkCommonTx {
  key : TxKey;
  origin : request;
  lastResp : option response;
  errs : list tx_error;
  lastErr : option string;
  closed : bool
}.

Definition set_origin (c : commonTx) (m : Message) : commonTx :=
  mkCommonTx (key c) (match m with MRequest r => r | MResponse _ => origin c end) (lastResp c) (errs c)
    (lastErr c) (closed c).
Definition set_lastResp (c : commonTx) (r : response) : commonTx :=
  mkCommonTx (key c) (origin c) (Some r) (errs c) (lastErr c) (closed c).
Definition set_lastErr (c : commonTx) (e : option string) : commonTx :=
  mkCommonTx (key c) (origin c) (lastResp c) (errs c) e (closed c).
Definition set_closed (c : commonTx) : commonTx :=
  mkCommonTx (key c) (origin c) (lastResp c) (errs c) (lastErr c) true.

(** A [select] between [done] and a send on [errs].  Where both are closed the send may be
    chosen and panics, which the deferred [recover] of the callers catches. *)
Definition put_err (c : commonTx) (e : tx_error) : commonTx :=
  if closed c then c
  else mkCommonTx (key c) (origin c) (lastResp c) (errs c ++ [e]) (lastErr c) (closed c).

(** ** Doubling *)

Lemma wrap64_small z : (- 2 ^ 63 <= z < 2 ^ 63)%Z -> wrap64 z = z.
Proof. intros H. unfold wrap64. rewrite Z.mod_small; lia. Qed.

(** Up to 34 doublings of T1 the 64 bits do not overflow. *)
Lemma double_T1 (k : nat) : (k < 34)%nat -> double (T1 * 2 ^ Z.of_nat k)%Z = (T1 * 2 ^ Z.of_nat (S k))%Z.
Proof.
  intros Hk. unfold double. rewrite Nat2Z.inj_succ, Z.pow_succ_r by lia.
  rewrite wrap64_small; [lia|].
  assert (2 ^ Z.of_nat k <= 2 ^ 33)%Z by (apply Z.pow_le_mono_r; lia).
  assert (0 < 2 ^ Z.of_nat k)%Z by (apply Z.pow_pos_nonneg; lia).
  change T1 with 500000000%Z. change (2 ^ 33)%Z with 8589934592%Z in *.
  change (2 ^ 63)%Z with 9223372036854775808%Z. lia.
Qed.

Lemma double_capped_T1 (k : nat) :
  double_capped (Z.min (T1 * 2 ^ Z.of_nat k) T2)%Z = Z.min (T1 * 2 ^ Z.of_nat (S k))%Z T2.
Proof.
  destruct (decide (k < 4)%nat) as [Hk|Hk].
  - destruct k as [|[|[|[|k]]]]; [reflexivity..|lia].
  - assert (2 ^ 4 <= 2 ^ Z.of_nat k)%Z by (apply Z.pow_le_mono_r; lia).
    rewrite Nat2Z.inj_succ, Z.pow_succ_r by lia.
    change T1 with 500000000%Z in *. change T2 with 4000000000%Z in *.
    rewrite !Z.min_r by lia. reflexivity.
Qed.

(** ** A transport to run transactions on

    It accepts every message and writes nothing to it; TCP is reliable. *)

Definition record_Send (w : list Message) (m : Message) : res (list Message * Message * option string) :=
  Ok (w ++ [m], m, None).

Lemma record_same w m w' m' e : record_Send w m = Ok (w', m', e) -> same_message m m'.
Proof. intros [= <- <- <-]. destruct m; cbn; reflexivity. Qed.

Lemma record_logs w m w' m' e :
  record_Send w m = Ok (w', m', e) -> w' = w ++ match e with None => [m'] | Some _ => [] end.
Proof. by intros [= <- <- <-]. Qed.

#[export] Instance recorder : TransportLayer (list Message) := {
  Send := record_Send;
  IsReliable w network := Ok (String.eqb (ToUpper network) "TCP");
  sent w := w;
  Send_same := record_same;
  Send_logs := record_logs
}.
