(* ===== verification/ClientTx.v ===== *)
(** * Client transactions (transaction/client_tx.go)

    The two state tables, the action methods and the operations of a client
    transaction.  The state machine package is the parameter [Spin] with the laws of
    [FsmSpin]; an action that calls [Spin] again while the machine is spinning, after a
    failed retransmission or a failed ACK, is where the model ends.  The consumers of the
    channels read what is put on them. *)

From S2P Require Import Prelude GoStrings Params Base Uri Header Headers Auth HeaderParse.
From S2P Require Import Message TxKey Transport Fsm TxCommon.
From Stdlib Require Import NArith ZArith Lia.

#[local] Open Scope string_scope.
#[local] Open Scope list_scope.

(** ** States, inputs, actions *)

Inductive ClientState : Set := Calling | Proceeding | Completed | Terminated.

Inductive ClientInput : Set :=
  | Input1xx | Input2xx | Input300Plus | InputTimerA | InputTimerB | InputTimerD
  | InputTransportErr | InputDelete.

Inductive ClientAction : Set :=
  | NO_ACTION | ActionInviteResend | ActionNonInviteResend | ActionPassUp | ActionInviteFinal
  | ActionNonInviteFinal | ActionAck | ActionTransErr | ActionTimeout | ActionPassUpDelete
  | ActionDelete.

#[export] Instance ClientState_eq_dec : EqDecision ClientState.
Proof. solve_decision. Defined.
#[export] Instance ClientInput_eq_dec : EqDecision ClientInput.
Proof. solve_decision. Defined.

(** ** The tables *)

Definition inviteFSM (s : ClientState) (i : ClientInput) : option (ClientState * ClientAction) :=
  match s, i with
  | Calling, Input1xx => Some (Proceeding, ActionPassUp)
  | Calling, Input2xx => Some (Terminated, ActionPassUpDelete)
  | Calling, Input300Plus => Some (Completed, ActionInviteFinal)
  | Calling, InputTimerA => Some (Calling, ActionInviteResend)
  | Calling, InputTimerB => Some (Terminated, ActionTimeout)
  | Calling, InputTransportErr => Some (Terminated, ActionTransErr)
  | Proceeding, Input1xx => Some (Proceeding, ActionPassUp)
  | Proceeding, Input2xx => Some (Terminated, ActionPassUpDelete)
  | Proceeding, Input300Plus => Some (Completed, ActionInviteFinal)
  | Proceeding, InputTimerA => Some (Proceeding, NO_ACTION)
  | Proceeding, InputTimerB => Some (Proceeding, NO_ACTION)
  | Completed, Input1xx => Some (Completed, NO_ACTION)
  | Completed, Input2xx => Some (Completed, NO_ACTION)
  | Completed, Input300Plus => Some (Completed, ActionAck)
  | Completed, InputTransportErr => Some (Terminated, ActionTransErr)
  | Completed, InputTimerA => Some (Completed, NO_ACTION)
  | Completed, InputTimerB => Some (Completed, NO_ACTION)
  | Completed, InputTimerD => Some (Terminated, ActionDelete)
  | Terminated, Input1xx => Some (Terminated, NO_ACTION)
  | Terminated, Input2xx => Some (Terminated, NO_ACTION)
  | Terminated, Input300Plus => Some (Terminated, NO_ACTION)
  | Terminated, InputTimerA => Some (Terminated, NO_ACTION)
  | Terminated, InputTimerB => Some (Terminated, NO_ACTION)
  | Terminated, InputTimerD => Some (Terminated, NO_ACTION)
  | Terminated, InputDelete => Some (Terminated, ActionDelete)
  | _, _ => None
  end.

Definition nonInviteFSM (s : ClientState) (i : ClientInput) : option (ClientState * ClientAction) :=
  match s, i with
  | Calling, Input1xx => Some (Proceeding, ActionPassUp)
  | Calling, Input2xx => Some (Completed, ActionNonInviteFinal)
  | Calling, Input300Plus => Some (Completed, ActionNonInviteFinal)
  | Calling, InputTimerA => Some (Calling, ActionNonInviteResend)
  | Calling, InputTimerB => Some (Terminated, ActionTimeout)
  | Calling, InputTransportErr => Some (Terminated, ActionTransErr)
  | Proceeding, Input1xx => Some (Proceeding, ActionPassUp)
  | Proceeding, Input2xx => Some (Completed, ActionNonInviteFinal)
  | Proceeding, Input300Plus => Some (Completed, ActionNonInviteFinal)
  | Proceeding, InputTimerA => Some (Proceeding, ActionNonInviteResend)
  | Proceeding, InputTimerB => Some (Terminated, ActionTimeout)
  | Proceeding, InputTransportErr => Some (Terminated, ActionTransErr)
  | Completed, Input1xx => Some (Completed, NO_ACTION)
  | Completed, Input2xx => Some (Completed, NO_ACTION)
  | Completed, Input300Plus => Some (Completed, NO_ACTION)
  | Completed, InputTimerA => Some (Completed, NO_ACTION)
  | Completed, InputTimerB => Some (Completed, NO_ACTION)
  | Completed, InputTimerD => Some (Terminated, ActionDelete)
  | Terminated, Input1xx => Some (Terminated, NO_ACTION)
  | Terminated, Input2xx => Some (Terminated, NO_ACTION)
  | Terminated, Input300Plus => Some (Terminated, NO_ACTION)
  | Terminated, InputTimerA => Some (Terminated, NO_ACTION)
  | Terminated, InputTimerB => Some (Terminated, NO_ACTION)
  | Terminated, InputTimerD => Some (Terminated, NO_ACTION)
  | Terminated, InputDelete => Some (Terminated, ActionDelete)
  | _, _ => None
  end.

(** ** The transaction *)

(** [loose] holds the durations of the timers that were started, not stopped, and to which
    no field points any more: they still fire. *)
Record clientTx := mkClientTx {
  common : commonTx;
  responses : list response;
  timeATime : Duration;
  timerA : timer;
  timerB : timer;
  timeDTime : Duration;
  timerD : timer;
  reliable : bool;
  loose : list Duration
}.

Definition with_common (tx : clientTx) (c : commonTx) : clientTx :=
  mkClientTx c (responses tx) (timeATime tx) (timerA tx) (timerB tx) (timeDTime tx) (timerD tx) (reliable tx) (loose tx).
Definition with_timerA (tx : clientTx) (d : Duration) (t : timer) : clientTx :=
  mkClientTx (common tx) (responses tx) d t (timerB tx) (timeDTime tx) (timerD tx) (reliable tx) (loose tx).
Definition with_timerB (tx : clientTx) (t : timer) : clientTx :=
  mkClientTx (common tx) (responses tx) (timeATime tx) (timerA tx) t (timeDTime tx) (timerD tx) (reliable tx) (loose tx).
Definition with_timerD (tx : clientTx) (d : Duration) (t : timer) : clientTx :=
  mkClientTx (common tx) (responses tx) (timeATime tx) (timerA tx) (timerB tx) d t (reliable tx) (loose tx).

Section ClientTx.
Context {W : Type} `{TransportLayer W}.

(** Which case a [select] takes when [done] and the other channel are both closed. *)
Variable takes_done : bool.
(** The identifiers and random texts drawn, as functions of what was sent before. *)
Variables uuid rnd : list Message -> string.

Definition NewClientTx (w : W) (origin : request) : res clientTx :=
  k ← MakeClientTxKey (req_msg origin);
  rel ← match headers_ViaHop (msg_headers (req_msg origin)) with
        | Some viaHop => IsReliable w (Header.Transport viaHop)
        | None => mret false
        end;
  mret (mkClientTx (mkCommonTx k origin None [] None false) [] 0%Z None None 0%Z None rel []).

(** *** Methods called by the actions *)

(** The origin is sent again; sending writes to it. *)
Definition resend (tx : clientTx) (w : W) : res (clientTx * W) :=
  '(w', m', err) ← Send w (MRequest (origin (common tx)));
  let tx := with_common tx (set_lastErr (set_origin (common tx) m') err) in
  match err with
  | None => mret (tx, w')
  | Some _ => nested_spin
  end.

Definition passUp (tx : clientTx) : res clientTx :=
  match lastResp (common tx) with
  | None => mret tx
  | Some r =>
      if closed (common tx) then (if takes_done then mret tx else Panic SendOnClosed)
      else mret (mkClientTx (common tx) (responses tx ++ [r]) (timeATime tx) (timerA tx) (timerB tx)
                   (timeDTime tx) (timerD tx) (reliable tx) (loose tx))
  end.

(** The method has a value receiver: the error is written to a copy of the transaction. *)
Definition ack (tx : clientTx) (w : W) : res (clientTx * W) :=
  r ← deref (lastResp (common tx));
  ackRequest ← CreateAck (uuid (sent w)) (rnd (sent w)) r;
  '(w', _, err) ← Send w (MRequest ackRequest);
  match err with
  | None => mret (tx, w')
  | Some _ => nested_spin
  end.

(** Without a last response, [res.Short()] panics and the deferred [recover] drops the
    report. *)
Definition transportErr (tx : clientTx) : clientTx :=
  match lastResp (common tx) with
  | None => tx
  | Some _ => with_common tx (put_err (common tx) (TxTransportError (lastErr (common tx)) (key (common tx))))
  end.

Definition timeoutErr (tx : clientTx) : clientTx :=
  with_common tx (put_err (common tx) (TxTimeoutError (key (common tx)))).

Definition delete (tx : clientTx) : clientTx :=
  if closed (common tx) then tx
  else mkClientTx (set_closed (common tx)) (responses tx) (timeATime tx) None None (timeDTime tx) None
         (reliable tx) (loose tx).

(** *** Actions *)

Definition actionInviteResend (tx : clientTx) (w : W) : res (clientTx * W) :=
  let d := double (timeATime tx) in
  t ← Reset (timerA tx) d;
  resend (with_timerA tx d t) w.

Definition actionNonInviteResend (tx : clientTx) (w : W) : res (clientTx * W) :=
  let d := double_capped (timeATime tx) in
  t ← Reset (timerA tx) d;
  resend (with_timerA tx d t) w.

Definition stop_timerA (tx : clientTx) : clientTx := with_timerA tx (timeATime tx) None.

(** [actionPassUpDelete] sets the field to nil and does not stop the timer. *)
Definition forget_timerA (tx : clientTx) : clientTx :=
  mkClientTx (common tx) (responses tx) (timeATime tx) None (timerB tx) (timeDTime tx) (timerD tx) (reliable tx)
    (loose tx ++ option_list (timerA tx)).

Definition start_timerD (tx : clientTx) : clientTx := with_timerD tx (timeDTime tx) (Some (timeDTime tx)).

Definition perform (a : ClientAction) (c : clientTx * W) : res ((clientTx * W) * option ClientInput) :=
  let '(tx, w) := c in
  match a with
  | NO_ACTION => mret (c, None)
  | ActionInviteResend => c ← actionInviteResend tx w; mret (c, None)
  | ActionNonInviteResend => c ← actionNonInviteResend tx w; mret (c, None)
  | ActionPassUp => tx ← passUp tx; mret ((stop_timerA tx, w), None)
  | ActionInviteFinal =>
      tx ← passUp tx;
      '(tx, w) ← ack tx w;
      mret ((start_timerD (stop_timerA tx), w), None)
  | ActionNonInviteFinal => tx ← passUp tx; mret ((start_timerD (stop_timerA tx), w), None)
  | ActionAck => c ← ack tx w; mret (c, None)
  | ActionTransErr => mret ((stop_timerA (transportErr tx), w), Some InputDelete)
  | ActionTimeout => mret ((stop_timerA (timeoutErr tx), w), Some InputDelete)
  | ActionPassUpDelete => tx ← passUp tx; mret ((forget_timerA tx, w), Some InputDelete)
  | ActionDelete => mret ((delete tx, w), None)
  end.

(** [initFSM]: the table depends on the method of the request. *)
Definition outcomes (invite : bool) : ClientState -> ClientInput -> option (ClientState * ClientAction) :=
  if invite then inviteFSM else nonInviteFSM.

(** *** Operations *)

(** The machine of a transaction whose request is an INVITE or not. *)
Variable Spin : bool -> spin_type ClientState ClientInput (clientTx * W).

(** A configuration: the state of the machine, the transaction and the transport. *)
Definition config : Type := (ClientState * (clientTx * W))%type.

Definition tx_invite (tx : clientTx) : bool := IsInvite (origin (common tx)).

(** [Define] starts the machine in the first state of the table. *)
Definition Init (tx : clientTx) (w : W) : res (config * option string) :=
  let invite := tx_invite tx in
  '(w, m', err) ← Send w (MRequest (origin (common tx)));
  let tx := with_common tx (set_origin (common tx) m') in
  match err with
  | Some e =>
      let tx := with_common tx (set_lastErr (common tx) err) in
      '(c, _) ← Spin invite (Calling, (tx, w)) InputTransportErr;
      mret (c, err)
  | None =>
      let tx :=
        if reliable tx then with_timerD tx 0%Z (timerD tx)
        else if tx_invite tx then with_timerD (with_timerA tx TimeA (Some TimeA)) TimeD (timerD tx)
        else with_timerD (with_timerA tx TimeE (Some TimeE)) TimeK (timerD tx) in
      let tx := with_timerB tx (Some TimeB) in
      mret ((Calling, (tx, w)), lastErr (common tx))
  end.

(** The input for a response. *)
Definition input_of (r : response) : ClientInput :=
  if IsProvisional r then Input1xx else if IsSuccess r then Input2xx else Input300Plus.

(** [Receive], as one step; ClientRaces.v splits it where the code gives up the lock.  The
    error of an unexpected request renders it. *)
Definition Receive (c : config) (msg : Message) : res (config * option string) :=
  let '(s, (tx, w)) := c in
  match msg with
  | MRequest r =>
      _ ← request_String r;
      mret (c, Some "%s recevied unexpected %s")
  | MResponse r =>
      Spin (tx_invite tx) (s, (with_common tx (set_lastResp (common tx) r), w)) (input_of r)
  end.

Definition Close (c : config) : config :=
  let '(s, (tx, w)) := c in (s, (delete tx, w)).

End ClientTx.

#[global] Arguments config : clear implicits.

(** ** Lemmas *)

(** Only [InputDelete] is fed back, and it ends the chain. *)
Definition client_rank (s : ClientState) (i : ClientInput) : nat :=
  match i with InputDelete => 0 | _ => 1 end.

Section Laws.
Context {W : Type} `{TransportLayer W}.
Variable takes_done : bool.
Variables uuid rnd : list Message -> string.
#[local] Abbreviation act := (perform takes_done uuid rnd).

Lemma client_perform_feeds a c c' i : act a c = Ok (c', Some i) -> i = InputDelete /\ a <> ActionDelete.
Proof.
  destruct c as [tx w]. destruct a; cbn; try done.
  - by destruct (actionInviteResend tx w).
  - by destruct (actionNonInviteResend tx w).
  - by destruct (passUp takes_done tx).
  - destruct (passUp takes_done tx) as [tx1| |]; try done. cbn.
    by destruct (ack uuid rnd tx1 w) as [[? ?]| |].
  - by destruct (passUp takes_done tx).
  - by destruct (ack uuid rnd tx w).
  - by intros [= _ <-].
  - by intros [= _ <-].
  - destruct (passUp takes_done tx); try done. by intros [= _ <-].
Qed.

Lemma outcomes_delete b s i s' a :
  outcomes b s i = Some (s', a) -> i = InputDelete -> s' = Terminated /\ a = ActionDelete.
Proof. intros Ho ->. destruct b, s; cbn in Ho; try done; by injection Ho as <- <-. Qed.

(** A machine that the package could provide. *)
Lemma client_spin_exists b : FsmSpin (outcomes b) act (spin_run (outcomes b) act 2).
Proof.
  apply (spin_run_FsmSpin _ _ client_rank).
  - intros s i s' a t t' i' Ho Hp. destruct (client_perform_feeds _ _ _ _ Hp) as [-> Hne].
    cbn. destruct (decide (i = InputDelete)) as [->|Hi]; [|destruct i; cbn; by try lia].
    by destruct (outcomes_delete _ _ _ _ _ Ho eq_refl) as [_ ->].
  - intros s i. destruct i; cbn; lia.
Qed.

Variable Spin : bool -> spin_type ClientState ClientInput (clientTx * W).
Context {Hspin : forall b, FsmSpin (outcomes b) act (Spin b)}.

(** The feeding actions lead to the terminated state. *)
Lemma feeds_terminated b s i s' a c c' i' :
  outcomes b s i = Some (s', a) -> act a c = Ok (c', Some i') -> s' = Terminated.
Proof.
  intros Ho Hp. destruct c as [tx w].
  destruct b, s, i; cbn in Ho; try done; injection Ho as <- <-; try done; cbn in Hp;
    repeat match type of Hp with
    | context [passUp ?d ?t] => destruct (passUp d t); cbn in Hp; try done
    | context [ack ?u ?r ?t ?w] => destruct (ack u r t w) as [[? ?]| |]; cbn in Hp; try done
    | context [actionInviteResend ?t ?w] => destruct (actionInviteResend t w); cbn in Hp; try done
    | context [actionNonInviteResend ?t ?w] => destruct (actionNonInviteResend t w); cbn in Hp; try done
    end.
Qed.

Lemma spin_deletes b s t i s' a tx' w' :
  outcomes b s i = Some (s', a) -> act a t = Ok ((tx', w'), Some InputDelete) ->
  Spin b (s, t) i = Ok ((Terminated, (delete tx', w')), None).
Proof.
  intros Ho Hp. pose proof (feeds_terminated _ _ _ _ _ _ _ _ Ho Hp) as ->.
  rewrite (spin_feeds _ _ _ _ _ _ _ Ho Hp).
  apply (spin_stops _ _ _ _ ActionDelete); [by destruct b|done].
Qed.

(** What a call of [Spin] that returns has done. *)
Lemma spin_inv b s t i c' e :
  Spin b (s, t) i = Ok (c', e) ->
  (outcomes b s i = None /\ c' = (s, t))
  \/ exists s' a t', outcomes b s i = Some (s', a)
     /\ ((act a t = Ok (t', None) /\ c' = (s', t') /\ e = None)
         \/ (act a t = Ok (t', Some InputDelete) /\ c' = (Terminated, (delete t'.1, t'.2)) /\ e = None)).
Proof.
  intros Hs. destruct (outcomes b s i) as [[s' a]|] eqn:Ho.
  - right. destruct (act a t) as [[[tx' w'] [i'|]]| |] eqn:Hp.
    + destruct (client_perform_feeds _ _ _ _ Hp) as [-> _].
      rewrite (spin_deletes _ _ _ _ _ _ _ _ Ho Hp) in Hs. injection Hs as <- <-.
      exists s', a, (tx', w'). auto.
    + rewrite (spin_stops _ _ _ _ _ _ Ho Hp) in Hs. injection Hs as <- <-. exists s', a, (tx', w'). auto.
    + by rewrite (spin_errs _ _ _ _ _ _ Ho Hp) in Hs.
    + by rewrite (spin_panics _ _ _ _ _ _ Ho Hp) in Hs.
  - left. destruct (spin_rejects _ t _ Ho) as [e' He]. rewrite He in Hs. by injection Hs as <- _.
Qed.

End Laws.

(** ** The invariant *)

(** The final responses among those passed up. *)
Definition finals (l : list response) : nat := length (List.filter (fun r => negb (IsProvisional r)) l).

#[global] Arguments finals : simpl never.

Lemma finals_snoc l r : finals (l ++ [r]) = (finals l + if IsProvisional r then 0 else 1)%nat.
Proof. unfold finals. rewrite List.filter_app, length_app. cbn. by destruct (IsProvisional r). Qed.

(** At most one final response was passed up, and none before the machine has left the
    states that wait for one; a terminated transaction is closed; while it is open, the
    timer that ends it is armed; the request and the key are those it was made from. *)
Record client_inv (r0 : request) (k : TxKey) (s : ClientState) (tx : clientTx) : Prop := {
  inv_finals : (finals (responses tx) <= match s with Calling | Proceeding => 0 | _ => 1 end)%nat;
  inv_closed : s = Terminated -> closed (common tx) = true;
  inv_timers : closed (common tx) = false ->
    match s with
    | Calling | Proceeding => timerB tx = Some TimeB
    | Completed => timerD tx = Some (timeDTime tx)
    | Terminated => True
    end;
  inv_key : key (common tx) = k;
  inv_origin : same_request r0 (origin (common tx));
  inv_match : MakeClientTxKey (req_msg (origin (common tx))) = Ok k
}.

Section Invariant.
Context {W : Type} `{TransportLayer W}.
Variable takes_done : bool.
Variables uuid rnd : list Message -> string.
#[local] Abbreviation act := (perform takes_done uuid rnd).
Variable Spin : bool -> spin_type ClientState ClientInput (clientTx * W).
Context {Hspin : forall b, FsmSpin (outcomes b) act (Spin b)}.
Variable r0 : request.

Lemma passUp_inv tx tx' :
  passUp takes_done tx = Ok tx' ->
  common tx' = common tx /\ timerB tx' = timerB tx /\ timeDTime tx' = timeDTime tx /\ timerD tx' = timerD tx
  /\ (responses tx' = responses tx \/ exists r, lastResp (common tx) = Some r /\ responses tx' = responses tx ++ [r]).
Proof.
  unfold passUp. destruct (lastResp (common tx)) as [r|]; [|intros [= <-]; auto 6].
  destruct (closed (common tx)); [destruct takes_done; [|done]; intros [= <-]; auto 6|].
  intros [= <-]. cbn. eauto 8.
Qed.

Lemma ack_inv tx w tx' w' : ack uuid rnd tx w = Ok (tx', w') -> tx' = tx.
Proof.
  unfold ack. destruct (lastResp (common tx)) as [r|]; [|done]. cbn.
  destruct (CreateAck _ _ r); try done. cbn. destruct (Send _ _) as [[[? ?] [?|]]| |]; try done.
  by intros [= <- <-].
Qed.

Lemma resend_inv tx w tx' w' :
  resend tx w = Ok (tx', w') ->
  exists m', Send w (MRequest (origin (common tx))) = Ok (w', m', None)
    /\ tx' = with_common tx (set_lastErr (set_origin (common tx) m') None).
Proof.
  unfold resend. destruct (Send _ _) as [[[w1 m'] [e|]]| |] eqn:E; try done. cbn.
  intros [= <- <-]. eauto.
Qed.

(** Sending keeps the request. *)
Lemma set_origin_inv s tx w m w' e k :
  client_inv r0 k s tx -> Send w (MRequest (origin (common tx))) = Ok (w', m, e) ->
  same_request r0 (origin (set_origin (common tx) m))
  /\ MakeClientTxKey (req_msg (origin (set_origin (common tx) m))) = Ok k.
Proof.
  intros I Hs. pose proof (Send_same _ _ _ _ _ Hs) as Hm. destruct m as [r|]; [|done]. cbn in *.
  split; [etrans; [exact (inv_origin _ _ _ _ I)|done]|].
  exact (same_key _ _ Hm _ (inv_match _ _ _ _ I)).
Qed.

Lemma delete_inv k s tx : (finals (responses tx) <= 1)%nat -> key (common tx) = k ->
  same_request r0 (origin (common tx)) -> MakeClientTxKey (req_msg (origin (common tx))) = Ok k ->
  (s = Calling \/ s = Proceeding -> finals (responses tx) = 0%nat) -> client_inv r0 k s (delete tx).
Proof.
  intros Hf Hk Ho Hm Hs.
  assert (Hr : responses (delete tx) = responses tx /\ closed (common (delete tx)) = true
    /\ key (common (delete tx)) = key (common tx) /\ origin (common (delete tx)) = origin (common tx)).
  { unfold delete. by destruct (closed (common tx)) eqn:Hc. }
  destruct Hr as (Hr & Hc & Hk' & Ho'). split; rewrite ?Hr, ?Hc, ?Hk', ?Ho'; try done.
  destruct s; try done; rewrite Hs by auto; lia.
Qed.

Lemma finals_le1 k s tx : client_inv r0 k s tx -> (finals (responses tx) <= 1)%nat.
Proof. intros I. pose proof (inv_finals _ _ _ _ I). destruct s; lia. Qed.

Lemma reset_resend_inv k s tx w t d tx' w' :
  client_inv r0 k s tx -> resend (with_timerA tx d t) w = Ok (tx', w') -> client_inv r0 k s tx'.
Proof.
  intros I Hr. apply resend_inv in Hr as (m' & Hs & ->). cbn in Hs.
  destruct (set_origin_inv _ _ _ _ _ _ _ I Hs) as [Ho Hm].
  destruct I as [Hf Hc Ht Hk _ _]. by split.
Qed.

Lemma resend_action_inv k s tx w a tx' w' n :
  (a = ActionInviteResend \/ a = ActionNonInviteResend) ->
  client_inv r0 k s tx -> act a (tx, w) = Ok ((tx', w'), n) -> client_inv r0 k s tx' /\ n = None.
Proof.
  intros Ha I Hp. assert (exists d t, resend (with_timerA tx d t) w = Ok (tx', w') /\ n = None) as (d & t & Hr & ->).
  { destruct Ha as [-> | ->]; cbn in Hp; unfold actionInviteResend, actionNonInviteResend, Reset in Hp;
      (destruct (timerA tx); [|done]); cbn in Hp;
      (destruct (resend _ w) as [[tx1 w1]| |] eqn:E; try done); injection Hp as <- <- <-; eauto. }
  split; [|done]. by eapply reset_resend_inv.
Qed.

Lemma terminated_inv k s tx : client_inv r0 k s tx -> client_inv r0 k Terminated (delete tx).
Proof.
  intros I. pose proof (finals_le1 _ _ _ I) as Hf. destruct I as [_ _ _ Hk Ho Hm].
  apply delete_inv; try done. by intros [?|?].
Qed.

Lemma timeout_inv k s tx : client_inv r0 k s tx -> client_inv r0 k Terminated (delete (stop_timerA (timeoutErr tx))).
Proof.
  intros I. pose proof (finals_le1 _ _ _ I) as Hf. destruct I as [_ _ _ Hk Ho Hm].
  apply delete_inv; cbn; [done|..|by intros [?|?]]; unfold put_err; by destruct (closed (common tx)).
Qed.

Lemma transErr_inv k s tx :
  client_inv r0 k s tx -> client_inv r0 k Terminated (delete (stop_timerA (transportErr tx))).
Proof.
  intros I. pose proof (finals_le1 _ _ _ I) as Hf. destruct I as [_ _ _ Hk Ho Hm].
  unfold transportErr. destruct (lastResp (common tx)); apply delete_inv; cbn; try done;
    try (by intros [?|?]); unfold put_err; by destruct (closed (common tx)).
Qed.

Lemma timer_inv k b s tx w i s' tx' w' e :
  i ∈ [InputTimerA; InputTimerB; InputTimerD] ->
  client_inv r0 k s tx -> Spin b (s, (tx, w)) i = Ok ((s', (tx', w')), e) -> client_inv r0 k s' tx'.
Proof.
  intros Hi I Hs. apply (spin_inv takes_done uuid rnd Spin) in Hs.
  destruct Hs as [[_ [= -> -> ->]]|(s1 & a & [tx1 w1] & Ho & Hs)]; [done|].
  assert (Hre : (a = ActionInviteResend \/ a = ActionNonInviteResend) -> s1 = s -> client_inv r0 k s' tx').
  { intros Ha ->. destruct Hs as [(Hp & [= -> -> ->] & _)|(Hp & _ & _)];
      destruct (resend_action_inv _ _ _ _ _ _ _ _ Ha I Hp) as [I' Hn]; done. }
  apply list_elem_of_In in Hi. cbn in Hi. destruct Hi as [<-|[<-|[<-|[]]]];
    destruct b, s; cbn in Ho; try done; injection Ho as <- <-; try (by apply Hre; auto);
    (destruct Hs as [(Hp & [= -> -> ->] & _)|(Hp & [= -> -> ->] & _)]; cbn in Hp; try done; injection Hp as <- <-);
    eauto using terminated_inv, timeout_inv.
Qed.

(** Passing a response up in a state that waits for one. *)
Lemma passUp_waiting k s tx r tx1 :
  client_inv r0 k s tx -> s = Calling \/ s = Proceeding -> lastResp (common tx) = Some r ->
  passUp takes_done tx = Ok tx1 ->
  common tx1 = common tx /\ timerB tx1 = timerB tx
  /\ (finals (responses tx1) <= if IsProvisional r then 0 else 1)%nat.
Proof.
  intros I Hw Hl Hp. destruct (passUp_inv _ _ Hp) as (Hc & Hb & _ & _ & Hr).
  split; [done|]. split; [done|].
  assert (finals (responses tx) = 0%nat) by (pose proof (inv_finals _ _ _ _ I); destruct Hw; subst; lia).
  destruct Hr as [-> |(r' & Hl' & ->)]; [lia|]. rewrite Hl in Hl'. injection Hl' as <-.
  rewrite finals_snoc. lia.
Qed.

Lemma passUp_action_inv k s tx w r tx' w' n :
  client_inv r0 k s tx -> s = Calling \/ s = Proceeding -> lastResp (common tx) = Some r ->
  IsProvisional r = true -> act ActionPassUp (tx, w) = Ok ((tx', w'), n) ->
  client_inv r0 k Proceeding tx' /\ n = None.
Proof.
  intros I Hw Hl Hr Hp. cbn in Hp. destruct (passUp takes_done tx) as [tx1| |] eqn:E; try done.
  injection Hp as <- <- <-. split; [|done].
  destruct (passUp_waiting _ _ _ _ _ I Hw Hl E) as (Hc & Hb & Hf). rewrite Hr in Hf.
  destruct I as [_ _ Ht Hk Ho Hm]. split; cbn; rewrite ?Hc, ?Hb; try done.
  destruct Hw; by subst.
Qed.

Lemma final_action_inv k s tx w r a tx' w' n :
  a = ActionInviteFinal \/ a = ActionNonInviteFinal ->
  client_inv r0 k s tx -> s = Calling \/ s = Proceeding -> lastResp (common tx) = Some r ->
  act a (tx, w) = Ok ((tx', w'), n) -> client_inv r0 k Completed tx' /\ n = None.
Proof.
  intros Ha I Hw Hl Hp.
  assert (exists tx1, passUp takes_done tx = Ok tx1 /\ tx' = start_timerD (stop_timerA tx1) /\ n = None)
    as (tx1 & E & -> & ->).
  { destruct Ha as [-> | ->]; cbn in Hp; (destruct (passUp takes_done tx) as [tx1| |] eqn:E; try done); cbn in Hp.
    - destruct (ack uuid rnd tx1 w) as [[tx2 w2]| |] eqn:Ea; try done. apply ack_inv in Ea as ->.
      injection Hp as <- <- <-. eauto.
    - injection Hp as <- <- <-. eauto. }
  split; [|done]. destruct (passUp_waiting _ _ _ _ _ I Hw Hl E) as (Hc & Hb & Hf).
  destruct I as [_ _ _ Hk Ho Hm]. split; cbn; rewrite ?Hc; try done. destruct (IsProvisional r); lia.
Qed.

Lemma passUpDelete_inv k s tx w r tx' w' n :
  client_inv r0 k s tx -> s = Calling \/ s = Proceeding -> lastResp (common tx) = Some r ->
  act ActionPassUpDelete (tx, w) = Ok ((tx', w'), n) -> client_inv r0 k Terminated (delete tx') /\ n = Some InputDelete.
Proof.
  intros I Hw Hl Hp. cbn in Hp. destruct (passUp takes_done tx) as [tx1| |] eqn:E; try done.
  injection Hp as <- <- <-. split; [|done].
  destruct (passUp_waiting _ _ _ _ _ I Hw Hl E) as (Hc & Hb & Hf).
  destruct I as [_ _ _ Hk Ho Hm]. apply delete_inv; cbn; rewrite ?Hc; try done; [|by intros [?|?]].
  destruct (IsProvisional r); lia.
Qed.

(** A response, filed as the last one and fed to the machine. *)
Lemma response_inv k b s tx w r s' tx' w' e :
  client_inv r0 k s tx ->
  Spin b (s, (with_common tx (set_lastResp (common tx) r), w)) (input_of r) = Ok ((s', (tx', w')), e) ->
  client_inv r0 k s' tx'.
Proof.
  intros I Hs. set (tx0 := with_common tx (set_lastResp (common tx) r)) in *.
  assert (I0 : client_inv r0 k s tx0) by (destruct I; by split).
  assert (Hl : lastResp (common tx0) = Some r) by done. clearbody tx0. clear I tx.
  apply (spin_inv takes_done uuid rnd Spin) in Hs.
  destruct Hs as [[_ [= -> -> ->]]|(s1 & a & [tx1 w1] & Ho & Hs)]; [done|].
  unfold input_of in Ho. destruct (IsProvisional r) eqn:Hr; [|destruct (IsSuccess r)];
    destruct b, s; cbn in Ho; injection Ho as <- <-;
    (destruct Hs as [(Hp & [= -> -> ->] & _)|(Hp & [= -> -> ->] & _)]);
    first
      [ destruct (passUp_action_inv _ _ _ _ _ _ _ _ I0 ltac:(auto) Hl Hr Hp); done
      | destruct (final_action_inv _ _ _ _ _ _ _ _ _ (or_introl eq_refl) I0 ltac:(auto) Hl Hp); done
      | destruct (final_action_inv _ _ _ _ _ _ _ _ _ (or_intror eq_refl) I0 ltac:(auto) Hl Hp); done
      | destruct (passUpDelete_inv _ _ _ _ _ _ _ _ I0 ltac:(auto) Hl Hp); done
      | cbn in Hp; done
      | cbn in Hp; injection Hp as <- <-; done
      | cbn in Hp; destruct (ack uuid rnd tx0 w) as [[tx2 w2]| |] eqn:Ea; try done;
        apply ack_inv in Ea as ->; injection Hp as <- <-; done ].
Qed.

(** A new transaction and its start. *)
Lemma NewClientTx_spec w tx :
  NewClientTx w r0 = Ok tx ->
  exists k rel, MakeClientTxKey (req_msg r0) = Ok k
    /\ tx = mkClientTx (mkCommonTx k r0 None [] None false) [] 0%Z None None 0%Z None rel [].
Proof.
  unfold NewClientTx. destruct (MakeClientTxKey (req_msg r0)) as [k| |]; try done. cbn [mbind res_bind].
  destruct (match headers_ViaHop _ with Some _ => _ | None => _ end) as [rel| |]; try done.
  intros [= <-]. eauto.
Qed.

Lemma Init_inv w tx s tx' w' e :
  NewClientTx w r0 = Ok tx -> Init Spin tx w = Ok ((s, (tx', w')), e) ->
  exists k, MakeClientTxKey (req_msg r0) = Ok k /\ client_inv r0 k s tx'.
Proof.
  intros Hn Hi. apply NewClientTx_spec in Hn as (k & rel & Hk & ->). exists k. split; [done|].
  unfold Init in Hi. cbn [common origin] in Hi.
  destruct (Send w (MRequest r0)) as [[[w1 m] err]| |] eqn:Es; try done. cbn [mbind res_bind] in Hi.
  pose proof (Send_same _ _ _ _ _ Es) as Hm. destruct m as [r1|]; [|done]. cbn in Hm.
  pose proof (same_key _ _ Hm _ Hk) as Hk1. destruct err as [err|].
  - destruct (Spin _ _ _) as [[c e']| |] eqn:E; try done. injection Hi as -> <-.
    apply (spin_inv takes_done uuid rnd Spin) in E.
    destruct E as [[Ho _]|(s1 & a & [tx1 w2] & Ho & E)]; [by destruct (tx_invite _)|].
    assert (a = ActionTransErr) as -> by (destruct (tx_invite _); cbn in Ho; congruence).
    destruct E as [(Hp & _ & _)|(Hp & [= -> -> ->] & _)]; cbn in Hp; [done|].
    injection Hp as <- <-. apply delete_inv; cbn; try done. unfold finals. cbn. lia.
  - injection Hi as <- <- <- _. unfold tx_invite. cbn.
    destruct rel, (IsInvite r1); split; try done; unfold finals; cbn; lia.
Qed.

Inductive reachable : config W -> Prop :=
  | reach_init w tx c e :
      NewClientTx w r0 = Ok tx -> Init Spin tx w = Ok (c, e) -> reachable c
  | reach_receive c msg c' e :
      reachable c -> Receive Spin c msg = Ok (c', e) -> reachable c'
  | reach_timer c i c' e :
      reachable c -> i ∈ [InputTimerA; InputTimerB; InputTimerD] ->
      Spin (tx_invite c.2.1) c i = Ok (c', e) -> reachable c'
  | reach_close c : reachable c -> reachable (Close c).

Lemma client_reachable_inv c :
  reachable c -> exists k, MakeClientTxKey (req_msg r0) = Ok k /\ client_inv r0 k c.1 c.2.1.
Proof.
  induction 1 as [w tx [s [tx' w']] e Hn Hi|[s [tx w]] msg [s' [tx' w']] e _ (k & Hk & IH) Hr
    |[s [tx w]] i [s' [tx' w']] e _ (k & Hk & IH) Hi Hs|[s [tx w]] _ (k & Hk & IH)]; cbn in *.
  - by eapply Init_inv.
  - exists k. split; [done|]. destruct msg as [r|r]; cbn in Hr.
    + destruct (request_String r); try done. by injection Hr as <- <- <- _.
    + by eapply response_inv.
  - exists k. split; [done|]. by eapply timer_inv.
  - exists k. split; [done|]. pose proof (finals_le1 _ _ _ IH) as Hf. destruct IH as [Hf' _ _ Hk' Ho Hm].
    apply delete_inv; try done. intros [-> | ->]; lia.
Qed.

End Invariant.

(** ** Behaviour *)

Lemma input_of_300 r : (300 <= status r)%N -> input_of r = Input300Plus.
Proof.
  intros Hr. unfold input_of, IsProvisional, IsSuccess. rewrite (proj2 (N.ltb_ge _ _)) by lia.
  by rewrite (proj2 (N.ltb_ge (status r) 300)), andb_false_r by lia.
Qed.

Lemma input_of_2xx r : IsSuccess r = true -> input_of r = Input2xx.
Proof.
  intros Hr. unfold input_of, IsProvisional. rewrite Hr. unfold IsSuccess in Hr.
  apply andb_true_iff in Hr as [Hr _]. apply N.leb_le in Hr. by rewrite (proj2 (N.ltb_ge _ _) Hr).
Qed.

Lemma input_of_1xx r : IsProvisional r = true -> input_of r = Input1xx.
Proof. intros Hr. unfold input_of. by rewrite Hr. Qed.

Section Behaviour.
Context {W : Type} `{TransportLayer W}.
Variable takes_done : bool.
Variables uuid rnd : list Message -> string.
#[local] Abbreviation act := (perform takes_done uuid rnd).
Variable Spin : bool -> spin_type ClientState ClientInput (clientTx * W).
Context {Hspin : forall b, FsmSpin (outcomes b) act (Spin b)}.

(** [n] times timer A fires. *)
Fixpoint timerA_fires (n : nat) (c : config W) : res (config W) :=
  match n with
  | O => mret c
  | S n => '(c', _) ← Spin (tx_invite c.2.1) c InputTimerA; timerA_fires n c'
  end.

(** The duration of timer A after [k] retransmissions. *)
Definition timerA_after (invite : bool) (k : nat) : Duration :=
  if invite then (T1 * 2 ^ Z.of_nat k)%Z else Z.min (T1 * 2 ^ Z.of_nat k)%Z T2.

Definition next_timeA (invite : bool) : Duration -> Duration := if invite then double else double_capped.

Lemma next_timeA_after invite k :
  (k < 34)%nat -> next_timeA invite (timerA_after invite k) = timerA_after invite (S k).
Proof. destruct invite; cbn; intros; [by apply double_T1|apply double_capped_T1]. Qed.

Lemma timerA_step tx w d w' r' :
  timerA tx = Some d -> Send w (MRequest (origin (common tx))) = Ok (w', MRequest r', None) ->
  let d' := next_timeA (tx_invite tx) (timeATime tx) in
  Spin (tx_invite tx) (Calling, (tx, w)) InputTimerA
  = Ok ((Calling, (with_common (with_timerA tx d' (Some d'))
                     (set_lastErr (set_origin (common tx) (MRequest r')) None), w')), None).
Proof.
  intros Ht Hs d'. destruct (tx_invite tx) eqn:Ei.
  - apply (spin_stops _ _ _ _ ActionInviteResend); [done|]. cbn. unfold actionInviteResend.
    rewrite Ht. cbn. unfold resend. cbn. by rewrite Hs.
  - apply (spin_stops _ _ _ _ ActionNonInviteResend); [done|]. cbn. unfold actionNonInviteResend.
    rewrite Ht. cbn. unfold resend. cbn. by rewrite Hs.
Qed.

(** A transport that takes the request again and again. *)
Definition keeps_sending (P : W -> Prop) (r0 : request) : Prop :=
  forall w r, P w -> same_request r0 r ->
    exists w' r', Send w (MRequest r) = Ok (w', MRequest r', None) /\ P w'.

Lemma timerA_run P r0 (Hsend : keeps_sending P r0) n k tx w :
  P w -> same_request r0 (origin (common tx)) -> (k + n <= 34)%nat ->
  timeATime tx = timerA_after (IsInvite r0) k -> timerA tx = Some (timeATime tx) ->
  exists tx' w' rs, timerA_fires n (Calling, (tx, w)) = Ok (Calling, (tx', w'))
    /\ sent w' = sent w ++ map MRequest rs /\ length rs = n /\ Forall (same_request r0) rs
    /\ timerA tx' = Some (timerA_after (IsInvite r0) (k + n)) /\ responses tx' = responses tx
    /\ closed (common tx') = closed (common tx).
Proof.
  revert k tx w. induction n as [|n IH]; intros k tx w HP Ho Hk Hd Ht.
  { exists tx, w, []. rewrite app_nil_r, Nat.add_0_r. cbn. rewrite Ht, Hd. by repeat split. }
  destruct (Hsend w _ HP Ho) as (w1 & r1 & Hs & HP1).
  pose proof (Send_same _ _ _ _ _ Hs) as Hm. cbn in Hm.
  cbn [timerA_fires fst snd]. rewrite (timerA_step tx w _ w1 r1 Ht Hs). cbn [mbind res_bind].
  assert (Hi : tx_invite tx = IsInvite r0) by (unfold tx_invite, IsInvite; by rewrite (same_method _ _ Ho)).
  rewrite Hi, Hd, next_timeA_after by lia.
  edestruct (IH (S k)) as (tx' & w' & rs & -> & Hse & Hl & Hall & Hta & Hr & Hc);
    [exact HP1|etrans; [exact Ho|exact Hm]|lia|reflexivity|reflexivity|].
  exists tx', w', (r1 :: rs). split; [done|]. rewrite Hse, (Send_logs _ _ _ _ _ Hs), <- app_assoc.
  split; [done|]. split; [cbn; lia|]. split; [constructor; [etrans; [exact Ho|exact Hm]|done]|].
  rewrite Hta, Hr, Hc. by replace (k + S n)%nat with (S k + n)%nat by lia.
Qed.

Lemma passUp_open tx r :
  closed (common tx) = false ->
  passUp takes_done (with_common tx (set_lastResp (common tx) r))
  = Ok (mkClientTx (set_lastResp (common tx) r) (responses tx ++ [r]) (timeATime tx) (timerA tx) (timerB tx)
          (timeDTime tx) (timerD tx) (reliable tx) (loose tx)).
Proof. intros Hc. unfold passUp. cbn. by rewrite Hc. Qed.

Lemma ack_sends tx w r a w' a' :
  lastResp (common tx) = Some r -> CreateAck (uuid (sent w)) (rnd (sent w)) r = Ok a ->
  Send w (MRequest a) = Ok (w', a', None) -> ack uuid rnd tx w = Ok (tx, w').
Proof. intros Hl Ha Hs. unfold ack. rewrite Hl. cbn. rewrite Ha. cbn. by rewrite Hs. Qed.

(** The transaction when an INVITE has got its final response. *)
Definition invite_done (tx : clientTx) (r : response) : clientTx :=
  mkClientTx (set_closed (set_lastResp (common tx) r)) (responses tx ++ [r]) (timeATime tx) None None
    (timeDTime tx) None (reliable tx) (loose tx ++ option_list (timerA tx)).
Definition invite_failed (tx : clientTx) (r : response) : clientTx :=
  mkClientTx (set_lastResp (common tx) r) (responses tx ++ [r]) (timeATime tx) None (timerB tx)
    (timeDTime tx) (Some (timeDTime tx)) (reliable tx) (loose tx).

Lemma Receive_invite_2xx s tx w r :
  s = Calling \/ s = Proceeding -> tx_invite tx = true -> closed (common tx) = false -> IsSuccess r = true ->
  Receive Spin (s, (tx, w)) (MResponse r) = Ok ((Terminated, (invite_done tx r, w)), None).
Proof.
  intros Hs Hi Hc Hr. cbn. rewrite Hi.
  rewrite input_of_2xx by done. rewrite (spin_deletes takes_done uuid rnd Spin true s _ Input2xx Terminated ActionPassUpDelete
    (forget_timerA (mkClientTx (set_lastResp (common tx) r) (responses tx ++ [r]) (timeATime tx) (timerA tx) (timerB tx)
          (timeDTime tx) (timerD tx) (reliable tx) (loose tx))) w).
  - unfold delete. cbn. by rewrite Hc.
  - by destruct Hs as [-> | ->].
  - cbn [perform]. by rewrite passUp_open.
Qed.

Lemma Receive_invite_300 s tx w r a w' a' :
  s = Calling \/ s = Proceeding -> tx_invite tx = true -> closed (common tx) = false -> (300 <= status r)%N ->
  CreateAck (uuid (sent w)) (rnd (sent w)) r = Ok a -> Send w (MRequest a) = Ok (w', a', None) ->
  Receive Spin (s, (tx, w)) (MResponse r) = Ok ((Completed, (invite_failed tx r, w')), None).
Proof.
  intros Hs Hi Hc Hr Ha Hsend. cbn. rewrite Hi.
  rewrite input_of_300 by done. apply (spin_stops _ _ _ _ ActionInviteFinal); [by destruct Hs as [-> | ->]|].
  cbn [perform]. rewrite passUp_open by done. cbn [mbind res_bind].
  by rewrite (ack_sends _ w r a w' a') by done.
Qed.

Lemma Receive_invite_300_again tx w r a w' a' :
  tx_invite tx = true -> (300 <= status r)%N ->
  CreateAck (uuid (sent w)) (rnd (sent w)) r = Ok a -> Send w (MRequest a) = Ok (w', a', None) ->
  Receive Spin (Completed, (tx, w)) (MResponse r)
  = Ok ((Completed, (with_common tx (set_lastResp (common tx) r), w')), None).
Proof.
  intros Hi Hr Ha Hsend. cbn. rewrite Hi.
  rewrite input_of_300 by done. apply (spin_stops _ _ _ _ ActionAck); [done|].
  cbn [perform]. by rewrite (ack_sends _ w r a w' a') by done.
Qed.

Lemma Init_failure r0 tx w w1 m e :
  NewClientTx w r0 = Ok tx -> Send w (MRequest r0) = Ok (w1, m, Some e) ->
  exists tx', Init Spin tx w = Ok ((Terminated, (tx', w1)), Some e)
    /\ closed (common tx') = true /\ errs (common tx') = [] /\ responses tx' = []
    /\ key (common tx') = key (common tx).
Proof.
  intros Hn Hs. apply NewClientTx_spec in Hn as (k & rel & _ & ->). unfold Init. cbn [common origin].
  rewrite Hs. cbn [mbind res_bind].
  rewrite (spin_deletes takes_done uuid rnd Spin _ _ _ _ Terminated ActionTransErr
    (stop_timerA (mkClientTx (set_lastErr (set_origin (mkCommonTx k r0 None [] None false) m) (Some e))
       [] 0%Z None None 0%Z None rel [])) w1); [|by destruct (tx_invite _)|done].
  eexists. split; [reflexivity|]. by destruct m.
Qed.

Lemma Init_unreliable k r0 w w1 r1 :
  Send w (MRequest r0) = Ok (w1, MRequest r1, None) ->
  Init Spin (mkClientTx (mkCommonTx k r0 None [] None false) [] 0%Z None None 0%Z None false []) w
  = Ok ((Calling, (mkClientTx (mkCommonTx k r1 None [] None false) [] T1 (Some T1) (Some TimeB)
                     (if IsInvite r1 then TimeD else TimeK) None false [], w1)), None).
Proof.
  intros Hs. unfold Init. cbn [common origin]. rewrite Hs. cbn. unfold tx_invite. cbn.
  by destruct (IsInvite r1).
Qed.

End Behaviour.

(** *** A machine and a transaction to evaluate *)

Definition run_spin (b : bool) : spin_type ClientState ClientInput (clientTx * list Message) :=
  spin_run (outcomes b) (perform true (fun _ => "uuid") (fun _ => "rnd")) 2.

#[export] Instance run_spin_laws b :
  FsmSpin (outcomes b) (perform true (fun _ => "uuid") (fun _ => "rnd")) (run_spin b).
Proof. apply client_spin_exists. Qed.

Definition sample_client (method : string) : clientTx :=
  mkClientTx (mkCommonTx ("z9hG4bKabc__" +:+ method) (outgoing method "") None [] None false)
    [] 0%Z None None 0%Z None false [].

(** ** The properties *)

(** C20: retransmission (RFC 3261, 17.1.1.2 and 17.1.2.2): on an unreliable transport that
    takes the request, [Init] sends it, and each firing of timer A in the first state
    sends it once more; after [k] firings, [k + 1] copies are out, all with the same
    method, body and key, and the same headers but for what the transport layer writes
    into the top Via hop and the Contact of an INVITE that lacks one; nothing was passed
    up, and timer A is armed with T1 doubled [k] times, for a request other than INVITE
    with T2 at most.  The 64-bit durations do not overflow before the 34th doubling. *)
Theorem client_retransmits {W : Type} `{TransportLayer W} (takes_done : bool)
    (uuid rnd : list Message -> string) (Spin : bool -> spin_type ClientState ClientInput (clientTx * W))
    (Hspin : forall b, FsmSpin (outcomes b) (perform takes_done uuid rnd) (Spin b))
    (P : W -> Prop) (r0 : request) (tx : clientTx) (w : W) (k : nat) :
  keeps_sending P r0 -> P w -> NewClientTx w r0 = Ok tx -> reliable tx = false -> (k <= 34)%nat ->
  exists c0 tx' w' rs, Init Spin tx w = Ok (c0, None)
    /\ timerA_fires Spin k c0 = Ok (Calling, (tx', w'))
    /\ sent w' = sent w ++ map MRequest rs /\ length rs = S k /\ Forall (same_request r0) rs
    /\ timerA tx' = Some (timerA_after (IsInvite r0) k) /\ responses tx' = [].
Proof.
  intros Hsend HP Hn Hrel Hk. apply NewClientTx_spec in Hn as (key & rel & _ & ->). cbn in Hrel. subst rel.
  destruct (Hsend w r0 HP ltac:(reflexivity)) as (w1 & r1 & Hs & HP1).
  pose proof (Send_same _ _ _ _ _ Hs) as Hm. cbn in Hm.
  rewrite (Init_unreliable Spin key r0 w w1 r1 Hs).
  set (tx1 := mkClientTx _ _ _ _ _ _ _ _ _).
  destruct (timerA_run takes_done uuid rnd Spin P r0 Hsend k 0 tx1 w1)
    as (tx' & w' & rs & Hf & Hse & Hl & Ha & Ht & Hr & _); try done; [by destruct (IsInvite r0)|].
  exists (Calling, (tx1, w1)), tx', w', (r1 :: rs). split; [done|]. split; [exact Hf|].
  split; [by rewrite Hse, (Send_logs _ _ _ _ _ Hs), <- app_assoc|]. split; [cbn; lia|].
  split; [by constructor|done].
Qed.

Lemma client_retransmits_witness :
  exists c0 tx' w' rs, Init run_spin (sample_client "INVITE") [] = Ok (c0, None)
    /\ timerA_fires run_spin 3 c0 = Ok (Calling, (tx', w'))
    /\ w' = map MRequest rs /\ length rs = 4%nat /\ timerA tx' = Some (4 * Second)%Z.
Proof.
  destruct (client_retransmits true (fun _ => "uuid") (fun _ => "rnd") run_spin run_spin_laws (fun _ => True)
    (outgoing "INVITE" "") (sample_client "INVITE") [] 3) as (c0 & tx' & w' & rs & H1 & H2 & H3 & H4 & _ & H5 & _).
  - intros w r _ _. exists (w ++ [MRequest r]), r. split; [reflexivity|exact I].
  - exact I.
  - vm_compute. reflexivity.
  - reflexivity.
  - lia.
  - exists c0, tx', w', rs. split; [exact H1|]. split; [exact H2|]. split; [exact H3|]. split; [exact H4|exact H5].
Defined.

(** C19: RFC 3261, 17.1.1.2: an open INVITE transaction that waits for a final response
    passes a 2xx up and is closed, without sending anything: timers B and D are stopped;
    timer A is not, its field is only set to nil, and when it still fires the terminated
    transaction ignores it.  A response from 300 on is passed up, acknowledged, stops
    timer A and starts timer D; when the same response arrives again only the ACK is
    repeated. *)
Theorem client_invite_final {W : Type} `{TransportLayer W} (takes_done : bool)
    (uuid rnd : list Message -> string) (Spin : bool -> spin_type ClientState ClientInput (clientTx * W))
    (Hspin : forall b, FsmSpin (outcomes b) (perform takes_done uuid rnd) (Spin b))
    (s : ClientState) (tx : clientTx) (w : W) (r : response) :
  s = Calling \/ s = Proceeding -> IsInvite (origin (common tx)) = true -> closed (common tx) = false ->
  (IsSuccess r = true ->
     exists tx', Receive Spin (s, (tx, w)) (MResponse r) = Ok ((Terminated, (tx', w)), None)
       /\ responses tx' = responses tx ++ [r] /\ closed (common tx') = true
       /\ timerA tx' = None /\ timerB tx' = None /\ timerD tx' = None
       /\ loose tx' = loose tx ++ option_list (timerA tx)
       /\ Spin true (Terminated, (tx', w)) InputTimerA = Ok ((Terminated, (tx', w)), None))
  /\ (forall a1 a1' w1 a2 a2' w2, (300 <= status r)%N ->
     CreateAck (uuid (sent w)) (rnd (sent w)) r = Ok a1 -> Send w (MRequest a1) = Ok (w1, a1', None) ->
     CreateAck (uuid (sent w1)) (rnd (sent w1)) r = Ok a2 -> Send w1 (MRequest a2) = Ok (w2, a2', None) ->
     exists tx1 tx2,
       Receive Spin (s, (tx, w)) (MResponse r) = Ok ((Completed, (tx1, w1)), None)
       /\ Receive Spin (Completed, (tx1, w1)) (MResponse r) = Ok ((Completed, (tx2, w2)), None)
       /\ responses tx1 = responses tx ++ [r] /\ responses tx2 = responses tx1
       /\ timerA tx1 = None /\ loose tx1 = loose tx /\ timerD tx1 = Some (timeDTime tx) /\ timerD tx2 = timerD tx1
       /\ sent w2 = sent w ++ [a1'; a2']).
Proof.
  intros Hs Hi Hc. split.
  - intros Hr. exists (invite_done tx r).
    split; [exact (Receive_invite_2xx takes_done uuid rnd Spin s tx w r Hs Hi Hc Hr)|].
    do 6 (split; [done|]). by apply (spin_stops _ _ _ _ NO_ACTION).
  - intros a1 a1' w1 a2 a2' w2 Hr Ha1 Hs1 Ha2 Hs2.
    exists (invite_failed tx r), (with_common (invite_failed tx r) (set_lastResp (common (invite_failed tx r)) r)).
    split; [exact (Receive_invite_300 takes_done uuid rnd Spin s tx w r a1 w1 a1' Hs Hi Hc Hr Ha1 Hs1)|].
    split; [exact (Receive_invite_300_again takes_done uuid rnd Spin (invite_failed tx r) w1 r a2 w2 a2' Hi Hr Ha2 Hs2)|].
    do 6 (split; [done|]). by rewrite (Send_logs _ _ _ _ _ Hs2), (Send_logs _ _ _ _ _ Hs1), <- app_assoc.
Qed.

(** A response to the sample request. *)
Definition sample_reply (code : StatusCode) : response :=
  mkResponse (keyed_message "INVITE" "z9hG4bKabc") code (StatusText code) [].

Definition ack_of (w : list Message) (r : response) : request :=
  match CreateAck "uuid" "rnd" r with Ok a => a | _ => outgoing "" "" end.

Lemma client_invite_final_witness :
  exists tx1 tx2, Receive run_spin (Calling, (sample_client "INVITE", [])) (MResponse (sample_reply 486%N))
      = Ok ((Completed, (tx1, [MRequest (ack_of [] (sample_reply 486%N))])), None)
    /\ Receive run_spin (Completed, (tx1, [MRequest (ack_of [] (sample_reply 486%N))])) (MResponse (sample_reply 486%N))
      = Ok ((Completed, (tx2, [MRequest (ack_of [] (sample_reply 486%N)); MRequest (ack_of [] (sample_reply 486%N))])), None)
    /\ responses tx2 = [sample_reply 486%N].
Proof.
  destruct (proj2 (client_invite_final true (fun _ => "uuid") (fun _ => "rnd") run_spin run_spin_laws Calling
    (sample_client "INVITE") [] (sample_reply 486%N) (or_introl eq_refl) eq_refl eq_refl)
    (ack_of [] (sample_reply 486%N)) (MRequest (ack_of [] (sample_reply 486%N)))
    [MRequest (ack_of [] (sample_reply 486%N))]
    (ack_of [] (sample_reply 486%N)) (MRequest (ack_of [] (sample_reply 486%N)))
    [MRequest (ack_of [] (sample_reply 486%N)); MRequest (ack_of [] (sample_reply 486%N))])
    as (tx1 & tx2 & H1 & H2 & H3 & H4 & _); [cbn; lia|vm_compute; reflexivity|reflexivity|vm_compute; reflexivity|reflexivity|].
  exists tx1, tx2. split; [exact H1|]. split; [exact H2|]. rewrite H4, H3. reflexivity.
Defined.

(** in every reachable state of a client transaction, whatever responses and timers
    come in whatever order: at most one final response has been passed up, and none while
    the machine still waits for one; a terminated transaction is closed; an open one has
    the timer armed that ends it (B before a final response, D after it); and its key is
    the key of the request it was created for, which sending has not changed otherwise. *)
Theorem client_invariant {W : Type} `{TransportLayer W} (takes_done : bool)
    (uuid rnd : list Message -> string) (Spin : bool -> spin_type ClientState ClientInput (clientTx * W))
    (Hspin : forall b, FsmSpin (outcomes b) (perform takes_done uuid rnd) (Spin b))
    (r0 : request) (s : ClientState) (tx : clientTx) (w : W) :
  reachable Spin r0 (s, (tx, w)) ->
  (finals (responses tx) <= match s with Calling | Proceeding => 0 | _ => 1 end)%nat
  /\ (s = Terminated -> closed (common tx) = true)
  /\ (closed (common tx) = false ->
      match s with
      | Calling | Proceeding => timerB tx = Some TimeB
      | Completed => timerD tx = Some (timeDTime tx)
      | Terminated => True
      end)
  /\ MakeClientTxKey (req_msg r0) = Ok (key (common tx)) /\ same_request r0 (origin (common tx)).
Proof.
  intros Hr. apply (client_reachable_inv takes_done uuid rnd Spin) in Hr as (k & Hk & [Hf Hc Ht Hkey Ho _]).
  cbn in *. subst k. do 4 (split; [done|]). done.
Qed.

Definition config_of {A} (d : A) (r : res (A * option string)) : A :=
  match r with Ok (c, _) => c | _ => d end.

Lemma client_invariant_witness :
  exists c, reachable run_spin (outgoing "INVITE" "") c /\ c.1 = Completed
    /\ (finals (responses c.2.1) <= 1)%nat /\ timerD c.2.1 = Some (timeDTime c.2.1).
Proof.
  set (c0 := config_of (Calling, (sample_client "INVITE", [])) (Init run_spin (sample_client "INVITE") [])).
  set (c1 := config_of c0 (Receive run_spin c0 (MResponse (sample_reply 486%N)))).
  assert (Hr : reachable run_spin (outgoing "INVITE" "") c1).
  { apply (reach_receive run_spin (outgoing "INVITE" "") c0 (MResponse (sample_reply 486%N)) c1 None);
      [|vm_compute; reflexivity].
    apply (reach_init run_spin (outgoing "INVITE" "") [] (sample_client "INVITE") c0 None);
      vm_compute; reflexivity. }
  assert (Hs : c1.1 = Completed) by (vm_compute; reflexivity).
  assert (Hc : closed (common c1.2.1) = false) by (vm_compute; reflexivity).
  clearbody c1. destruct c1 as [s [tx w]]. cbn in Hs, Hc. subst s. exists (Completed, (tx, w)).
  destruct (client_invariant true (fun _ => "uuid") (fun _ => "rnd") run_spin run_spin_laws
    (outgoing "INVITE" "") Completed tx w Hr) as (H1 & _ & H2 & _).
  split; [exact Hr|]. split; [reflexivity|]. split; [exact H1|exact (H2 Hc)].
Defined.

(** a transaction whose first send fails is terminated and closed, and the caller gets
    the error; the error channel stays empty, because the report formats a response that
    does not exist yet and the resulting panic is swallowed. *)
Theorem client_send_failure {W : Type} `{TransportLayer W} (takes_done : bool)
    (uuid rnd : list Message -> string) (Spin : bool -> spin_type ClientState ClientInput (clientTx * W))
    (Hspin : forall b, FsmSpin (outcomes b) (perform takes_done uuid rnd) (Spin b))
    (r0 : request) (tx : clientTx) (w w1 : W) (m : Message) (e : string) :
  NewClientTx w r0 = Ok tx -> Send w (MRequest r0) = Ok (w1, m, Some e) ->
  exists tx', Init Spin tx w = Ok ((Terminated, (tx', w1)), Some e)
    /\ closed (common tx') = true /\ errs (common tx') = [] /\ responses tx' = [].
Proof.
  intros Hn Hs. destruct (Init_failure takes_done uuid rnd Spin r0 tx w w1 m e Hn Hs) as (tx' & ? & ? & ? & ? & _).
  by exists tx'.
Qed.

(** A transport that refuses everything. *)
Definition refuse (w : list Message) (m : Message) : res (list Message * Message * option string) :=
  Ok (w, m, Some "refused").

Lemma refuse_same w m w' m' e : refuse w m = Ok (w', m', e) -> same_message m m'.
Proof. intros [= <- <- <-]. destruct m; cbn; reflexivity. Qed.

Lemma refuse_logs w m w' m' e :
  refuse w m = Ok (w', m', e) -> w' = w ++ match e with None => [m'] | Some _ => [] end.
Proof. intros [= <- <- <-]. by rewrite app_nil_r. Qed.

Definition refuser : TransportLayer (list Message) := {|
  Send := refuse; IsReliable w network := Ok false; sent w := w;
  Send_same := refuse_same; Send_logs := refuse_logs
|}.

Lemma client_send_failure_witness :
  exists tx', Init (H := refuser) (fun b => spin_run (outcomes b) (perform (H := refuser) true (fun _ => "u") (fun _ => "r")) 2)
      (sample_client "INVITE") [] = Ok ((Terminated, (tx', [])), Some "refused")
    /\ errs (common tx') = [].
Proof.
  destruct (client_send_failure (H := refuser) true (fun _ => "u") (fun _ => "r")
    (fun b => spin_run (outcomes b) (perform (H := refuser) true (fun _ => "u") (fun _ => "r")) 2)
    (fun b => client_spin_exists (H := refuser) true (fun _ => "u") (fun _ => "r") b)
    (outgoing "INVITE" "") (sample_client "INVITE") [] [] (MRequest (outgoing "INVITE" "")) "refused")
    as (tx' & H1 & _ & H2 & _); [vm_compute; reflexivity|reflexivity|].
  exists tx'. split; [exact H1|exact H2].
Defined.

(** after a provisional response, a request other than INVITE is not retransmitted any
    more, although the table has an outcome for it: timer A was set to nil, and a firing
    that was already under way dereferences it. *)
Theorem nonInvite_timerA_after_1xx {W : Type} `{TransportLayer W} (takes_done : bool)
    (uuid rnd : list Message -> string) (Spin : bool -> spin_type ClientState ClientInput (clientTx * W))
    (Hspin : forall b, FsmSpin (outcomes b) (perform takes_done uuid rnd) (Spin b))
    (s : ClientState) (tx : clientTx) (w : W) (r : response) :
  s = Calling \/ s = Proceeding -> IsInvite (origin (common tx)) = false -> closed (common tx) = false ->
  IsProvisional r = true ->
  exists tx', Receive Spin (s, (tx, w)) (MResponse r) = Ok ((Proceeding, (tx', w)), None)
    /\ timerA tx' = None /\ Spin false (Proceeding, (tx', w)) InputTimerA = Panic NilDereference.
Proof.
  intros Hs Hi Hc Hr. cbn. unfold tx_invite. rewrite Hi, input_of_1xx by done.
  eexists. split; [|split; [|]].
  - apply (spin_stops _ _ _ _ ActionPassUp); [by destruct Hs as [-> | ->]|].
    cbn [perform]. by rewrite passUp_open.
  - done.
  - apply (spin_panics _ _ _ Proceeding ActionNonInviteResend); done.
Qed.

Lemma nonInvite_timerA_after_1xx_witness :
  exists tx', Receive run_spin (Calling, (sample_client "MESSAGE", [])) (MResponse (sample_reply 100%N))
      = Ok ((Proceeding, (tx', [])), None)
    /\ run_spin false (Proceeding, (tx', [])) InputTimerA = Panic NilDereference.
Proof.
  destruct (nonInvite_timerA_after_1xx true (fun _ => "uuid") (fun _ => "rnd") run_spin run_spin_laws Calling
    (sample_client "MESSAGE") [] (sample_reply 100%N) (or_introl eq_refl) eq_refl eq_refl eq_refl)
    as (tx' & H1 & _ & H2).
  exists tx'. split; [exact H1|exact H2].
Defined.
