(* ===== verification/ServerTx.v ===== *)
(** * Server transactions (transaction/server_tx.go)

    The two state tables, the action methods and the operations of a server
    transaction.  The state machine package is the parameter [Spin] with the laws of
    [FsmSpin].  The consumers of the channels read what is put on them. *)

From S2P Require Import Prelude GoStrings Params Base Uri Header Headers Auth HeaderParse.
From S2P Require Import Message TxKey Transport Fsm TxCommon.
From Stdlib Require Import NArith ZArith Lia.

#[local] Open Scope string_scope.
#[local] Open Scope list_scope.

(** ** States, inputs, actions *)

Inductive ServerState : Set := Trying | Proceeding | Completed | Confirmed | Terminated.

Inductive ServerInput : Set :=
  | InputRequest | InputAck | InputCancel | InputUser1xx | InputUser2xx | InputUser300Plus
  | InputTimerG | InputTimerH | InputTimerI | InputTimerJ | InputTransportErr | InputDelete.

Inductive ServerAction : Set :=
  | NO_ACTION | ActionRespond | ActionRespondComplete | ActionFinal | ActionTransErr
  | ActionDelete | ActionRespondDelete | ActionConfirm | ActionCancel | ActionCancelNotExist.

#[export] Instance ServerState_eq_dec : EqDecision ServerState.
Proof. solve_decision. Defined.
#[export] Instance ServerInput_eq_dec : EqDecision ServerInput.
Proof. solve_decision. Defined.

#[export] Instance ServerAction_eq_dec : EqDecision ServerAction.
Proof. solve_decision. Defined.

(** ** The tables *)

Definition inviteFSM (s : ServerState) (i : ServerInput) : option (ServerState * ServerAction) :=
  match s, i with
  | Proceeding, InputRequest => Some (Proceeding, ActionRespond)
  | Proceeding, InputCancel => Some (Proceeding, ActionCancel)
  | Proceeding, InputUser1xx => Some (Proceeding, ActionRespond)
  | Proceeding, InputUser2xx => Some (Terminated, ActionRespondDelete)
  | Proceeding, InputUser300Plus => Some (Completed, ActionRespondComplete)
  | Proceeding, InputTransportErr => Some (Terminated, ActionTransErr)
  | Completed, InputRequest => Some (Completed, ActionRespond)
  | Completed, InputAck => Some (Confirmed, ActionConfirm)
  | Completed, InputCancel => Some (Completed, ActionCancelNotExist)
  | Completed, InputUser1xx => Some (Completed, NO_ACTION)
  | Completed, InputUser2xx => Some (Completed, NO_ACTION)
  | Completed, InputUser300Plus => Some (Completed, NO_ACTION)
  | Completed, InputTimerG => Some (Completed, ActionRespondComplete)
  | Completed, InputTimerH => Some (Terminated, ActionDelete)
  | Completed, InputTransportErr => Some (Terminated, ActionTransErr)
  | Confirmed, InputRequest => Some (Confirmed, NO_ACTION)
  | Confirmed, InputAck => Some (Terminated, NO_ACTION)
  | Confirmed, InputCancel => Some (Confirmed, ActionCancelNotExist)
  | Confirmed, InputUser1xx => Some (Confirmed, NO_ACTION)
  | Confirmed, InputUser2xx => Some (Confirmed, NO_ACTION)
  | Confirmed, InputUser300Plus => Some (Confirmed, NO_ACTION)
  | Confirmed, InputTimerI => Some (Terminated, ActionDelete)
  | Confirmed, InputTimerG => Some (Confirmed, NO_ACTION)
  | Confirmed, InputTimerH => Some (Confirmed, NO_ACTION)
  | Terminated, InputRequest => Some (Terminated, NO_ACTION)
  | Terminated, InputAck => Some (Terminated, NO_ACTION)
  | Terminated, InputCancel => Some (Terminated, NO_ACTION)
  | Terminated, InputUser1xx => Some (Terminated, NO_ACTION)
  | Terminated, InputUser2xx => Some (Terminated, NO_ACTION)
  | Terminated, InputUser300Plus => Some (Terminated, NO_ACTION)
  | Terminated, InputDelete => Some (Terminated, ActionDelete)
  | _, _ => None
  end.

(** A CANCEL leads to [Confirmed], for which this table defines no outcome. *)
Definition nonInviteFSM (s : ServerState) (i : ServerInput) : option (ServerState * ServerAction) :=
  match s, i with
  | Trying, InputRequest => Some (Trying, NO_ACTION)
  | Trying, InputCancel => Some (Confirmed, NO_ACTION)
  | Trying, InputUser1xx => Some (Proceeding, ActionRespond)
  | Trying, InputUser2xx => Some (Completed, ActionFinal)
  | Trying, InputUser300Plus => Some (Completed, ActionFinal)
  | Proceeding, InputRequest => Some (Proceeding, ActionRespond)
  | Proceeding, InputCancel => Some (Confirmed, NO_ACTION)
  | Proceeding, InputUser1xx => Some (Proceeding, ActionRespond)
  | Proceeding, InputUser2xx => Some (Completed, ActionFinal)
  | Proceeding, InputUser300Plus => Some (Completed, ActionFinal)
  | Proceeding, InputTransportErr => Some (Terminated, ActionTransErr)
  | Completed, InputRequest => Some (Completed, ActionRespond)
  | Completed, InputCancel => Some (Confirmed, NO_ACTION)
  | Completed, InputUser1xx => Some (Completed, NO_ACTION)
  | Completed, InputUser2xx => Some (Completed, NO_ACTION)
  | Completed, InputUser300Plus => Some (Completed, NO_ACTION)
  | Completed, InputTimerJ => Some (Terminated, ActionDelete)
  | Completed, InputTransportErr => Some (Terminated, ActionTransErr)
  | Terminated, InputRequest => Some (Terminated, NO_ACTION)
  | Terminated, InputCancel => Some (Confirmed, NO_ACTION)
  | Terminated, InputUser1xx => Some (Terminated, NO_ACTION)
  | Terminated, InputUser2xx => Some (Terminated, NO_ACTION)
  | Terminated, InputUser300Plus => Some (Terminated, NO_ACTION)
  | Terminated, InputTimerJ => Some (Terminated, NO_ACTION)
  | Terminated, InputDelete => Some (Terminated, ActionDelete)
  | _, _ => None
  end.

Definition outcomes (invite : bool) : ServerState -> ServerInput -> option (ServerState * ServerAction) :=
  if invite then inviteFSM else nonInviteFSM.

(** [Define] starts the machine in the first state of its table. *)
Definition first_state (invite : bool) : ServerState := if invite then Proceeding else Trying.

(** ** The transaction *)

Record serverTx := mkServerTx {
  common : commonTx;
  lastAck : option request;
  lastCancel : option request;
  requests : list request;
  timerG : timer;
  timeGTime : Duration;
  timerH : timer;
  timerI : timer;
  timeITime : Duration;
  timerJ : timer;
  timer1xx : timer;
  reliable : bool
}.

Definition with_common (tx : serverTx) (c : commonTx) : serverTx :=
  mkServerTx c (lastAck tx) (lastCancel tx) (requests tx) (timerG tx) (timeGTime tx) (timerH tx) (timerI tx)
    (timeITime tx) (timerJ tx) (timer1xx tx) (reliable tx).
Definition with_lastAck (tx : serverTx) (r : request) : serverTx :=
  mkServerTx (common tx) (Some r) (lastCancel tx) (requests tx) (timerG tx) (timeGTime tx) (timerH tx)
    (timerI tx) (timeITime tx) (timerJ tx) (timer1xx tx) (reliable tx).
Definition with_lastCancel (tx : serverTx) (r : request) : serverTx :=
  mkServerTx (common tx) (lastAck tx) (Some r) (requests tx) (timerG tx) (timeGTime tx) (timerH tx)
    (timerI tx) (timeITime tx) (timerJ tx) (timer1xx tx) (reliable tx).
Definition with_timerG (tx : serverTx) (t : timer) (d : Duration) : serverTx :=
  mkServerTx (common tx) (lastAck tx) (lastCancel tx) (requests tx) t d (timerH tx) (timerI tx)
    (timeITime tx) (timerJ tx) (timer1xx tx) (reliable tx).
Definition with_timerH (tx : serverTx) (t : timer) : serverTx :=
  mkServerTx (common tx) (lastAck tx) (lastCancel tx) (requests tx) (timerG tx) (timeGTime tx) t (timerI tx)
    (timeITime tx) (timerJ tx) (timer1xx tx) (reliable tx).
Definition with_timerI (tx : serverTx) (t : timer) (d : Duration) : serverTx :=
  mkServerTx (common tx) (lastAck tx) (lastCancel tx) (requests tx) (timerG tx) (timeGTime tx) (timerH tx) t
    d (timerJ tx) (timer1xx tx) (reliable tx).
Definition with_timerJ (tx : serverTx) (t : timer) : serverTx :=
  mkServerTx (common tx) (lastAck tx) (lastCancel tx) (requests tx) (timerG tx) (timeGTime tx) (timerH tx)
    (timerI tx) (timeITime tx) t (timer1xx tx) (reliable tx).
Definition with_timer1xx (tx : serverTx) (t : timer) : serverTx :=
  mkServerTx (common tx) (lastAck tx) (lastCancel tx) (requests tx) (timerG tx) (timeGTime tx) (timerH tx)
    (timerI tx) (timeITime tx) (timerJ tx) t (reliable tx).
Definition push_request (tx : serverTx) (r : request) : serverTx :=
  mkServerTx (common tx) (lastAck tx) (lastCancel tx) (requests tx ++ [r]) (timerG tx) (timeGTime tx)
    (timerH tx) (timerI tx) (timeITime tx) (timerJ tx) (timer1xx tx) (reliable tx).

Section ServerTx.
Context {W : Type} `{TransportLayer W}.

(** Which case a [select] takes when [done] and the other channel are both closed. *)
Variable takes_done : bool.
(** The identifiers and random texts drawn, as functions of what was sent before. *)
Variables uuid rnd : list Message -> string.

Definition NewServerTx (w : W) (origin : request) : res serverTx :=
  k ← MakeServerTxKey (req_msg origin);
  rel ← match headers_ViaHop (msg_headers (req_msg origin)) with
        | Some viaHop => IsReliable w (Header.Transport viaHop)
        | None => mret false
        end;
  mret (mkServerTx (mkCommonTx k origin None [] None false) None None [] None 0%Z None None 0%Z None None rel).

(** *** Actions *)

(** The next input of an action that sends. *)
Definition after_send (err : option string) : option ServerInput :=
  match err with Some _ => Some InputTransportErr | None => None end.

(** The last response is sent and the outcome stored; nothing happens without one. *)
Definition send_last (tx : serverTx) (w : W) : res (option (serverTx * W * option string)) :=
  match lastResp (common tx) with
  | None => mret None
  | Some r =>
      '(w', _, err) ← Send w (MResponse r);
      mret (Some (with_common tx (set_lastErr (common tx) err), w', err))
  end.

Definition actionRespond (tx : serverTx) (w : W) : res ((serverTx * W) * option ServerInput) :=
  s ← send_last tx w;
  match s with
  | None => mret ((tx, w), None)
  | Some (tx, w, err) => mret ((tx, w), after_send err)
  end.

(** Timer G is armed or reset, doubled up to T2. *)
Definition start_timerG (tx : serverTx) : serverTx :=
  match timerG tx with
  | None => with_timerG tx (Some (timeGTime tx)) (timeGTime tx)
  | Some _ => let d := double_capped (timeGTime tx) in with_timerG tx (Some d) d
  end.

Definition start_timerH (tx : serverTx) : serverTx :=
  match timerH tx with None => with_timerH tx (Some TimeH) | Some _ => tx end.

Definition actionRespondComplete (tx : serverTx) (w : W) : res ((serverTx * W) * option ServerInput) :=
  s ← send_last tx w;
  match s with
  | None => mret ((tx, w), None)
  | Some (tx, w, Some _) => mret ((tx, w), Some InputTransportErr)
  | Some (tx, w, None) =>
      let tx := if reliable tx then tx else start_timerG tx in
      mret ((start_timerH tx, w), None)
  end.

Definition actionFinal (tx : serverTx) (w : W) : res ((serverTx * W) * option ServerInput) :=
  s ← send_last tx w;
  match s with
  | None => mret ((tx, w), None)
  | Some (tx, w, Some _) => mret ((tx, w), Some InputTransportErr)
  | Some (tx, w, None) => mret ((with_timerJ tx (Some TimeJ), w), None)
  end.

Definition transportErr (tx : serverTx) : serverTx :=
  with_common tx (put_err (common tx) (TxTransportError (lastErr (common tx)) (key (common tx)))).

Definition delete (tx : serverTx) : serverTx :=
  if closed (common tx) then tx
  else mkServerTx (set_closed (common tx)) (lastAck tx) (lastCancel tx) (requests tx) None (timeGTime tx)
         None None (timeITime tx) None None (reliable tx).

(** [timeoutErr] and the action that calls it, which no table has an outcome with. *)
Definition timeoutErr (tx : serverTx) : serverTx :=
  with_common tx (put_err (common tx) (TxTimeoutError (key (common tx)))).

Definition actionTimeout (tx : serverTx) : serverTx * option ServerInput := (timeoutErr tx, Some InputDelete).

(** Sent after the transaction was closed; without a last response [Send] panics. *)
Definition actionRespondDelete (tx : serverTx) (w : W) : res ((serverTx * W) * option ServerInput) :=
  let tx := delete tx in
  r ← deref (lastResp (common tx));
  '(w', _, err) ← Send w (MResponse r);
  mret ((with_common tx (set_lastErr (common tx) err), w'), after_send err).

(** A [select] between [done] and a send on [requests], under a deferred [recover]: a
    recovered action returns the input 0, which is [serverInputRequest]. *)
Definition pass_request (tx : serverTx) (r : request) : serverTx * option ServerInput :=
  if closed (common tx) then (tx, if takes_done then None else Some InputRequest)
  else (push_request tx r, None).

(** Timer I is armed with [TimeI], whatever [timeITime] says. *)
Definition actionConfirm (tx : serverTx) : serverTx * option ServerInput :=
  let tx := with_timerH (with_timerG tx None (timeGTime tx)) None in
  let tx := with_timerI tx (Some TimeI) (timeITime tx) in
  match lastAck tx with
  | None => (tx, None)
  | Some ack => pass_request tx ack
  end.

(** The answer to a CANCEL: made and sent; the error is only logged. *)
Definition answer_cancel (w : W) (cancel : request) (code : StatusCode) : res W :=
  r ← CreateResponse (uuid (sent w)) (rnd (sent w)) cancel code;
  '(w', _, _) ← Send w (MResponse r);
  mret w'.

Definition actionCancel (tx : serverTx) (w : W) : res ((serverTx * W) * option ServerInput) :=
  match lastCancel tx with
  | None => mret ((tx, w), None)
  | Some cancel =>
      match answer_cancel w cancel 200%N with
      | Ok w' => let '(tx, i) := pass_request tx cancel in mret ((tx, w'), i)
      | Err e => Err e
      | Panic _ => mret ((tx, w), Some InputRequest)
      end
  end.

Definition actionCancelNotExist (tx : serverTx) (w : W) : res ((serverTx * W) * option ServerInput) :=
  match lastCancel tx with
  | None => mret ((tx, w), None)
  | Some cancel =>
      match answer_cancel w cancel 481%N with
      | Ok w' => mret ((tx, w'), None)
      | Err e => Err e
      | Panic _ => mret ((tx, w), Some InputRequest)
      end
  end.

Definition perform (a : ServerAction) (c : serverTx * W) : res ((serverTx * W) * option ServerInput) :=
  let '(tx, w) := c in
  match a with
  | NO_ACTION => mret (c, None)
  | ActionRespond => actionRespond tx w
  | ActionRespondComplete => actionRespondComplete tx w
  | ActionFinal => actionFinal tx w
  | ActionTransErr => mret ((transportErr tx, w), Some InputDelete)
  | ActionDelete => mret ((delete tx, w), None)
  | ActionRespondDelete => actionRespondDelete tx w
  | ActionConfirm => let '(tx, i) := actionConfirm tx in mret ((tx, w), i)
  | ActionCancel => actionCancel tx w
  | ActionCancelNotExist => actionCancelNotExist tx w
  end.

(** *** Operations *)

Variable Spin : bool -> spin_type ServerState ServerInput (serverTx * W).

Definition config : Type := (ServerState * (serverTx * W))%type.

Definition tx_invite (tx : serverTx) : bool := IsInvite (origin (common tx)).

Definition Init (tx : serverTx) (w : W) : config :=
  let tx :=
    if reliable tx then with_timerI (with_timerG tx (timerG tx) 0%Z) (timerI tx) 0%Z
    else with_timerI (with_timerG tx (timerG tx) TimeG) (timerI tx) TimeI in
  let tx := if tx_invite tx then with_timer1xx tx (Some Time1xx) else tx in
  (first_state (tx_invite tx), (tx, w)).

(** [Receive].  For a response the failed type assertion leaves a nil request, which the
    error report then renders. *)
Definition Receive (c : config) (msg : Message) : res (config * option string) :=
  let '(s, (tx, w)) := c in
  match msg with
  | MResponse _ => Panic NilDereference
  | MRequest req =>
      let tx := with_timer1xx tx None in
      if String.eqb (req_method req) (req_method (origin (common tx))) then
        Spin (tx_invite tx) (s, (tx, w)) InputRequest
      else if request_IsAck req then Spin (tx_invite tx) (s, (with_lastAck tx req, w)) InputAck
      else if request_IsCancel req then Spin (tx_invite tx) (s, (with_lastCancel tx req, w)) InputCancel
      else
        _ ← request_String req;
        mret ((s, (tx, w)), Some "[serverTx] -> invalid %s correlated to %s")
  end.

Definition user_input (r : response) : ServerInput :=
  if IsProvisional r then InputUser1xx else if IsSuccess r then InputUser2xx else InputUser300Plus.

Definition SendResponse (c : config) (r : response) : res (config * option string) :=
  let '(s, (tx, w)) := c in
  if response_IsCancel r then
    '(w', _, err) ← Send w (MResponse r);
    mret ((s, (tx, w')), err)
  else
    let tx := with_timer1xx (with_common tx (set_lastResp (common tx) r)) None in
    Spin (tx_invite tx) (s, (tx, w)) (user_input r).

(** Timer 1xx fires: the code answers 100; an error is only logged. *)
Definition timer1xx_fires (c : config) : res config :=
  let '(s, (tx, w)) := c in
  r ← CreateResponseReason (uuid (sent w)) (rnd (sent w)) (origin (common tx)) 100%N "Trying";
  '(c', _) ← SendResponse c r;
  mret c'.

Definition Close (c : config) : config :=
  let '(s, (tx, w)) := c in (s, (delete tx, w)).

End ServerTx.

#[global] Arguments config : clear implicits.

(** ** Lemmas *)

(** Chains: a failed send is followed by the report and the deletion; a recovered action
    is followed by the input of a retransmission. *)
Definition server_rank (s : ServerState) (i : ServerInput) : nat :=
  match i with
  | InputDelete => 0
  | InputTransportErr => 1
  | InputCancel | InputAck => 3
  | _ => 2
  end.

Definition action_rank (a : ServerAction) : nat :=
  match a with
  | NO_ACTION | ActionDelete => 0
  | ActionTransErr => 1
  | ActionConfirm | ActionCancel | ActionCancelNotExist => 3
  | _ => 2
  end.

Section Laws.
Context {W : Type} `{TransportLayer W}.
Variable takes_done : bool.
Variables uuid rnd : list Message -> string.
#[local] Abbreviation act := (perform takes_done uuid rnd).

Lemma pass_request_feeds tx r tx' i : pass_request takes_done tx r = (tx', Some i) -> i = InputRequest.
Proof.
  unfold pass_request. destruct (closed (common tx)); [|done]. destruct takes_done; [done|]. by intros [= _ <-].
Qed.

(** The rank of what an action feeds back. *)
Lemma server_perform_feeds a c c' i s : act a c = Ok (c', Some i) -> (server_rank s i < action_rank a)%nat.
Proof.
  destruct c as [tx w]. destruct a; cbn [perform action_rank]; try done.
  - intros Hp. unfold actionRespond in Hp.
    destruct (send_last tx w) as [[[[tx1 w1] [e|]]|]| |]; try done. injection Hp as _ <-. cbn. lia.
  - intros Hp. unfold actionRespondComplete in Hp.
    destruct (send_last tx w) as [[[[tx1 w1] [e|]]|]| |]; try done. injection Hp as _ <-. cbn. lia.
  - intros Hp. unfold actionFinal in Hp.
    destruct (send_last tx w) as [[[[tx1 w1] [e|]]|]| |]; try done. injection Hp as _ <-. cbn. lia.
  - intros [= _ <-]. cbn. lia.
  - intros Hp. unfold actionRespondDelete in Hp.
    destruct (lastResp (common (delete tx))); try done. cbn in Hp.
    destruct (Send _ _) as [[[? ?] [e|]]| |]; try done. injection Hp as _ <-. cbn. lia.
  - destruct (actionConfirm takes_done tx) as [tx1 i1] eqn:E. intros [= _ ->]. unfold actionConfirm in E.
    destruct (lastAck _); [|done]. apply pass_request_feeds in E as ->. cbn. lia.
  - intros Hp. unfold actionCancel in Hp. destruct (lastCancel tx); [|done].
    destruct (answer_cancel _ _ _ _ _) as [w1| |]; [|done|injection Hp as _ <-; cbn; lia].
    destruct (pass_request takes_done tx r) as [tx1 i1] eqn:E. injection Hp as _ ->.
    apply pass_request_feeds in E as ->. cbn. lia.
  - intros Hp. unfold actionCancelNotExist in Hp. destruct (lastCancel tx); [|done].
    destruct (answer_cancel _ _ _ _ _) as [w1| |]; [done|done|injection Hp as _ <-; cbn; lia].
Qed.

Lemma outcomes_rank b s i s' a : outcomes b s i = Some (s', a) -> (action_rank a <= server_rank s i)%nat.
Proof. destruct b, s, i; cbn; intros Ho; try done; injection Ho as <- <-; cbn; lia. Qed.

(** A machine that the package could provide. *)
Lemma server_spin_exists b : FsmSpin (outcomes b) act (spin_run (outcomes b) act 4).
Proof.
  apply (spin_run_FsmSpin _ _ server_rank).
  - intros s i s' a t t' i' Ho Hp. pose proof (server_perform_feeds _ _ _ _ s' Hp).
    pose proof (outcomes_rank _ _ _ _ _ Ho). lia.
  - intros s i. destruct i; cbn; lia.
Qed.

Variable Spin : bool -> spin_type ServerState ServerInput (serverTx * W).
Context {Hspin : forall b, FsmSpin (outcomes b) act (Spin b)}.

Lemma send_last_ok tx w r w' m' :
  lastResp (common tx) = Some r -> Send w (MResponse r) = Ok (w', m', None) ->
  send_last tx w = Ok (Some (with_common tx (set_lastErr (common tx) None), w', None)).
Proof. intros Hl Hs. unfold send_last. rewrite Hl. cbn. by rewrite Hs. Qed.

(** A state in which the machine sends the last response again. *)
Lemma spin_respond b s tx w i s' r w' m' :
  outcomes b s i = Some (s', ActionRespond) -> lastResp (common tx) = Some r ->
  Send w (MResponse r) = Ok (w', m', None) ->
  Spin b (s, (tx, w)) i = Ok ((s', (with_common tx (set_lastErr (common tx) None), w')), None).
Proof.
  intros Ho Hl Hs. apply (spin_stops _ _ _ _ ActionRespond); [done|].
  cbn. unfold actionRespond. by rewrite (send_last_ok _ _ _ _ _ Hl Hs).
Qed.

Definition completed_tx (tx : serverTx) : serverTx :=
  start_timerH (if reliable tx then tx else start_timerG tx).

Lemma spin_respond_complete b s tx w i s' r w' m' :
  outcomes b s i = Some (s', ActionRespondComplete) -> lastResp (common tx) = Some r ->
  Send w (MResponse r) = Ok (w', m', None) ->
  Spin b (s, (tx, w)) i
  = Ok ((s', (completed_tx (with_common tx (set_lastErr (common tx) None)), w')), None).
Proof.
  intros Ho Hl Hs. apply (spin_stops _ _ _ _ ActionRespondComplete); [done|].
  cbn. unfold actionRespondComplete. by rewrite (send_last_ok _ _ _ _ _ Hl Hs).
Qed.

Lemma spin_quiet b s tx w i s' :
  outcomes b s i = Some (s', NO_ACTION) -> Spin b (s, (tx, w)) i = Ok ((s', (tx, w)), None).
Proof. intros Ho. by apply (spin_stops _ _ _ _ NO_ACTION). Qed.

(** No action changes the key or the request of a transaction. *)
Definition same_identity (c : commonTx) (t : serverTx * W) : Prop :=
  key (common t.1) = key c /\ origin (common t.1) = origin c.

Lemma send_last_identity c tx w tx' w' e :
  same_identity c (tx, w) -> send_last tx w = Ok (Some (tx', w', e)) -> same_identity c (tx', w').
Proof.
  unfold send_last. destruct (lastResp (common tx)) as [r|]; [|done]. cbn.
  destruct (Send w (MResponse r)) as [[[w1 ?] ?]| |]; try done. intros I [= <- <- <-]. exact I.
Qed.

Lemma delete_identity c tx w : same_identity c (tx, w) -> same_identity c (delete tx, w).
Proof. unfold delete. by destruct (closed (common tx)). Qed.

Lemma pass_request_identity c tx w r :
  same_identity c (tx, w) -> same_identity c ((pass_request takes_done tx r).1, w).
Proof. unfold pass_request. by destruct (closed (common tx)). Qed.

Lemma perform_identity c a t t' n : same_identity c t -> act a t = Ok (t', n) -> same_identity c t'.
Proof.
  intros I. destruct t as [tx w]. destruct a; cbn [perform].
  - by intros [= <- _].
  - unfold actionRespond. destruct (send_last tx w) as [[[[tx1 w1] e]|]| |] eqn:E; try done;
      intros [= <- _]; [by eapply send_last_identity|done].
  - unfold actionRespondComplete.
    destruct (send_last tx w) as [[[[tx1 w1] [e|]]|]| |] eqn:E; try done; intros [= <- _]; try done;
      pose proof (send_last_identity _ _ _ _ _ _ I E) as I1; [done|].
    unfold start_timerH, start_timerG. by destruct (reliable tx1), (timerG tx1), (timerH _).
  - unfold actionFinal. destruct (send_last tx w) as [[[[tx1 w1] [e|]]|]| |] eqn:E; try done;
      intros [= <- _]; try done; by pose proof (send_last_identity _ _ _ _ _ _ I E).
  - intros [= <- _]. unfold transportErr, put_err. by destruct (closed (common tx)) eqn:E; split; cbn; rewrite ?E; apply I.
  - intros [= <- _]. by apply delete_identity.
  - unfold actionRespondDelete. pose proof (delete_identity c tx w I) as I1.
    destruct (lastResp (common (delete tx))); [|done]. cbn.
    destruct (Send w _) as [[[w1 ?] ?]| |]; try done. intros [= <- _]. exact I1.
  - destruct (actionConfirm takes_done tx) as [tx1 i1] eqn:E. intros [= <- _]. unfold actionConfirm in E.
    destruct (lastAck _) as [ack|]; [|by injection E as <- _].
    apply (f_equal fst) in E. cbn [fst] in E. subst tx1. by apply pass_request_identity.
  - unfold actionCancel. destruct (lastCancel tx) as [r|]; [|by intros [= <- _]].
    destruct (answer_cancel _ _ _ _ _) as [w1| |]; [|done|by intros [= <- _]].
    pose proof (pass_request_identity c tx w1 r I) as I1.
    destruct (pass_request takes_done tx r) as [tx1 i1]. by intros [= <- _].
  - unfold actionCancelNotExist. destruct (lastCancel tx); [|by intros [= <- _]].
    destruct (answer_cancel _ _ _ _ _); [by intros [= <- _]|done|by intros [= <- _]].
Qed.

Lemma chains_end b s i s' a t t' i' :
  outcomes b s i = Some (s', a) -> act a t = Ok (t', Some i') -> (server_rank s' i' < server_rank s i)%nat.
Proof.
  intros Ho Hp. pose proof (server_perform_feeds _ _ _ _ s' Hp). pose proof (outcomes_rank _ _ _ _ _ Ho). lia.
Qed.

Lemma spin_identity c b s t i s' t' e :
  same_identity c t -> Spin b (s, t) i = Ok ((s', t'), e) -> same_identity c t'.
Proof.
  apply (spin_preserves (outcomes b) act server_rank (chains_end b) (Spin b) (same_identity c) (Hspin b)).
  intros a t0 t1 n. apply perform_identity.
Qed.

Lemma Receive_identity s tx w msg s' tx' w' e :
  Receive Spin (s, (tx, w)) msg = Ok ((s', (tx', w')), e) -> same_identity (common tx) (tx', w').
Proof.
  destruct msg as [req|]; [|done]. unfold Receive.
  destruct (String.eqb _ _); [intros H1; by eapply spin_identity in H1|].
  destruct (request_IsAck req); [intros H1; by eapply spin_identity in H1|].
  destruct (request_IsCancel req); [intros H1; by eapply spin_identity in H1|].
  destruct (request_String req); try done. by intros [= <- <- <- _].
Qed.

(** Inputs other than an ACK and a CANCEL put nothing on the channel of requests. *)
Definition keeps_requests (i : ServerInput) : Prop := i <> InputAck /\ i <> InputCancel.

Lemma delete_requests tx : requests (delete tx) = requests tx.
Proof. unfold delete. by destruct (closed (common tx)). Qed.

Lemma send_last_requests tx w tx' w' e : send_last tx w = Ok (Some (tx', w', e)) -> requests tx' = requests tx.
Proof.
  unfold send_last. destruct (lastResp (common tx)) as [r|]; [|done]. cbn.
  destruct (Send w (MResponse r)) as [[[w1 ?] ?]| |]; try done. by intros [= <- _ _].
Qed.

Lemma perform_requests a tx w tx' w' n :
  a <> ActionConfirm -> a <> ActionCancel -> act a (tx, w) = Ok ((tx', w'), n) -> requests tx' = requests tx.
Proof.
  intros H1 H2. destruct a; cbn [perform]; try done.
  - by intros [= <- _ _].
  - unfold actionRespond. destruct (send_last tx w) as [[[[tx1 w1] e]|]| |] eqn:E; try done;
      intros [= <- _ _]; [by eapply send_last_requests|done].
  - unfold actionRespondComplete.
    destruct (send_last tx w) as [[[[tx1 w1] [e|]]|]| |] eqn:E; try done; intros [= <- _ _]; try done;
      rewrite <- (send_last_requests _ _ _ _ _ E); [done|].
    unfold start_timerH, start_timerG. by destruct (reliable tx1), (timerG tx1), (timerH _).
  - unfold actionFinal. destruct (send_last tx w) as [[[[tx1 w1] [e|]]|]| |] eqn:E; try done;
      intros [= <- _ _]; try done; by rewrite <- (send_last_requests _ _ _ _ _ E).
  - by intros [= <- _ _].
  - intros [= <- _ _]. apply delete_requests.
  - unfold actionRespondDelete. destruct (lastResp (common (delete tx))); [|done]. cbn.
    destruct (Send w _) as [[[w1 ?] ?]| |]; try done. intros [= <- _ _]. apply delete_requests.
  - unfold actionCancelNotExist. destruct (lastCancel tx); [|by intros [= <- _ _]].
    destruct (answer_cancel _ _ _ _ _); [by intros [= <- _ _]|done|by intros [= <- _ _]].
Qed.

Lemma perform_feeds_quiet a c c' i : act a c = Ok (c', Some i) -> keeps_requests i.
Proof.
  intros Hp. pose proof (server_perform_feeds a c c' i Proceeding Hp) as Hr.
  assert (action_rank a <= 3)%nat by (destruct a; cbn; lia). by destruct i; cbn in Hr; try lia.
Qed.

Lemma outcomes_quiet b s i s' a :
  keeps_requests i -> outcomes b s i = Some (s', a) -> a <> ActionConfirm /\ a <> ActionCancel.
Proof. intros [H1 H2]. destruct b, s, i; cbn; intros Ho; try done; by injection Ho as <- <-. Qed.

Lemma spin_requests q b s t i s' t' e :
  keeps_requests i -> requests t.1 = q -> Spin b (s, t) i = Ok ((s', t'), e) -> requests t'.1 = q.
Proof.
  apply (spin_preserves_along (outcomes b) act server_rank (chains_end b) (Spin b) keeps_requests
    (fun t => requests t.1 = q) (Hspin b)).
  intros s0 i0 s1 a [tx w] [tx' w'] n Hq Ho Ht Hp. destruct (outcomes_quiet _ _ _ _ _ Hq Ho) as [H1 H2].
  split; [cbn; rewrite <- Ht; by eapply perform_requests|].
  intros i' ->. by eapply perform_feeds_quiet.
Qed.

(** An action that puts a request on the channel puts the ACK or the CANCEL noted last. *)
Lemma perform_pushes a tx w tx' w' n req :
  (a = ActionConfirm -> lastAck tx = Some req) -> (a = ActionCancel -> lastCancel tx = Some req) ->
  act a (tx, w) = Ok ((tx', w'), n) -> requests tx' = requests tx \/ requests tx' = requests tx ++ [req] /\ n = None.
Proof.
  intros H1 H2 Hp. assert (Hpush : forall t t' m, pass_request takes_done t req = (t', m) ->
    requests t' = requests t \/ requests t' = requests t ++ [req] /\ m = None).
  { intros t t' m. unfold pass_request. destruct (closed (common t)); intros [= <- <-]; [by left|by right]. }
  destruct (decide (a = ActionConfirm)) as [->|N1]; [|destruct (decide (a = ActionCancel)) as [->|N2]].
  - cbn in Hp. unfold actionConfirm in Hp. cbn [lastAck with_timerI with_timerH with_timerG] in Hp.
    rewrite (H1 eq_refl) in Hp. destruct (pass_request _ _ _) as [t m] eqn:E. injection Hp as <- _ <-.
    exact (Hpush _ _ _ E).
  - cbn in Hp. unfold actionCancel in Hp. rewrite (H2 eq_refl) in Hp.
    destruct (answer_cancel _ _ _ _ _) as [w1| |]; [|done|injection Hp as <- _ _; by left].
    destruct (pass_request _ _ _) as [t m] eqn:E. injection Hp as <- _ <-. exact (Hpush _ _ _ E).
  - left. by eapply perform_requests.
Qed.

Lemma spin_pushes b s tx w i s' t' e req :
  (forall s1 a, outcomes b s i = Some (s1, a) -> (a = ActionConfirm -> lastAck tx = Some req)
     /\ (a = ActionCancel -> lastCancel tx = Some req)) ->
  Spin b (s, (tx, w)) i = Ok ((s', t'), e) -> requests t'.1 = requests tx \/ requests t'.1 = requests tx ++ [req].
Proof.
  intros Ha Hs. destruct (outcomes b s i) as [[s1 a]|] eqn:Ho.
  - destruct (Ha _ _ eq_refl) as [H1 H2]. destruct (act a (tx, w)) as [[[tx1 w1] next]| |] eqn:Hp.
    + pose proof (perform_pushes _ _ _ _ _ _ req H1 H2 Hp) as Hr. destruct next as [i1|].
      * rewrite (spin_feeds _ _ _ _ _ _ _ Ho Hp) in Hs. apply perform_feeds_quiet in Hp.
        rewrite (spin_requests (requests tx1) b s1 (tx1, w1) i1 s' t' e Hp eq_refl Hs).
        by destruct Hr as [Hr|[_ [=]]]; left.
      * rewrite (spin_stops _ _ _ _ _ _ Ho Hp) in Hs. injection Hs as _ <- _. cbn. tauto.
    + by rewrite (spin_errs _ _ _ _ _ _ Ho Hp) in Hs.
    + by rewrite (spin_panics _ _ _ _ _ _ Ho Hp) in Hs.
  - destruct (spin_rejects s (tx, w) i Ho) as [e' He]. rewrite He in Hs. injection Hs as _ <- _. by left.
Qed.

(** What [Receive] puts on the channel of requests: nothing for a retransmission, at most
    the message itself for an ACK or a CANCEL. *)
Lemma Receive_requests s tx w req s' tx' w' e :
  Receive Spin (s, (tx, w)) (MRequest req) = Ok ((s', (tx', w')), e) ->
  requests tx' = requests tx
  \/ requests tx' = requests tx ++ [req] /\ (request_IsAck req || request_IsCancel req) = true
     /\ String.eqb (req_method req) (req_method (origin (common tx))) = false.
Proof.
  unfold Receive. cbn [origin common with_timer1xx].
  destruct (String.eqb _ _) eqn:Em.
  { assert (Hq : keeps_requests InputRequest) by done.
    intros Hs. left. by apply (spin_requests (requests tx) _ _ _ _ _ (tx', w') _ Hq) in Hs. }
  destruct (request_IsAck req) eqn:Ha; [|destruct (request_IsCancel req) eqn:Hc].
  - intros Hs. apply (spin_pushes _ _ _ _ _ _ _ _ req) in Hs; [cbn in Hs; tauto|].
    intros s1 a Ho. split; [done|]. intros ->. by destruct (tx_invite _), s.
  - intros Hs. apply (spin_pushes _ _ _ _ _ _ _ _ req) in Hs; [cbn in Hs; tauto|].
    intros s1 a Ho. split; [|done]. intros ->. by destruct (tx_invite _), s.
  - intros Hs. apply bind_ok in Hs as (? & _ & [= _ <- _ _]). by left.
Qed.

Lemma SendResponse_identity s tx w r s' tx' w' e :
  SendResponse Spin (s, (tx, w)) r = Ok ((s', (tx', w')), e) -> same_identity (common tx) (tx', w').
Proof.
  unfold SendResponse. destruct (response_IsCancel r).
  - destruct (Send w _) as [[[w1 ?] ?]| |]; try done. by intros [= <- <- <- _].
  - intros H1. by eapply spin_identity in H1.
Qed.

End Laws.

Lemma user_input_1xx r : IsProvisional r = true -> user_input r = InputUser1xx.
Proof. intros Hr. unfold user_input. by rewrite Hr. Qed.

Lemma user_input_2xx r : IsSuccess r = true -> user_input r = InputUser2xx.
Proof.
  intros Hr. unfold user_input, IsProvisional. rewrite Hr. unfold IsSuccess in Hr.
  apply andb_true_iff in Hr as [Hr _]. apply N.leb_le in Hr. by rewrite (proj2 (N.ltb_ge _ _) Hr).
Qed.

Lemma user_input_300 r : (300 <= status r)%N -> user_input r = InputUser300Plus.
Proof.
  intros Hr. unfold user_input, IsProvisional, IsSuccess. rewrite (proj2 (N.ltb_ge _ _)) by lia.
  by rewrite (proj2 (N.ltb_ge (status r) 300)), andb_false_r by lia.
Qed.

(** ** Behaviour *)

Section Behaviour.
Context {W : Type} `{TransportLayer W}.
Variable takes_done : bool.
Variables uuid rnd : list Message -> string.
#[local] Abbreviation act := (perform takes_done uuid rnd).
Variable Spin : bool -> spin_type ServerState ServerInput (serverTx * W).
Context {Hspin : forall b, FsmSpin (outcomes b) act (Spin b)}.

(** [n] times timer G fires. *)
Fixpoint timerG_fires (n : nat) (c : config W) : res (config W) :=
  match n with
  | O => mret c
  | S n => '(c', _) ← Spin (tx_invite c.2.1) c InputTimerG; timerG_fires n c'
  end.

(** A transport that takes the response again and again. *)
Definition keeps_answering (P : W -> Prop) (r : response) : Prop :=
  forall w, P w -> exists w' m', Send w (MResponse r) = Ok (w', m', None) /\ P w'.

Lemma answer_logged w r w' m' :
  Send w (MResponse r) = Ok (w', m', None) -> sent w' = sent w ++ [MResponse r].
Proof.
  intros Hs. pose proof (Send_same _ _ _ _ _ Hs) as Hm. destruct m' as [|r']; [done|]. cbn in Hm. subst r'.
  exact (Send_logs _ _ _ _ _ Hs).
Qed.

(** The state of a transaction that has answered an INVITE with a failure: [k]
    retransmissions are behind it. *)
Record answered (r : response) (tx : serverTx) (k : nat) : Prop := {
  ans_resp : lastResp (common tx) = Some r;
  ans_open : closed (common tx) = false;
  ans_reliable : reliable tx = false;
  ans_timeG : timeGTime tx = Z.min (T1 * 2 ^ Z.of_nat k)%Z T2;
  ans_timerG : timerG tx = Some (timeGTime tx);
  ans_timerH : timerH tx = Some TimeH;
  ans_invite : tx_invite tx = true
}.

Lemma timerG_run P r (Hsend : keeps_answering P r) n k tx w :
  P w -> answered r tx k ->
  exists tx' w', timerG_fires n (Completed, (tx, w)) = Ok (Completed, (tx', w'))
    /\ sent w' = sent w ++ replicate n (MResponse r) /\ answered r tx' (k + n)
    /\ requests tx' = requests tx /\ origin (common tx') = origin (common tx).
Proof.
  revert k tx w. induction n as [|n IH]; intros k tx w HP A.
  { exists tx, w. rewrite app_nil_r, Nat.add_0_r. by repeat split; try apply A. }
  destruct (Hsend w HP) as (w1 & m1 & Hs & HP1). cbn [timerG_fires fst snd]. rewrite (ans_invite _ _ _ A).
  rewrite (spin_respond_complete takes_done uuid rnd Spin true Completed tx w InputTimerG Completed r w1 m1 eq_refl
    (ans_resp _ _ _ A) Hs). cbn [mbind res_bind].
  set (tx1 := completed_tx _).
  assert (A1 : answered r tx1 (S k) /\ requests tx1 = requests tx /\ origin (common tx1) = origin (common tx)).
  { unfold tx1, completed_tx, start_timerG, start_timerH. destruct A as [Al Ac Ar Ad Ag Ah Ai]. cbn.
    rewrite Ar, Ag. cbn. rewrite Ah, Ad. split; [|done]. split; try done. cbn. apply double_capped_T1. }
  destruct A1 as (A1 & Hr1 & Ho1).
  destruct (IH (S k) tx1 w1 HP1 A1) as (tx' & w' & -> & Hse & A' & Hr' & Ho').
  exists tx', w'. split; [done|]. rewrite Hse, (answer_logged _ _ _ _ Hs), <- app_assoc. split; [done|].
  replace (k + S n)%nat with (S k + n)%nat by lia. by rewrite Hr', Ho', Hr1, Ho1.
Qed.

Lemma NewServerTx_spec w r0 tx :
  NewServerTx w r0 = Ok tx ->
  exists k rel, MakeServerTxKey (req_msg r0) = Ok k
    /\ tx = mkServerTx (mkCommonTx k r0 None [] None false) None None [] None 0%Z None None 0%Z None None rel.
Proof.
  unfold NewServerTx. destruct (MakeServerTxKey (req_msg r0)) as [k| |]; try done. cbn [mbind res_bind].
  destruct (match headers_ViaHop _ with Some _ => _ | None => _ end) as [rel| |]; try done.
  intros [= <-]. eauto.
Qed.

Lemma Init_shape tx (w : W) :
  exists tx', Init tx w = (first_state (tx_invite tx), (tx', w)) /\ common tx' = common tx
    /\ requests tx' = requests tx.
Proof.
  unfold Init, tx_invite. destruct (reliable tx); cbn.
  all: destruct (IsInvite (origin (common tx))) eqn:E; cbn; rewrite ?E.
  all: eexists; split; [reflexivity|]; done.
Qed.

Lemma Init_invite k r0 (w : W) :
  IsInvite r0 = true ->
  Init (mkServerTx (mkCommonTx k r0 None [] None false) None None [] None 0%Z None None 0%Z None None false) w
  = (Proceeding, (mkServerTx (mkCommonTx k r0 None [] None false) None None [] None T1 None None TimeI None
                    (Some Time1xx) false, w)).
Proof.
  intros Hi. unfold Init, tx_invite. cbn. rewrite Hi. cbn. unfold IsInvite in Hi |- *. cbn. by rewrite Hi.
Qed.

Lemma SendResponse_spin s tx w r :
  response_IsCancel r = false ->
  SendResponse Spin (s, (tx, w)) r
  = Spin (tx_invite tx) (s, (with_timer1xx (with_common tx (set_lastResp (common tx) r)) None, w)) (user_input r).
Proof. intros Hc. cbn. by rewrite Hc. Qed.

Lemma Receive_ack s tx w ack :
  tx_invite tx = true -> request_IsAck ack = true ->
  Receive Spin (s, (tx, w)) (MRequest ack)
  = Spin true (s, (with_lastAck (with_timer1xx tx None) ack, w)) InputAck.
Proof.
  intros Hi Ha. unfold tx_invite, IsInvite in Hi. apply String.eqb_eq in Hi.
  unfold request_IsAck in Ha. cbn. unfold request_IsAck. rewrite Ha, Hi.
  apply String.eqb_eq in Ha. rewrite Ha. cbn. unfold tx_invite, IsInvite. cbn. by rewrite Hi.
Qed.

(** An acknowledged transaction. *)
Lemma ack_confirms tx w ack :
  tx_invite tx = true -> closed (common tx) = false -> request_IsAck ack = true ->
  exists tx', Receive Spin (Completed, (tx, w)) (MRequest ack) = Ok ((Confirmed, (tx', w)), None)
    /\ timerG tx' = None /\ timerH tx' = None /\ timerI tx' = Some TimeI /\ requests tx' = requests tx ++ [ack]
    /\ closed (common tx') = false /\ tx_invite tx' = true.
Proof.
  intros Hi Hc Ha. rewrite (Receive_ack _ _ _ _ Hi Ha). eexists. split.
  - apply (spin_stops _ _ _ _ ActionConfirm); [done|]. cbn. unfold actionConfirm, pass_request. cbn. by rewrite Hc.
  - done.
Qed.

Lemma spin_delete b s tx w i :
  outcomes b s i = Some (Terminated, ActionDelete) ->
  Spin b (s, (tx, w)) i = Ok ((Terminated, (delete tx, w)), None).
Proof. intros Ho. by apply (spin_stops _ _ _ _ ActionDelete). Qed.

Lemma delete_closed tx : closed (common (delete tx)) = true.
Proof. unfold delete. by destruct (closed (common tx)) eqn:E. Qed.

Lemma delete_errs tx : errs (common (delete tx)) = errs (common tx).
Proof. unfold delete. by destruct (closed (common tx)). Qed.

(** When no ACK comes until timer H fires, the transaction is closed and nothing is put on
    its error channel; [actionTimeout], which no table has, would report it. *)
Lemma timerH_silent tx w :
  exists tx', Spin true (Completed, (tx, w)) InputTimerH = Ok ((Terminated, (tx', w)), None)
    /\ closed (common tx') = true /\ errs (common tx') = errs (common tx).
Proof.
  exists (delete tx). split; [by apply spin_delete|]. split; [apply delete_closed|apply delete_errs].
Qed.

Lemma actionTimeout_reports tx :
  closed (common tx) = false ->
  (actionTimeout tx).2 = Some InputDelete
  /\ errs (common (delete (actionTimeout tx).1)) = errs (common tx) ++ [TxTimeoutError (key (common tx))].
Proof.
  intros Hc. split; [done|]. rewrite delete_errs. unfold actionTimeout, timeoutErr, put_err. cbn. by rewrite Hc.
Qed.

End Behaviour.

(** *** A machine and a transaction to evaluate *)

Definition run_spin (b : bool) : spin_type ServerState ServerInput (serverTx * list Message) :=
  spin_run (outcomes b) (perform true (fun _ => "uuid") (fun _ => "rnd")) 4.

#[export] Instance run_spin_laws b :
  FsmSpin (outcomes b) (perform true (fun _ => "uuid") (fun _ => "rnd")) (run_spin b).
Proof. apply server_spin_exists. Qed.

Definition incoming (method : string) : request :=
  mkRequest (keyed_message method "z9hG4bKabc") method None.

Definition sample_server (method : string) : serverTx :=
  mkServerTx (mkCommonTx (server_key (mkTxId "z9hG4bKabc" "10.0.0.9" 5060%N method)) (incoming method)
                None [] None false) None None [] None 0%Z None None 0%Z None None false.

Definition sample_answer (code : StatusCode) : response :=
  mkResponse (keyed_message "INVITE" "z9hG4bKabc") code (StatusText code) [].

(** ** The properties *)

(** C15: the life of an INVITE transaction that fails (RFC 3261, 17.2.1), on an unreliable
    transport that takes the response: answering with a code from 300 on sends the
    response and arms timers G and H; every firing of timer G sends the response once
    more and arms G with T1 doubled each time up to T2; the ACK stops both timers, arms
    timer I and is passed up; timer I closes the transaction. *)
Theorem server_invite_failure {W : Type} `{TransportLayer W} (takes_done : bool)
    (uuid rnd : list Message -> string) (Spin : bool -> spin_type ServerState ServerInput (serverTx * W))
    (Hspin : forall b, FsmSpin (outcomes b) (perform takes_done uuid rnd) (Spin b))
    (P : W -> Prop) (r0 ack : request) (r : response) (tx : serverTx) (w : W) (k : nat) :
  NewServerTx w r0 = Ok tx -> IsInvite r0 = true -> reliable tx = false ->
  (300 <= status r)%N -> response_IsCancel r = false -> request_IsAck ack = true ->
  keeps_answering P r -> P w ->
  exists c1 tx2 w2 tx3 tx4,
    SendResponse Spin (Init tx w) r = Ok (c1, None)
    /\ timerG_fires Spin k c1 = Ok (Completed, (tx2, w2))
    /\ sent w2 = sent w ++ replicate (S k) (MResponse r)
    /\ timerG tx2 = Some (Z.min (T1 * 2 ^ Z.of_nat k) T2) /\ timerH tx2 = Some TimeH
    /\ Receive Spin (Completed, (tx2, w2)) (MRequest ack) = Ok ((Confirmed, (tx3, w2)), None)
    /\ timerG tx3 = None /\ timerH tx3 = None /\ timerI tx3 = Some TimeI /\ requests tx3 = [ack]
    /\ Spin true (Confirmed, (tx3, w2)) InputTimerI = Ok ((Terminated, (tx4, w2)), None)
    /\ closed (common tx4) = true.
Proof.
  intros Hn Hi Hrel Hst Hcan Hack Hsend HP.
  apply NewServerTx_spec in Hn as (key & rel & _ & ->). cbn in Hrel. subst rel.
  destruct (Hsend w HP) as (w1 & m1 & Hs & HP1).
  rewrite (Init_invite _ _ _ Hi), (SendResponse_spin Spin) by done. unfold tx_invite. cbn [common with_common with_timer1xx origin set_lastResp].
  rewrite Hi, (user_input_300 r Hst).
  rewrite (spin_respond_complete takes_done uuid rnd Spin true Proceeding _ w InputUser300Plus Completed r w1 m1)
    by done.
  set (tx1 := completed_tx _).
  assert (A : answered r tx1 0) by (split; try done; cbn; unfold tx_invite; cbn; by rewrite Hi).
  destruct (timerG_run takes_done uuid rnd Spin P r Hsend k 0 tx1 w1 HP1 A) as (tx2 & w2 & Hf & Hse & A2 & Hr2 & _).
  destruct (ack_confirms takes_done uuid rnd Spin tx2 w2 ack (ans_invite _ _ _ A2) (ans_open _ _ _ A2) Hack)
    as (tx3 & H3 & HG & HH & HI & HR & Hc & Hi3).
  exists (Completed, (tx1, w1)), tx2, w2, tx3, (delete tx3).
  split; [done|]. split; [exact Hf|].
  split; [by rewrite Hse, (answer_logged _ _ _ _ Hs), <- app_assoc|].
  split; [by rewrite (ans_timerG _ _ _ A2), (ans_timeG _ _ _ A2)|]. split; [apply (ans_timerH _ _ _ A2)|].
  split; [exact H3|]. do 3 (split; [done|]). split; [by rewrite HR, Hr2|].
  split; [by apply (spin_delete takes_done uuid rnd Spin)|apply delete_closed].
Qed.

Lemma server_invite_failure_witness :
  exists c1 tx2 w2, SendResponse run_spin (Init (sample_server "INVITE") []) (sample_answer 486%N) = Ok (c1, None)
    /\ timerG_fires run_spin 2 c1 = Ok (Completed, (tx2, w2))
    /\ w2 = replicate 3 (MResponse (sample_answer 486%N)) /\ timerG tx2 = Some (2 * Second)%Z.
Proof.
  destruct (server_invite_failure true (fun _ => "uuid") (fun _ => "rnd") run_spin run_spin_laws (fun _ => True)
    (incoming "INVITE") (incoming "ACK") (sample_answer 486%N) (sample_server "INVITE") [] 2)
    as (c1 & tx2 & w2 & tx3 & tx4 & H1 & H2 & H3 & H4 & _).
  - vm_compute. reflexivity.
  - reflexivity.
  - reflexivity.
  - cbn. lia.
  - vm_compute. reflexivity.
  - reflexivity.
  - intros w _. exists (w ++ [MResponse (sample_answer 486%N)]), (MResponse (sample_answer 486%N)).
    split; [reflexivity|exact I].
  - exact I.
  - exists c1, tx2, w2. split; [exact H1|]. split; [exact H2|]. split; [exact H3|exact H4].
Defined.

(** C16: answering an INVITE with a 2xx closes the transaction and sends the response once,
    also when the transport fails: then the caller gets an error, the transaction stays
    closed, and nothing is reported on its error channel. *)
Theorem server_invite_success {W : Type} `{TransportLayer W} (takes_done : bool)
    (uuid rnd : list Message -> string) (Spin : bool -> spin_type ServerState ServerInput (serverTx * W))
    (Hspin : forall b, FsmSpin (outcomes b) (perform takes_done uuid rnd) (Spin b))
    (tx : serverTx) (w w' : W) (r : response) (m' : Message) (err : option string) :
  IsInvite (origin (common tx)) = true -> closed (common tx) = false ->
  IsSuccess r = true -> response_IsCancel r = false -> Send w (MResponse r) = Ok (w', m', err) ->
  exists tx' e, SendResponse Spin (Proceeding, (tx, w)) r = Ok ((Terminated, (tx', w')), e)
    /\ (e = None <-> err = None) /\ closed (common tx') = true /\ lastErr (common tx') = err
    /\ errs (common tx') = errs (common tx)
    /\ sent w' = sent w ++ match err with None => [MResponse r] | Some _ => [] end.
Proof.
  intros Hi Hc Hr Hcan Hs. rewrite (SendResponse_spin Spin) by done.
  unfold tx_invite. cbn [common with_timer1xx with_common origin set_lastResp]. rewrite Hi, (user_input_2xx r Hr).
  set (tx1 := with_timer1xx _ _). set (tx2 := with_common (delete tx1) (set_lastErr (common (delete tx1)) err)).
  assert (Hp : perform takes_done uuid rnd ActionRespondDelete (tx1, w) = Ok ((tx2, w'), after_send err)).
  { cbn. unfold actionRespondDelete. subst tx2 tx1. unfold delete. cbn. rewrite Hc. cbn. by rewrite Hs. }
  assert (Ht2 : closed (common tx2) = true /\ lastErr (common tx2) = err /\ errs (common tx2) = errs (common tx)).
  { subst tx2 tx1. unfold delete. cbn. by rewrite Hc. }
  assert (Hlog : sent w' = sent w ++ match err with None => [MResponse r] | Some _ => [] end).
  { pose proof (Send_same _ _ _ _ _ Hs) as Hm. destruct m' as [|r']; [done|]. cbn in Hm. subst r'.
    exact (Send_logs _ _ _ _ _ Hs). }
  destruct err as [e|]; cbn in Hp.
  - rewrite (spin_feeds Proceeding (tx1, w) InputUser2xx Terminated ActionRespondDelete (tx2, w') InputTransportErr
      eq_refl Hp).
    destruct (spin_rejects (Spin := Spin true) Terminated (tx2, w') InputTransportErr eq_refl) as [e' ->].
    exists tx2, (Some e'). split; [done|]. split; [by split|]. by destruct Ht2 as (-> & -> & ->).
  - rewrite (spin_stops Proceeding (tx1, w) InputUser2xx Terminated ActionRespondDelete (tx2, w') eq_refl Hp).
    exists tx2, None. split; [done|]. split; [by split|]. by destruct Ht2 as (-> & -> & ->).
Qed.

Lemma server_invite_success_witness :
  exists tx' e, SendResponse run_spin (Proceeding, (sample_server "INVITE", [])) (sample_answer 200%N)
      = Ok ((Terminated, (tx', [MResponse (sample_answer 200%N)])), e)
    /\ closed (common tx') = true.
Proof.
  destruct (server_invite_success true (fun _ => "uuid") (fun _ => "rnd") run_spin run_spin_laws
    (sample_server "INVITE") [] [MResponse (sample_answer 200%N)] (sample_answer 200%N)
    (MResponse (sample_answer 200%N)) None) as (tx' & e & H1 & _ & H2 & _);
    [reflexivity|reflexivity|reflexivity|vm_compute; reflexivity|reflexivity|].
  exists tx', e. split; [exact H1|exact H2].
Defined.

(** a CANCEL that reaches an INVITE transaction (RFC 3261, 9.2) leaves its state and its
    last response alone.  While the transaction is proceeding, the CANCEL is answered with
    200 and passed up; once a final response went out, it is answered with 481 and not
    passed up. *)
Theorem server_cancel {W : Type} `{TransportLayer W} (takes_done : bool)
    (uuid rnd : list Message -> string) (Spin : bool -> spin_type ServerState ServerInput (serverTx * W))
    (Hspin : forall b, FsmSpin (outcomes b) (perform takes_done uuid rnd) (Spin b))
    (s : ServerState) (tx : serverTx) (w w' : W) (cancel : request) (r : response) (m' : Message)
    (err : option string) (code : StatusCode) :
  IsInvite (origin (common tx)) = true -> closed (common tx) = false -> request_IsCancel cancel = true ->
  (s = Proceeding /\ code = 200%N) \/ ((s = Completed \/ s = Confirmed) /\ code = 481%N) ->
  CreateResponse (uuid (sent w)) (rnd (sent w)) cancel code = Ok r ->
  Send w (MResponse r) = Ok (w', m', err) ->
  exists tx', Receive Spin (s, (tx, w)) (MRequest cancel) = Ok ((s, (tx', w')), None)
    /\ requests tx' = requests tx ++ (if decide (s = Proceeding) then [cancel] else [])
    /\ common tx' = common tx /\ timer1xx tx' = None.
Proof.
  intros Hi Hc Hcan Hs Hr Hsend. unfold Receive.
  pose proof Hi as Hm. unfold IsInvite in Hm. apply String.eqb_eq in Hm.
  assert (Hm' : req_method cancel = CANCEL) by by apply String.eqb_eq.
  unfold request_IsAck, request_IsCancel. cbn [common with_timer1xx]. rewrite Hm, Hm'.
  change (String.eqb CANCEL INVITE) with false. change (String.eqb CANCEL ACK) with false.
  change (String.eqb CANCEL CANCEL) with true. cbn iota. unfold tx_invite. cbn [common with_timer1xx]. rewrite Hi.
  set (tx1 := with_lastCancel (with_timer1xx tx None) cancel).
  assert (Ha : answer_cancel uuid rnd w cancel code = Ok w').
  { unfold answer_cancel. rewrite Hr. cbn. by rewrite Hsend. }
  destruct Hs as [[-> ->]|[Hs ->]].
  - exists (push_request tx1 cancel). split; [|done].
    apply (spin_stops _ _ _ _ ActionCancel); [done|]. cbn [perform]. unfold actionCancel.
    change (lastCancel tx1) with (Some cancel). cbn iota. rewrite Ha. unfold pass_request. cbn. by rewrite Hc.
  - exists tx1. split.
    + apply (spin_stops _ _ _ _ ActionCancelNotExist); [by destruct Hs as [-> | ->]|]. cbn [perform].
      unfold actionCancelNotExist. change (lastCancel tx1) with (Some cancel). cbn iota. by rewrite Ha.
    + rewrite decide_False by (destruct Hs; by subst). by rewrite app_nil_r.
Qed.

Definition cancel_answer (code : StatusCode) : response :=
  match CreateResponse "uuid" "rnd" (incoming "CANCEL") code with Ok r => r | _ => sample_answer 0%N end.

Lemma server_cancel_witness :
  exists tx', Receive run_spin (Proceeding, (sample_server "INVITE", [])) (MRequest (incoming "CANCEL"))
      = Ok ((Proceeding, (tx', [MResponse (cancel_answer 200%N)])), None)
    /\ requests tx' = [incoming "CANCEL"].
Proof.
  destruct (server_cancel true (fun _ => "uuid") (fun _ => "rnd") run_spin run_spin_laws Proceeding
    (sample_server "INVITE") [] [MResponse (cancel_answer 200%N)] (incoming "CANCEL") (cancel_answer 200%N)
    (MResponse (cancel_answer 200%N)) None 200%N) as (tx' & H1 & H2 & _);
    [reflexivity|reflexivity|reflexivity|left; split; reflexivity|vm_compute; reflexivity|reflexivity|].
  exists tx'. split; [exact H1|exact H2].
Defined.

(** What can happen to a transaction from outside, short of closing it: messages, answers
    of the user and timers. *)
Inductive event {W : Type} `{TransportLayer W} (Spin : bool -> spin_type ServerState ServerInput (serverTx * W))
    : config W -> config W -> Prop :=
  | ev_receive c msg c' e : Receive Spin c msg = Ok (c', e) -> event Spin c c'
  | ev_answer c r c' e : SendResponse Spin c r = Ok (c', e) -> event Spin c c'
  | ev_timer c i c' e : i ∈ [InputTimerG; InputTimerH; InputTimerI; InputTimerJ] ->
      Spin (tx_invite c.2.1) c i = Ok (c', e) -> event Spin c c'.

(** An INVITE machine in [Terminated] whose transaction was not closed. *)
Definition stuck {W : Type} (c : config W) : Prop :=
  c.1 = Terminated /\ closed (common c.2.1) = false /\ tx_invite c.2.1 = true.

Lemma stuck_event {W : Type} `{TransportLayer W} takes_done uuid rnd Spin
    (Hspin : forall b, FsmSpin (outcomes b) (perform takes_done uuid rnd) (Spin b)) (c c' : config W) :
  event Spin c c' -> stuck c -> stuck c'.
Proof.
  assert (Hq : forall i tx w c' e, i <> InputDelete -> closed (common tx) = false -> tx_invite tx = true ->
    Spin true (Terminated, (tx, w)) i = Ok (c', e) -> stuck c').
  { intros i tx w c1 e Hi Hc Hinv Hs. destruct (outcomes true Terminated i) as [[s a]|] eqn:Ho.
    - assert (a = NO_ACTION /\ s = Terminated) as [-> ->] by (destruct i; cbn in Ho; try done; by injection Ho as <- <-).
      rewrite (spin_quiet takes_done uuid rnd Spin true Terminated tx w i Terminated Ho) in Hs.
      by injection Hs as <- <-.
    - destruct (spin_rejects (Spin := Spin true) _ (tx, w) _ Ho) as [e' He]. rewrite He in Hs.
      by injection Hs as <- <-. }
  intros He (Hs & Hc & Hi). destruct He as [[s [tx w]] msg c' e Hr|[s [tx w]] r c' e Hr|[s [tx w]] i c' e Hin Hr];
    cbn in Hs, Hc, Hi; subst s.
  - destruct msg as [req|]; [|done]. unfold Receive in Hr.
    change (tx_invite (with_timer1xx tx None)) with (tx_invite tx) in Hr. rewrite Hi in Hr.
    destruct (String.eqb _ _); [by eapply Hq in Hr|].
    destruct (request_IsAck req); [by eapply Hq in Hr|].
    destruct (request_IsCancel req); [by eapply Hq in Hr|].
    destruct (request_String req); try done. by injection Hr as <- <-.
  - destruct (response_IsCancel r) eqn:Ec.
    { unfold SendResponse in Hr. rewrite Ec in Hr. destruct (Send w _) as [[[? ?] ?]| |]; try done.
      by injection Hr as <- <-. }
    rewrite (SendResponse_spin Spin) in Hr by done. change (tx_invite _) with (tx_invite tx) in Hr.
    rewrite Hi in Hr. eapply Hq in Hr; [done| |done|done].
    unfold user_input. by destruct (IsProvisional r), (IsSuccess r).
  - cbn in Hr. rewrite Hi in Hr. eapply Hq in Hr; [done| |done|done].
    intros ->. apply list_elem_of_In in Hin. cbn in Hin. by destruct Hin as [?|[?|[?|[?|[]]]]].
Qed.

(** a second ACK (the first one retransmitted) moves a confirmed INVITE transaction to
    its last state without closing it, and from there nothing closes it: no message, no
    answer of the user and no timer, in whatever order. *)
Theorem server_second_ack_leaks {W : Type} `{TransportLayer W} (takes_done : bool)
    (uuid rnd : list Message -> string) (Spin : bool -> spin_type ServerState ServerInput (serverTx * W))
    (Hspin : forall b, FsmSpin (outcomes b) (perform takes_done uuid rnd) (Spin b))
    (tx : serverTx) (w : W) (ack : request) :
  IsInvite (origin (common tx)) = true -> closed (common tx) = false -> request_IsAck ack = true ->
  exists c', Receive Spin (Confirmed, (tx, w)) (MRequest ack) = Ok (c', None) /\ c'.1 = Terminated
    /\ forall c'', rtc (event Spin) c' c'' -> c''.1 = Terminated /\ closed (common c''.2.1) = false.
Proof.
  intros Hi Hc Ha. rewrite (Receive_ack Spin) by done.
  rewrite (spin_quiet takes_done uuid rnd Spin true Confirmed _ w InputAck Terminated) by done.
  eexists. split; [reflexivity|]. split; [done|]. intros c'' Hr.
  match type of Hr with rtc _ ?c _ => assert (Hs : stuck c) by done end.
  induction Hr as [c|c1 c2 c3 He _ IH]; [by destruct Hs as (? & ? & _)|].
  apply IH. by eapply (stuck_event takes_done uuid rnd Spin).
Qed.

Lemma server_second_ack_leaks_witness :
  exists c', Receive run_spin (Confirmed, (sample_server "INVITE", [])) (MRequest (incoming "ACK")) = Ok (c', None)
    /\ forall c'', rtc (event run_spin) c' c'' -> closed (common c''.2.1) = false.
Proof.
  destruct (server_second_ack_leaks true (fun _ => "uuid") (fun _ => "rnd") run_spin run_spin_laws
    (sample_server "INVITE") [] (incoming "ACK") eq_refl eq_refl eq_refl) as (c' & H1 & _ & H2).
  exists c'. split; [exact H1|]. intros c'' Hr. exact (proj2 (H2 c'' Hr)).
Defined.

(** a transaction other than INVITE (RFC 3261, 17.2.2), on a transport that takes the
    response: the final response is sent and arms timer J; each retransmission of the
    request is answered with the same response and changes nothing else; timer J closes
    the transaction. *)
Theorem server_nonInvite_final {W : Type} `{TransportLayer W} (takes_done : bool)
    (uuid rnd : list Message -> string) (Spin : bool -> spin_type ServerState ServerInput (serverTx * W))
    (Hspin : forall b, FsmSpin (outcomes b) (perform takes_done uuid rnd) (Spin b))
    (P : W -> Prop) (s : ServerState) (tx : serverTx) (w : W) (r : response) (req : request) :
  s = Trying \/ s = Proceeding -> IsInvite (origin (common tx)) = false -> IsProvisional r = false ->
  response_IsCancel r = false -> req_method req = req_method (origin (common tx)) ->
  keeps_answering P r -> P w ->
  exists tx1 w1 tx2 w2,
    SendResponse Spin (s, (tx, w)) r = Ok ((Completed, (tx1, w1)), None) /\ timerJ tx1 = Some TimeJ
    /\ Receive Spin (Completed, (tx1, w1)) (MRequest req) = Ok ((Completed, (tx2, w2)), None)
    /\ tx2 = tx1 /\ sent w2 = sent w ++ [MResponse r; MResponse r]
    /\ Spin false (Completed, (tx2, w2)) InputTimerJ = Ok ((Terminated, (delete tx2, w2)), None)
    /\ closed (common (delete tx2)) = true.
Proof.
  intros Hs Hi Hp Hcan Hm Hsend HP.
  destruct (Hsend w HP) as (w1 & m1 & Hs1 & HP1). destruct (Hsend w1 HP1) as (w2 & m2 & Hs2 & _).
  set (tx0 := with_timer1xx (with_common tx (set_lastResp (common tx) r)) None).
  set (tx1 := with_timerJ (with_common tx0 (set_lastErr (common tx0) None)) (Some TimeJ)).
  exists tx1, w1, tx1, w2. split; [|split; [done|split; [|split; [done|split; [|split]]]]].
  - rewrite (SendResponse_spin Spin) by done. change (tx_invite _) with (IsInvite (origin (common tx))). rewrite Hi.
    apply (spin_stops _ _ _ _ ActionFinal).
    + unfold user_input. rewrite Hp. by destruct Hs as [-> | ->], (IsSuccess r).
    + cbn [perform]. unfold actionFinal. by rewrite (send_last_ok _ w r w1 m1) by done.
  - unfold Receive. change (origin (common (with_timer1xx tx1 None))) with (origin (common tx)).
    rewrite (proj2 (String.eqb_eq _ _) Hm).
    change (tx_invite _) with (IsInvite (origin (common tx))). rewrite Hi.
    by rewrite (spin_respond takes_done uuid rnd Spin false Completed (with_timer1xx tx1 None) w1 InputRequest Completed r w2 m2).
  - by rewrite (answer_logged _ _ _ _ Hs2), (answer_logged _ _ _ _ Hs1), <- app_assoc.
  - by apply (spin_delete takes_done uuid rnd Spin).
  - apply delete_closed.
Qed.

Definition message_answer (code : StatusCode) : response :=
  mkResponse (keyed_message "MESSAGE" "z9hG4bKabc") code (StatusText code) [].

Lemma server_nonInvite_final_witness :
  exists tx1 w1 tx2 w2,
    SendResponse run_spin (Trying, (sample_server "MESSAGE", [])) (message_answer 200%N) = Ok ((Completed, (tx1, w1)), None)
    /\ Receive run_spin (Completed, (tx1, w1)) (MRequest (incoming "MESSAGE")) = Ok ((Completed, (tx2, w2)), None)
    /\ w2 = [MResponse (message_answer 200%N); MResponse (message_answer 200%N)].
Proof.
  destruct (server_nonInvite_final true (fun _ => "uuid") (fun _ => "rnd") run_spin run_spin_laws (fun _ => True)
    Trying (sample_server "MESSAGE") [] (message_answer 200%N) (incoming "MESSAGE"))
    as (tx1 & w1 & tx2 & w2 & H1 & _ & H2 & _ & H3 & _).
  - left. reflexivity.
  - reflexivity.
  - reflexivity.
  - vm_compute. reflexivity.
  - reflexivity.
  - intros w _. exists (w ++ [MResponse (message_answer 200%N)]), (MResponse (message_answer 200%N)).
    split; [reflexivity|exact I].
  - exact I.
  - exists tx1, w1, tx2, w2. split; [exact H1|]. split; [exact H2|exact H3].
Defined.

(** an answer given after the final one is not sent, but it replaces the stored
    response: the next retransmission of the request is then answered with the late
    response, so that the peer sees two different final responses. *)
Theorem server_late_answer {W : Type} `{TransportLayer W} (takes_done : bool)
    (uuid rnd : list Message -> string) (Spin : bool -> spin_type ServerState ServerInput (serverTx * W))
    (Hspin : forall b, FsmSpin (outcomes b) (perform takes_done uuid rnd) (Spin b))
    (tx : serverTx) (w w' : W) (late : response) (req : request) (m' : Message) :
  response_IsCancel late = false -> req_method req = req_method (origin (common tx)) ->
  Send w (MResponse late) = Ok (w', m', None) ->
  exists tx1 tx2, SendResponse Spin (Completed, (tx, w)) late = Ok ((Completed, (tx1, w)), None)
    /\ Receive Spin (Completed, (tx1, w)) (MRequest req) = Ok ((Completed, (tx2, w')), None)
    /\ sent w' = sent w ++ [MResponse late].
Proof.
  intros Hc Hm Hs. set (tx1 := with_timer1xx (with_common tx (set_lastResp (common tx) late)) None).
  exists tx1. eexists. split; [|split].
  - rewrite (SendResponse_spin Spin) by done.
    apply (spin_quiet takes_done uuid rnd Spin). unfold user_input.
    by destruct (IsProvisional late), (IsSuccess late), (tx_invite _).
  - unfold Receive. change (origin (common (with_timer1xx tx1 None))) with (origin (common tx)).
    rewrite (proj2 (String.eqb_eq _ _) Hm).
    apply (spin_respond takes_done uuid rnd Spin _ Completed _ w InputRequest Completed late w' m'); try done.
    by destruct (tx_invite _).
  - exact (answer_logged _ _ _ _ Hs).
Qed.

Lemma server_late_answer_witness :
  exists tx1 tx2, SendResponse run_spin (Completed, (sample_server "INVITE", [MResponse (sample_answer 486%N)])) (sample_answer 100%N)
      = Ok ((Completed, (tx1, [MResponse (sample_answer 486%N)])), None)
    /\ Receive run_spin (Completed, (tx1, [MResponse (sample_answer 486%N)])) (MRequest (incoming "INVITE"))
      = Ok ((Completed, (tx2, [MResponse (sample_answer 486%N); MResponse (sample_answer 100%N)])), None).
Proof.
  destruct (server_late_answer true (fun _ => "uuid") (fun _ => "rnd") run_spin run_spin_laws (sample_server "INVITE")
    [MResponse (sample_answer 486%N)] [MResponse (sample_answer 486%N); MResponse (sample_answer 100%N)]
    (sample_answer 100%N) (incoming "INVITE") (MResponse (sample_answer 100%N))) as (tx1 & tx2 & H1 & H2 & _);
    [vm_compute; reflexivity|reflexivity|reflexivity|].
  exists tx1, tx2. split; [exact H1|exact H2].
Defined.
