(* ===== verification/TxLayer.v ===== *)
(** * The transaction layer (transaction/transaction.go, tx_pool.go, session_pool.go)

    The pool of transactions, the store of sessions and the handlers of the layer.  The
    pools hold pointers: transactions and sessions are objects of heaps, and two objects may
    have the same key.  Here every handler is one step; in the program handlers interleave
    between their locks, which is the subject of TxHandlers.v and TxInterleave.v.  The
    goroutines of [serveTransaction] are the steps [forward_response], [forward_request] and
    [serve_end]; [layer_step] is the whole layer, one event at a time. *)

From S2P Require Import Prelude GoStrings Params Base Uri Header Headers Auth HeaderParse.
From S2P Require Import Message TxKey Transport Fsm TxCommon ClientTx ServerTx.
From Stdlib Require Import NArith ZArith Lia.

#[local] Open Scope string_scope.
#[local] Open Scope list_scope.

(** ** Transactions as objects *)

(** A transaction with the state of its machine. *)
Inductive Tx : Type :=
  | ClientTxn (s : ClientState) (tx : clientTx)
  | ServerTxn (s : ServerState) (tx : serverTx).

Definition Tx_common (t : Tx) : commonTx :=
  match t with ClientTxn _ tx => ClientTx.common tx | ServerTxn _ tx => ServerTx.common tx end.

Definition Tx_Key (t : Tx) : TxKey := key (Tx_common t).

(** The interface method [Close]. *)
Definition Tx_Close (t : Tx) : Tx :=
  match t with
  | ClientTxn s tx => ClientTxn s (ClientTx.delete tx)
  | ServerTxn s tx => ServerTxn s (ServerTx.delete tx)
  end.

(** ** The transaction pool *)

(** Identities of objects. *)
Abbreviation ref := nat (only parsing).

Definition transactionPool : Type := gmap TxKey ref.

Definition pool_put (store : transactionPool) (k : TxKey) (tx : ref) : transactionPool := <[k := tx]> store.
Definition pool_get (store : transactionPool) (k : TxKey) : option ref := store !! k.
Definition pool_drop (store : transactionPool) (k : TxKey) : transactionPool * bool :=
  match pool_get store k with
  | None => (store, false)
  | Some _ => (base.delete k store, true)
  end.

(** ** Events *)

Inductive client_timer : Set := TimerA | TimerB | TimerD.
Inductive server_timer : Set := TimerG | TimerH | TimerI | TimerJ.

Definition client_timer_input (t : client_timer) : ClientInput :=
  match t with TimerA => InputTimerA | TimerB => InputTimerB | TimerD => InputTimerD end.
Definition server_timer_input (t : server_timer) : ServerInput :=
  match t with
  | TimerG => InputTimerG | TimerH => InputTimerH | TimerI => InputTimerI | TimerJ => InputTimerJ
  end.

(** What happens to the layer: calls of the user, messages of the transport, progress of
    its goroutines, timers. *)
Inductive event : Type :=
  | EvSend (m : Message)
  | EvReceive (m : Message)
  | EvForward (i : ref)
  | EvEnd (i : ref)
  | EvClientTimer (i : ref) (t : client_timer)
  | EvServerTimer (i : ref) (t : server_timer)
  | EvTimer1xx (i : ref)
  | EvTxClose (i : ref)
  | EvSessionClose (i : ref)
  | EvSessionEnd (i : ref)
  | EvClose.

Section Layer.
Context {W : Type} `{TransportLayer W}.
(** The values of session attributes. *)
Variable A : Type.
(** The parameters of the transactions. *)
Variable takes_done : bool.
Variables uuid rnd : list Message -> string.
Variable ClientSpin : bool -> spin_type ClientState ClientInput (clientTx * W).
Variable ServerSpin : bool -> spin_type ServerState ServerInput (serverTx * W).

(** ** The session pool *)

(** [sessions] are the sessions made so far, by reference; whoever got one from the pool
    keeps it when the pool no longer refers to it.  [sessionList] is the map of the pool,
    and [listening] are the sessions whose goroutine has not returned. *)
Record sessionPool := mkSessionPool {
  sessions : list (session A);
  sessionList : gmap string ref;
  listening : gset ref
}.

Definition createSessionPool : sessionPool := mkSessionPool [] ∅ ∅.

Definition session_ref (store : sessionPool) (k : string) : option ref := sessionList store !! k.
Definition session_get (store : sessionPool) (k : string) : option (session A) :=
  i ← session_ref store k; sessions store !! i.

(** A method call on a session. *)
Definition on_session (f : session A -> session A) (store : sessionPool) (i : ref) : sessionPool :=
  mkSessionPool (alter f i (sessions store)) (sessionList store) (listening store).

(** A session that was there under this key is replaced, and not closed. *)
Definition session_put (store : sessionPool) (k : string) (s : session A) : sessionPool :=
  let i := length (sessions store) in
  mkSessionPool (sessions store ++ [s]) (<[k := i]> (sessionList store)) ({[i]} ∪ listening store).

(** [drop] closes the session that is there under the key before it leaves the pool. *)
Definition session_drop (store : sessionPool) (k : string) : sessionPool :=
  let store := match session_ref store k with
               | Some i => on_session (session_Close A) store i
               | None => store
               end in
  mkSessionPool (sessions store) (base.delete k (sessionList store)) (listening store).

(** The goroutine of a session waits for it to be closed; then it drops whatever is in the
    pool under its key. *)
Definition listenSession (store : sessionPool) (i : ref) : sessionPool :=
  match sessions store !! i with
  | Some s =>
      if bool_decide (i ∈ listening store) && s_closed A s then
        let store := session_drop store (skey A s) in
        mkSessionPool (sessions store) (sessionList store) (listening store ∖ {[i]})
      else store
  | None => store
  end.

(** ** The layer

    [heap] holds the transactions made so far, the next one gets the reference
    [length heap].  [serving] are the transactions whose goroutine waits for their end;
    [forwarded] counts, for those whose channel is read, the responses or requests handed
    on.  [ups] and [ups_resp] are what was put on the channels to the user, each message
    with the transaction that [SetTransaction] stored in it. *)
Record layer := mkLayer {
  tpl : W;
  heap : list Tx;
  transactions : transactionPool;
  sessionStore : sessionPool;
  ups : list (request * option ref);
  ups_resp : list (response * option ref);
  serving : gset ref;
  forwarded : gmap ref nat;
  canceled : bool
}.

Definition CreateLayer (w : W) : layer := mkLayer w [] ∅ createSessionPool [] [] ∅ ∅ false.

Definition set_tpl (l : layer) (w : W) : layer :=
  mkLayer w (heap l) (transactions l) (sessionStore l) (ups l) (ups_resp l) (serving l) (forwarded l) (canceled l).
Definition set_heap (l : layer) (h : list Tx) : layer :=
  mkLayer (tpl l) h (transactions l) (sessionStore l) (ups l) (ups_resp l) (serving l) (forwarded l) (canceled l).
Definition set_pool (l : layer) (p : transactionPool) : layer :=
  mkLayer (tpl l) (heap l) p (sessionStore l) (ups l) (ups_resp l) (serving l) (forwarded l) (canceled l).
Definition set_sessions (l : layer) (p : sessionPool) : layer :=
  mkLayer (tpl l) (heap l) (transactions l) p (ups l) (ups_resp l) (serving l) (forwarded l) (canceled l).
Definition pass_up (l : layer) (r : request) (tx : option ref) : layer :=
  mkLayer (tpl l) (heap l) (transactions l) (sessionStore l) (ups l ++ [(r, tx)]) (ups_resp l) (serving l)
    (forwarded l) (canceled l).
Definition pass_up_resp (l : layer) (r : response) (tx : option ref) : layer :=
  mkLayer (tpl l) (heap l) (transactions l) (sessionStore l) (ups l) (ups_resp l ++ [(r, tx)]) (serving l)
    (forwarded l) (canceled l).
Definition set_serving (l : layer) (s : gset ref) (f : gmap ref nat) : layer :=
  mkLayer (tpl l) (heap l) (transactions l) (sessionStore l) (ups l) (ups_resp l) s f (canceled l).

Definition Close (l : layer) : layer :=
  mkLayer (tpl l) (heap l) (transactions l) (sessionStore l) (ups l) (ups_resp l) (serving l) (forwarded l) true.

(** *** Sessions *)

Definition updateSession (l : layer) (req : request) : res layer :=
  k ← DialogId (req_msg req);
  match session_ref (sessionStore l) k with
  | Some i => mret (set_sessions l (on_session (SeqAtom A) (sessionStore l) i))
  | None => mret l
  end.

Definition handleSession (l : layer) (method : RequestMethod) (resp : response) : res layer :=
  if IsSuccess resp then
    if String.eqb method BYE then
      k ← DialogId (res_msg resp);
      mret (set_sessions l (session_drop (sessionStore l) k))
    else if String.eqb method INVITE then
      k ← DialogId (res_msg resp);
      s ← SaveMessage A (CreateSession A k) (res_msg resp);
      mret (set_sessions l (session_put (sessionStore l) k s))
    else mret l
  else mret l.

(** *** Matching *)

(** The object behind a key. *)
Definition lookup_tx (l : layer) (k : TxKey) : option (ref * Tx) :=
  i ← pool_get (transactions l) k; t ← heap l !! i; Some (i, t).

(** The error texts all say that no transaction was found. *)
Definition getClientTx (l : layer) (msg : message) : res (ref * (ClientState * clientTx)) :=
  k ← MakeClientTxKey msg;
  match lookup_tx l k with
  | Some (i, ClientTxn s tx) => mret (i, (s, tx))
  | Some (_, ServerTxn _ _) => Err "found %s is not a client transaction"
  | None => Err "transaction with key '%s' not found"
  end.

Definition getServerTx (l : layer) (msg : message) : res (ref * (ServerState * serverTx)) :=
  k ← MakeServerTxKey msg;
  match lookup_tx l k with
  | Some (i, ServerTxn s tx) => mret (i, (s, tx))
  | Some (_, ClientTxn _ _) => Err "found %s is not server transaction"
  | None => Err "transaction with key '%s' not found"
  end.

(** What an operation leaves in the object it was called on. *)
Definition store_client (l : layer) (i : ref) (c : ClientTx.config W) : layer :=
  let '(s, (tx, w)) := c in set_heap (set_tpl l w) (<[i := ClientTxn s tx]> (heap l)).
Definition store_server (l : layer) (i : ref) (c : ServerTx.config W) : layer :=
  let '(s, (tx, w)) := c in set_heap (set_tpl l w) (<[i := ServerTxn s tx]> (heap l)).

(** A new object. *)
Definition alloc (l : layer) (t : Tx) : layer * ref := (set_heap l (heap l ++ [t]), length (heap l)).

(** The goroutines that [serveTransaction] starts. *)
Definition serve (l : layer) (i : ref) : layer :=
  set_serving l ({[i]} ∪ serving l) (<[i := 0%nat]> (forwarded l)).

(** *** Sending *)

Definition sendRequest (l : layer) (req : request) : res (layer * option string) :=
  if canceled l then mret (l, Some "[txl_layer] -> transaction layer is canceled")
  else
    l ← updateSession l req;
    if request_IsAck req then
      '(w, _, err) ← Send (tpl l) (MRequest req);
      mret (set_tpl l w, err)
    else
      match NewClientTx (tpl l) req with
      | Err e => mret (l, Some e)
      | Panic k => Panic k
      | Ok tx =>
          let '(l, i) := alloc l (ClientTxn Calling tx) in
          let l := set_pool l (pool_put (transactions l) (key (ClientTx.common tx)) i) in
          '(c, err) ← ClientTx.Init ClientSpin tx (tpl l);
          let l := store_client l i c in
          match err with
          | Some _ => mret (l, err)
          | None => mret (serve l i, None)
          end
      end.

Definition sendResponse (l : layer) (r : response) : res (layer * option string) :=
  if canceled l then mret (l, Some "[txl_layer] -> transaction layer is canceled")
  else
    match getServerTx l (res_msg r) with
    | Err e => mret (l, Some e)
    | Panic k => Panic k
    | Ok (i, (s, tx)) =>
        l ← handleSession l (req_method (origin (ServerTx.common tx))) r;
        '(c, err) ← SendResponse ServerSpin (s, (tx, tpl l)) r;
        mret (store_server l i c, err)
    end.

Definition layer_Send (l : layer) (m : Message) : res (layer * option string) :=
  match m with MRequest r => sendRequest l r | MResponse r => sendResponse l r end.

(** What the interface offers beside [Send]: the callback is not used. *)
Definition AutoFillMessageHeaderAndSend {C : Type} (l : layer) (m : Message) (callback : C) : res (layer * option string) :=
  match m with MRequest r => sendRequest l r | MResponse r => sendResponse l r end.

Definition layer_Session (l : layer) (k : string) : option (session A) := session_get (sessionStore l) k.

(** *** Receiving *)

Definition handleRequest (l : layer) (req : request) : res layer :=
  if canceled l then mret l
  else
    l ← updateSession l req;
    match getServerTx l (req_msg req) with
    | Panic k => Panic k
    | Ok (i, (s, tx)) =>
        '(c, _) ← ServerTx.Receive ServerSpin (s, (tx, tpl l)) (MRequest req);
        mret (store_server l i c)
    | Err _ =>
        if request_IsAck req then mret (pass_up l req None)
        else if request_IsCancel req then
          r ← CreateResponse (uuid (sent (tpl l))) (rnd (sent (tpl l))) req 481%N;
          '(w, _, _) ← Send (tpl l) (MResponse r);
          mret (set_tpl l w)
        else
          match NewServerTx (tpl l) req with
          | Err _ => mret l
          | Panic k => Panic k
          | Ok tx =>
              let '(l, i) := alloc l (ServerTxn (first_state (ServerTx.tx_invite tx)) tx) in
              let l := set_pool l (pool_put (transactions l) (key (ServerTx.common tx)) i) in
              let l := store_server l i (ServerTx.Init tx (tpl l)) in
              mret (pass_up (serve l i) req (Some i))
          end
    end.

Definition handleResponse (l : layer) (r : response) : res layer :=
  if canceled l then mret l
  else
    match getClientTx l (res_msg r) with
    | Panic k => Panic k
    | Err _ => mret (pass_up_resp l r None)
    | Ok (i, (s, tx)) =>
        '(c, _) ← ClientTx.Receive ClientSpin (s, (tx, tpl l)) (MResponse r);
        mret (store_client l i c)
    end.

Definition handleMessage (l : layer) (m : Message) : res layer :=
  match m with
  | MRequest r => handleRequest l r
  | MResponse r => handleResponse l r
  end.

(** *** Serving a transaction *)

(** The reading goroutine hands the next response of a client transaction on. *)
Definition forward_response (l : layer) (i : ref) (tx : clientTx) (n : nat) : res layer :=
  match responses tx !! n with
  | Some r =>
      l ← handleSession l (req_method (origin (ClientTx.common tx))) r;
      mret (pass_up_resp (set_serving l (serving l) (<[i := S n]> (forwarded l))) r (Some i))
  | None => mret l
  end.

(** It hands the next ACK or CANCEL of a server transaction on; [Receive] has stored the
    transaction in it. *)
Definition forward_request (l : layer) (i : ref) (tx : serverTx) (n : nat) : layer :=
  match requests tx !! n with
  | Some r => pass_up (set_serving l (serving l) (<[i := S n]> (forwarded l))) r (Some i)
  | None => l
  end.

Definition forward (l : layer) (i : ref) : res layer :=
  match heap l !! i, forwarded l !! i with
  | Some (ClientTxn _ tx), Some n => forward_response l i tx n
  | Some (ServerTxn _ tx), Some n => mret (forward_request l i tx n)
  | _, _ => mret l
  end.

(** The end of [serveTransaction]: the transaction was closed, or the layer is canceled
    and closes it. *)
Definition serve_end (l : layer) (i : ref) : layer :=
  match heap l !! i with
  | Some t =>
      if decide (i ∈ serving l) then
        let dropped l := set_serving (set_pool l (pool_drop (transactions l) (Tx_Key t)).1)
                           (serving l ∖ {[i]}) (forwarded l) in
        if closed (Tx_common t) then dropped l
        else if canceled l then dropped (set_heap l (<[i := Tx_Close t]> (heap l)))
        else l
      else l
  | None => l
  end.

(** *** One event *)

Definition layer_step (l : layer) (ev : event) : res layer :=
  match ev with
  | EvSend m => '(l, _) ← layer_Send l m; mret l
  | EvReceive m => handleMessage l m
  | EvForward i => forward l i
  | EvEnd i => mret (serve_end l i)
  | EvClientTimer i t =>
      match heap l !! i with
      | Some (ClientTxn s tx) =>
          '(c, _) ← ClientSpin (ClientTx.tx_invite tx) (s, (tx, tpl l)) (client_timer_input t);
          mret (store_client l i c)
      | _ => mret l
      end
  | EvServerTimer i t =>
      match heap l !! i with
      | Some (ServerTxn s tx) =>
          '(c, _) ← ServerSpin (ServerTx.tx_invite tx) (s, (tx, tpl l)) (server_timer_input t);
          mret (store_server l i c)
      | _ => mret l
      end
  | EvTimer1xx i =>
      match heap l !! i with
      | Some (ServerTxn s tx) =>
          c ← timer1xx_fires uuid rnd ServerSpin (s, (tx, tpl l)); mret (store_server l i c)
      | _ => mret l
      end
  | EvTxClose i =>
      match heap l !! i with
      | Some t => mret (set_heap l (<[i := Tx_Close t]> (heap l)))
      | None => mret l
      end
  | EvSessionClose i => mret (set_sessions l (on_session (session_Close A) (sessionStore l) i))
  | EvSessionEnd i => mret (set_sessions l (listenSession (sessionStore l) i))
  | EvClose => mret (Close l)
  end.

Definition layer_run (l : layer) (evs : list event) : res layer :=
  foldl (fun r ev => l ← r; layer_step l ev) (mret l) evs.

End Layer.

#[global] Arguments layer : clear implicits.

(** ** The invariant of the layer *)

(** A client transaction keeps its own invariant; either kind has the key of its request. *)
Definition tx_ok (t : Tx) : Prop :=
  match t with
  | ClientTxn s tx => exists r0, client_inv r0 (key (ClientTx.common tx)) s tx
  | ServerTxn _ tx => MakeServerTxKey (req_msg (origin (ServerTx.common tx))) = Ok (key (ServerTx.common tx))
  end.

(** The objects of the heap are in order; the pool refers to objects under their keys, and
    so do the goroutines. *)
Record layer_ok {W A} (l : layer W A) : Prop := {
  ok_heap : forall i t, heap A l !! i = Some t -> tx_ok t;
  ok_pool : forall k i, transactions A l !! k = Some i -> Tx_Key <$> heap A l !! i = Some k;
  ok_serving : forall i, i ∈ serving A l -> is_Some (heap A l !! i)
}.

(** Two layers that differ in other things than transactions. *)
Record same_txs {W A} (l l' : layer W A) : Prop := {
  same_heap : heap A l' = heap A l;
  same_pool : transactions A l' = transactions A l;
  same_serving : serving A l' = serving A l
}.

Lemma pool_get_drop store k : pool_get (pool_drop store k).1 k = None.
Proof.
  unfold pool_drop. destruct (pool_get store k) eqn:E; [|exact E]. exact (lookup_delete_eq (M := gmap TxKey) _ _).
Qed.

Lemma insert_last {B} (h : list B) x y : <[length h := y]> (h ++ [x]) = h ++ [y].
Proof. by rewrite insert_app_r_alt, Nat.sub_diag by lia. Qed.

Section Frames.
Context {W A : Type} `{TransportLayer W}.
Implicit Types l : layer W A.

#[export] Instance same_txs_pre : PreOrder (@same_txs W A).
Proof. split; [by split|]. intros l1 l2 l3 [] []. split; congruence. Qed.

Lemma same_txs_ok l l' : same_txs l l' -> layer_ok l -> layer_ok l'.
Proof. intros [Hh Hp Hs] [O1 O2 O3]. split; rewrite ?Hh, ?Hp, ?Hs; done. Qed.

(** Sessions do not touch transactions. *)
Lemma updateSession_same l req l' :
  updateSession A l req = Ok l' ->
  same_txs l l' /\ tpl A l' = tpl A l /\ ups A l' = ups A l /\ canceled A l' = canceled A l.
Proof.
  unfold updateSession. destruct (DialogId (req_msg req)) as [k| |]; try done. cbn.
  destruct (session_ref A (sessionStore A l) k); by intros [= <-].
Qed.

Lemma handleSession_same l method r l' :
  handleSession A l method r = Ok l' ->
  same_txs l l' /\ tpl A l' = tpl A l /\ ups A l' = ups A l /\ canceled A l' = canceled A l.
Proof.
  unfold handleSession. destruct (IsSuccess r); [|by intros [= <-]].
  destruct (String.eqb method BYE); [|destruct (String.eqb method INVITE); [|by intros [= <-]]].
  - destruct (DialogId (res_msg r)); try done. by intros [= <-].
  - destruct (DialogId (res_msg r)) as [k| |]; try done. cbn.
    destruct (SaveMessage A (CreateSession A k) (res_msg r)); try done. by intros [= <-].
Qed.

Lemma lookup_tx_inv l k i t :
  lookup_tx A l k = Some (i, t) <-> transactions A l !! k = Some i /\ heap A l !! i = Some t.
Proof.
  unfold lookup_tx, pool_get. destruct (transactions A l !! k) as [j|]; cbn; [|naive_solver].
  destruct (heap A l !! j) as [u|] eqn:E; cbn; naive_solver.
Qed.

Lemma getClientTx_inv l m i s tx :
  getClientTx A l m = Ok (i, (s, tx)) <->
  exists k, MakeClientTxKey m = Ok k /\ lookup_tx A l k = Some (i, ClientTxn s tx).
Proof.
  unfold getClientTx. split.
  - destruct (MakeClientTxKey m) as [k| |]; try done. cbn.
    destruct (lookup_tx A l k) as [[j [s' tx'|]]|] eqn:E; try done. intros [= <- <- <-]. eauto.
  - intros (k & -> & Hl). cbn. by rewrite Hl.
Qed.

Lemma getServerTx_inv l m i s tx :
  getServerTx A l m = Ok (i, (s, tx)) <->
  exists k, MakeServerTxKey m = Ok k /\ lookup_tx A l k = Some (i, ServerTxn s tx).
Proof.
  unfold getServerTx. split.
  - destruct (MakeServerTxKey m) as [k| |]; try done. cbn.
    destruct (lookup_tx A l k) as [[j [|s' tx']]|] eqn:E; try done. intros [= <- <- <-]. eauto.
  - intros (k & -> & Hl). cbn. by rewrite Hl.
Qed.

(** An object is replaced by one with the same key. *)
Lemma update_ok l l' i t t' :
  layer_ok l -> heap A l !! i = Some t -> tx_ok t' -> Tx_Key t' = Tx_Key t ->
  heap A l' = <[i := t']> (heap A l) -> transactions A l' = transactions A l ->
  serving A l' ⊆ serving A l -> layer_ok l'.
Proof.
  intros [O1 O2 O3] Ht Hok Hk Hh Hp Hs.
  assert (Hl : forall j, heap A l' !! j = if decide (j = i) then Some t' else heap A l !! j).
  { intros j. rewrite Hh. case_decide as Hj.
    - subst. apply list_lookup_insert_eq. by eapply lookup_lt_Some.
    - by apply list_lookup_insert_ne. }
  split.
  - intros j u. rewrite Hl. case_decide; [by intros [= <-]|apply O1].
  - intros k j. rewrite Hp, Hl. intros Hj. case_decide as Hji; [subst|by apply O2].
    specialize (O2 _ _ Hj). rewrite Ht in O2. cbn in *. by rewrite Hk.
  - intros j Hj. rewrite Hl. case_decide; [done|]. apply O3. set_solver.
Qed.

(** An object is made and put into the pool. *)
Lemma create_ok l l' t :
  layer_ok l -> tx_ok t -> heap A l' = heap A l ++ [t] ->
  transactions A l' = <[Tx_Key t := length (heap A l)]> (transactions A l) ->
  serving A l' ⊆ {[length (heap A l)]} ∪ serving A l -> layer_ok l'.
Proof.
  intros [O1 O2 O3] Hok Hh Hp Hs.
  assert (Hnew : heap A l' !! length (heap A l) = Some t) by (rewrite Hh; by apply list_lookup_middle).
  assert (Hold : forall j u, heap A l !! j = Some u -> heap A l' !! j = Some u)
    by (intros j u Hu; rewrite Hh; by apply lookup_app_l_Some).
  split.
  - intros i u. rewrite Hh. intros [Hu|[_ Hu]]%lookup_app_Some; [by eapply O1|].
    apply list_lookup_singleton_Some in Hu as [_ <-]. done.
  - intros k i. rewrite Hp. intros [[<- <-]|[_ Hi]]%lookup_insert_Some; [by rewrite Hnew|].
    specialize (O2 _ _ Hi). apply fmap_Some in O2 as (u & Hu & ->). by rewrite (Hold _ _ Hu).
  - intros i Hi. apply Hs in Hi. apply elem_of_union in Hi as [->%elem_of_singleton|Hi]; [by rewrite Hnew|].
    destruct (O3 _ Hi) as [u Hu]. by rewrite (Hold _ _ Hu).
Qed.

(** The pool loses an entry. *)
Lemma drop_ok l l' k :
  layer_ok l -> heap A l' = heap A l -> transactions A l' = (pool_drop (transactions A l) k).1 ->
  serving A l' ⊆ serving A l -> layer_ok l'.
Proof.
  intros [O1 O2 O3] Hh Hp Hs. split.
  - rewrite Hh. apply O1.
  - intros k' i. rewrite Hh, Hp. unfold pool_drop. destruct (pool_get _ k); [|apply O2].
    cbn [fst]. intros [_ Hi]%lookup_delete_Some. by apply O2.
  - intros i Hi. rewrite Hh. apply O3. set_solver.
Qed.

End Frames.

(** *** Every operation keeps it *)

Section Invariant.
Context {W : Type} `{TransportLayer W}.
Variable A : Type.
Variable takes_done : bool.
Variables uuid rnd : list Message -> string.
Variable ClientSpin : bool -> spin_type ClientState ClientInput (clientTx * W).
Variable ServerSpin : bool -> spin_type ServerState ServerInput (serverTx * W).
Context {Hclient : forall b, FsmSpin (ClientTx.outcomes b) (ClientTx.perform takes_done uuid rnd) (ClientSpin b)}.
Context {Hserver : forall b, FsmSpin (ServerTx.outcomes b) (ServerTx.perform takes_done uuid rnd) (ServerSpin b)}.

#[local] Abbreviation hRequest := (handleRequest A uuid rnd ServerSpin).
#[local] Abbreviation hResponse := (handleResponse A ClientSpin).
#[local] Abbreviation sRequest := (sendRequest A ClientSpin).
#[local] Abbreviation sResponse := (sendResponse A ServerSpin).
#[local] Abbreviation step := (layer_step A uuid rnd ClientSpin ServerSpin).
#[local] Abbreviation run := (layer_run A uuid rnd ClientSpin ServerSpin).
Implicit Types l : layer W A.

(** What an operation that makes no transaction does to the others: nothing, an object is
    replaced by one with the same key, or a goroutine ends and its key leaves the pool. *)
Inductive change l l' : Prop :=
  | change_same : same_txs l l' -> change l l'
  | change_update i t t' :
      heap A l !! i = Some t -> tx_ok t' -> Tx_Key t' = Tx_Key t ->
      heap A l' = <[i := t']> (heap A l) -> transactions A l' = transactions A l ->
      serving A l' = serving A l -> change l l'
  | change_end i t t' :
      i ∈ serving A l -> heap A l !! i = Some t -> tx_ok t' -> Tx_Key t' = Tx_Key t ->
      heap A l' = <[i := t']> (heap A l) ->
      transactions A l' = (pool_drop (transactions A l) (Tx_Key t)).1 -> serving A l' ⊆ serving A l ->
      change l l'.

Lemma change_ok l l' : layer_ok l -> change l l' -> layer_ok l'.
Proof.
  intros Hok [Hs|i t t' Ht Ho Hk Hh Hp Hs|i t t' _ Ht Ho Hk Hh Hp Hs].
  - by eapply same_txs_ok.
  - by apply (update_ok l l' i t t'); rewrite ?Hs.
  - set (l1 := set_heap A l (<[i := t']> (heap A l))).
    assert (Hok1 : layer_ok l1) by by apply (update_ok l l1 i t t').
    by apply (drop_ok l1 l' (Tx_Key t)).
Qed.

(** A step of this kind keeps the entry of a key that no goroutine serves. *)
Definition unserved (k : TxKey) l : Prop :=
  forall j, j ∈ serving A l -> Tx_Key <$> heap A l !! j <> Some k.

Lemma insert_keys (h : list Tx) i t t' j :
  h !! i = Some t -> Tx_Key t' = Tx_Key t -> Tx_Key <$> <[i := t']> h !! j = Tx_Key <$> h !! j.
Proof.
  intros Ht Hk. destruct (decide (j = i)) as [->|Hj]; [|by rewrite list_lookup_insert_ne].
  rewrite list_lookup_insert_eq by (by eapply lookup_lt_Some). rewrite Ht. cbn. by rewrite Hk.
Qed.

Lemma change_unserved l l' k i :
  change l l' -> transactions A l !! k = Some i -> unserved k l ->
  transactions A l' !! k = Some i /\ unserved k l'.
Proof.
  intros [[Hh Hp Hs]|j t t' Ht _ Hk Hh Hp Hs|j t t' Hj Ht _ Hk Hh Hp Hs] Hi Hu; unfold unserved; rewrite Hh, Hp.
  - by rewrite Hs.
  - split; [done|]. intros n Hn. rewrite (insert_keys _ _ _ _ _ Ht Hk). apply Hu. by rewrite <- Hs.
  - split.
    + unfold pool_drop. destruct (pool_get _ _); [|done]. cbn [fst]. apply lookup_delete_Some. split; [|done].
      intros <-. apply (Hu j Hj). by rewrite Ht.
    + intros n Hn. rewrite (insert_keys _ _ _ _ _ Ht Hk). apply Hu. set_solver.
Qed.

(** Operations on one object. *)
Lemma client_step l i s tx s' tx' w' :
  layer_ok l -> heap A l !! i = Some (ClientTxn s tx) ->
  (forall r0 k, client_inv r0 k s tx -> client_inv r0 k s' tx') ->
  change l (store_client A l i (s', (tx', w'))).
Proof.
  intros Hok Ht Hi. destruct (ok_heap _ Hok _ _ Ht) as [r0 I]. specialize (Hi _ _ I).
  pose proof (inv_key _ _ _ _ Hi) as Hk.
  apply (change_update _ _ i _ (ClientTxn s' tx') Ht); [|exact Hk|done..].
  exists r0. by rewrite Hk.
Qed.

Lemma server_step l l1 i s tx s' tx' w' :
  layer_ok l -> same_txs l l1 -> heap A l !! i = Some (ServerTxn s tx) ->
  same_identity (ServerTx.common tx) (tx', w') -> change l (store_server A l1 i (s', (tx', w'))).
Proof.
  intros Hok [Hh Hp Hs] Ht [Hk Ho]. pose proof (ok_heap _ Hok _ _ Ht) as Hm. cbn in *.
  apply (change_update _ _ i _ (ServerTxn s' tx') Ht); cbn; rewrite ?Hh; try done.
  by rewrite Hk, Ho.
Qed.

Lemma Tx_Close_ok t : tx_ok t -> tx_ok (Tx_Close t) /\ Tx_Key (Tx_Close t) = Tx_Key t.
Proof.
  destruct t as [s tx|s tx]; cbn.
  - intros [r0 I]. unfold ClientTx.delete, Tx_Key. cbn. destruct (closed (ClientTx.common tx)) eqn:E; [eauto|].
    cbn. split; [|done]. exists r0. destruct I. by split.
  - unfold ServerTx.delete, Tx_Key. cbn. by destruct (closed (ServerTx.common tx)).
Qed.

Lemma sendRequest_ok l req l' e : layer_ok l -> sRequest l req = Ok (l', e) -> layer_ok l'.
Proof.
  intros Hp. unfold sendRequest. destruct (canceled A l); [by intros [= <- _]|].
  destruct (updateSession A l req) as [l1| |] eqn:Eu; try done. cbn [mbind res_bind].
  apply updateSession_same in Eu as (Et & _).
  assert (Hp1 : layer_ok l1) by by eapply same_txs_ok.
  destruct (request_IsAck req).
  { destruct (Send _ _) as [[[w ?] ?]| |]; try done. intros [= <- _]. by apply (same_txs_ok l1). }
  destruct (NewClientTx (tpl A l1) req) as [tx| |] eqn:En; [|by intros [= <- _]|done].
  cbn [alloc tpl set_heap set_pool].
  destruct (ClientTx.Init ClientSpin tx (tpl A l1)) as [[[s [tx' w']] err]| |] eqn:Ei; try done. cbn [mbind res_bind].
  destruct (Init_inv takes_done uuid rnd ClientSpin req _ _ _ _ _ _ En Ei) as (k & Hk & I).
  apply NewClientTx_spec in En as (k0 & rel & Hk0 & Etx).
  assert (k0 = k) as -> by congruence. pose proof (inv_key _ _ _ _ I) as Hk'.
  set (l2 := store_client A _ _ _).
  assert (Hok : layer_ok l2).
  { apply (create_ok l1 l2 (ClientTxn s tx')); [done|exists req; by rewrite Hk'| | |cbn; set_solver].
    - apply insert_last.
    - cbn. unfold pool_put, Tx_Key. cbn. by rewrite Hk', Etx. }
  destruct err; intros H1; apply (inj Ok) in H1; injection H1 as <- _; [done|].
  apply (create_ok l1 _ (ClientTxn s tx')); [done|exists req; by rewrite Hk'| | |cbn; set_solver].
  - apply insert_last.
  - cbn. unfold pool_put, Tx_Key. cbn. by rewrite Hk', Etx.
Qed.

Lemma sendResponse_change l r l' e : layer_ok l -> sResponse l r = Ok (l', e) -> change l l'.
Proof.
  intros Hp. unfold sendResponse. destruct (canceled A l); [intros [= <- _]; by apply change_same|].
  destruct (getServerTx A l (res_msg r)) as [[i [s tx]]| |] eqn:Eg; [|intros [= <- _]; by apply change_same|done].
  apply getServerTx_inv in Eg as (k & _ & [_ Ht]%lookup_tx_inv).
  destruct (handleSession A l _ r) as [l1| |] eqn:Eh; try done. cbn [mbind res_bind].
  apply handleSession_same in Eh as (Et & Ew & _).
  destruct (SendResponse ServerSpin _ r) as [[[s' [tx' w']] err]| |] eqn:Es; try done. intros [= <- _].
  apply (SendResponse_identity takes_done uuid rnd ServerSpin) in Es. by apply (server_step l l1 i s tx).
Qed.

Lemma handleRequest_ok l req l' : layer_ok l -> hRequest l req = Ok l' -> layer_ok l'.
Proof.
  intros Hp. unfold handleRequest. destruct (canceled A l); [by intros [= <-]|].
  destruct (updateSession A l req) as [l1| |] eqn:Eu; try done. cbn [mbind res_bind].
  apply updateSession_same in Eu as (Et & _).
  assert (Hp1 : layer_ok l1) by by eapply same_txs_ok.
  destruct (getServerTx A l1 (req_msg req)) as [[i [s tx]]| |] eqn:Eg; [| |done].
  - apply getServerTx_inv in Eg as (k & _ & [_ Ht]%lookup_tx_inv).
    destruct (ServerTx.Receive ServerSpin _ _) as [[[s' [tx' w']] err]| |] eqn:Es; try done. intros [= <-].
    apply (Receive_identity takes_done uuid rnd ServerSpin) in Es. 
    by apply (change_ok l1), (server_step l1 l1 i s tx).
  - destruct (request_IsAck req); [intros [= <-]; by apply (same_txs_ok l1)|]. destruct (request_IsCancel req).
    { destruct (CreateResponse _ _ req _) as [r| |]; try done. cbn.
      destruct (Send _ _) as [[[w ?] ?]| |]; try done. intros [= <-]. by apply (same_txs_ok l1). }
    destruct (NewServerTx (tpl A l1) req) as [tx| |] eqn:En; [|by intros [= <-]|done].
    destruct (Init_shape tx (tpl A l1)) as (tx' & Hinit & Hc & _). cbn [alloc tpl set_heap set_pool]. rewrite Hinit.
    intros H1; apply (inj Ok) in H1 as <-. apply NewServerTx_spec in En as (k & rel & Hk & Etx).
    apply (create_ok l1 _ (ServerTxn (first_state (tx_invite tx)) tx')); [done| | | |done].
    + cbn. by rewrite Hc, Etx.
    + apply insert_last.
    + cbn. unfold pool_put, Tx_Key. cbn. by rewrite Hc.
Qed.

(** *** One event *)

Lemma handleResponse_change l r l' : layer_ok l -> hResponse l r = Ok l' -> change l l'.
Proof.
  intros Hp. unfold handleResponse. destruct (canceled A l); [intros [= <-]; by apply change_same|].
  destruct (getClientTx A l (res_msg r)) as [[i [s tx]]| |] eqn:Eg;
    [|intros [= <-]; by apply change_same|done].
  apply getClientTx_inv in Eg as (k & _ & [_ Ht]%lookup_tx_inv).
  destruct (ClientTx.Receive ClientSpin _ _) as [[[s' [tx' w']] err]| |] eqn:Es; try done. intros [= <-].
  apply (client_step l i s tx); [done..|]. intros r0 k0 I. cbn in Es.
  by eapply (response_inv takes_done uuid rnd ClientSpin r0).
Qed.

Lemma forward_change l i l' : forward A l i = Ok l' -> change l l'.
Proof.
  unfold forward. intros Hf. apply change_same. revert Hf.
  destruct (heap A l !! i) as [[s tx|s tx]|]; [| |by intros [= <-]];
    (destruct (forwarded A l !! i) as [n|]; [|by intros [= <-]]).
  - unfold forward_response. destruct (responses tx !! n) as [r|]; [|by intros [= <-]].
    destruct (handleSession A l _ r) as [l1| |] eqn:Eh; try done. intros [= <-].
    apply handleSession_same in Eh as (Et & _). by destruct Et; split.
  - intros [= <-]. unfold forward_request. by destruct (requests tx !! n).
Qed.

Lemma serve_end_change l i : layer_ok l -> change l (serve_end A l i).
Proof.
  intros Hp. unfold serve_end. destruct (heap A l !! i) as [t|] eqn:Ht; [|by apply change_same].
  pose proof (ok_heap _ Hp _ _ Ht) as Hok.
  case_decide as Hi; [|by apply change_same].
  destruct (closed (Tx_common t)); [|destruct (canceled A l); [|by apply change_same]].
  - apply (change_end _ _ i t t); cbn; try done; [by rewrite list_insert_id|set_solver].
  - destruct (Tx_Close_ok t Hok). apply (change_end _ _ i t (Tx_Close t)); cbn; try done. set_solver.
Qed.

(** Events that make no transaction. *)
Definition makes_none (ev : event) : bool :=
  match ev with EvSend (MRequest _) | EvReceive (MRequest _) => false | _ => true end.

Lemma step_change l ev l' : layer_ok l -> makes_none ev = true -> step l ev = Ok l' -> change l l'.
Proof.
  intros Hp. destruct ev as [[m|m]|[m|m]|i|i|i t|i t|i|i|k|k|]; cbn [layer_step makes_none layer_Send handleMessage];
    try done; intros _.
  - intros ([l1 e] & Hs & [= <-])%bind_ok. by eapply sendResponse_change.
  - by apply handleResponse_change.
  - by apply forward_change.
  - intros [= <-]. by apply serve_end_change.
  - destruct (heap A l !! i) as [[s tx|]|] eqn:Ht; [|intros [= <-]; by apply change_same..].
    destruct (ClientSpin _ _ _) as [[[s' [tx' w']] e]| |] eqn:Es; try done. intros [= <-].
    apply (client_step l i s tx); [done..|]. intros r0 k0 I.
    eapply (timer_inv takes_done uuid rnd ClientSpin r0); [|exact I|exact Es].
    apply list_elem_of_In. destruct t; cbn; auto.
  - destruct (heap A l !! i) as [[|s tx]|] eqn:Ht; [intros [= <-]; by apply change_same| |intros [= <-]; by apply change_same].
    destruct (ServerSpin _ _ _) as [[[s' [tx' w']] e]| |] eqn:Es; try done. intros [= <-].
    apply (server_step l l i s tx); [done..|].
    by eapply (spin_identity takes_done uuid rnd ServerSpin (ServerTx.common tx)) in Es.
  - destruct (heap A l !! i) as [[|s tx]|] eqn:Ht; [intros [= <-]; by apply change_same| |intros [= <-]; by apply change_same].
    intros ([s' [tx' w']] & Es & [= <-])%bind_ok. apply (server_step l l i s tx); [done..|]. unfold timer1xx_fires in Es.
    apply bind_ok in Es as (r & _ & Es). apply bind_ok in Es as ([c e] & Es & [= ->]).
    by eapply (SendResponse_identity takes_done uuid rnd ServerSpin).
  - destruct (heap A l !! i) as [t|] eqn:Ht; intros [= <-]; [|by apply change_same].
    destruct (Tx_Close_ok t (ok_heap _ Hp _ _ Ht)). by apply (change_update _ _ i t (Tx_Close t)).
  - intros [= <-]. by apply change_same.
  - intros [= <-]. by apply change_same.
  - intros [= <-]. by apply change_same.
Qed.

Lemma step_ok l ev l' : layer_ok l -> step l ev = Ok l' -> layer_ok l'.
Proof.
  intros Hp Hs. destruct (makes_none ev) eqn:Hm.
  - eapply change_ok; [done|by eapply step_change].
  - destruct ev as [[m|m]|[m|m]| | | | | | | | | ]; try done; cbn in Hs.
    + apply bind_ok in Hs as ([l1 e] & Hs & [= <-]). by eapply sendRequest_ok.
    + by eapply handleRequest_ok.
Qed.

Lemma run_cons l ev evs l' : run l (ev :: evs) = Ok l' -> exists l1, step l ev = Ok l1 /\ run l1 evs = Ok l'.
Proof.
  unfold layer_run. cbn. destruct (step l ev) as [l1| |]; [eauto| |];
    (intros H1; exfalso; revert H1; by induction evs).
Qed.

Lemma run_ok l evs l' : layer_ok l -> run l evs = Ok l' -> layer_ok l'.
Proof.
  revert l. induction evs as [|ev evs IH]; intros l Hp; [by intros [= <-]|].
  intros (l1 & Hs & Hr)%run_cons. eapply IH; [by eapply step_ok|done].
Qed.

Lemma run_unserved l evs l' k i :
  layer_ok l -> forallb makes_none evs = true -> run l evs = Ok l' ->
  transactions A l !! k = Some i -> unserved k l -> transactions A l' !! k = Some i.
Proof.
  revert l. induction evs as [|ev evs IH]; intros l Hp; cbn; [by intros _ [= <-]|].
  intros [Hev Hevs]%andb_prop (l1 & Hs & Hr)%run_cons Hi Hu.
  destruct (change_unserved _ _ _ _ (step_change _ _ _ Hp Hev Hs) Hi Hu) as [Hi1 Hu1].
  eapply (IH l1); [by eapply step_ok|done..].
Qed.

End Invariant.

(** *** The start and the end of the layer *)

Section Ending.
Context {W A : Type}.
Implicit Types l : layer W A.

Lemma CreateLayer_ok (w : W) : layer_ok (CreateLayer A w).
Proof. split; cbn; [by intros ? ?|by intros ? ?|set_solver]. Qed.

Lemma serve_end_heap l i :
  length (heap A (serve_end A l i)) = length (heap A l) /\ canceled A (serve_end A l i) = canceled A l.
Proof.
  unfold serve_end. destruct (heap A l !! i) as [t|]; [|done]. case_decide; [|done].
  destruct (closed (Tx_common t)); [done|]. destruct (canceled A l) eqn:Hc; [|by rewrite Hc]. cbn. by rewrite length_insert.
Qed.

Lemma Tx_Close_closed t : closed (Tx_common (Tx_Close t)) = true.
Proof. destruct t as [s tx|s tx]; cbn; unfold ClientTx.delete, ServerTx.delete; by case_match. Qed.

(** On a canceled layer the goroutine of [i] ends and its transaction is closed. *)
Lemma serve_end_canceled l i :
  canceled A l = true -> is_Some (heap A l !! i) ->
  serving A (serve_end A l i) = serving A l ∖ {[i]}
  /\ (forall j t, heap A (serve_end A l i) !! j = Some t ->
        closed (Tx_common t) = true \/ (heap A l !! j = Some t /\ (j = i -> i ∉ serving A l))).
Proof.
  intros Hc [t Ht]. unfold serve_end. rewrite Ht, Hc. case_decide as Hi; [|set_solver].
  destruct (closed (Tx_common t)) eqn:Hcl; cbn; (split; [done|]); intros j u Hu.
  - destruct (decide (j = i)) as [->|Hj]; [left; congruence|right; naive_solver].
  - destruct (decide (j = i)) as [->|Hj].
    + rewrite list_lookup_insert_eq in Hu by (by eapply lookup_lt_Some).
      injection Hu as <-. left. apply Tx_Close_closed.
    + rewrite list_lookup_insert_ne in Hu by done. right. naive_solver.
Qed.

Definition end_all l (js : list ref) : layer W A := foldl (serve_end A) l js.

Lemma end_all_canceled_flag js l : canceled A (end_all l js) = canceled A l.
Proof.
  revert l. induction js as [|j js IH]; intros l; [done|]. cbn. fold (end_all (serve_end A l j) js).
  rewrite IH. apply serve_end_heap.
Qed.

Lemma run_ends `{TransportLayer W} uuid rnd ClientSpin ServerSpin js l :
  layer_run A uuid rnd ClientSpin ServerSpin l (EvClose :: map EvEnd js) = Ok (end_all (Close A l) js).
Proof.
  unfold layer_run. cbn. generalize (Close A l). induction js as [|j js IH]; intros l1; [done|]. cbn. apply IH.
Qed.

Lemma end_all_canceled js l :
  canceled A l = true -> (forall i, i ∈ js -> is_Some (heap A l !! i)) ->
  serving A (end_all l js) = serving A l ∖ list_to_set js
  /\ (forall j t, heap A (end_all l js) !! j = Some t ->
        closed (Tx_common t) = true \/ (heap A l !! j = Some t /\ (j ∈ js -> j ∉ serving A l))).
Proof.
  revert l. induction js as [|i js IH]; intros l Hc Hs.
  { split; [cbn; set_solver|]. intros j t Ht. right. split; [done|]. by intros ?%not_elem_of_nil. }
  assert (Hi : is_Some (heap A l !! i)) by (apply Hs; set_solver).
  destruct (serve_end_canceled l i Hc Hi) as [S1 H1].
  destruct (serve_end_heap l i) as [Hl Hc1].
  destruct (IH (serve_end A l i)) as [S2 H2]; [congruence| |].
  { intros j Hj. apply lookup_lt_is_Some. rewrite Hl. apply lookup_lt_is_Some. apply Hs. set_solver. }
  cbn. split; [fold (end_all (serve_end A l i) js); rewrite S2, S1; set_solver|].
  intros j t Ht. destruct (H2 j t Ht) as [?|[Ht1 Hj1]]; [auto|].
  destruct (H1 j t Ht1) as [?|[Ht0 Hj0]]; [auto|]. right. split; [done|].
  intros [->|Hj]%elem_of_cons; [by apply Hj0|]. specialize (Hj1 Hj). rewrite S1 in Hj1.
  destruct (decide (j = i)) as [->|]; [by apply Hj0|]. set_solver.
Qed.

End Ending.

(** *** Identifiers of dialogs *)

Section Dialogs.
Context {W A : Type}.
Implicit Types l : layer W A.

(** The headers of a message that name its dialog, and their tags. *)
Record in_dialog (m : message) (c : string) (f t : AddressHeader) (ft tt : MaybeString) : Prop := {
  dlg_call : headers_CallID (msg_headers m) = Some c;
  dlg_from : headers_From (msg_headers m) = Some f;
  dlg_to : headers_To (msg_headers m) = Some t;
  dlg_ftag : exists ps, HParams f = Some ps /\ default None (Get ps "tag") = ft;
  dlg_ttag : exists ps, HParams t = Some ps /\ default None (Get ps "tag") = tt
}.

Definition dialog_key (c : string) (ft tt : MaybeString) : string :=
  c +:+ "#" +:+ sprint_maybe ft +:+ "#" +:+ sprint_maybe tt.

Lemma in_dialog_key m c f t ft tt : in_dialog m c f t ft tt -> DialogId m = Ok (dialog_key c ft tt).
Proof.
  intros [Hc Hf Ht (fp & Hfp & <-) (tp & Htp & <-)]. by rewrite (DialogId_eq m c f t fp tp).
Qed.

Definition no_hash (v : MaybeString) : bool := sforall (fun a => negb (Ascii.eqb "#" a)) (sprint_maybe v).

Lemma sapp_cancel_l s t1 t2 : s +:+ t1 = s +:+ t2 -> t1 = t2.
Proof. induction s as [|a s IH]; cbn; [done|]. intros [= E]. by apply IH. Qed.

(** The tags the other way round are another key. *)
Lemma dialog_key_swap c ft tt :
  no_hash ft = true -> no_hash tt = true -> sprint_maybe ft <> sprint_maybe tt ->
  dialog_key c tt ft <> dialog_key c ft tt.
Proof.
  intros Hf Ht Hne E. unfold dialog_key in E. apply sapp_cancel_l, (sapp_cancel_l "#") in E.
  apply (first_split "#") in E as [E _]; [|done|done]. by apply Hne.
Qed.

(** The references of the map are to sessions that were made. *)
Definition sessions_ok (store : sessionPool A) : Prop :=
  forall k i, sessionList A store !! k = Some i -> (i < length (sessions A store))%nat.

(** The pool of sessions: what was put is found, and dropped alone. *)
Lemma session_get_put (store : sessionPool A) k s : session_get A (session_put A store k s) k = Some s.
Proof.
  unfold session_get, session_ref, session_put. cbn [sessionList sessions].
  rewrite (lookup_insert_eq (M := gmap string)). cbn [mbind option_bind]. by apply list_lookup_middle.
Qed.

Lemma session_drop_put (store : sessionPool A) k s :
  session_drop A (session_put A store k s) k
  = mkSessionPool A (sessions A store ++ [session_Close A s]) (base.delete k (sessionList A store))
      ({[length (sessions A store)]} ∪ listening A store).
Proof.
  unfold session_drop, session_ref, session_put. cbn [sessionList].
  rewrite (lookup_insert_eq (M := gmap string)). unfold on_session. cbn [sessions sessionList listening].
  rewrite (delete_insert_eq (M := gmap string)). f_equal.
  rewrite alter_app_r_alt by lia. by rewrite Nat.sub_diag.
Qed.

Lemma session_get_drop_ne (store : sessionPool A) k k' :
  sessions_ok store -> k <> k' -> forall s,
  session_get A (session_drop A (session_put A store k' s) k) k' = Some s.
Proof.
  intros Hok Hne s. unfold session_get, session_drop, session_ref, session_put. cbn [sessionList].
  rewrite (lookup_insert_ne (M := gmap string)) by done.
  destruct (sessionList A store !! k) as [j|] eqn:Hk; cbn [sessions sessionList on_session];
    rewrite (lookup_delete_ne (M := gmap string)), (lookup_insert_eq (M := gmap string)) by done;
    cbn [mbind option_bind]; [|by apply list_lookup_middle].
  apply Hok in Hk. rewrite list_lookup_alter_ne by lia. by apply list_lookup_middle.
Qed.

Lemma handleSession_BYE l r k :
  IsSuccess r = true -> DialogId (res_msg r) = Ok k ->
  handleSession A l BYE r = Ok (set_sessions A l (session_drop A (sessionStore A l) k)).
Proof. intros Hs Hk. unfold handleSession. rewrite Hs. cbn. by rewrite Hk. Qed.

End Dialogs.

(** *** A layer to run *)

Definition run_layer : layer (list Message) nat -> list event -> res (layer (list Message) nat) :=
  layer_run nat (fun _ => "uuid") (fun _ => "rnd") ClientTx.run_spin ServerTx.run_spin.

(** ** The properties *)

(** C2: when the handlers of the layer, and with them the calls of [Receive] on one
    transaction, do not overlap (each runs alone, as one step), whatever the user sends and
    the network delivers, in whatever order timers fire and goroutines end: an entry of the
    pool is a transaction with that key; a message is only ever handed to a transaction
    whose request has the same key as the message; no client transaction has put more than
    one final response on its channel; and a client transaction whose machine is terminated
    is closed.  Of calls that overlap the bound on the final responses is not true
    ([ClientRaces.final_passed_twice]; [ClientRaces.receives_safe] is what is left of it);
    the keys are right for them too ([TxInterleave.interleavings_safe]). *)
Theorem layer_invariant {W : Type} `{TransportLayer W} (A : Type) (takes_done : bool)
    (uuid rnd : list Message -> string)
    (ClientSpin : bool -> spin_type ClientState ClientInput (clientTx * W))
    (ServerSpin : bool -> spin_type ServerState ServerInput (serverTx * W))
    (Hclient : forall b, FsmSpin (ClientTx.outcomes b) (ClientTx.perform takes_done uuid rnd) (ClientSpin b))
    (Hserver : forall b, FsmSpin (ServerTx.outcomes b) (ServerTx.perform takes_done uuid rnd) (ServerSpin b))
    (w : W) (evs : list event) (l : layer W A) :
  layer_run A uuid rnd ClientSpin ServerSpin (CreateLayer A w) evs = Ok l ->
  (forall k i, transactions A l !! k = Some i -> exists t, heap A l !! i = Some t /\ Tx_Key t = k)
  /\ (forall m i s tx, getServerTx A l m = Ok (i, (s, tx)) ->
        MakeServerTxKey m = MakeServerTxKey (req_msg (origin (ServerTx.common tx))))
  /\ (forall m i s tx, getClientTx A l m = Ok (i, (s, tx)) ->
        MakeClientTxKey m = MakeClientTxKey (req_msg (origin (ClientTx.common tx))))
  /\ (forall i s tx, heap A l !! i = Some (ClientTxn s tx) ->
        (finals (responses tx) <= 1)%nat /\ (s = ClientTx.Terminated -> closed (ClientTx.common tx) = true)).
Proof.
  intros Hr. assert (Hok : layer_ok l) by by
    exact (run_ok A takes_done uuid rnd ClientSpin ServerSpin _ _ _ (CreateLayer_ok w) Hr).
  destruct Hok as [O1 O2 O3].
  assert (Hpool : forall k i, transactions A l !! k = Some i -> exists t, heap A l !! i = Some t /\ Tx_Key t = k).
  { intros k i Hi. specialize (O2 _ _ Hi). apply fmap_Some in O2 as (t & Ht & ->). eauto. }
  split; [done|]. split; [|split].
  - intros m i s tx (k & Hk & [Hi Ht]%lookup_tx_inv)%getServerTx_inv. specialize (O1 _ _ Ht). cbn in O1.
    destruct (Hpool _ _ Hi) as (t & Ht' & <-). rewrite Ht in Ht'. injection Ht' as <-. by rewrite O1.
  - intros m i s tx (k & Hk & [Hi Ht]%lookup_tx_inv)%getClientTx_inv. destruct (O1 _ _ Ht) as [r0 I].
    destruct (Hpool _ _ Hi) as (t & Ht' & <-). rewrite Ht in Ht'. injection Ht' as <-.
    by rewrite (inv_match _ _ _ _ I).
  - intros i s tx Ht. destruct (O1 _ _ Ht) as [r0 I].
    split; [by eapply finals_le1|by apply (inv_closed _ _ _ _ I)].
Qed.

(** The user sends an INVITE, the network answers it, and the answer goes up. *)
Definition sample_events : list event :=
  [EvSend (MRequest (outgoing "INVITE" "")); EvReceive (MResponse (sample_reply 180%N));
   EvReceive (MResponse (sample_reply 486%N)); EvForward 0; EvForward 0].

(** What the run gives, computed once. *)
Lemma sample_run :
  exists l i s tx, run_layer (CreateLayer nat []) sample_events = Ok l
    /\ getClientTx nat l (res_msg (sample_reply 486%N)) = Ok (i, (s, tx))
    /\ map (fun x => (status x.1, x.2)) (ups_resp nat l) = [(180%N, Some 0); (486%N, Some 0)] /\ 0 ∈ serving nat l.
Proof.
  assert (Hc : match run_layer (CreateLayer nat []) sample_events with
               | Ok l => match getClientTx nat l (res_msg (sample_reply 486%N)) with
                         | Ok _ => bool_decide (map (fun x => (status x.1, x.2)) (ups_resp nat l) = [(180%N, Some 0); (486%N, Some 0)])
                                   && bool_decide (0 ∈ serving nat l)
                         | _ => false
                         end
               | _ => false
               end = true) by (vm_compute; reflexivity).
  destruct (run_layer (CreateLayer nat []) sample_events) as [l| |]; [|done..].
  destruct (getClientTx nat l (res_msg (sample_reply 486%N))) as [[i [s tx]]| |] eqn:Hg; [|done..].
  apply andb_prop in Hc as [H1%bool_decide_eq_true H2%bool_decide_eq_true].
  by exists l, i, s, tx.
Qed.

Lemma layer_invariant_witness :
  exists l i s tx, run_layer (CreateLayer nat []) sample_events = Ok l
    /\ getClientTx nat l (res_msg (sample_reply 486%N)) = Ok (i, (s, tx))
    /\ map (fun x => (status x.1, x.2)) (ups_resp nat l) = [(180%N, Some 0); (486%N, Some 0)]
    /\ MakeClientTxKey (res_msg (sample_reply 486%N)) = MakeClientTxKey (req_msg (origin (ClientTx.common tx))).
Proof.
  destruct sample_run as (l & i & s & tx & Hr & Hg & Hs & _). exists l, i, s, tx.
  destruct (layer_invariant nat true (fun _ => "uuid") (fun _ => "rnd") ClientTx.run_spin ServerTx.run_spin
    ClientTx.run_spin_laws ServerTx.run_spin_laws [] sample_events l Hr) as (_ & _ & Hc & _).
  split; [exact Hr|]. split; [exact Hg|]. split; [exact Hs|]. exact (Hc _ i s tx Hg).
Defined.

(** *** New and matched requests *)

Section Requests.
Context {W A : Type} `{TransportLayer W}.
Variables uuid rnd : list Message -> string.
Variable ServerSpin : bool -> spin_type ServerState ServerInput (serverTx * W).
Implicit Types l : layer W A.

Lemma handleRequest_new l l0 req tx e :
  canceled A l = false -> updateSession A l req = Ok l0 -> getServerTx A l0 (req_msg req) = Err e ->
  request_IsAck req = false -> request_IsCancel req = false -> NewServerTx (tpl A l0) req = Ok tx ->
  exists l1 tx', handleRequest A uuid rnd ServerSpin l req = Ok l1
    /\ ups A l1 = ups A l ++ [(req, Some (length (heap A l)))]
    /\ lookup_tx A l1 (key (ServerTx.common tx))
       = Some (length (heap A l), ServerTxn (first_state (ServerTx.tx_invite tx)) tx')
    /\ ServerTx.common tx' = ServerTx.common tx /\ length (heap A l) ∈ serving A l1
    /\ tpl A l1 = tpl A l /\ canceled A l1 = false.
Proof.
  intros Hc Hu Hg Ha Hcl Hn. unfold handleRequest. rewrite Hc, Hu. cbn [mbind res_bind]. rewrite Hg, Ha, Hcl, Hn.
  apply updateSession_same in Hu as ([Hh _ _] & Ht & Hup & Hc0). rewrite Hc in Hc0. cbn [alloc tpl set_heap set_pool].
  destruct (Init_shape tx (tpl A l0)) as (tx' & -> & Hcom & _).
  eexists _, tx'. split; [reflexivity|]. cbn. rewrite Hup, Hh. split; [done|].
  split; [|split; [done|split; [set_solver|by split]]]. apply lookup_tx_inv.
  split; [apply lookup_insert_eq|]. cbn. rewrite insert_last. by apply list_lookup_middle.
Qed.

Lemma handleRequest_matched l req l' k i s tx :
  MakeServerTxKey (req_msg req) = Ok k -> lookup_tx A l k = Some (i, ServerTxn s tx) ->
  handleRequest A uuid rnd ServerSpin l req = Ok l' ->
  ups A l' = ups A l /\ transactions A l' = transactions A l
  /\ exists s' tx', heap A l' = <[i := ServerTxn s' tx']> (heap A l)
     /\ (canceled A l = true /\ tx' = tx
         \/ exists w' e, ServerTx.Receive ServerSpin (s, (tx, tpl A l)) (MRequest req) = Ok ((s', (tx', w')), e)).
Proof.
  intros Hk Hl. pose proof Hl as [_ Hi]%lookup_tx_inv. unfold handleRequest.
  destruct (canceled A l) eqn:Hc.
  { intros [= <-]. split; [done|]. split; [done|]. exists s, tx. by rewrite (list_insert_id _ _ _ Hi); auto. }
  destruct (updateSession A l req) as [l1| |] eqn:Eu; try done. cbn [mbind res_bind].
  apply updateSession_same in Eu as ([Hh Hp _] & Ht & Hup & _).
  assert (Hg : getServerTx A l1 (req_msg req) = Ok (i, (s, tx))).
  { apply getServerTx_inv. exists k. split; [done|]. apply lookup_tx_inv. rewrite Hp, Hh. by apply lookup_tx_inv. }
  rewrite Hg, Ht. destruct (ServerTx.Receive _ _ _) as [[[s' [tx' w']] err]| |]; try done.
  intros [= <-]. cbn. rewrite Hh. eauto 10.
Qed.

End Requests.

(** A request that was sent has a transaction, the last object of the heap, whose origin
    is the request as it went out. *)
Lemma sendRequest_sent {W A : Type} `{TransportLayer W}
    (ClientSpin : bool -> spin_type ClientState ClientInput (clientTx * W)) (l : layer W A) req l' :
  sendRequest A ClientSpin l req = Ok (l', None) -> request_IsAck req = false ->
  exists r' tx k, sent (tpl A l') = sent (tpl A l) ++ [MRequest r'] /\ same_request req r'
    /\ MakeClientTxKey (req_msg req) = Ok k /\ origin (ClientTx.common tx) = r'
    /\ lookup_tx A l' k = Some (length (heap A l), ClientTxn Calling tx) /\ length (heap A l) ∈ serving A l'.
Proof.
  unfold sendRequest. destruct (canceled A l); [done|]. intros E Ha.
  apply bind_ok in E as (l0 & Hu & E). apply updateSession_same in Hu as ([Hh Hp _] & Ht & _). rewrite Ha in E.
  destruct (NewClientTx (tpl A l0) req) as [tx|e|k] eqn:Hn; [|done..].
  apply NewClientTx_spec in Hn as (k & rel & Hk & ->). cbn [alloc fst snd] in E.
  apply bind_ok in E as ([c err] & Hi & E). destruct err; [done|]. apply (inj Ok) in E. injection E as <-.
  unfold Init in Hi. apply bind_ok in Hi as ([[w m] err] & Hs & Hi). cbn [ClientTx.common origin tpl set_pool set_heap] in Hs.
  pose proof (Send_same _ _ _ _ _ Hs) as Hm. pose proof (Send_logs _ _ _ _ _ Hs) as Hlog.
  destruct m as [r'|]; [|done]. cbn in Hm.
  destruct err as [e|]; [by apply bind_ok in Hi as ([? ?] & _ & [=])|].
  assert (Hc : exists tx', c = (Calling, (tx', w)) /\ origin (ClientTx.common tx') = r').
  { apply (inj Ok) in Hi. injection Hi as <-. eexists. split; [reflexivity|].
    by destruct rel; [|destruct (ClientTx.tx_invite _)]. }
  destruct Hc as (tx' & -> & Ho). exists r', tx', k. cbn. rewrite Hlog, Ht, Hh. split; [done|].
  split; [done|]. split; [done|]. split; [done|]. split; [|set_solver]. apply lookup_tx_inv.
  split; [apply lookup_insert_eq|]. cbn. rewrite insert_last. by apply list_lookup_middle.
Qed.

(** C4: when each handler of the layer runs alone, a request is handed up once by the
    layer.  A request that matches no transaction, other than ACK and CANCEL, goes up with
    the transaction made for it, and a response that [CreateResponse] makes for it finds
    this transaction.  As long as the transaction is in the pool, the handling of a request
    with the same key neither goes up from there nor changes the pool: the transaction
    receives it, and no other object of the heap changes.  A retransmission, which has the
    method of the request, leaves the channel of the transaction from which the layer also
    hands requests up as it is; on this channel [Receive] puts nothing but the message
    itself, and only when it is an ACK or a CANCEL.  Handlers that overlap are the matter
    of [duplicates_race]. *)
Theorem request_delivered_once {W : Type} `{TransportLayer W} (A : Type) (takes_done : bool)
    (uuid rnd : list Message -> string)
    (ServerSpin : bool -> spin_type ServerState ServerInput (serverTx * W))
    (Hserver : forall b, FsmSpin (ServerTx.outcomes b) (ServerTx.perform takes_done uuid rnd) (ServerSpin b))
    (l l0 : layer W A) (req : request) (tx : serverTx) (e s d : string) :
  canceled A l = false -> updateSession A l req = Ok l0 -> getServerTx A l0 (req_msg req) = Err e ->
  request_IsAck req = false -> request_IsCancel req = false -> NewServerTx (tpl A l0) req = Ok tx ->
  headers_ok (msg_headers (req_msg req)) -> request_Source req = Ok s -> request_Destination req = Ok d ->
  let i := length (heap A l) in
  exists l1 tx1, handleRequest A uuid rnd ServerSpin l req = Ok l1
    /\ ups A l1 = ups A l ++ [(req, Some i)] /\ i ∈ serving A l1
    /\ origin (ServerTx.common tx1) = req
    /\ (forall id rndTag code, exists r, CreateResponse id rndTag req code = Ok r
          /\ getServerTx A l1 (res_msg r) = Ok (i, (first_state (IsInvite req), tx1)))
    /\ (forall l2 s2 tx2 req' l3,
          lookup_tx A l2 (key (ServerTx.common tx)) = Some (i, ServerTxn s2 tx2) ->
          MakeServerTxKey (req_msg req') = MakeServerTxKey (req_msg req) ->
          handleRequest A uuid rnd ServerSpin l2 req' = Ok l3 ->
          ups A l3 = ups A l2 /\ transactions A l3 = transactions A l2
          /\ exists s3 tx3, heap A l3 = <[i := ServerTxn s3 tx3]> (heap A l2)
               /\ (canceled A l2 = false -> exists w3 e3,
                      ServerTx.Receive ServerSpin (s2, (tx2, tpl A l2)) (MRequest req') = Ok ((s3, (tx3, w3)), e3))
               /\ (requests tx3 = requests tx2
                   \/ requests tx3 = requests tx2 ++ [req']
                      /\ (request_IsAck req' || request_IsCancel req') = true
                      /\ String.eqb (req_method req') (req_method (origin (ServerTx.common tx2))) = false)).
Proof.
  intros Hc Hu Hg Ha Hcl Hn Hok Hs Hd i.
  destruct (handleRequest_new uuid rnd ServerSpin l l0 req tx e Hc Hu Hg Ha Hcl Hn)
    as (l1 & tx1 & Hr & Hup & Hlk & Hcom & Hin & _).
  apply NewServerTx_spec in Hn as (k & rel & Hk & Htx). subst tx. cbn [ServerTx.common key origin] in *.
  exists l1, tx1. split; [done|]. split; [done|]. split; [done|]. split; [by rewrite Hcom|]. split.
  - intros id rndTag code.
    destruct (CreateResponse_entries id rndTag req code s d Hok Hs Hd) as (hs & -> & _ & He & _).
    eexists. split; [reflexivity|]. apply getServerTx_inv. exists k. split; [|exact Hlk].
    rewrite <- Hk. apply MakeServerTxKey_ext. intros n Hin'. apply He.
    apply list_elem_of_In in Hin'. apply list_elem_of_In. cbn in *. tauto.
  - intros l2 s2 tx2 req' l3 Hl2 Hk' Hh. rewrite Hk in Hk'.
    destruct (handleRequest_matched uuid rnd ServerSpin _ _ _ _ _ _ _ Hk' Hl2 Hh)
      as (-> & -> & s3 & tx3 & Hheap & Hrec).
    split; [done|]. split; [done|]. exists s3, tx3. split; [done|].
    destruct Hrec as [[Hc2 ->]|(w3 & e3 & Hrec)]; [split; [by rewrite Hc2|by left]|].
    split; [by eauto|]. by apply (Receive_requests takes_done uuid rnd ServerSpin) in Hrec.
Qed.

(** A request as it comes in, in a dialog, and its container. *)
Definition sample_entries (method : string) : list Header :=
  [sample_via "z9hG4bKabc" None; sample_from; sample_to; HCallID "c"; HCSeq 7 method].

Definition received (method : string) : request :=
  mkRequest (mkMessage (match newHeaders (sample_entries method) with Ok hs => hs | _ => emptyHeaders end)
               "id" SipVersion "" "10.0.0.9:5060" "10.0.0.1:5060") method None.

Lemma received_ok method : headers_ok (msg_headers (req_msg (received method))).
Proof.
  assert (Hv : header_ok (sample_via "z9hG4bKabc" None)).
  { repeat constructor. unfold hop_ok. cbn. eexists. split; [reflexivity|]. apply Add_ok, NewParams_ok. }
  unfold received. destruct (newHeaders_built (sample_entries method)) as (hs & -> & Hok & _); [|exact Hok].
  repeat first [by apply Forall_nil
    | apply Forall_cons; split; [first [exact Hv|apply sample_from_ok|apply sample_to_ok|exact I]|]].
Qed.

Definition sample_layer : layer (list Message) nat := CreateLayer nat [].

Lemma request_delivered_once_witness :
  exists l1 tx1, handleRequest nat (fun _ => "uuid") (fun _ => "rnd") ServerTx.run_spin sample_layer (received "INVITE") = Ok l1
    /\ ups nat l1 = [(received "INVITE", Some 0)]
    /\ (exists r, CreateResponse "id" "tag" (received "INVITE") 200%N = Ok r
          /\ getServerTx nat l1 (res_msg r) = Ok (0, (Proceeding, tx1))).
Proof.
  set (tx := mkServerTx (mkCommonTx (server_key (mkTxId "z9hG4bKabc" "10.0.0.9" 5060%N "INVITE")) (received "INVITE")
                None [] None false) None None [] None 0%Z None None 0%Z None None false).
  assert (Hk : MakeServerTxKey (req_msg (received "INVITE")) = Ok (key (ServerTx.common tx))) by (vm_compute; reflexivity).
  assert (Hu : updateSession nat sample_layer (received "INVITE") = Ok sample_layer) by (vm_compute; reflexivity).
  assert (Hg : getServerTx nat sample_layer (req_msg (received "INVITE")) = Err "transaction with key '%s' not found")
    by (vm_compute; reflexivity).
  assert (Hn : NewServerTx (tpl nat sample_layer) (received "INVITE") = Ok tx) by (vm_compute; reflexivity).
  destruct (request_delivered_once nat true (fun _ => "uuid") (fun _ => "rnd") ServerTx.run_spin ServerTx.run_spin_laws sample_layer sample_layer
    (received "INVITE") tx _ "10.0.0.9:5060" "10.0.0.1:5060" eq_refl Hu Hg eq_refl eq_refl Hn (received_ok "INVITE")
    eq_refl eq_refl) as (l1 & tx1 & H1 & H2 & _ & _ & H3 & _).
  exists l1, tx1. split; [exact H1|]. split; [exact H2|]. exact (H3 "id" "tag" 200%N).
Defined.

(** what matches no transaction makes none.  The ACK of a success goes up without a
    transaction; a CANCEL does not go up but is answered with the response 481 that
    [CreateResponse] makes for it. *)
Theorem unmatched_requests {W : Type} `{TransportLayer W} (A : Type) (uuid rnd : list Message -> string)
    (ServerSpin : bool -> spin_type ServerState ServerInput (serverTx * W))
    (l l0 : layer W A) (req : request) (e : string) :
  canceled A l = false -> updateSession A l req = Ok l0 -> getServerTx A l0 (req_msg req) = Err e ->
  (request_IsAck req = true ->
     exists l1, handleRequest A uuid rnd ServerSpin l req = Ok l1
       /\ ups A l1 = ups A l ++ [(req, None)] /\ same_txs l l1 /\ tpl A l1 = tpl A l)
  /\ (request_IsCancel req = true -> forall r w m,
       CreateResponse (uuid (sent (tpl A l))) (rnd (sent (tpl A l))) req 481%N = Ok r ->
       Send (tpl A l) (MResponse r) = Ok (w, m, None) ->
       exists l1, handleRequest A uuid rnd ServerSpin l req = Ok l1
         /\ ups A l1 = ups A l /\ same_txs l l1
         /\ sent (tpl A l1) = sent (tpl A l) ++ [MResponse r] /\ status r = 481%N).
Proof.
  intros Hc Hu Hg. unfold handleRequest. rewrite Hc, Hu. cbn [mbind res_bind]. rewrite Hg.
  apply updateSession_same in Hu as ([Hh Hp Hs] & Ht & Hup & _). split.
  - intros ->. eexists. split; [reflexivity|]. cbn. rewrite Hup. by repeat split.
  - intros Hcl r w m Hr Hsend.
    assert (Ha : request_IsAck req = false).
    { unfold request_IsAck, request_IsCancel in *. apply String.eqb_eq in Hcl. by rewrite Hcl. }
    rewrite Ha, Hcl, Ht, Hr. cbn [mbind res_bind]. rewrite Hsend. eexists. split; [reflexivity|].
    cbn. rewrite Hup. split; [done|]. split; [by split|]. split; [by apply (answer_logged _ _ _ m)|].
    unfold CreateResponse, fill_response in Hr.
    do 4 (apply bind_ok in Hr as (? & _ & Hr)). by injection Hr as <-.
Qed.

Lemma unmatched_requests_witness :
  (exists l1, handleRequest nat (fun _ => "uuid") (fun _ => "rnd") ServerTx.run_spin sample_layer (received "ACK") = Ok l1
    /\ ups nat l1 = [(received "ACK", None)])
  /\ (exists l1, handleRequest nat (fun _ => "uuid") (fun _ => "rnd") ServerTx.run_spin sample_layer (received "CANCEL") = Ok l1
    /\ ups nat l1 = [] /\ length (sent (tpl nat l1)) = 1).
Proof.
  assert (Hu : forall m, updateSession nat sample_layer (received m) = Ok sample_layer).
  { intros m. unfold updateSession. destruct (DialogId (req_msg (received m))) eqn:E; [reflexivity|..];
      vm_compute in E; discriminate E. }
  assert (Hg : forall m, m = "ACK" \/ m = "CANCEL" ->
    getServerTx nat sample_layer (req_msg (received m)) = Err "transaction with key '%s' not found").
  { intros m [-> | ->]; vm_compute; reflexivity. }
  split.
  - destruct (unmatched_requests nat (fun _ => "uuid") (fun _ => "rnd") ServerTx.run_spin sample_layer sample_layer
      (received "ACK") _ eq_refl (Hu _) (Hg _ (or_introl eq_refl))) as [H1 _].
    destruct (H1 eq_refl) as (l1 & H2 & H3 & _). exists l1. split; [exact H2|exact H3].
  - destruct (CreateResponse "uuid" "rnd" (received "CANCEL") 481%N) as [r| |] eqn:Hr;
      [|vm_compute in Hr; discriminate Hr..].
    destruct (unmatched_requests nat (fun _ => "uuid") (fun _ => "rnd") ServerTx.run_spin sample_layer sample_layer
      (received "CANCEL") _ eq_refl (Hu _) (Hg _ (or_intror eq_refl))) as [_ H1].
    destruct (H1 eq_refl r [MResponse r] (MResponse r) Hr eq_refl) as (l1 & H2 & H3 & _ & H4 & _).
    exists l1. split; [exact H2|]. split; [exact H3|]. rewrite H4. reflexivity.
Defined.

(** a request whose sending fails leaves its transaction behind: it is closed and in
    the pool under its key, but no goroutine waits for its end.  Unless a new request is
    sent or received, nothing that happens afterwards takes it out: responses with its
    key are swallowed by a dead transaction for good. *)
Theorem failed_send_leaks {W : Type} `{TransportLayer W} (A : Type) (takes_done : bool)
    (uuid rnd : list Message -> string)
    (ClientSpin : bool -> spin_type ClientState ClientInput (clientTx * W))
    (ServerSpin : bool -> spin_type ServerState ServerInput (serverTx * W))
    (Hclient : forall b, FsmSpin (ClientTx.outcomes b) (ClientTx.perform takes_done uuid rnd) (ClientSpin b))
    (Hserver : forall b, FsmSpin (ServerTx.outcomes b) (ServerTx.perform takes_done uuid rnd) (ServerSpin b))
    (l l0 : layer W A) (req : request) (tx : clientTx) (w : W) (m : Message) (e : string) :
  layer_ok l -> canceled A l = false -> updateSession A l req = Ok l0 -> request_IsAck req = false ->
  NewClientTx (tpl A l0) req = Ok tx -> Send (tpl A l0) (MRequest req) = Ok (w, m, Some e) ->
  (forall j t, j ∈ serving A l -> heap A l !! j = Some t -> Tx_Key t <> key (ClientTx.common tx)) ->
  let i := length (heap A l) in
  exists l1 tx1, sendRequest A ClientSpin l req = Ok (l1, Some e)
    /\ lookup_tx A l1 (key (ClientTx.common tx)) = Some (i, ClientTxn ClientTx.Terminated tx1)
    /\ closed (ClientTx.common tx1) = true /\ i ∉ serving A l1
    /\ (forall evs l2, forallb makes_none evs = true ->
          layer_run A uuid rnd ClientSpin ServerSpin l1 evs = Ok l2 ->
          transactions A l2 !! key (ClientTx.common tx) = Some i).
Proof.
  intros Hok Hc Hu Ha Hn Hs Hk i.
  destruct (Init_failure takes_done uuid rnd ClientSpin req tx _ w m e Hn Hs) as (tx1 & Hi & Hcl & _ & _ & Hkey).
  assert (Hni : i ∉ serving A l).
  { intros Hin. destruct (ok_serving _ Hok _ Hin) as [t Ht]. apply lookup_lt_Some in Ht. unfold i in Ht. lia. }
  assert (Hsend : exists l1, sendRequest A ClientSpin l req = Ok (l1, Some e)
    /\ heap A l1 = heap A l ++ [ClientTxn ClientTx.Terminated tx1]
    /\ transactions A l1 = <[key (ClientTx.common tx) := i]> (transactions A l) /\ serving A l1 = serving A l).
  { unfold sendRequest. rewrite Hc, Hu. cbn [mbind res_bind]. rewrite Ha, Hn.
    cbn [alloc tpl set_heap set_pool]. rewrite Hi. cbn [mbind res_bind].
    apply updateSession_same in Hu as ([Hh Hp Hse] & _).
    eexists. split; [reflexivity|]. cbn. rewrite insert_last, Hh, Hp, Hse. done. }
  destruct Hsend as (l1 & Hsend & Hh1 & Hp1 & Hs1). exists l1, tx1. split; [done|].
  split; [|split; [done|split; [by rewrite Hs1|]]].
  { apply lookup_tx_inv. rewrite Hp1, Hh1. split; [apply lookup_insert_eq|]. by apply list_lookup_middle. }
  intros evs l2 Hev Hr.
  apply (run_unserved A takes_done uuid rnd ClientSpin ServerSpin l1 evs l2); try done.
  - by apply (sendRequest_ok A takes_done uuid rnd ClientSpin ServerSpin l req l1 (Some e)).
  - rewrite Hp1. apply lookup_insert_eq.
  - intros j Hj. rewrite Hs1 in Hj. destruct (ok_serving _ Hok _ Hj) as [t Ht].
    rewrite Hh1, (lookup_app_l_Some _ _ _ _ Ht). cbn. intros [= Hkt]. by apply (Hk j t).
Qed.

(** the session of a call.  A 2xx answer to an INVITE stores an open session under the
    key of its dialog, with the Call-ID and the From and To headers of the answer.  A 2xx
    answer to a BYE with the same tags closes exactly this session and takes it away.  A
    BYE of the other party has the tags the other way round: its key is another one, and
    the session stays. *)
Theorem session_lifecycle {W A : Type} (l : layer W A) (r bye bye' : response) (c : string)
    (f t f1 t1 f2 t2 : AddressHeader) (ft tt : MaybeString) :
  IsSuccess r = true -> IsSuccess bye = true -> IsSuccess bye' = true ->
  headers_ok (msg_headers (res_msg r)) -> in_dialog (res_msg r) c f t ft tt ->
  in_dialog (res_msg bye) c f1 t1 ft tt -> in_dialog (res_msg bye') c f2 t2 tt ft ->
  no_hash ft = true -> no_hash tt = true -> sprint_maybe ft <> sprint_maybe tt ->
  sessions_ok (sessionStore A l) ->
  exists l1 l2 l2' s, handleSession A l INVITE r = Ok l1
    /\ handleSession A l1 BYE bye = Ok l2 /\ handleSession A l1 BYE bye' = Ok l2'
    /\ session_get A (sessionStore A l1) (dialog_key c ft tt) = Some s
    /\ skey A s = dialog_key c ft tt /\ s_callId A s = c /\ s_from A s = f /\ s_to A s = t
    /\ s_seq A s = 1%N /\ s_closed A s = false
    /\ sessionList A (sessionStore A l2) = base.delete (dialog_key c ft tt) (sessionList A (sessionStore A l))
    /\ sessions A (sessionStore A l2) = sessions A (sessionStore A l) ++ [session_Close A s]
    /\ session_get A (sessionStore A l2') (dialog_key c ft tt) = Some s.
Proof.
  intros Hr Hb Hb' Hok Hd Hd1 Hd2 Hf Ht Hne Hss.
  pose proof (in_dialog_key _ _ _ _ _ _ Hd) as Hk. destruct Hd as [Hc Hfr Hto _ _].
  set (s := mkSession A (dialog_key c ft tt) (Some ∅) c f t 1%N false).
  assert (H1 : handleSession A l INVITE r
    = Ok (set_sessions A l (session_put A (sessionStore A l) (dialog_key c ft tt) s))).
  { unfold handleSession. rewrite Hr. cbn [String.eqb]. cbn. rewrite Hk. cbn [mbind res_bind].
    by rewrite (SaveMessage_spec A _ _ c f t). }
  eexists _, _, _, s. split; [exact H1|].
  split; [by apply handleSession_BYE, (in_dialog_key _ _ _ _ _ _ Hd1)|].
  split; [by apply handleSession_BYE, (in_dialog_key _ _ _ _ _ _ Hd2)|].
  cbn [sessionStore set_sessions]. split; [apply session_get_put|]. do 6 (split; [done|]).
  rewrite session_drop_put. do 2 (split; [done|]).
  by apply session_get_drop_ne; [|apply dialog_key_swap].
Qed.

(** two answers with the same dialog, such as a 2xx that is sent again, make two sessions:
    the second replaces the first in the pool and leaves it open.  When whoever holds the
    first one closes it, its goroutine drops the key, which closes the second session and
    takes it out of the pool. *)
Theorem old_session_drops_new {A : Type} (store : sessionPool A) (k : string) (s1 s2 : session A) :
  skey A s1 = k -> s_closed A s1 = false -> s_closed A s2 = false ->
  let i := length (sessions A store) in
  let store2 := session_put A (session_put A store k s1) k s2 in
  let store3 := listenSession A (on_session A (session_Close A) store2 i) i in
  sessions A store2 !! i = Some s1 /\ session_get A store2 k = Some s2
  /\ session_get A store3 k = None /\ sessions A store3 !! S i = Some (session_Close A s2).
Proof.
  intros <- H1 H2 i store2 store3. destruct store as [ss m ls]. cbn [sessions] in i.
  assert (Hlen : length (ss ++ [s1]) = S i) by (rewrite length_app; cbn; lia).
  assert (Hg : (ss ++ [s1]) ++ [s2] = ss ++ [s1; s2]) by by rewrite <- app_assoc.
  assert (Hi : (ss ++ [s1; s2]) !! i = Some s1) by by apply list_lookup_middle.
  assert (Hi2 : (ss ++ [s1; s2]) !! S i = Some s2) by (rewrite lookup_app_r by lia; by replace (S i - length ss) with 1 by lia).
  split; [cbn; by rewrite Hg|]. split; [subst store2; apply session_get_put|].
  assert (E3 : store3 = mkSessionPool A (alter (session_Close A) (S i) (alter (session_Close A) i (ss ++ [s1; s2])))
    (base.delete (skey A s1) (<[skey A s1 := S i]> (<[skey A s1 := i]> m))) (({[S i]} ∪ ({[i]} ∪ ls)) ∖ {[i]})).
  { subst store3 store2. unfold listenSession, on_session, session_put.
    cbn [sessions sessionList listening]. rewrite Hlen, Hg, list_lookup_alter_eq, Hi. cbn [fmap option_fmap option_map].
    assert (Hc : s_closed A (session_Close A s1) = true /\ skey A (session_Close A s1) = skey A s1)
      by (unfold session_Close; by rewrite H1).
    rewrite bool_decide_true by set_solver. rewrite (proj1 Hc), (proj2 Hc). cbn [andb].
    unfold session_drop, session_ref. cbn [sessionList]. rewrite (lookup_insert_eq (M := gmap string)). reflexivity. }
  rewrite E3. unfold session_get, session_ref. cbn [sessionList sessions]. split; [by rewrite (lookup_delete_eq (M := gmap string))|].
  rewrite list_lookup_alter_eq, list_lookup_alter_ne, Hi2 by lia. done.
Qed.

Lemma old_session_drops_new_witness :
  let store2 := session_put nat (session_put nat (createSessionPool nat) "k" (CreateSession nat "k")) "k" (CreateSession nat "k") in
  session_get nat (listenSession nat (on_session nat (session_Close nat) store2 0) 0) "k" = None.
Proof.
  destruct (old_session_drops_new (createSessionPool nat) "k" (CreateSession nat "k") (CreateSession nat "k")
    eq_refl eq_refl eq_refl) as (_ & _ & H & _). exact H.
Defined.

(** Answers in the dialog of [sample_dialog], whose From tag is missing. *)
Definition tagged (tag : string) : AddressHeader :=
  mkAddress None (Some (USip sample_uri)) (Some (Add NewParams "tag" (Some tag))).
Definition dialog_answer (method : RequestMethod) (ft tt : string) : response :=
  mkResponse (mkMessage (match newHeaders [HFrom (tagged ft); HTo (tagged tt); HCallID "c"; HCSeq 7 method] with
                         | Ok hs => hs | _ => emptyHeaders end) "id" SipVersion "" "" "") 200%N "OK" [].

Lemma dialog_answer_ok method ft tt : headers_ok (msg_headers (res_msg (dialog_answer method ft tt))).
Proof.
  assert (Ht : forall x, address_ok (tagged x)).
  { intros x. destruct sample_from_ok as [H _]. split; [exact H|].
    eexists. split; [reflexivity|]. apply Add_ok, NewParams_ok. }
  unfold dialog_answer.
  destruct (newHeaders_built [HFrom (tagged ft); HTo (tagged tt); HCallID "c"; HCSeq 7 method]) as (hs & -> & H & _); [|exact H].
  repeat first [by apply Forall_nil | apply Forall_cons; split; [first [apply Ht|exact I]|]].
Qed.

Lemma dialog_answer_in method ft tt :
  in_dialog (res_msg (dialog_answer method ft tt)) "c" (tagged ft) (tagged tt) (Some ft) (Some tt).
Proof. split; try reflexivity; eexists; (split; [reflexivity|]); reflexivity. Qed.

Lemma session_lifecycle_witness :
  exists l1 l2 l2', handleSession nat sample_layer INVITE (dialog_answer "INVITE" "a" "b") = Ok l1
    /\ handleSession nat l1 BYE (dialog_answer "BYE" "a" "b") = Ok l2
    /\ handleSession nat l1 BYE (dialog_answer "BYE" "b" "a") = Ok l2'
    /\ sessionList nat (sessionStore nat l2) = base.delete (dialog_key "c" (Some "a") (Some "b")) ∅
    /\ is_Some (session_get nat (sessionStore nat l2') (dialog_key "c" (Some "a") (Some "b"))).
Proof.
  destruct (session_lifecycle sample_layer (dialog_answer "INVITE" "a" "b") (dialog_answer "BYE" "a" "b")
    (dialog_answer "BYE" "b" "a") "c" _ _ _ _ _ _ (Some "a") (Some "b") eq_refl eq_refl eq_refl (dialog_answer_ok _ _ _)
    (dialog_answer_in _ _ _) (dialog_answer_in _ _ _) (dialog_answer_in _ _ _) eq_refl eq_refl ltac:(discriminate) ltac:(done))
    as (l1 & l2 & l2' & s & H1 & H2 & H3 & _ & _ & _ & _ & _ & _ & _ & H4 & _ & H5).
  exists l1, l2, l2'. split; [exact H1|]. split; [exact H2|]. split; [exact H3|]. split; [exact H4|].
  exists s. exact H5.
Defined.

Lemma failed_send_leaks_witness :
  exists l1, sendRequest (H := refuser) nat (fun b => spin_run (ClientTx.outcomes b) (ClientTx.perform (H := refuser) true (fun _ => "u") (fun _ => "r")) 2)
      sample_layer (outgoing "INVITE" "") = Ok (l1, Some "refused")
    /\ 0 ∉ serving nat l1
    /\ (exists tx1, lookup_tx nat l1 (key (ClientTx.common (sample_client "INVITE"))) = Some (0, ClientTxn ClientTx.Terminated tx1)).
Proof.
  assert (Hu : updateSession nat sample_layer (outgoing "INVITE" "") = Ok sample_layer) by (vm_compute; reflexivity).
  assert (Hn : NewClientTx (H := refuser) (tpl nat sample_layer) (outgoing "INVITE" "") = Ok (sample_client "INVITE"))
    by (vm_compute; reflexivity).
  destruct (failed_send_leaks (H := refuser) nat true (fun _ => "u") (fun _ => "r")
    (fun b => spin_run (ClientTx.outcomes b) (ClientTx.perform (H := refuser) true (fun _ => "u") (fun _ => "r")) 2)
    (fun b => spin_run (ServerTx.outcomes b) (ServerTx.perform (H := refuser) true (fun _ => "u") (fun _ => "r")) 4)
    (fun b => client_spin_exists (H := refuser) true (fun _ => "u") (fun _ => "r") b)
    (fun b => server_spin_exists (H := refuser) true (fun _ => "u") (fun _ => "r") b)
    sample_layer sample_layer (outgoing "INVITE" "") (sample_client "INVITE") [] (MRequest (outgoing "INVITE" "")) "refused"
    (CreateLayer_ok []) eq_refl Hu eq_refl Hn eq_refl) as (l1 & tx1 & H1 & H2 & _ & H3 & _).
  { intros j t Hj. exfalso. exact (not_elem_of_empty j Hj). }
  exists l1. split; [exact H1|]. split; [exact H3|]. exists tx1. exact H2.
Defined.

(** sending a request twice gives two transactions with one key, of which the pool
    knows the second.  When the first one ends it takes the entry of the second away: an
    answer that comes then does not reach the second transaction, which keeps running,
    but goes up as a response that matches nothing. *)
Theorem old_transaction_drops_new {W : Type} `{TransportLayer W} (A : Type)
    (ClientSpin : bool -> spin_type ClientState ClientInput (clientTx * W))
    (l : layer W A) (i j : ref) (t : Tx) (s : ClientState) (tx : clientTx) (r : response) (k : TxKey) :
  heap A l !! i = Some t -> Tx_Key t = k -> closed (Tx_common t) = true -> i ∈ serving A l -> canceled A l = false ->
  lookup_tx A l k = Some (j, ClientTxn s tx) -> j ∈ serving A l -> i <> j -> MakeClientTxKey (res_msg r) = Ok k ->
  getClientTx A l (res_msg r) = Ok (j, (s, tx))
  /\ exists l', serve_end A l i = l' /\ heap A l' !! j = Some (ClientTxn s tx) /\ j ∈ serving A l'
      /\ handleResponse A ClientSpin l' r = Ok (pass_up_resp A l' r None).
Proof.
  intros Ht Hk Hcl Hi Hc Hl Hj Hij Hr. split; [by apply getClientTx_inv; exists k|].
  apply lookup_tx_inv in Hl as [Hp Hh]. eexists. split; [reflexivity|].
  unfold serve_end. rewrite Ht, decide_True by done. rewrite Hcl, Hk. set (l' := set_serving A _ _ _).
  split; [done|]. split; [cbn; set_solver|].
  assert (Hn : lookup_tx A l' k = None).
  { unfold lookup_tx. change (transactions A l') with (pool_drop (transactions A l) k).1. by rewrite pool_get_drop. }
  unfold handleResponse, getClientTx. change (canceled A l') with (canceled A l). rewrite Hc, Hr.
  cbn [mbind res_bind]. by rewrite Hn.
Qed.

(** The same INVITE sent twice, and the first transaction closed. *)
Definition sent_twice : list event :=
  [EvSend (MRequest (outgoing "INVITE" "")); EvSend (MRequest (outgoing "INVITE" "")); EvTxClose 0].

Lemma sent_twice_run :
  exists l t s tx, run_layer sample_layer sent_twice = Ok l
    /\ heap nat l !! 0 = Some t /\ Tx_Key t = key (ClientTx.common (sample_client "INVITE"))
    /\ closed (Tx_common t) = true
    /\ lookup_tx nat l (key (ClientTx.common (sample_client "INVITE"))) = Some (1, ClientTxn s tx)
    /\ 0 ∈ serving nat l /\ 1 ∈ serving nat l /\ canceled nat l = false
    /\ MakeClientTxKey (res_msg (sample_reply 200%N)) = Ok (key (ClientTx.common (sample_client "INVITE"))).
Proof.
  set (k := key (ClientTx.common (sample_client "INVITE"))).
  assert (Hr : MakeClientTxKey (res_msg (sample_reply 200%N)) = Ok k) by (vm_compute; reflexivity).
  assert (Hb : match run_layer sample_layer sent_twice with
               | Ok l => match heap nat l !! 0, lookup_tx nat l k with
                         | Some t, Some (1, ClientTxn _ _) =>
                             bool_decide (Tx_Key t = k) && closed (Tx_common t) && bool_decide (0 ∈ serving nat l)
                             && bool_decide (1 ∈ serving nat l) && negb (canceled nat l)
                         | _, _ => false
                         end
               | _ => false
               end = true) by (vm_compute; reflexivity).
  destruct (run_layer sample_layer sent_twice) as [l| |]; [|done..].
  destruct (heap nat l !! 0) as [t|] eqn:Ht; [|done].
  destruct (lookup_tx nat l k) as [[[|[|n]] [s tx|]]|] eqn:Hl; try done.
  rewrite !andb_true_iff, !bool_decide_eq_true, negb_true_iff in Hb.
  destruct Hb as ((((? & ?) & ?) & ?) & ?). by exists l, t, s, tx.
Qed.

Lemma old_transaction_drops_new_witness :
  exists l s tx l', run_layer sample_layer sent_twice = Ok l
    /\ getClientTx nat l (res_msg (sample_reply 200%N)) = Ok (1, (s, tx))
    /\ handleResponse nat ClientTx.run_spin (serve_end nat l 0) (sample_reply 200%N) = Ok l'.
Proof.
  destruct sent_twice_run as (l & t & s & tx & Hrun & Ht & Hk & Hcl & Hl & Hs0 & Hs1 & Hc & Hr).
  destruct (old_transaction_drops_new nat ClientTx.run_spin l 0 1 t s tx (sample_reply 200%N) _
    Ht Hk Hcl Hs0 Hc Hl Hs1 ltac:(discriminate) Hr) as (H1 & l' & <- & _ & _ & H2).
  exists l, s, tx. eexists. split; [exact Hrun|]. split; [exact H1|exact H2].
Defined.

(** C33: closing the layer ends everything: whatever happened before, once the layer is
    canceled every goroutine that waits for the end of a transaction returns, all these
    transactions are closed, and further messages are neither sent nor handled. *)
Theorem close_ends_all {W : Type} `{TransportLayer W} (A : Type) (takes_done : bool)
    (uuid rnd : list Message -> string)
    (ClientSpin : bool -> spin_type ClientState ClientInput (clientTx * W))
    (ServerSpin : bool -> spin_type ServerState ServerInput (serverTx * W))
    (Hclient : forall b, FsmSpin (ClientTx.outcomes b) (ClientTx.perform takes_done uuid rnd) (ClientSpin b))
    (Hserver : forall b, FsmSpin (ServerTx.outcomes b) (ServerTx.perform takes_done uuid rnd) (ServerSpin b))
    (w : W) (evs : list event) (l : layer W A) :
  layer_run A uuid rnd ClientSpin ServerSpin (CreateLayer A w) evs = Ok l ->
  exists l', layer_run A uuid rnd ClientSpin ServerSpin l (EvClose :: map EvEnd (elements (serving A l))) = Ok l'
    /\ serving A l' = ∅
    /\ (forall i t, i ∈ serving A l -> heap A l' !! i = Some t -> closed (Tx_common t) = true)
    /\ (forall m, handleMessage A uuid rnd ClientSpin ServerSpin l' m = Ok l'
                  /\ exists e, layer_Send A ClientSpin ServerSpin l' m = Ok (l', Some e)).
Proof.
  intros Hr. assert (Hok : layer_ok l) by
    exact (run_ok A takes_done uuid rnd ClientSpin ServerSpin _ _ _ (CreateLayer_ok w) Hr).
  exists (end_all (Close A l) (elements (serving A l))). split; [apply run_ends|].
  destruct (end_all_canceled (elements (serving A l)) (Close A l)) as [Hs Hh]; [done| |].
  { intros i Hi. apply (ok_serving _ Hok). set_solver. }
  split; [rewrite Hs; set_solver|]. split.
  - intros i t Hi Ht. destruct (Hh i t Ht) as [?|[_ Hn]]; [done|]. exfalso. apply Hn; [set_solver|exact Hi].
  - assert (Hc : canceled A (end_all (Close A l) (elements (serving A l))) = true) by by rewrite end_all_canceled_flag.
    intros [m|m]; cbn; unfold handleRequest, handleResponse, sendRequest, sendResponse; rewrite Hc; eauto.
Qed.

Lemma close_ends_all_witness :
  exists l l', run_layer sample_layer sample_events = Ok l /\ serving nat l <> ∅
    /\ run_layer l (EvClose :: map EvEnd (elements (serving nat l))) = Ok l' /\ serving nat l' = ∅.
Proof.
  destruct sample_run as (l & _ & _ & _ & Hr & _ & _ & Hs).
  destruct (close_ends_all nat true (fun _ => "uuid") (fun _ => "rnd") ClientTx.run_spin ServerTx.run_spin
    ClientTx.run_spin_laws ServerTx.run_spin_laws [] sample_events l Hr) as (l' & H1 & H2 & _).
  exists l, l'. split; [exact Hr|]. split; [intros E; rewrite E in Hs; exact (not_elem_of_empty 0 Hs)|].
  split; [exact H1|exact H2].
Defined.
