(* ===== verification/TxHandlers.v ===== *)
(** * Handlers of the transaction layer that interleave (transaction/transaction.go)

    [listenMessages] starts [go txl.handleMessage(msg)] for every message, so handlers run
    side by side: a mutex protects every access to the pools, to a transaction and to its
    machine, and nothing holds one from the look-up of a transaction to the [put] of a new
    one.  Here a handler is a goroutine with a program point; one step takes it to the
    next point.  [TxLayer.handleMessage] is the same code run without a break
    ([handler_alone]).  Everything else that the layer does is an event of [TxLayer].

    [fresh] are the transactions that are in the pool and whose [Init], which makes the
    machine, has not run; a message for one of them is given to [Spin] on a nil machine,
    the parameter [NilSpin]. *)

From S2P Require Import Prelude GoStrings Params Base Uri Header Headers Auth HeaderParse.
From S2P Require Import Message TxKey Transport Fsm TxCommon ClientTx ServerTx TxLayer.
From Stdlib Require Import NArith ZArith Lia.

#[local] Open Scope string_scope.
#[local] Open Scope list_scope.

(** ** Program points *)

(** Where the goroutine of one message is: what it does next. *)
Inductive point : Type :=
  | AtMessage (m : Message)
  | AtRequest (req : request)
  | AtSession (req : request)
  | AtLookup (req : request)
  | AtServerReceive (req : request) (i : ref)
  | AtRefuse (req : request)
  | AtCreate (req : request)
  | AtPut (req : request) (tx : serverTx)
  | AtInit (req : request) (i : ref)
  | AtServe (req : request) (i : ref)
  | AtOffer (req : request) (tx : option ref)
  | AtResponse (r : response)
  | AtMatch (r : response)
  | AtClientReceive (r : response) (i : ref)
  | AtOfferResponse (r : response)
  | Returned.

(** What happens: a message arrives, a handler takes a step, another event of the layer,
    the loop of [listenMessages] ends, and it closes the channels to the user. *)
Inductive hevent : Type :=
  | Arrive (m : Message)
  | Handler (n : nat) (takes_canceled : bool)
  | Other (ev : event)
  | ListenEnds
  | ChannelsClose.

Section Handlers.
Context {W : Type} `{TransportLayer W}.
Variable A : Type.
Variables uuid rnd : list Message -> string.
Variable ClientSpin : bool -> spin_type ClientState ClientInput (clientTx * W).
Variable ServerSpin : bool -> spin_type ServerState ServerInput (serverTx * W).
(** What [Spin] does on the nil pointer that a transaction holds before [initFSM]. *)
Variable NilSpin : bool -> spin_type ServerState ServerInput (serverTx * W).

(** The layer with the goroutines of its messages. *)
Record hlayer := mkH {
  lay : layer W A;
  fresh : gset ref;
  handlers : list point;
  listening : bool;
  chans_closed : bool
}.

Definition CreateLayer (w : W) : hlayer := mkH (TxLayer.CreateLayer A w) ∅ [] true false.

Definition set_lay (h : hlayer) (l : layer W A) : hlayer :=
  mkH l (fresh h) (handlers h) (listening h) (chans_closed h).
Definition set_fresh (h : hlayer) (f : gset ref) : hlayer :=
  mkH (lay h) f (handlers h) (listening h) (chans_closed h).
Definition set_point (h : hlayer) (n : nat) (p : point) : hlayer :=
  mkH (lay h) (fresh h) (<[n := p]> (handlers h)) (listening h) (chans_closed h).

(** The machine of a transaction. *)
Definition spin_of (h : hlayer) (i : ref) : bool -> spin_type ServerState ServerInput (serverTx * W) :=
  if decide (i ∈ fresh h) then NilSpin else ServerSpin.

(** A [select] between [canceled] and a send to the user, who reads what is sent.  When
    both can go on, either is taken; a send on a closed channel can go on, and panics. *)
Definition offer (h : hlayer) (takes_canceled : bool) (l : layer W A) : res hlayer :=
  if canceled A (lay h) && takes_canceled then mret h
  else if chans_closed h then Panic SendOnClosed
  else mret (set_lay h l).

(** A check of [canceled]. *)
Definition unless_canceled (h : hlayer) (p : point) : res (hlayer * point) :=
  mret (h, if canceled A (lay h) then Returned else p).

(** One step of a goroutine. *)
Definition handler_step (h : hlayer) (takes_canceled : bool) (p : point) : res (hlayer * point) :=
  let l := lay h in
  match p with
  | AtMessage (MRequest req) => unless_canceled h (AtRequest req)
  | AtMessage (MResponse r) => unless_canceled h (AtResponse r)
  | AtRequest req => unless_canceled h (AtSession req)
  | AtSession req => l ← updateSession A l req; mret (set_lay h l, AtLookup req)
  | AtLookup req =>
      match getServerTx A l (req_msg req) with
      | Panic k => Panic k
      | Ok (i, _) => mret (h, AtServerReceive req i)
      | Err _ =>
          mret (h, if request_IsAck req then AtOffer req None
                   else if request_IsCancel req then AtRefuse req else AtCreate req)
      end
  | AtServerReceive req i =>
      match heap A l !! i with
      | Some (ServerTxn s tx) =>
          '(c, _) ← ServerTx.Receive (spin_of h i) (s, (tx, tpl A l)) (MRequest req);
          mret (set_lay h (store_server A l i c), Returned)
      | _ => mret (h, Returned)
      end
  | AtRefuse req =>
      r ← CreateResponse (uuid (sent (tpl A l))) (rnd (sent (tpl A l))) req 481%N;
      '(w, _, _) ← Send (tpl A l) (MResponse r);
      mret (set_lay h (set_tpl A l w), Returned)
  | AtCreate req =>
      match NewServerTx (tpl A l) req with
      | Err _ => mret (h, Returned)
      | Panic k => Panic k
      | Ok tx => mret (h, AtPut req tx)
      end
  | AtPut req tx =>
      let '(l, i) := alloc A l (ServerTxn (first_state (ServerTx.tx_invite tx)) tx) in
      let l := set_pool A l (pool_put (transactions A l) (key (ServerTx.common tx)) i) in
      mret (set_fresh (set_lay h l) ({[i]} ∪ fresh h), AtInit req i)
  | AtInit req i =>
      match heap A l !! i with
      | Some (ServerTxn _ tx) =>
          let l := store_server A l i (ServerTx.Init tx (tpl A l)) in
          mret (set_fresh (set_lay h l) (fresh h ∖ {[i]}), AtServe req i)
      | _ => mret (h, Returned)
      end
  | AtServe req i =>
      if canceled A l then mret (h, Returned) else mret (set_lay h (serve A l i), AtOffer req (Some i))
  | AtOffer req tx => h ← offer h takes_canceled (pass_up A l req tx); mret (h, Returned)
  | AtResponse r => unless_canceled h (AtMatch r)
  | AtMatch r =>
      match getClientTx A l (res_msg r) with
      | Panic k => Panic k
      | Err _ => mret (h, AtOfferResponse r)
      | Ok (i, _) => mret (h, AtClientReceive r i)
      end
  | AtClientReceive r i =>
      match heap A l !! i with
      | Some (ClientTxn s tx) =>
          '(c, _) ← ClientTx.Receive ClientSpin (s, (tx, tpl A l)) (MResponse r);
          mret (set_lay h (store_client A l i c), Returned)
      | _ => mret (h, Returned)
      end
  | AtOfferResponse r => h ← offer h takes_canceled (pass_up_resp A l r None); mret (h, Returned)
  | Returned => mret (h, Returned)
  end.

(** A message waits for its reader in the channel of this transaction. *)
Definition has_next (l : layer W A) (i : ref) : bool :=
  match heap A l !! i, forwarded A l !! i with
  | Some (ClientTxn _ tx), Some n => bool_decide (n < length (ClientTx.responses tx))%nat
  | Some (ServerTxn _ tx), Some n => bool_decide (n < length (ServerTx.requests tx))%nat
  | _, _ => false
  end.

(** The other events.  A message comes in by [Arrive]; a reading goroutine sends on the
    channels that [listenMessages] closes; the user's response may find a transaction
    without machine, whose timers are not set either. *)
Definition other_step (h : hlayer) (ev : event) : res hlayer :=
  let l := lay h in
  let step spin := l ← layer_step A uuid rnd ClientSpin spin l ev; mret (set_lay h l) in
  match ev with
  | EvReceive _ => mret h
  | EvForward i => if chans_closed h && has_next l i then Panic SendOnClosed else step ServerSpin
  | EvSend (MResponse r) =>
      match getServerTx A l (res_msg r) with
      | Ok (i, _) => step (spin_of h i)
      | _ => step ServerSpin
      end
  | EvServerTimer i _ | EvTimer1xx i => if decide (i ∈ fresh h) then mret h else step ServerSpin
  | _ => step ServerSpin
  end.

(** [listenMessages] returns when the layer is canceled or the transport closes its
    channel; it waits for the served transactions, not for the handlers, and closes. *)
Definition hstep (h : hlayer) (ev : hevent) : res hlayer :=
  match ev with
  | Arrive m =>
      mret (if listening h then mkH (lay h) (fresh h) (handlers h ++ [AtMessage m]) true (chans_closed h) else h)
  | Handler n c =>
      match handlers h !! n with
      | Some p => '(h, p) ← handler_step h c p; mret (set_point h n p)
      | None => mret h
      end
  | Other ev => other_step h ev
  | ListenEnds => mret (mkH (lay h) (fresh h) (handlers h) false (chans_closed h))
  | ChannelsClose =>
      mret (mkH (lay h) (fresh h) (handlers h) (listening h)
              (chans_closed h || (negb (listening h) && bool_decide (serving A (lay h) = ∅))))
  end.

Definition hrun (h : hlayer) (evs : list hevent) : res hlayer :=
  foldl (fun r ev => h ← r; hstep h ev) (mret h) evs.

End Handlers.

#[global] Arguments hlayer : clear implicits.
#[global] Arguments mkH {W A}.
#[global] Arguments lay {W A}.
#[global] Arguments fresh {W A}.
#[global] Arguments handlers {W A}.
#[global] Arguments listening {W A}.
#[global] Arguments chans_closed {W A}.
#[global] Arguments set_lay {W A}.
#[global] Arguments set_fresh {W A}.
#[global] Arguments set_point {W A}.

(** ** One goroutine *)

Section Alone.
Context {W A : Type} `{TransportLayer W}.
Variables uuid rnd : list Message -> string.
Variable ClientSpin : bool -> spin_type ClientState ClientInput (clientTx * W).
Variable ServerSpin NilSpin : bool -> spin_type ServerState ServerInput (serverTx * W).
Implicit Types h : hlayer W A.

#[local] Abbreviation pstep := (handler_step A uuid rnd ClientSpin ServerSpin NilSpin).
#[local] Abbreviation step := (hstep A uuid rnd ClientSpin ServerSpin NilSpin).
#[local] Abbreviation run := (hrun A uuid rnd ClientSpin ServerSpin NilSpin).

Lemma hrun_cons h ev evs : run h (ev :: evs) = (h1 ← step h ev; run h1 evs).
Proof.
  unfold hrun. cbn. destruct (step h ev) as [h1|e|k]; [done| |];
    (induction evs as [|ev' evs IH]; [done|exact IH]).
Qed.

Lemma hrun_app h evs1 evs2 : run h (evs1 ++ evs2) = (h1 ← run h evs1; run h1 evs2).
Proof.
  revert h. induction evs1 as [|ev evs1 IH]; intros h; [done|]. rewrite <- app_comm_cons, !hrun_cons.
  destruct (step h ev); [apply IH|done..].
Qed.

(** The steps of one goroutine, seen from it. *)
Fixpoint steps (k : nat) (c : bool) (h : hlayer W A) (p : point) : res (hlayer W A * point) :=
  match k with
  | O => mret (h, p)
  | S k => '(h, p) ← pstep h c p; steps k c h p
  end.

(** Case analysis on the calls of one step. *)
#[local] Ltac by_calls :=
  repeat first
    [ done
    | progress cbn [mbind res_bind mret res_ret lay fresh handlers listening chans_closed fst snd alloc]
    | match goal with |- context [mbind _ ?x] =>
        lazymatch x with
        | mbind _ _ => fail | mret _ => fail | match _ with _ => _ end => fail
        | _ => destruct x as [?|?|?] eqn:?
        end
      end
    | case_match ].

(** A goroutine does not look at the others. *)
Lemma pstep_handlers h c p n q :
  pstep (set_point h n q) c p = ('(h1, p1) ← pstep h c p; mret (set_point h1 n q, p1)).
Proof.
  destruct h as [l f hs li cl]. unfold handler_step, offer, unless_canceled, spin_of, set_point, set_lay, set_fresh.
  by_calls.
Qed.

Lemma pstep_keeps h c p h1 p1 : pstep h c p = Ok (h1, p1) -> handlers h1 = handlers h.
Proof.
  destruct h as [l f hs li cl]. unfold handler_step, offer, unless_canceled, spin_of, set_lay, set_fresh.
  by_calls; intros Hs; apply (inj Ok) in Hs; by injection Hs as <- <-.
Qed.

Lemma steps_handlers k c h p n q :
  steps k c (set_point h n q) p = ('(h1, p1) ← steps k c h p; mret (set_point h1 n q, p1)).
Proof.
  revert h p. induction k as [|k IH]; intros h p; [done|]. cbn [steps]. rewrite pstep_handlers.
  destruct (pstep h c p) as [[h1 p1]|e|r]; [apply IH|done..].
Qed.

(** The steps of a goroutine are a run of the layer in which no other is scheduled. *)
Lemma run_steps k c n h p :
  handlers h !! n = Some p ->
  run h (replicate k (Handler n c)) = ('(h1, p1) ← steps k c h p; mret (set_point h1 n p1)).
Proof.
  revert h p. induction k as [|k IH]; intros h p Hp.
  { destruct h as [l f hs li cl]. unfold set_point. cbn in *. by rewrite list_insert_id. }
  cbn [replicate steps]. rewrite hrun_cons. unfold hstep at 1. rewrite Hp.
  destruct (pstep h c p) as [[h1 p1]|e|r] eqn:Ep; [|done..]. cbn [mbind res_bind mret res_ret].
  pose proof (pstep_keeps _ _ _ _ _ Ep) as Hk. rewrite (IH (set_point h1 n p1) p1).
  - rewrite steps_handlers. destruct (steps k c h1 p1) as [[h2 p2]|e|r]; [|done..].
    cbn. unfold set_point. cbn. by rewrite list_insert_insert_eq.
  - unfold set_point. cbn. apply list_lookup_insert_eq. rewrite Hk. by eapply lookup_lt_Some.
Qed.

Lemma steps_Returned k c h : steps k c h Returned = Ok (h, Returned).
Proof. induction k as [|k IH]; [done|exact IH]. Qed.

(** Rest of the way: a goroutine takes at most this many steps. *)
Definition rank (p : point) : nat :=
  match p with
  | AtMessage _ => 9 | AtRequest _ => 8 | AtSession _ => 7 | AtLookup _ => 6
  | AtCreate _ => 5 | AtPut _ _ => 4 | AtInit _ _ => 3 | AtServe _ _ => 2
  | AtResponse _ => 3 | AtMatch _ => 2
  | AtServerReceive _ _ | AtRefuse _ | AtOffer _ _ | AtClientReceive _ _ | AtOfferResponse _ => 1
  | Returned => 0
  end.

Lemma pstep_rank h c p h1 p1 : pstep h c p = Ok (h1, p1) -> (rank p1 <= Nat.pred (rank p))%nat.
Proof.
  unfold handler_step, offer, unless_canceled. by_calls;
    intros Hs; apply (inj Ok) in Hs; injection Hs as <- <-; by_calls; cbn; lia.
Qed.

Lemma steps_rank k c h p h1 p1 : steps k c h p = Ok (h1, p1) -> (rank p1 <= rank p - k)%nat.
Proof.
  revert h p. induction k as [|k IH]; intros h p.
  - intros Hs. apply (inj Ok) in Hs. injection Hs as <- <-. lia.
  - cbn [steps]. intros ([h2 p2] & Hs & Hr)%bind_ok. apply pstep_rank in Hs. apply IH in Hr. lia.
Qed.

(** *** The handler run without a break *)

#[local] Abbreviation hMessage := (handleMessage A uuid rnd ClientSpin ServerSpin).

Lemma steps_S k c h p : steps (S k) c h p = ('(h1, p1) ← pstep h c p; steps k c h1 p1).
Proof. done. Qed.

Lemma set_lay_id h : set_lay h (lay h) = h.
Proof. by destruct h. Qed.

Lemma steps_canceled k c h m : canceled A (lay h) = true -> steps (S k) c h (AtMessage m) = Ok (h, Returned).
Proof. intros Hc. rewrite steps_S. destruct m; cbn; unfold unless_canceled; rewrite Hc; apply steps_Returned. Qed.

(** A new request, from its creation to the user. *)
Lemma steps_create c h req :
  fresh h = ∅ -> canceled A (lay h) = false -> chans_closed h = false -> c = false ->
  steps 5 c h (AtCreate req)
  = match NewServerTx (tpl A (lay h)) req with
    | Err _ => Ok (h, Returned)
    | Panic k => Panic k
    | Ok tx =>
        let '(l, i) := alloc A (lay h) (ServerTxn (first_state (ServerTx.tx_invite tx)) tx) in
        let l := set_pool A l (pool_put (transactions A l) (key (ServerTx.common tx)) i) in
        let l := store_server A l i (ServerTx.Init tx (tpl A l)) in
        Ok (set_lay h (pass_up A (serve A l i) req (Some i)), Returned)
    end.
Proof.
  destruct h as [l f hs li cl]. cbn [lay fresh chans_closed]. intros -> Hc -> ->.
  rewrite steps_S. cbn [handler_step lay]. destruct (NewServerTx (tpl A l) req) as [tx|e|k]; [|done..].
  cbn [mbind res_bind mret res_ret]. rewrite steps_S. cbn [handler_step lay alloc mbind res_bind mret res_ret].
  rewrite steps_S. cbn [handler_step lay set_lay set_fresh]. cbn [heap set_pool set_heap].
  rewrite list_lookup_middle by done. cbn [mbind res_bind mret res_ret]. rewrite steps_S.
  destruct (Init_shape tx (tpl A l)) as (tx' & Hi & _). cbn [tpl set_pool set_heap]. rewrite Hi.
  cbn [handler_step lay set_lay set_fresh]. cbn [canceled store_server set_heap set_tpl set_pool]. rewrite Hc.
  cbn [mbind res_bind mret res_ret]. rewrite steps_S. cbn [handler_step]. unfold offer.
  cbn [lay set_lay set_fresh chans_closed]. rewrite andb_false_r. cbn [mbind res_bind mret res_ret steps].
  unfold set_lay, set_fresh. cbn [lay fresh handlers listening chans_closed]. do 3 f_equal. set_solver.
Qed.

Lemma steps_request h req :
  fresh h = ∅ -> canceled A (lay h) = false -> chans_closed h = false ->
  steps 8 false h (AtRequest req)
  = (l ← handleRequest A uuid rnd ServerSpin (lay h) req; mret (set_lay h l, Returned)).
Proof.
  intros Hf Hc Hcl. rewrite steps_S. cbn [handler_step]. unfold unless_canceled. rewrite Hc.
  cbn [mbind res_bind mret res_ret]. rewrite steps_S. cbn [handler_step]. unfold handleRequest. rewrite Hc.
  destruct (updateSession A (lay h) req) as [l0|e|k] eqn:Hu; [|done..]. cbn [mbind res_bind mret res_ret].
  apply updateSession_same in Hu as (_ & _ & _ & Hc0). rewrite Hc in Hc0.
  rewrite steps_S. cbn [handler_step lay set_lay].
  destruct (getServerTx A l0 (req_msg req)) as [[i [s tx]]|e|k] eqn:Hg; [| |done]; cbn [mbind res_bind mret res_ret].
  - apply getServerTx_inv in Hg as (k & _ & [_ Hi]%lookup_tx_inv). rewrite steps_S. cbn [handler_step lay set_lay].
    rewrite Hi. unfold spin_of. rewrite decide_False by (destruct h; cbn in *; set_solver).
    destruct (Receive ServerSpin _ _) as [[c ?]|e|r]; [|done..]. cbn [mbind res_bind mret res_ret].
    by rewrite steps_Returned.
  - destruct (request_IsAck req).
    { rewrite steps_S. cbn [handler_step]. unfold offer. cbn [lay set_lay chans_closed]. rewrite andb_false_r, Hcl.
      cbn [mbind res_bind mret res_ret]. by rewrite steps_Returned. }
    destruct (request_IsCancel req).
    { rewrite steps_S. cbn [handler_step lay set_lay]. destruct (CreateResponse _ _ _ _) as [r|e'|k]; [|done..].
      cbn [mbind res_bind mret res_ret]. destruct (Send _ _) as [[[w ?] ?]|e'|k]; [|done..].
      cbn [mbind res_bind mret res_ret]. by rewrite steps_Returned. }
    rewrite steps_create by done. cbn [lay set_lay]. by destruct (NewServerTx (tpl A l0) req).
Qed.

Lemma steps_response h r :
  canceled A (lay h) = false -> chans_closed h = false ->
  steps 8 false h (AtResponse r)
  = (l ← handleResponse A ClientSpin (lay h) r; mret (set_lay h l, Returned)).
Proof.
  intros Hc Hcl. rewrite steps_S. cbn [handler_step]. unfold unless_canceled. rewrite Hc.
  cbn [mbind res_bind mret res_ret]. rewrite steps_S. cbn [handler_step]. unfold handleResponse. rewrite Hc.
  destruct (getClientTx A (lay h) (res_msg r)) as [[i [s tx]]|e|k] eqn:Hg; [| |done]; cbn [mbind res_bind mret res_ret].
  - apply getClientTx_inv in Hg as (k & _ & [_ Hi]%lookup_tx_inv). rewrite steps_S. cbn [handler_step].
    rewrite Hi. destruct (ClientTx.Receive ClientSpin _ _) as [[c ?]|e|k']; [|done..]. cbn [mbind res_bind mret res_ret].
    by rewrite steps_Returned.
  - rewrite steps_S. cbn [handler_step]. unfold offer. rewrite andb_false_r, Hcl.
    cbn [mbind res_bind mret res_ret]. by rewrite steps_Returned.
Qed.

Lemma steps_message h m :
  fresh h = ∅ -> chans_closed h = false ->
  steps 9 false h (AtMessage m) = (l ← hMessage (lay h) m; mret (set_lay h l, Returned)).
Proof.
  intros Hf Hcl. destruct (canceled A (lay h)) eqn:Hc.
  { rewrite steps_canceled by done.
    assert (E : hMessage (lay h) m = Ok (lay h)) by
      (destruct m; cbn [handleMessage]; unfold handleRequest, handleResponse; by rewrite Hc).
    rewrite E. cbn. by rewrite set_lay_id. }
  rewrite steps_S. destruct m as [req|r]; cbn [handler_step]; unfold unless_canceled; rewrite Hc;
    cbn [mbind res_bind mret res_ret]; [by apply steps_request|by apply steps_response].
Qed.

End Alone.
