(* ===== verification/TxInterleave.v ===== *)
(** * Every interleaving of the handlers of the transaction layer

    The invariant of [TxHandlers]: what holds of the transactions, of the goroutines and of
    what went up to the user, however the goroutines interleave; and the schedules that
    show what does not hold. *)

From S2P Require Import Prelude GoStrings Params Base Uri Header Headers Auth HeaderParse.
From S2P Require Import Message TxKey Transport Fsm TxCommon ClientTx ServerTx TxLayer TxHandlers.
From Stdlib Require Import NArith ZArith Lia.

#[local] Open Scope string_scope.
#[local] Open Scope list_scope.

(** ** What a server transaction hands on *)

(** Requests that a server transaction hands on: an ACK or a CANCEL. *)
Definition passed_on (r : request) : bool := request_IsAck r || request_IsCancel r.

(** A transaction with the key and request of [c] that keeps and hands on nothing else. *)
Record follows (c : commonTx) (t : serverTx) : Prop := {
  fol_key : key (common t) = key c;
  fol_origin : origin (common t) = origin c;
  fol_requests : Forall (fun r => passed_on r = true) (requests t);
  fol_ack : forall r, lastAck t = Some r -> passed_on r = true;
  fol_cancel : forall r, lastCancel t = Some r -> passed_on r = true
}.

#[local] Ltac same_fields I := destruct I; by constructor.

Section Follows.
Context {W : Type} `{TransportLayer W}.
Variable takes_done : bool.
Variables uuid rnd : list Message -> string.
Implicit Types (tx : serverTx) (w : W) (c : commonTx).

Lemma send_last_follows c tx w tx' w' e :
  follows c tx -> send_last tx w = Ok (Some (tx', w', e)) -> follows c tx'.
Proof.
  unfold send_last. destruct (lastResp (common tx)) as [r|]; [|done]. cbn.
  destruct (Send w (MResponse r)) as [[[w1 ?] ?]| |]; try done. intros I [= <- <- <-]. same_fields I.
Qed.

Lemma delete_follows c tx : follows c tx -> follows c (ServerTx.delete tx).
Proof. intros I. unfold ServerTx.delete. destruct (closed (common tx)); [done|same_fields I]. Qed.

Lemma pass_request_follows c tx r :
  passed_on r = true -> follows c tx -> follows c (pass_request takes_done tx r).1.
Proof.
  intros Hr I. unfold pass_request. destruct (closed (common tx)); [done|]. destruct I as [I1 I2 I3 I4 I5].
  constructor; try done. apply Forall_app. by split; [|constructor].
Qed.

Lemma perform_follows c a t t' n :
  follows c t.1 -> perform takes_done uuid rnd a t = Ok (t', n) -> follows c t'.1.
Proof.
  destruct t as [tx w]. intros I. cbn [fst] in I. destruct a; cbn [perform].
  - by intros [= <- _].
  - unfold actionRespond. destruct (send_last tx w) as [[[[tx1 w1] e]|]| |] eqn:E; try done;
      intros [= <- _]; [by eapply send_last_follows|done].
  - unfold actionRespondComplete.
    destruct (send_last tx w) as [[[[tx1 w1] [e|]]|]| |] eqn:E; try done; intros [= <- _]; try done;
      pose proof (send_last_follows _ _ _ _ _ _ I E) as I1; [done|].
    unfold start_timerH, start_timerG. destruct (reliable tx1), (timerG tx1), (timerH _); same_fields I1.
  - unfold actionFinal. destruct (send_last tx w) as [[[[tx1 w1] [e|]]|]| |] eqn:E; try done;
      intros [= <- _]; try done; pose proof (send_last_follows _ _ _ _ _ _ I E) as I1; [done|same_fields I1].
  - intros [= <- _]. unfold transportErr, put_err. destruct (closed (common tx)); same_fields I.
  - intros [= <- _]. by apply delete_follows.
  - unfold actionRespondDelete. pose proof (delete_follows c tx I) as I1.
    destruct (lastResp (common (ServerTx.delete tx))); [|done]. cbn.
    destruct (Send w _) as [[[w1 ?] ?]| |]; try done. intros [= <- _]. same_fields I1.
  - destruct (actionConfirm takes_done tx) as [tx1 i1] eqn:E. intros [= <- _]. unfold actionConfirm in E.
    destruct (lastAck _) as [ack|] eqn:Ha; [|injection E as <- _; same_fields I].
    apply (f_equal fst) in E. cbn [fst] in E. subst tx1. apply pass_request_follows; [|same_fields I].
    by apply (fol_ack _ _ I).
  - unfold actionCancel. destruct (lastCancel tx) as [r|] eqn:Hl; [|by intros [= <- _]].
    destruct (answer_cancel _ _ _ _ _) as [w1| |]; [|done|by intros [= <- _]].
    pose proof (pass_request_follows c tx r (fol_cancel _ _ I _ Hl)) as I1.
    destruct (pass_request takes_done tx r) as [tx1 i1]. intros [= <- _]. apply I1. same_fields I.
  - unfold actionCancelNotExist. destruct (lastCancel tx); [|by intros [= <- _]].
    destruct (answer_cancel _ _ _ _ _); [intros [= <- _]; same_fields I|done|by intros [= <- _]].
Qed.

(** What is asked of a machine here: it keeps such transactions. *)
Definition keeps_follows (Sp : bool -> spin_type ServerState ServerInput (serverTx * W)) : Prop :=
  forall b s t i s' t' e c, follows c t.1 -> Sp b (s, t) i = Ok ((s', t'), e) -> follows c t'.1.

Lemma machine_follows (Sp : bool -> spin_type ServerState ServerInput (serverTx * W)) :
  (forall b, FsmSpin (ServerTx.outcomes b) (perform takes_done uuid rnd) (Sp b)) -> keeps_follows Sp.
Proof.
  intros Hs b s t i s' t' e c.
  apply (spin_preserves (ServerTx.outcomes b) _ server_rank (chains_end takes_done uuid rnd b) (Sp b) (fun t => follows c t.1) (Hs b)).
  intros a t0 t1 n. apply perform_follows.
Qed.

(** A machine that does nothing. *)
Lemma idle_follows (Sp : bool -> spin_type ServerState ServerInput (serverTx * W)) :
  (forall b x i x' e, Sp b x i = Ok (x', e) -> x' = x) -> keeps_follows Sp.
Proof. intros Hi b s t i s' t' e c I Hs. by apply Hi in Hs as [= <- <-]. Qed.

Section Operations.
Variable Sp : bool -> spin_type ServerState ServerInput (serverTx * W).
Hypothesis Hsp : keeps_follows Sp.

Lemma Receive_follows c s tx w msg s' tx' w' e :
  follows c tx -> ServerTx.Receive Sp (s, (tx, w)) msg = Ok ((s', (tx', w')), e) -> follows c tx'.
Proof.
  intros I. destruct msg as [req|]; [|done]. unfold ServerTx.Receive.
  destruct (String.eqb _ _); [intros Hs; eapply (Hsp _ _ _ _ _ (tx', w')); [|exact Hs]; same_fields I|].
  destruct (request_IsAck req) eqn:Ha.
  { intros Hs. eapply (Hsp _ _ _ _ _ (tx', w')); [|exact Hs]. destruct I as [I1 I2 I3 I4 I5]. constructor; try done. cbn. intros r [= <-]. unfold passed_on. by rewrite Ha. }
  destruct (request_IsCancel req) eqn:Hc.
  { intros Hs. eapply (Hsp _ _ _ _ _ (tx', w')); [|exact Hs]. destruct I as [I1 I2 I3 I4 I5]. constructor; try done. cbn. intros r [= <-]. unfold passed_on.
    by rewrite Hc, orb_true_r. }
  destruct (request_String req); try done. intros [= <- <- <- _]. same_fields I.
Qed.

Lemma SendResponse_follows c s tx w r s' tx' w' e :
  follows c tx -> SendResponse Sp (s, (tx, w)) r = Ok ((s', (tx', w')), e) -> follows c tx'.
Proof.
  intros I. unfold SendResponse. destruct (response_IsCancel r).
  - destruct (Send w _) as [[[w1 ?] ?]| |]; try done. intros [= <- <- <- _]. same_fields I.
  - intros Hs. eapply (Hsp _ _ _ _ _ (tx', w')); [|exact Hs]. same_fields I.
Qed.

End Operations.

Lemma Init_follows c s tx tx' w1 : follows c tx -> ServerTx.Init tx w1 = (s, (tx', w1)) -> follows c tx'.
Proof.
  intros I. unfold ServerTx.Init. intros [= _ <-]. destruct (reliable tx), (tx_invite _); same_fields I.
Qed.

Lemma New_follows w r tx : NewServerTx w r = Ok tx -> follows (common tx) tx /\ origin (common tx) = r
  /\ MakeServerTxKey (req_msg r) = Ok (key (common tx)).
Proof. intros (k & rel & Hk & ->)%NewServerTx_spec. split; [by constructor|done]. Qed.

End Follows.

(** ** What a step does to the transactions *)

(** A transaction keeps its kind, its key, its request and what it may hand on. *)
Definition kept (t t' : Tx) : Prop :=
  match t, t' with
  | ServerTxn _ tx, ServerTxn _ tx' => follows (ServerTx.common tx) tx'
  | ClientTxn _ tx, ClientTxn _ tx' => key (ClientTx.common tx') = key (ClientTx.common tx)
  | _, _ => False
  end.

Section Moves.
Context {W A : Type} `{TransportLayer W}.
Implicit Types l : layer W A.

Definition all_good l : Prop := forall i t, heap A l !! i = Some t -> kept t t.

(** The objects stay where they are. *)
Definition grows l l' : Prop := forall i t, heap A l !! i = Some t -> exists t', heap A l' !! i = Some t' /\ kept t t'.

(** Only ACKs and CANCELs are added to what went up. *)
Definition ups_passed l l' : Prop :=
  exists us, ups A l' = ups A l ++ us /\ Forall (fun u => passed_on u.1 = true) us.

Record keeps l l' : Prop := {
  keeps_ok : layer_ok l';
  keeps_good : all_good l';
  keeps_grows : grows l l';
  keeps_ups : ups_passed l l'
}.

Lemma ups_same l l' : ups A l' = ups A l -> ups_passed l l'.
Proof. intros E. exists []. by rewrite app_nil_r. Qed.

Lemma keeps_same l l' :
  layer_ok l' -> all_good l -> heap A l' = heap A l -> ups_passed l l' -> keeps l l'.
Proof.
  intros Hok Hg Hh Hu. constructor; [done| | |done].
  - intros i t. rewrite Hh. apply Hg.
  - intros i t Hi. exists t. rewrite Hh. split; [done|by eapply Hg].
Qed.

Lemma follows_trans c c1 tx : key c1 = key c -> origin c1 = origin c -> follows c1 tx -> follows c tx.
Proof. intros Hk Ho []. constructor; [congruence|congruence|done..]. Qed.

Lemma kept_good t t' : kept t t' -> kept t' t'.
Proof.
  destruct t as [s tx|s tx], t' as [s' tx'|s' tx']; try done. cbn. intros I.
  by apply (follows_trans _ (ServerTx.common tx)); [symmetry; apply (fol_key _ _ I)|symmetry; apply (fol_origin _ _ I)|].
Qed.

Lemma keeps_update l l' i t t' :
  layer_ok l' -> all_good l -> heap A l !! i = Some t -> kept t t' -> heap A l' = <[i := t']> (heap A l) ->
  ups_passed l l' -> keeps l l'.
Proof.
  intros Hok Hg Hi Hk Hh Hu. constructor; [done| | |done].
  - intros j u. rewrite Hh. intros [(-> & <- & _)|[_ Hj]]%list_lookup_insert_Some; [by eapply kept_good|by eapply Hg].
  - intros j u Hj. rewrite Hh. destruct (decide (j = i)) as [->|Hne].
    + exists t'. rewrite list_lookup_insert_eq by (by eapply lookup_lt_Some). split; [done|]. by simplify_eq.
    + exists u. rewrite list_lookup_insert_ne by done. split; [done|by eapply Hg].
Qed.

Lemma keeps_new l l' t :
  layer_ok l' -> all_good l -> kept t t -> heap A l' = heap A l ++ [t] -> ups_passed l l' -> keeps l l'.
Proof.
  intros Hok Hg Hk Hh Hu. constructor; [done| | |done].
  - intros j u. rewrite Hh. intros [Hj|[_ Hj]]%lookup_app_Some; [by eapply Hg|].
    by apply list_lookup_singleton_Some in Hj as [_ <-].
  - intros j u Hj. exists u. rewrite Hh. split; [by apply lookup_app_l_Some|by eapply Hg].
Qed.

(** A server transaction is replaced by one that follows it. *)
Lemma keeps_server l l' i s tx s' tx' :
  layer_ok l -> all_good l -> heap A l !! i = Some (ServerTxn s tx) -> follows (ServerTx.common tx) tx' ->
  heap A l' = <[i := ServerTxn s' tx']> (heap A l) -> transactions A l' = transactions A l ->
  serving A l' = serving A l -> ups_passed l l' -> keeps l l'.
Proof.
  intros Hok Hg Hi Hf Hh Hp Hs Hu. apply (keeps_update l l' i (ServerTxn s tx) (ServerTxn s' tx')); try done.
  apply (update_ok l l' i (ServerTxn s tx) (ServerTxn s' tx')); try done; [| |by rewrite Hs].
  - cbn. rewrite (fol_key _ _ Hf), (fol_origin _ _ Hf). exact (ok_heap _ Hok _ _ Hi).
  - exact (fol_key _ _ Hf).
Qed.

(** The end of a transaction takes the entry of its key, whoever it refers to. *)
Lemma twin_dropped l i j t :
  heap A l !! i = Some t -> i ∈ serving A l -> j ∈ serving A l -> j <> i ->
  let l1 := serve_end A (set_heap A l (<[i := Tx_Close t]> (heap A l))) i in
  j ∈ serving A l1 /\ pool_get (transactions A l1) (Tx_Key t) = None.
Proof.
  intros Ht Hi Hj Hne. assert (Hk : Tx_Key (Tx_Close t) = Tx_Key t).
  { destruct t as [s t|s t]; cbn; unfold ClientTx.delete, ServerTx.delete, Tx_Key; cbn; by case_match. }
  cbn zeta. unfold serve_end. cbn [heap set_heap]. rewrite list_lookup_insert_eq by (by eapply lookup_lt_Some).
  rewrite decide_True by done. rewrite Tx_Close_closed, Hk. cbn. split; [set_solver|apply pool_get_drop].
Qed.

End Moves.

(** ** Every event keeps them *)

Section Keeps.
Context {W : Type} `{TransportLayer W}.
Variable A : Type.
Variable takes_done : bool.
Variables uuid rnd : list Message -> string.
Variable ClientSpin : bool -> spin_type ClientState ClientInput (clientTx * W).
Variables ServerSpin NilSpin : bool -> spin_type ServerState ServerInput (serverTx * W).
Context {Hclient : forall b, FsmSpin (ClientTx.outcomes b) (ClientTx.perform takes_done uuid rnd) (ClientSpin b)}.
Context {Hserver : forall b, FsmSpin (ServerTx.outcomes b) (ServerTx.perform takes_done uuid rnd) (ServerSpin b)}.
Hypothesis Hnil : forall b x i x' e, NilSpin b x i = Ok (x', e) -> x' = x.
Implicit Types l : layer W A.

#[local] Abbreviation lstep := (layer_step A uuid rnd ClientSpin ServerSpin).

Lemma sendResponse_keeps Sp l r l' e :
  keeps_follows Sp -> layer_ok l -> all_good l -> sendResponse A Sp l r = Ok (l', e) -> keeps l l'.
Proof.
  intros Hsp Hok Hg. unfold sendResponse. destruct (canceled A l); [intros [= <- _]; by apply keeps_same, ups_same|].
  destruct (getServerTx A l (res_msg r)) as [[i [s tx]]| |] eqn:Eg; [|intros [= <- _]; by apply keeps_same, ups_same|done].
  apply getServerTx_inv in Eg as (k & _ & [_ Ht]%lookup_tx_inv).
  destruct (handleSession A l _ r) as [l1| |] eqn:Eh; try done. cbn [mbind res_bind].
  apply handleSession_same in Eh as ([Hh Hp Hs] & Ew & Hu & _).
  destruct (SendResponse Sp _ r) as [[[s' [tx' w']] err]| |] eqn:Es; try done. intros [= <- _].
  eapply (SendResponse_follows Sp Hsp (ServerTx.common tx)) in Es; [|exact (Hg _ _ Ht)].
  apply (keeps_server l _ i s tx s' tx'); cbn; rewrite ?Hh; try done. by apply ups_same.
Qed.

(** The channel of a client transaction does not concern what goes up as a request. *)
Lemma client_keeps l i s tx s' tx' w' :
  layer_ok l -> all_good l -> heap A l !! i = Some (ClientTxn s tx) ->
  (forall r0 k, client_inv r0 k s tx -> client_inv r0 k s' tx') ->
  keeps l (store_client A l i (s', (tx', w'))).
Proof.
  intros Hok Hg Ht Hi. destruct (ok_heap _ Hok _ _ Ht) as [r0 I].
  apply (keeps_update l _ i (ClientTxn s tx) (ClientTxn s' tx')); try done; [| |by apply ups_same].
  - by apply (change_ok A l), (client_step A l i s tx).
  - cbn. apply (inv_key _ _ _ _ (Hi _ _ I)).
Qed.

Lemma sendRequest_keeps l req l' e :
  layer_ok l -> all_good l -> sendRequest A ClientSpin l req = Ok (l', e) -> keeps l l'.
Proof.
  intros Hok Hg E. pose proof (sendRequest_ok A takes_done uuid rnd ClientSpin ServerSpin _ _ _ _ Hok E) as Hok'. revert E.
  unfold sendRequest. destruct (canceled A l); [intros [= <- _]; by apply keeps_same, ups_same|].
  destruct (updateSession A l req) as [l1| |] eqn:Eu; try done. cbn [mbind res_bind].
  apply updateSession_same in Eu as ([Hh Hp Hs] & _ & Hu & _).
  destruct (request_IsAck req).
  { destruct (Send _ _) as [[[w ?] ?]| |]; try done. intros [= <- _]. apply keeps_same; try done. by apply ups_same. }
  destruct (NewClientTx (tpl A l1) req) as [tx| |]; [|intros [= <- _]; apply keeps_same; try done; by apply ups_same|done].
  cbn [alloc tpl set_heap set_pool].
  destruct (ClientTx.Init ClientSpin tx (tpl A l1)) as [[[s [tx' w']] err]| |] eqn:Ei; try done. cbn [mbind res_bind].
  intros E. apply (keeps_new l l' (ClientTxn s tx')); try done.
  - destruct err; apply (inj Ok) in E; injection E as <- _; cbn; rewrite Hh; apply insert_last.
  - apply ups_same. destruct err; apply (inj Ok) in E; by injection E as <- _.
Qed.

Lemma forward_keeps l i l' : layer_ok l -> all_good l -> forward A l i = Ok l' -> keeps l l'.
Proof.
  intros Hok Hg E. pose proof (change_ok A _ _ Hok (forward_change A l i l' E)) as Hok'. revert E. unfold forward.
  destruct (heap A l !! i) as [[s tx|s tx]|] eqn:Hi; [| |intros [= <-]; by apply keeps_same, ups_same];
    (destruct (forwarded A l !! i) as [n|]; [|intros [= <-]; by apply keeps_same, ups_same]).
  - unfold forward_response. destruct (ClientTx.responses tx !! n) as [r|]; [|intros [= <-]; by apply keeps_same, ups_same].
    destruct (handleSession A l _ r) as [l1| |] eqn:Eh; try done. intros [= <-].
    apply handleSession_same in Eh as ([Hh _ _] & _ & Hu & _). apply keeps_same; try done. by apply ups_same.
  - unfold forward_request. destruct (ServerTx.requests tx !! n) as [r|] eqn:Hr; intros [= <-];
      [|by apply keeps_same, ups_same].
    apply keeps_same; try done. exists [(r, Some i)]. split; [done|]. constructor; [|constructor].
    apply (proj1 (Forall_forall _ _) (fol_requests _ _ (Hg _ _ Hi))). by eapply list_elem_of_lookup_2.
Qed.

Lemma close_kept t : kept t t -> kept t (Tx_Close t).
Proof.
  destruct t as [s tx|s tx]; cbn; [|apply delete_follows]. intros _. unfold ClientTx.delete. by destruct (closed _).
Qed.

Lemma serve_end_keeps l i : layer_ok l -> all_good l -> keeps l (serve_end A l i).
Proof.
  intros Hok Hg. pose proof (change_ok A _ _ Hok (serve_end_change A takes_done uuid rnd ClientSpin ServerSpin l i Hok)) as Hok'. revert Hok'. unfold serve_end.
  destruct (heap A l !! i) as [t|] eqn:Hi; [|intros _; by apply keeps_same, ups_same].
  case_decide; [|intros _; by apply keeps_same, ups_same].
  destruct (closed _); [intros Hok'; apply keeps_same; try done; by apply ups_same|].
  destruct (canceled A l); [|intros _; by apply keeps_same, ups_same].
  intros Hok'. apply (keeps_update l _ i t (Tx_Close t)); try done; [apply close_kept; by eapply Hg|by apply ups_same].
Qed.

Lemma other_keeps l ev l' :
  layer_ok l -> all_good l -> (forall m, ev <> EvReceive m) -> lstep l ev = Ok l' -> keeps l l'.
Proof.
  intros Hok Hg Hev E.
  pose proof (step_ok A takes_done uuid rnd ClientSpin ServerSpin l ev l' Hok E) as Hok'. revert E.
  destruct ev as [[m|m]|m|i|i|i t|i t|i|i|k|k|]; cbn [layer_step layer_Send].
  - intros ([l1 e] & Hs & [= <-])%bind_ok. by eapply sendRequest_keeps.
  - intros ([l1 e] & Hs & [= <-])%bind_ok. eapply sendResponse_keeps; try done. by eapply machine_follows.
  - by destruct (Hev m).
  - by apply forward_keeps.
  - intros [= <-]. by apply serve_end_keeps.
  - destruct (heap A l !! i) as [[s tx|]|] eqn:Ht; [|intros [= <-]; by apply keeps_same, ups_same..].
    destruct (ClientSpin _ _ _) as [[[s' [tx' w']] e]| |] eqn:Es; try done. intros [= <-].
    apply (client_keeps l i s tx); [done..|]. intros r0 k0 I.
    eapply (timer_inv takes_done uuid rnd ClientSpin r0); [|exact I|exact Es].
    apply list_elem_of_In. destruct t; cbn; auto.
  - destruct (heap A l !! i) as [[|s tx]|] eqn:Ht; [intros [= <-]; by apply keeps_same, ups_same| |intros [= <-]; by apply keeps_same, ups_same].
    destruct (ServerSpin _ _ _) as [[[s' [tx' w']] e]| |] eqn:Es; try done. intros [= <-].
    apply (keeps_server l _ i s tx s' tx'); try done; [|by apply ups_same].
    by apply (machine_follows takes_done uuid rnd ServerSpin Hserver _ _ _ _ _ _ _ (ServerTx.common tx)) in Es; [|apply (Hg _ _ Ht)].
  - destruct (heap A l !! i) as [[|s tx]|] eqn:Ht; [intros [= <-]; by apply keeps_same, ups_same| |intros [= <-]; by apply keeps_same, ups_same].
    intros ([s' [tx' w']] & Es & [= <-])%bind_ok. apply (keeps_server l _ i s tx s' tx'); try done; [|by apply ups_same].
    unfold timer1xx_fires in Es. apply bind_ok in Es as (r & _ & Es). apply bind_ok in Es as ([c e] & Es & [= ->]).
    eapply SendResponse_follows; [by eapply machine_follows|apply (Hg _ _ Ht)|exact Es].
  - destruct (heap A l !! i) as [t|] eqn:Ht; intros [= <-]; [|by apply keeps_same, ups_same].
    apply (keeps_update l _ i t (Tx_Close t)); try done; [apply close_kept; by eapply Hg|by apply ups_same].
  - intros [= <-]. apply keeps_same; try done; by apply ups_same.
  - intros [= <-]. apply keeps_same; try done; by apply ups_same.
  - intros [= <-]. apply keeps_same; try done; by apply ups_same.
Qed.

(** ** The invariant *)

(** The transaction that a goroutine has made and not passed up yet. *)
Definition owned (p : point) : option ref :=
  match p with AtInit _ i | AtServe _ i => Some i | AtOffer _ tx => tx | _ => None end.

Definition has_server l i (P : commonTx -> Prop) : Prop :=
  exists s tx, heap A l !! i = Some (ServerTxn s tx) /\ P (ServerTx.common tx).

Definition has_client l i (P : commonTx -> Prop) : Prop :=
  exists s tx, heap A l !! i = Some (ClientTxn s tx) /\ P (ClientTx.common tx).

(** What a goroutine knows where it is. *)
Definition point_ok l (p : point) : Prop :=
  match p with
  | AtCreate req => passed_on req = false
  | AtPut req tx =>
      passed_on req = false /\ follows (ServerTx.common tx) tx /\ origin (ServerTx.common tx) = req
      /\ MakeServerTxKey (req_msg req) = Ok (key (ServerTx.common tx))
  | AtServerReceive req i => has_server l i (fun c => MakeServerTxKey (req_msg req) = Ok (key c))
  | AtInit req i | AtServe req i | AtOffer req (Some i) =>
      passed_on req = false /\ has_server l i (fun c => origin c = req)
  | AtOffer req None => passed_on req = true
  | AtClientReceive r i => has_client l i (fun c => MakeClientTxKey (res_msg r) = Ok (key c))
  | _ => True
  end.

Lemma has_server_grows l l' i (P : commonTx -> Prop) :
  grows l l' -> (forall c c', key c' = key c -> origin c' = origin c -> P c -> P c') ->
  has_server l i P -> has_server l' i P.
Proof.
  intros Hg HP (s & tx & Hi & Hc). destruct (Hg _ _ Hi) as ([|s' tx'] & Hi' & Hk); [done|].
  exists s', tx'. split; [done|]. apply (HP _ _ (fol_key _ _ Hk) (fol_origin _ _ Hk) Hc).
Qed.

Lemma point_ok_grows l l' p : grows l l' -> point_ok l p -> point_ok l' p.
Proof.
  intros Hg. destruct p as [| | | |req i| | | |req i|req i|req [i|]| | |r i| |]; try done; cbn.
  - apply has_server_grows; [done|]. by intros c c' -> _.
  - intros [Hr Hs]. split; [done|]. revert Hs. apply has_server_grows; [done|]. congruence.
  - intros [Hr Hs]. split; [done|]. revert Hs. apply has_server_grows; [done|]. congruence.
  - intros [Hr Hs]. split; [done|]. revert Hs. apply has_server_grows; [done|]. congruence.
  - intros (s & tx & Hi & Hc). destruct (Hg _ _ Hi) as ([s' tx'|] & Hi' & Hk); [|done].
    exists s', tx'. split; [done|]. cbn in Hk. by rewrite Hk.
Qed.

(** The transactions that went up with a new request. *)
Definition new_ups l : list ref := omap (fun u => if passed_on u.1 then None else u.2) (ups A l).

Lemma new_ups_passed l l' : ups_passed l l' -> new_ups l' = new_ups l.
Proof.
  intros (us & Hu & Hus). unfold new_ups. rewrite Hu, omap_app.
  assert (E : omap (fun u : request * option ref => if passed_on u.1 then None else u.2) us = []).
  { clear Hu. induction Hus as [|u us Hu _ IH]; [done|]. cbn. by rewrite Hu. }
  by rewrite E, app_nil_r.
Qed.

Record hinv (h : hlayer W A) : Prop := {
  hinv_ok : layer_ok (lay h);
  hinv_good : all_good (lay h);
  hinv_points : forall n p, handlers h !! n = Some p -> point_ok (lay h) p;
  hinv_owned : forall n1 n2 p1 p2 i, handlers h !! n1 = Some p1 -> handlers h !! n2 = Some p2 ->
    owned p1 = Some i -> owned p2 = Some i -> n1 = n2;
  hinv_new : NoDup (new_ups (lay h));
  hinv_pending : forall n p i, handlers h !! n = Some p -> owned p = Some i -> i ∉ new_ups (lay h);
  hinv_ups : forall r t, (r, t) ∈ ups A (lay h) -> passed_on r = false ->
    exists i, t = Some i /\ has_server (lay h) i (fun c => origin c = r)
}.

Lemma keeps_refl l : layer_ok l -> all_good l -> keeps l l.
Proof. intros Hok Hg. by apply keeps_same, ups_same. Qed.

Lemma ups_keeps l l' r t :
  keeps l l' -> (forall r t, (r, t) ∈ ups A l -> passed_on r = false -> exists i, t = Some i /\ has_server l i (fun c => origin c = r)) ->
  (r, t) ∈ ups A l' -> passed_on r = false -> exists i, t = Some i /\ has_server l' i (fun c => origin c = r).
Proof.
  intros K Hu. destruct (keeps_ups _ _ K) as (us & -> & Hus). intros [Hin|Hin]%elem_of_app Hr.
  - destruct (Hu _ _ Hin Hr) as (i & -> & Hs). exists i. split; [done|]. revert Hs.
    apply has_server_grows; [apply (keeps_grows _ _ K)|]. congruence.
  - apply (proj1 (Forall_forall _ _) Hus) in Hin. cbn in Hin. congruence.
Qed.

(** A step that makes and passes up nothing new: every goroutine is where it was, or at a
    point that it may be at, owning no more than before. *)
Lemma hinv_step h h' :
  hinv h -> keeps (lay h) (lay h') ->
  (forall n p, handlers h' !! n = Some p -> handlers h !! n = Some p
     \/ point_ok (lay h') p /\ (forall i, owned p = Some i -> exists q, handlers h !! n = Some q /\ owned q = Some i)) ->
  hinv h'.
Proof.
  intros I K Hp.
  assert (Ho : forall n p i, handlers h' !! n = Some p -> owned p = Some i ->
            exists q, handlers h !! n = Some q /\ owned q = Some i).
  { intros n p i Hn Hi. destruct (Hp n p Hn) as [?|[_ Hq]]; [by exists p|by apply Hq]. }
  constructor; try apply K.
  - intros n p Hn. destruct (Hp n p Hn) as [Hn'|[? _]]; [|done].
    apply (point_ok_grows (lay h)); [apply K|by apply (hinv_points _ I n)].
  - intros n1 n2 p1 p2 i H1 H2 O1 O2. destruct (Ho _ _ _ H1 O1) as (q1 & ? & ?), (Ho _ _ _ H2 O2) as (q2 & ? & ?).
    by apply (hinv_owned _ I n1 n2 q1 q2 i).
  - rewrite (new_ups_passed _ _ (keeps_ups _ _ K)). apply I.
  - intros n p i Hn Hi. rewrite (new_ups_passed _ _ (keeps_ups _ _ K)). destruct (Ho _ _ _ Hn Hi) as (q & ? & ?).
    by apply (hinv_pending _ I n q).
  - intros r t. apply (ups_keeps (lay h)); [done|apply I].
Qed.

(** One goroutine moves. *)
Lemma hinv_point h h1 n p p1 :
  hinv h -> handlers h !! n = Some p -> keeps (lay h) (lay h1) -> handlers h1 = handlers h ->
  point_ok (lay h1) p1 -> (owned p1 = None \/ owned p1 = owned p) -> hinv (set_point h1 n p1).
Proof.
  intros I Hn K Hh Hp Ho. apply (hinv_step h); [done|done|]. cbn. rewrite Hh.
  intros m q [(-> & <- & _)|[_ Hm]]%list_lookup_insert_Some; [right|by left].
  split; [done|]. intros i Hi. exists p. split; [done|]. destruct Ho as [Ho|Ho]; congruence.
Qed.

#[local] Abbreviation pstep := (handler_step A uuid rnd ClientSpin ServerSpin NilSpin).
#[local] Abbreviation step := (hstep A uuid rnd ClientSpin ServerSpin NilSpin).
#[local] Abbreviation run := (hrun A uuid rnd ClientSpin ServerSpin NilSpin).

Lemma spin_of_follows h i : keeps_follows (spin_of A ServerSpin NilSpin h i).
Proof. unfold spin_of. case_decide; [by apply idle_follows|by eapply machine_follows]. Qed.

Lemma client_receive_keeps l i s tx r c e :
  layer_ok l -> all_good l -> heap A l !! i = Some (ClientTxn s tx) ->
  ClientTx.Receive ClientSpin (s, (tx, tpl A l)) (MResponse r) = Ok (c, e) -> keeps l (store_client A l i c).
Proof.
  intros Hok Hg Hi Es. destruct c as [s' [tx' w']]. apply (client_keeps l i s tx); [done..|]. intros r0 k I.
  cbn in Es. by eapply (response_inv takes_done uuid rnd ClientSpin r0).
Qed.

Lemma server_receive_keeps Sp l i s tx req c e :
  keeps_follows Sp -> layer_ok l -> all_good l -> heap A l !! i = Some (ServerTxn s tx) ->
  ServerTx.Receive Sp (s, (tx, tpl A l)) (MRequest req) = Ok (c, e) -> keeps l (store_server A l i c).
Proof.
  intros Hsp Hok Hg Hi Es. destruct c as [s' [tx' w']].
  eapply (Receive_follows Sp Hsp (ServerTx.common tx)) in Es; [|exact (Hg _ _ Hi)].
  apply (keeps_server l _ i s tx s' tx'); try done. by apply ups_same.
Qed.

(** The last objects of a heap that grew. *)
Lemma owned_lt h n p i : hinv h -> handlers h !! n = Some p -> owned p = Some i -> (i < length (heap A (lay h)))%nat.
Proof.
  intros I Hn Ho. pose proof (hinv_points _ I _ _ Hn) as Hp.
  destruct p as [| | | | | | | |req j|req j|req [j|]| | | | |]; try done; cbn in *; injection Ho as ->;
    destruct Hp as (_ & s & tx & Hi & _); by eapply lookup_lt_Some.
Qed.

Lemma new_ups_lt h i : hinv h -> i ∈ new_ups (lay h) -> (i < length (heap A (lay h)))%nat.
Proof.
  intros I ([r t] & Hin & Hr)%list_elem_of_omap. cbn in Hr. destruct (passed_on r) eqn:Hp; [done|].
  destruct (hinv_ups _ I _ _ Hin Hp) as (j & -> & s & tx & Hj & _). injection Hr as ->. by eapply lookup_lt_Some.
Qed.

(** A new transaction is put into the pool. *)
Lemma hinv_put h n req tx :
  hinv h -> handlers h !! n = Some (AtPut req tx) ->
  let '(l, i) := alloc A (lay h) (ServerTxn (first_state (ServerTx.tx_invite tx)) tx) in
  let l := set_pool A l (pool_put (transactions A l) (key (ServerTx.common tx)) i) in
  hinv (set_point (set_fresh (set_lay h l) ({[i]} ∪ fresh h)) n (AtInit req i)).
Proof.
  intros I Hn. cbn [alloc]. pose proof (hinv_points _ I _ _ Hn) as (Hr & Hf & Ho & Hk).
  set (t := ServerTxn (first_state (ServerTx.tx_invite tx)) tx). set (i := length (heap A (lay h))).
  set (l := set_pool A _ _). set (h1 := set_fresh _ _).
  assert (Hok : layer_ok l).
  { apply (create_ok (lay h) l t); [apply I|cbn; by rewrite Ho|done|done|cbn; set_solver]. }
  assert (K : keeps (lay h) l).
  { apply (keeps_new _ _ t); [done|apply I|exact Hf|done|by apply ups_same]. }
  pose proof (new_ups_passed _ _ (keeps_ups _ _ K)) as Hun.
  assert (Hnew : heap A l !! i = Some t) by by apply list_lookup_middle.
  assert (Hold : forall m q j, handlers (set_point h1 n (AtInit req i)) !! m = Some q -> owned q = Some j ->
            m = n /\ j = i \/ m <> n /\ handlers h !! m = Some q /\ (j < i)%nat).
  { intros m q j Hm Hq. cbn in Hm. apply list_lookup_insert_Some in Hm as [(-> & <- & _)|[Hne Hm]].
    - left. by injection Hq as ->.
    - right. split; [done|]. split; [done|]. by eapply owned_lt. }
  constructor; cbn; try apply K.
  - intros m q [(-> & <- & _)|[_ Hm]]%list_lookup_insert_Some.
    + split; [done|]. by exists (first_state (ServerTx.tx_invite tx)), tx.
    + apply (point_ok_grows (lay h)); [apply K|by apply (hinv_points _ I m)].
  - intros n1 n2 p1 p2 j H1 H2 O1 O2.
    destruct (Hold _ _ _ H1 O1) as [[-> ->]|(? & ? & ?)], (Hold _ _ _ H2 O2) as [[-> ?]|(? & ? & ?)]; try done; try lia.
    by apply (hinv_owned _ I n1 n2 p1 p2 j).
  - change (NoDup (new_ups l)). rewrite Hun. apply I.
  - intros m q j Hm Hq. change (j ∉ new_ups l). rewrite Hun.
    destruct (Hold _ _ _ Hm Hq) as [[-> ->]|(? & ? & ?)].
    + intros Hin. apply (new_ups_lt _ _ I) in Hin. unfold i in Hin. lia.
    + by apply (hinv_pending _ I m q).
  - intros r u. exact (ups_keeps (lay h) l r u K (hinv_ups _ I)).
Qed.

(** A goroutine passes its transaction up. *)
Lemma hinv_offer h n req i :
  hinv h -> handlers h !! n = Some (AtOffer req (Some i)) ->
  hinv (set_point (set_lay h (pass_up A (lay h) req (Some i))) n Returned).
Proof.
  intros I Hn. pose proof (hinv_points _ I _ _ Hn) as [Hr Hs].
  pose proof (hinv_pending _ I _ _ i Hn eq_refl) as Hp.
  assert (Hu : new_ups (pass_up A (lay h) req (Some i)) = new_ups (lay h) ++ [i]).
  { unfold new_ups. cbn. rewrite omap_app. cbn. by rewrite Hr. }
  constructor; cbn [lay set_point set_lay handlers].
  - apply (same_txs_ok (lay h)); [by split|apply I].
  - apply I.
  - intros m q [(-> & <- & _)|[_ Hm]]%list_lookup_insert_Some; [done|].
    apply (point_ok_grows (lay h)); [|by apply (hinv_points _ I m)].
    intros j t Hj. exists t. split; [done|by apply (hinv_good _ I j)].
  - intros n1 n2 p1 p2 j [(-> & <- & _)|[_ H1]]%list_lookup_insert_Some; [done|].
    intros [(-> & <- & _)|[_ H2]]%list_lookup_insert_Some; [done|]. by apply (hinv_owned _ I).
  - rewrite Hu. apply NoDup_app. split; [apply I|]. split; [|by apply NoDup_singleton].
    intros j Hj ->%list_elem_of_singleton. done.
  - intros m q j [(-> & <- & _)|[Hne Hm]]%list_lookup_insert_Some; [done|]. intros Hq. rewrite Hu.
    intros [Hj|Hj]%elem_of_app; [by apply (hinv_pending _ I m q j)|].
    apply list_elem_of_singleton in Hj as ->. by destruct (Hne (hinv_owned _ I n m _ q i Hn Hm eq_refl Hq)).
  - intros r t [Hin|Hin]%elem_of_app Hr'; [by apply (hinv_ups _ I)|].
    apply list_elem_of_singleton in Hin as [= -> ->]. by exists i.
Qed.

(** A goroutine that moves on without a trace in the layer. *)
Lemma hinv_move h n p p1 :
  hinv h -> handlers h !! n = Some p -> point_ok (lay h) p1 -> (owned p1 = None \/ owned p1 = owned p) ->
  hinv (set_point h n p1).
Proof. intros I Hn Hp Ho. apply (hinv_point h h n p); [done..| |done|done|done]. apply keeps_refl; apply I. Qed.

(** What a look-up finds has the key of the message. *)
Lemma found_server h req i s tx :
  layer_ok (lay h) -> getServerTx A (lay h) (req_msg req) = Ok (i, (s, tx)) -> point_ok (lay h) (AtServerReceive req i).
Proof.
  intros Hok Eg. apply getServerTx_inv in Eg as (k & Hk & [Hi Ht]%lookup_tx_inv).
  exists s, tx. split; [done|]. rewrite Hk. pose proof (ok_pool _ Hok _ _ Hi) as Hkey. rewrite Ht in Hkey.
  by injection Hkey as <-.
Qed.

Lemma found_client h r i s tx :
  layer_ok (lay h) -> getClientTx A (lay h) (res_msg r) = Ok (i, (s, tx)) -> point_ok (lay h) (AtClientReceive r i).
Proof.
  intros Hok Eg. apply getClientTx_inv in Eg as (k & Hk & [Hi Ht]%lookup_tx_inv).
  exists s, tx. split; [done|]. rewrite Hk. pose proof (ok_pool _ Hok _ _ Hi) as Hkey. rewrite Ht in Hkey.
  by injection Hkey as <-.
Qed.

Lemma hinv_init h n req i c h1 p1 :
  hinv h -> handlers h !! n = Some (AtInit req i) -> pstep h c (AtInit req i) = Ok (h1, p1) -> hinv (set_point h1 n p1).
Proof.
  intros I Hn. destruct (hinv_points _ I _ _ Hn) as [Hr (s & tx & Hi & Ho)]. cbn [handler_step]. rewrite Hi.
  intros E. apply (inj Ok), (inj2 pair) in E as [<- <-].
  destruct (Init_shape tx (tpl A (lay h))) as (tx' & Ei & Hc & _). rewrite Ei.
  assert (Hf : follows (ServerTx.common tx) tx') by (eapply Init_follows; [apply (hinv_good _ I _ _ Hi)|exact Ei]).
  apply (hinv_point h _ n (AtInit req i)); try done; [| |by right].
  - apply (keeps_server _ _ i s tx (first_state (tx_invite tx)) tx'); try done;
      [apply (hinv_ok _ I)|apply (hinv_good _ I)|by apply ups_same].
  - split; [done|]. exists (first_state (tx_invite tx)), tx'. cbn. rewrite Hc. split; [|done].
    apply list_lookup_insert_eq. by eapply lookup_lt_Some.
Qed.

Lemma hinv_handler h n p c h1 p1 :
  hinv h -> handlers h !! n = Some p -> pstep h c p = Ok (h1, p1) -> hinv (set_point h1 n p1).
Proof.
  intros I Hn. pose proof (hinv_points _ I _ _ Hn) as Hp. pose proof (hinv_ok _ I) as Hok. pose proof (hinv_good _ I) as Hg.
  assert (Hret : hinv (set_point h n Returned)) by (by apply (hinv_move h n p); [..|left]).
  assert (Hlay : forall l q, keeps (lay h) l -> point_ok l q -> (owned q = None \/ owned q = owned p) ->
            hinv (set_point (set_lay h l) n q)) by (intros l q K Hq Ho; by apply (hinv_point h _ n p)).
  destruct p as [[req|r]|req|req|req|req i|req|req|req tx|req i|req i|req t|r|r|r i|r|];
    cbn [handler_step]; unfold unless_canceled, offer.
  - intros [= <- <-]. destruct (canceled A (lay h)); [done|]. by apply (hinv_move h n _ _ I Hn); [|left].
  - intros [= <- <-]. destruct (canceled A (lay h)); [done|]. by apply (hinv_move h n _ _ I Hn); [|left].
  - intros [= <- <-]. destruct (canceled A (lay h)); [done|]. by apply (hinv_move h n _ _ I Hn); [|left].
  - intros (l & (Ht & _ & Hu & _)%updateSession_same & [= <- <-])%bind_ok. apply Hlay; [|done|by left].
    apply keeps_same; try done; [by eapply same_txs_ok|apply Ht|by apply ups_same].
  - destruct (getServerTx A (lay h) (req_msg req)) as [[i [s tx]]|e|k] eqn:Eg; [| |done]; intros [= <- <-].
    + apply (hinv_move h n _ _ I Hn); [|by left]. by eapply found_server.
    + apply (hinv_move h n _ _ I Hn); [|by destruct (request_IsAck req), (request_IsCancel req); left].
      unfold point_ok, passed_on. destruct (request_IsAck req) eqn:Ha, (request_IsCancel req) eqn:Hc; cbn; rewrite ?Ha, ?Hc; done.
  - destruct Hp as (s & tx & Hi & _). rewrite Hi. intros ([c' e] & Es & [= <- <-])%bind_ok. apply Hlay; [|done|by left].
    eapply server_receive_keeps; [apply (spin_of_follows h i)|done..|exact Es].
  - intros (r & _ & Hs)%bind_ok. apply bind_ok in Hs as ([[w ?] ?] & _ & [= <- <-]). apply Hlay; [|done|by left].
    apply keeps_same; try done; [by apply (same_txs_ok (lay h)); [split|]|by apply ups_same].
  - destruct (NewServerTx (tpl A (lay h)) req) as [tx|e|k] eqn:En; [|by intros [= <- <-]|done]. intros [= <- <-].
    apply (hinv_move h n _ _ I Hn); [|by left]. apply New_follows in En as (Hf & Ho & Hk). cbn. by rewrite Ho.
  - intros E. apply (inj Ok) in E. injection E as <- <-. by apply (hinv_put h n req tx).
  - by apply (hinv_init h n req i c).
  - destruct Hp as [Hr Hs]. destruct (canceled A (lay h)); [by intros [= <- <-]|]. intros [= <- <-].
    apply Hlay; [|by split|by right]. apply keeps_same; try done; [|by apply ups_same].
    constructor; cbn; [apply Hok|apply Hok|]. destruct Hs as (s & tx & Hi & _).
    intros j [->%elem_of_singleton|Hj]%elem_of_union; [by exists (ServerTxn s tx)|by apply (ok_serving _ Hok)].
  - destruct (canceled A (lay h) && c); [by intros [= <- <-]|]. destruct (chans_closed h); [done|]. intros [= <- <-].
    destruct t as [i|]; [by apply (hinv_offer h n req i)|]. apply Hlay; [|done|by left].
    apply keeps_same; try done; [by apply (same_txs_ok (lay h)); [split|]|]. exists [(req, None)]. split; [done|]. by repeat constructor.
  - intros [= <- <-]. destruct (canceled A (lay h)); [done|]. by apply (hinv_move h n _ _ I Hn); [|left].
  - destruct (getClientTx A (lay h) (res_msg r)) as [[i [s tx]]|e|k] eqn:Eg; [| |done]; intros [= <- <-];
      apply (hinv_move h n _ _ I Hn); try done; try by left.
    by eapply found_client.
  - destruct Hp as (s & tx & Hi & _). rewrite Hi. intros ([c' e] & Es & [= <- <-])%bind_ok. apply Hlay; [|done|by left].
    by eapply client_receive_keeps.
  - destruct (canceled A (lay h) && c); [by intros [= <- <-]|]. destruct (chans_closed h); [done|]. intros [= <- <-].
    apply Hlay; [|done|by left]. apply keeps_same; try done; [by apply (same_txs_ok (lay h)); [split|]|by apply ups_same].
  - by intros [= <- <-].
Qed.

Lemma hinv_other h ev h1 : hinv h -> other_step A uuid rnd ClientSpin ServerSpin NilSpin h ev = Ok h1 -> hinv h1.
Proof.
  intros I E.
  assert (Hev : h1 = h \/ (forall m, ev <> EvReceive m) /\ exists Sp l, keeps_follows Sp /\ layer_step A uuid rnd ClientSpin Sp (lay h) ev = Ok l
            /\ (Sp = ServerSpin \/ exists r, ev = EvSend (MResponse r)) /\ h1 = set_lay h l).
  { assert (Hs : forall Sp, keeps_follows Sp -> (Sp = ServerSpin \/ exists r, ev = EvSend (MResponse r)) ->
              (l ← layer_step A uuid rnd ClientSpin Sp (lay h) ev; mret (set_lay h l)) = Ok h1 ->
              exists Sp l, keeps_follows Sp /\ layer_step A uuid rnd ClientSpin Sp (lay h) ev = Ok l
                /\ (Sp = ServerSpin \/ exists r, ev = EvSend (MResponse r)) /\ h1 = set_lay h l).
    { intros Sp HSp Hd (l & Hl & [= <-])%bind_ok. eauto 6. }
    assert (Hf : keeps_follows ServerSpin) by by eapply machine_follows.
    unfold other_step in E. destruct ev as [[m|m]|m|i|i|i t|i t|i|i|k|k|]; try (right; split; [done|]; eapply Hs; eauto; fail).
    - right. split; [done|]. destruct (getServerTx A (lay h) (res_msg m)) as [[i ?]| |]; eapply Hs; try exact E; eauto.
      apply spin_of_follows.
    - injection E as <-. by left.
    - destruct (chans_closed h && has_next A (lay h) i); [done|]. right. split; [done|]. eapply Hs; eauto.
    - case_decide; [injection E as <-; by left|]. right. split; [done|]. eapply Hs; eauto.
    - case_decide; [injection E as <-; by left|]. right. split; [done|]. eapply Hs; eauto. }
  destruct Hev as [->|(Hm & Sp & l & HSp & Hl & Hd & ->)]; [done|]. apply (hinv_step h); [done| |by left].
  destruct Hd as [->|[r ->]].
  - eapply other_keeps; [apply I|apply I|exact Hm|exact Hl].
  - cbn [layer_step layer_Send] in Hl. apply bind_ok in Hl as ([l1 e] & Hl & [= <-]).
    eapply sendResponse_keeps; [exact HSp|apply I|apply I|exact Hl].
Qed.

Lemma hinv_hstep h ev h1 : hinv h -> step h ev = Ok h1 -> hinv h1.
Proof.
  intros I. destruct ev as [m|n c|ev| |]; cbn [hstep].
  - intros [= <-]. destruct (listening h); [|done].
    apply (hinv_step h); [done|apply keeps_refl; apply I|]. cbn.
    intros n p [Hn|[_ Hn]]%lookup_app_Some; [by left|right].
    by apply list_lookup_singleton_Some in Hn as [_ <-].
  - destruct (handlers h !! n) as [p|] eqn:Hn; [|by intros [= <-]].
    intros ([h2 p2] & Hs & [= <-])%bind_ok. by eapply hinv_handler.
  - by apply hinv_other.
  - intros [= <-]. apply (hinv_step h); [done|apply keeps_refl; apply I|by left].
  - intros [= <-]. apply (hinv_step h); [done|apply keeps_refl; apply I|by left].
Qed.

Lemma hinv_run h evs h1 : hinv h -> run h evs = Ok h1 -> hinv h1.
Proof.
  revert h. induction evs as [|ev evs IH]; intros h I; [by intros [= <-]|]. rewrite hrun_cons.
  intros (h2 & Hs & Hr)%bind_ok. eapply IH; [by eapply hinv_hstep|done].
Qed.

Lemma hinv_CreateLayer w : hinv (TxHandlers.CreateLayer A w).
Proof.
  constructor; [exact (CreateLayer_ok w)|done|done|done|apply NoDup_nil_2|done|].
  intros r t Hin. by apply not_elem_of_nil in Hin.
Qed.

(** ** Schedules *)

(** The turns of a goroutine. *)
Definition turn (n : nat) (ev : hevent) : nat :=
  match ev with Handler m _ => if decide (m = n) then 1 else 0 | _ => 0 end.
Definition turns (n : nat) (evs : list hevent) : nat := sum_list_with (turn n) evs.

Lemma other_handlers h ev h1 :
  other_step A uuid rnd ClientSpin ServerSpin NilSpin h ev = Ok h1 -> handlers h1 = handlers h.
Proof.
  assert (Hs : forall Sp, (l ← layer_step A uuid rnd ClientSpin Sp (lay h) ev; mret (set_lay h l)) = Ok h1 ->
            handlers h1 = handlers h) by (by intros Sp (l & _ & [= <-])%bind_ok).
  unfold other_step. destruct ev as [[m|m]|m|i|i|i t|i t|i|i|k|k|]; try apply Hs; repeat case_match; try apply Hs;
    by intros [= <-].
Qed.

Lemma hstep_rank h ev h1 n p :
  handlers h !! n = Some p -> step h ev = Ok h1 ->
  exists p1, handlers h1 !! n = Some p1 /\ (rank p1 <= rank p - turn n ev)%nat.
Proof.
  intros Hn. destruct ev as [m|m c|ev| |]; cbn [hstep turn].
  - intros [= <-]. exists p. split; [|lia]. destruct (listening h); [|done]. by apply lookup_app_l_Some.
  - destruct (handlers h !! m) as [q|] eqn:Hm.
    + intros ([h2 p2] & Hs & [= <-])%bind_ok. cbn. rewrite (pstep_keeps _ _ _ _ _ _ _ _ _ _ Hs).
      case_decide as Hd.
      * subst. simplify_eq. exists p2. rewrite list_lookup_insert_eq by (by eapply lookup_lt_Some). split; [done|].
        apply pstep_rank in Hs. lia.
      * exists p. rewrite list_lookup_insert_ne by done. split; [done|lia].
    + intros [= <-]. exists p. split; [done|]. case_decide; [congruence|lia].
  - intros Hs%other_handlers. exists p. rewrite Hs. split; [done|lia].
  - intros [= <-]. exists p. split; [done|lia].
  - intros [= <-]. exists p. split; [done|lia].
Qed.

Lemma run_rank h evs h1 n p :
  handlers h !! n = Some p -> run h evs = Ok h1 ->
  exists p1, handlers h1 !! n = Some p1 /\ (rank p1 <= rank p - turns n evs)%nat.
Proof.
  revert h p. induction evs as [|ev evs IH]; intros h p Hn.
  - intros [= <-]. exists p. split; [done|cbn; lia].
  - rewrite hrun_cons. intros (h2 & Hs & Hr)%bind_ok. destruct (hstep_rank _ _ _ _ _ Hn Hs) as (p2 & Hn2 & H2).
    destruct (IH _ _ Hn2 Hr) as (p3 & Hn3 & H3). exists p3. split; [done|]. unfold turns in *. cbn. lia.
Qed.

(** What a goroutine leaves behind that makes a transaction and passes it up. *)
Lemma create_result h req tx :
  fresh h = ∅ -> canceled A (lay h) = false -> chans_closed h = false ->
  NewServerTx (tpl A (lay h)) req = Ok tx ->
  exists l1 tx1, steps uuid rnd ClientSpin ServerSpin NilSpin 5 false h (AtCreate req) = Ok (set_lay h l1, Returned)
    /\ ups A l1 = ups A (lay h) ++ [(req, Some (length (heap A (lay h))))]
    /\ transactions A l1 = <[key (ServerTx.common tx) := length (heap A (lay h))]> (transactions A (lay h))
    /\ heap A l1 = heap A (lay h) ++ [ServerTxn (first_state (ServerTx.tx_invite tx)) tx1]
    /\ ServerTx.common tx1 = ServerTx.common tx
    /\ serving A l1 = {[length (heap A (lay h))]} ∪ serving A (lay h)
    /\ tpl A l1 = tpl A (lay h) /\ canceled A l1 = false.
Proof.
  intros Hf Hc Hcl Hn. rewrite steps_create by done. rewrite Hn. cbn [alloc tpl set_pool set_heap].
  destruct (Init_shape tx (tpl A (lay h))) as (tx1 & Hi & Hcom & _). rewrite Hi.
  eexists _, tx1. split; [reflexivity|]. cbn. rewrite insert_last. by repeat split.
Qed.

(** Two goroutines find no transaction. *)
Lemma two_lookups h n m req e :
  handlers h !! n = Some (AtLookup req) -> handlers h !! m = Some (AtLookup req) -> n <> m ->
  getServerTx A (lay h) (req_msg req) = Err e -> passed_on req = false ->
  run h [Handler n false; Handler m false] = Ok (set_point (set_point h n (AtCreate req)) m (AtCreate req)).
Proof.
  intros Hn Hm Hnm Hg Hp. unfold passed_on in Hp. apply orb_false_iff in Hp as [Ha Hca].
  assert (Hl : forall h1 p, lay h1 = lay h -> handlers h1 !! p = Some (AtLookup req) ->
            step h1 (Handler p false) = Ok (set_point h1 p (AtCreate req))).
  { intros h1 p El Hh. cbn [hstep]. rewrite Hh. cbn [handler_step]. by rewrite El, Hg, Ha, Hca. }
  rewrite hrun_cons, (Hl h n) by done. cbn [mbind res_bind].
  rewrite hrun_cons, (Hl _ m) by (done || (cbn; by rewrite list_lookup_insert_ne)). done.
Qed.

(** The layer is closed and its transactions end. *)
Lemma run_ends_all h js :
  run h (Other EvClose :: map (fun i => Other (EvEnd i)) js) = Ok (set_lay h (end_all (Close A (lay h)) js)).
Proof.
  rewrite hrun_cons. cbn [hstep other_step layer_step mbind res_bind mret res_ret].
  change (Close A (lay h)) with (lay (set_lay h (Close A (lay h)))) at 2.
  change (set_lay h (end_all ?l js)) with (set_lay (set_lay h (Close A (lay h))) (end_all l js)).
  generalize (set_lay h (Close A (lay h))). clear h. induction js as [|j js IH]; intros h.
  - cbn. by rewrite set_lay_id.
  - cbn [map]. rewrite hrun_cons. cbn [hstep other_step layer_step mbind res_bind mret res_ret].
    rewrite IH. done.
Qed.

End Keeps.

(** ** The properties *)

(** A machine package whose [Spin] dereferences its receiver, and a layer to run. *)
Definition nil_spin (b : bool) : spin_type ServerState ServerInput (serverTx * list Message) :=
  fun _ _ => Panic NilDereference.

Lemma nil_spin_idle b x i x' e : nil_spin b x i = Ok (x', e) -> x' = x.
Proof. done. Qed.

Definition run_handlers : hlayer (list Message) nat -> list hevent -> res (hlayer (list Message) nat) :=
  hrun nat (fun _ => "uuid") (fun _ => "rnd") ClientTx.run_spin ServerTx.run_spin nil_spin.

Definition sample_handlers (ps : list point) : hlayer (list Message) nat := mkH sample_layer ∅ ps true false.

(** the handler of a message that no other goroutine interrupts does what
    [handleMessage] of the transaction layer does, on every branch, panics included; its
    goroutine then has returned. *)
Theorem handler_alone {W : Type} `{TransportLayer W} (A : Type) (uuid rnd : list Message -> string)
    (ClientSpin : bool -> spin_type ClientState ClientInput (clientTx * W))
    (ServerSpin NilSpin : bool -> spin_type ServerState ServerInput (serverTx * W))
    (h : hlayer W A) (n : nat) (m : Message) :
  handlers h !! n = Some (AtMessage m) -> fresh h = ∅ -> chans_closed h = false ->
  hrun A uuid rnd ClientSpin ServerSpin NilSpin h (replicate 9 (Handler n false))
  = (l ← handleMessage A uuid rnd ClientSpin ServerSpin (lay h) m; mret (set_point (set_lay h l) n Returned)).
Proof.
  intros Hn Hf Hc. rewrite (run_steps _ _ _ _ _ _ _ _ _ _ Hn), steps_message by done.
  by destruct (handleMessage _ _ _ _ _ _ _).
Qed.

Lemma handler_alone_witness :
  exists l, handleMessage nat (fun _ => "uuid") (fun _ => "rnd") ClientTx.run_spin ServerTx.run_spin sample_layer
              (MRequest (received "INVITE")) = Ok l
    /\ map snd (ups nat l) = [Some 0]
    /\ run_handlers (sample_handlers [AtMessage (MRequest (received "INVITE"))]) (replicate 9 (Handler 0 false))
       = Ok (mkH l ∅ [Returned] true false).
Proof.
  assert (Hc : match handleMessage nat (fun _ => "uuid") (fun _ => "rnd") ClientTx.run_spin ServerTx.run_spin sample_layer
                 (MRequest (received "INVITE")) with Ok l => bool_decide (map snd (ups nat l) = [Some 0]) | _ => false end
               = true) by (vm_compute; reflexivity).
  pose proof (handler_alone nat (fun _ => "uuid") (fun _ => "rnd") ClientTx.run_spin ServerTx.run_spin nil_spin
    (sample_handlers [AtMessage (MRequest (received "INVITE"))]) 0 _ eq_refl eq_refl eq_refl) as Hr.
  change (lay (sample_handlers [AtMessage (MRequest (received "INVITE"))])) with sample_layer in Hr.
  destruct (handleMessage nat _ _ _ _ sample_layer (MRequest (received "INVITE"))) as [l| |]; [|done..].
  exists l. split; [done|]. split; [by apply bool_decide_eq_true in Hc|]. exact Hr.
Defined.

(** whatever the other goroutines, the user and the network do: a handler that gets
    nine turns has returned. *)
Theorem handler_returns {W : Type} `{TransportLayer W} (A : Type) (uuid rnd : list Message -> string)
    (ClientSpin : bool -> spin_type ClientState ClientInput (clientTx * W))
    (ServerSpin NilSpin : bool -> spin_type ServerState ServerInput (serverTx * W))
    (h h' : hlayer W A) (n : nat) (p : point) (evs : list hevent) :
  handlers h !! n = Some p -> hrun A uuid rnd ClientSpin ServerSpin NilSpin h evs = Ok h' ->
  (9 <= turns n evs)%nat -> handlers h' !! n = Some Returned.
Proof.
  intros Hn Hr Ht. destruct (run_rank A uuid rnd ClientSpin ServerSpin NilSpin _ _ _ _ _ Hn Hr) as (p1 & Hn1 & Hp).
  assert (rank p <= 9)%nat by (destruct p; cbn; lia). rewrite Hn1. destruct p1; cbn in Hp; by first [lia|done].
Qed.

(** Two handlers and a close, by turns. *)
Definition two_turns : list hevent :=
  mjoin (replicate 9 [Handler 0 false; Handler 1 false]).

Lemma handler_returns_witness :
  exists h', run_handlers (sample_handlers [AtMessage (MRequest (received "INVITE")); AtMessage (MRequest (received "BYE"))])
               two_turns = Ok h'
    /\ (9 <= turns 1 two_turns)%nat /\ handlers h' !! 1 = Some Returned.
Proof.
  assert (Hc : is_ok (run_handlers (sample_handlers [AtMessage (MRequest (received "INVITE")); AtMessage (MRequest (received "BYE"))])
                 two_turns) = true) by (vm_compute; reflexivity).
  destruct (run_handlers _ two_turns) as [h'| |] eqn:Hr; [|done..]. exists h'. split; [done|].
  assert (Ht : (9 <= turns 1 two_turns)%nat) by (apply (bool_decide_unpack _); vm_compute; exact I).
  split; [exact Ht|].
  exact (handler_returns nat (fun _ => "uuid") (fun _ => "rnd") ClientTx.run_spin ServerTx.run_spin nil_spin
    (sample_handlers [AtMessage (MRequest (received "INVITE")); AtMessage (MRequest (received "BYE"))]) h' 1
    (AtMessage (MRequest (received "BYE"))) two_turns eq_refl Hr Ht).
Defined.

(** C3: in every interleaving of handlers, user calls, timers, ends and closing: an entry
    of the pool is a transaction with that key; a message that a handler is about to give
    to a transaction has the key of the transaction's request; a request other than ACK
    and CANCEL only goes up with a transaction made for this very request; and no
    transaction goes up with such a request twice. *)
Theorem interleavings_safe {W : Type} `{TransportLayer W} (A : Type) (takes_done : bool)
    (uuid rnd : list Message -> string)
    (ClientSpin : bool -> spin_type ClientState ClientInput (clientTx * W))
    (ServerSpin NilSpin : bool -> spin_type ServerState ServerInput (serverTx * W))
    (Hclient : forall b, FsmSpin (ClientTx.outcomes b) (ClientTx.perform takes_done uuid rnd) (ClientSpin b))
    (Hserver : forall b, FsmSpin (ServerTx.outcomes b) (ServerTx.perform takes_done uuid rnd) (ServerSpin b))
    (Hnil : forall b x i x' e, NilSpin b x i = Ok (x', e) -> x' = x)
    (w : W) (evs : list hevent) (h : hlayer W A) :
  hrun A uuid rnd ClientSpin ServerSpin NilSpin (TxHandlers.CreateLayer A w) evs = Ok h ->
  (forall k i, transactions A (lay h) !! k = Some i -> Tx_Key <$> heap A (lay h) !! i = Some k)
  /\ (forall n req i, handlers h !! n = Some (AtServerReceive req i) -> exists s tx,
        heap A (lay h) !! i = Some (ServerTxn s tx)
        /\ MakeServerTxKey (req_msg req) = MakeServerTxKey (req_msg (origin (ServerTx.common tx))))
  /\ (forall n r i, handlers h !! n = Some (AtClientReceive r i) -> exists s tx,
        heap A (lay h) !! i = Some (ClientTxn s tx)
        /\ MakeClientTxKey (res_msg r) = Ok (key (ClientTx.common tx)))
  /\ (forall req t, (req, t) ∈ ups A (lay h) -> passed_on req = false -> exists i s tx,
        t = Some i /\ heap A (lay h) !! i = Some (ServerTxn s tx) /\ origin (ServerTx.common tx) = req)
  /\ NoDup (new_ups A (lay h)).
Proof.
  intros Hr. assert (I : hinv A h) by by
    exact (hinv_run A takes_done uuid rnd ClientSpin ServerSpin NilSpin Hnil _ _ _ (hinv_CreateLayer A w) Hr).
  split; [apply (hinv_ok _ _ I)|]. split; [|split; [|split; [|apply I]]].
  - intros n req i Hn. destruct (hinv_points _ _ I _ _ Hn) as (s & tx & Hi & Hk). exists s, tx. split; [done|].
    pose proof (ok_heap _ (hinv_ok _ _ I) _ _ Hi) as Hok. cbn in Hok. by rewrite Hk, Hok.
  - intros n r i Hn. exact (hinv_points _ _ I _ _ Hn).
  - intros req t Hin Hp. destruct (hinv_ups _ _ I _ _ Hin Hp) as (i & -> & s & tx & Hi & Ho). by exists i, s, tx.
Qed.

(** Two copies of an INVITE and an ACK for it, in turns. *)
Definition sample_schedule : list hevent :=
  [Arrive (MRequest (received "INVITE")); Arrive (MRequest (received "INVITE")); Arrive (MRequest (received "ACK"))]
  ++ mjoin (replicate 9 [Handler 0 false; Handler 1 false]) ++ replicate 4 (Handler 2 false).

Lemma sample_schedule_run :
  exists h, run_handlers (TxHandlers.CreateLayer nat []) sample_schedule = Ok h
    /\ map snd (ups nat (lay h)) = [Some 0; Some 1] /\ handlers h !! 2 = Some (AtServerReceive (received "ACK") 1).
Proof.
  assert (Hc : match run_handlers (TxHandlers.CreateLayer nat []) sample_schedule with
               | Ok h => bool_decide (map snd (ups nat (lay h)) = [Some 0; Some 1])
                         && match handlers h !! 2 with
                            | Some (AtServerReceive r i) => Nat.eqb i 1 && String.eqb (req_method r) "ACK"
                            | _ => false
                            end
               | _ => false
               end = true) by (vm_compute; reflexivity).
  assert (Hp : match run_handlers (TxHandlers.CreateLayer nat []) sample_schedule with
               | Ok h => handlers h !! 2 = Some (AtServerReceive (received "ACK") 1)
               | _ => True
               end) by (vm_compute; reflexivity).
  destruct (run_handlers _ sample_schedule) as [h| |]; [|done..].
  apply andb_prop in Hc as [Hc%bool_decide_eq_true _]. by exists h.
Qed.

Lemma interleavings_safe_witness :
  exists h s tx, run_handlers (TxHandlers.CreateLayer nat []) sample_schedule = Ok h
    /\ heap nat (lay h) !! 1 = Some (ServerTxn s tx)
    /\ MakeServerTxKey (req_msg (received "ACK")) = MakeServerTxKey (req_msg (origin (ServerTx.common tx))).
Proof.
  destruct sample_schedule_run as (h & Hr & _ & Hn). exists h.
  destruct (interleavings_safe nat true (fun _ => "uuid") (fun _ => "rnd") ClientTx.run_spin ServerTx.run_spin nil_spin
    ClientTx.run_spin_laws ServerTx.run_spin_laws nil_spin_idle
    [] sample_schedule h Hr) as (_ & Hs & _).
  destruct (Hs 2 _ 1 Hn) as (s & tx & Hi & Hk). exists s, tx. split; [exact Hr|]. split; [exact Hi|exact Hk].
Defined.

(** C28: two copies of a new request whose handlers both look up before either puts: both
    go up, each with a transaction of its own; the pool keeps the second; and when the
    first transaction ends, the entry of the second, which is still served, is dropped, so
    that no response finds it. *)
Theorem duplicates_race {W : Type} `{TransportLayer W} (A : Type) (uuid rnd : list Message -> string)
    (ClientSpin : bool -> spin_type ClientState ClientInput (clientTx * W))
    (ServerSpin NilSpin : bool -> spin_type ServerState ServerInput (serverTx * W))
    (h : hlayer W A) (n m : nat) (req : request) (tx : serverTx) (e : string) :
  handlers h !! n = Some (AtLookup req) -> handlers h !! m = Some (AtLookup req) -> n <> m ->
  fresh h = ∅ -> chans_closed h = false -> canceled A (lay h) = false ->
  getServerTx A (lay h) (req_msg req) = Err e -> passed_on req = false ->
  NewServerTx (tpl A (lay h)) req = Ok tx ->
  let i := length (heap A (lay h)) in
  exists h', hrun A uuid rnd ClientSpin ServerSpin NilSpin h
      ([Handler n false; Handler m false] ++ replicate 5 (Handler n false) ++ replicate 5 (Handler m false)) = Ok h'
    /\ ups A (lay h') = ups A (lay h) ++ [(req, Some i); (req, Some (S i))]
    /\ transactions A (lay h') !! key (ServerTx.common tx) = Some (S i)
    /\ i ∈ serving A (lay h') /\ S i ∈ serving A (lay h')
    /\ (forall t res, heap A (lay h') !! i = Some t -> MakeServerTxKey (res_msg res) = MakeServerTxKey (req_msg req) ->
          let l := serve_end A (set_heap A (lay h') (<[i := Tx_Close t]> (heap A (lay h')))) i in
          S i ∈ serving A l /\ exists e', getServerTx A l (res_msg res) = Err e').
Proof.
  intros Hn Hm Hnm Hf Hcl Hc Hg Hp Htx i.
  rewrite hrun_app, (two_lookups A uuid rnd ClientSpin ServerSpin NilSpin h n m req e) by done. cbn [mbind res_bind].
  set (h2 := set_point _ m _). rewrite hrun_app.
  pose proof (lookup_lt_Some _ _ _ Hn) as Hln. pose proof (lookup_lt_Some _ _ _ Hm) as Hlm.
  rewrite (run_steps _ _ _ _ _ 5 false n h2 (AtCreate req)).
  2: { cbn. rewrite list_lookup_insert_ne by done. by apply list_lookup_insert_eq. }
  destruct (create_result A uuid rnd ClientSpin ServerSpin NilSpin h2 req tx Hf Hc Hcl Htx)
    as (l1 & tx1 & -> & Hu1 & Hp1 & Hh1 & Hc1 & Hs1 & Ht1 & Hcn1). cbn [mbind res_bind mret res_ret].
  set (h3 := set_point (set_lay h2 l1) n Returned).
  rewrite (run_steps _ _ _ _ _ 5 false m h3 (AtCreate req)).
  2: { cbn. rewrite list_lookup_insert_ne by done. apply list_lookup_insert_eq. by rewrite length_insert. }
  assert (Htx3 : NewServerTx (tpl A (lay h3)) req = Ok tx) by (cbn; by rewrite Ht1).
  destruct (create_result A uuid rnd ClientSpin ServerSpin NilSpin h3 req tx Hf Hcn1 Hcl Htx3)
    as (l2 & tx2 & -> & Hu2 & Hp2 & Hh2 & Hc2 & Hs2 & _ & _). cbn [mbind res_bind mret res_ret].
  cbn [lay set_lay set_point h3 h2] in Hu1, Hp1, Hh1, Hs1, Hu2, Hp2, Hh2, Hs2. fold i in Hu1, Hp1, Hh1, Hs1.
  assert (Hlen1 : length (heap A l1) = S i) by (rewrite Hh1, length_app; cbn; unfold i; lia).
  rewrite Hlen1 in Hu2, Hp2, Hs2.
  eexists. split; [reflexivity|]. cbn [lay set_lay set_point].
  split; [by rewrite Hu2, Hu1, <- app_assoc|]. split; [rewrite Hp2; apply lookup_insert_eq|].
  assert (Hin : i ∈ serving A l2 /\ S i ∈ serving A l2) by (rewrite Hs2, Hs1; set_solver).
  split; [apply Hin|]. split; [apply Hin|]. intros t res Ht Hk.
  assert (Et : Tx_Key t = key (ServerTx.common tx)).
  { rewrite Hh2, Hh1, <- app_assoc in Ht. unfold i in Ht. cbn [app] in Ht. rewrite list_lookup_middle in Ht by done. injection Ht as <-.
    unfold Tx_Key. cbn. by rewrite Hc1. }
  apply New_follows in Htx as (_ & _ & Hkey).
  destruct (twin_dropped l2 i (S i) t Ht) as [Hj Hd]; [apply Hin|apply Hin|lia|]. split; [done|].
  unfold getServerTx. rewrite Hk, Hkey. cbn [mbind res_bind]. unfold lookup_tx. rewrite <- Et, Hd. cbn. eauto.
Qed.

(** The transaction of the sample request. *)
Definition sample_server : serverTx :=
  mkServerTx (mkCommonTx (server_key (mkTxId "z9hG4bKabc" "10.0.0.9" 5060%N "INVITE")) (received "INVITE")
    None [] None false) None None [] None 0%Z None None 0%Z None None false.

Lemma sample_server_new : NewServerTx (tpl nat sample_layer) (received "INVITE") = Ok sample_server.
Proof. vm_compute. reflexivity. Qed.

Definition not_found : string := "transaction with key '%s' not found".

Lemma sample_not_found : getServerTx nat sample_layer (req_msg (received "INVITE")) = Err not_found.
Proof. vm_compute. reflexivity. Qed.

Lemma sample_new_request : passed_on (received "INVITE") = false.
Proof. vm_compute. reflexivity. Qed.

Lemma duplicates_race_witness :
  exists h', run_handlers (sample_handlers [AtLookup (received "INVITE"); AtLookup (received "INVITE")])
      ([Handler 0 false; Handler 1 false] ++ replicate 5 (Handler 0 false) ++ replicate 5 (Handler 1 false)) = Ok h'
    /\ ups nat (lay h') = [(received "INVITE", Some 0); (received "INVITE", Some 1)]
    /\ 0 ∈ serving nat (lay h') /\ 1 ∈ serving nat (lay h').
Proof.
  destruct (duplicates_race nat (fun _ => "uuid") (fun _ => "rnd") ClientTx.run_spin ServerTx.run_spin nil_spin
    (sample_handlers [AtLookup (received "INVITE"); AtLookup (received "INVITE")]) 0 1 (received "INVITE") sample_server
    not_found eq_refl eq_refl ltac:(lia) eq_refl eq_refl eq_refl sample_not_found sample_new_request sample_server_new)
    as (h' & Hr & Hu & _ & H0 & H1 & _).
  exists h'. split; [exact Hr|]. split; [exact Hu|]. split; [exact H0|exact H1].
Defined.

(** C31: the transaction is put into the pool before its machine is made.  A retransmission
    whose handler looks up in between is given to [Spin] of the nil machine: where that
    panics, as a method that dereferences its receiver does, so does the program. *)
Theorem early_retransmission {W : Type} `{TransportLayer W} (A : Type) (uuid rnd : list Message -> string)
    (ClientSpin : bool -> spin_type ClientState ClientInput (clientTx * W))
    (ServerSpin NilSpin : bool -> spin_type ServerState ServerInput (serverTx * W))
    (h : hlayer W A) (n m : nat) (req req' : request) (tx : serverTx) (k : panic_kind) :
  handlers h !! n = Some (AtPut req tx) -> handlers h !! m = Some (AtLookup req') -> n <> m ->
  NewServerTx (tpl A (lay h)) req = Ok tx ->
  MakeServerTxKey (req_msg req') = MakeServerTxKey (req_msg req) -> req_method req' = req_method req ->
  (forall b x i, NilSpin b x i = Panic k) ->
  hrun A uuid rnd ClientSpin ServerSpin NilSpin h [Handler n false; Handler m false; Handler m false] = Panic k.
Proof.
  intros Hn Hm Hnm Htx Hk Hmeth Hnil. apply New_follows in Htx as (_ & Ho & Hkey).
  rewrite hrun_cons. cbn [hstep]. rewrite Hn. cbn [handler_step alloc mbind res_bind mret res_ret].
  set (h1 := set_point _ n _). set (i := length (heap A (lay h))).
  assert (Hl : lookup_tx A (lay h1) (key (ServerTx.common tx)) = Some (i, ServerTxn (first_state (ServerTx.tx_invite tx)) tx)).
  { apply lookup_tx_inv. split; [apply lookup_insert_eq|]. by apply list_lookup_middle. }
  assert (Hm1 : handlers h1 !! m = Some (AtLookup req')) by (cbn; by rewrite list_lookup_insert_ne).
  rewrite hrun_cons. cbn [hstep]. rewrite Hm1. cbn [handler_step].
  assert (Hg : getServerTx A (lay h1) (req_msg req') = Ok (i, (first_state (ServerTx.tx_invite tx), tx))).
  { apply getServerTx_inv. exists (key (ServerTx.common tx)). split; [congruence|exact Hl]. }
  rewrite Hg. cbn [mbind res_bind mret res_ret]. rewrite hrun_cons. cbn [hstep].
  change (handlers (set_point h1 m (AtServerReceive req' i))) with (<[m := AtServerReceive req' i]> (handlers h1)).
  rewrite list_lookup_insert_eq by (by eapply lookup_lt_Some). cbn [handler_step].
  change (lay (set_point h1 m (AtServerReceive req' i))) with (lay h1).
  apply lookup_tx_inv in Hl as [_ Hi]. rewrite Hi. unfold spin_of.
  rewrite decide_True by (cbn; set_solver). cbn [ServerTx.Receive]. rewrite Hmeth. cbn [with_timer1xx ServerTx.common].
  rewrite Ho, String.eqb_refl, Hnil. done.
Qed.

Lemma early_retransmission_witness :
  run_handlers (sample_handlers [AtPut (received "INVITE") sample_server; AtLookup (received "INVITE")])
    [Handler 0 false; Handler 1 false; Handler 1 false] = Panic NilDereference.
Proof.
  exact (early_retransmission nat (fun _ => "uuid") (fun _ => "rnd") ClientTx.run_spin ServerTx.run_spin nil_spin
    (sample_handlers [AtPut (received "INVITE") sample_server; AtLookup (received "INVITE")]) 0 1
    (received "INVITE") (received "INVITE") sample_server NilDereference eq_refl eq_refl ltac:(lia) sample_server_new
    eq_refl eq_refl (fun _ _ _ => eq_refl)).
Defined.

(** [listenMessages] waits for the transactions, not for the handlers.  In every state
    that can be reached with a goroutine on its way to hand a request or a response to the
    user: closing the layer, ending its transactions and closing the channels makes that
    goroutine panic when its [select] takes the send. *)
Theorem offer_after_close {W : Type} `{TransportLayer W} (A : Type) (takes_done : bool)
    (uuid rnd : list Message -> string)
    (ClientSpin : bool -> spin_type ClientState ClientInput (clientTx * W))
    (ServerSpin NilSpin : bool -> spin_type ServerState ServerInput (serverTx * W))
    (Hclient : forall b, FsmSpin (ClientTx.outcomes b) (ClientTx.perform takes_done uuid rnd) (ClientSpin b))
    (Hserver : forall b, FsmSpin (ServerTx.outcomes b) (ServerTx.perform takes_done uuid rnd) (ServerSpin b))
    (Hnil : forall b x i x' e, NilSpin b x i = Ok (x', e) -> x' = x)
    (w : W) (evs : list hevent) (h : hlayer W A) (n : nat) (p : point) :
  hrun A uuid rnd ClientSpin ServerSpin NilSpin (TxHandlers.CreateLayer A w) evs = Ok h ->
  handlers h !! n = Some p ->
  match p with AtOffer _ _ | AtOfferResponse _ => True | _ => False end ->
  hrun A uuid rnd ClientSpin ServerSpin NilSpin h
    (Other EvClose :: map (fun i => Other (EvEnd i)) (elements (serving A (lay h)))
     ++ [ListenEnds; ChannelsClose; Handler n false]) = Panic SendOnClosed.
Proof.
  intros Hr Hn Hp. assert (I : hinv A h) by by
    exact (hinv_run A takes_done uuid rnd ClientSpin ServerSpin NilSpin Hnil _ _ _ (hinv_CreateLayer A w) Hr).
  rewrite app_comm_cons, hrun_app, run_ends_all. cbn [mbind res_bind].
  destruct (end_all_canceled (elements (serving A (lay h))) (Close A (lay h)) eq_refl) as [Hs _].
  { intros i Hi%elem_of_elements. by apply (ok_serving _ (hinv_ok _ _ I)). }
  set (l := end_all _ _) in *.
  assert (He : serving A l = ∅) by (rewrite Hs; cbn; set_solver).
  rewrite hrun_cons. cbn [hstep mbind res_bind mret res_ret]. rewrite hrun_cons. cbn [hstep mbind res_bind mret res_ret].
  cbn [listening lay set_lay chans_closed negb]. rewrite bool_decide_true by done. rewrite orb_true_r.
  rewrite hrun_cons. cbn [hstep handlers set_lay]. rewrite Hn.
  destruct p; try done; cbn [handler_step]; unfold offer; cbn [lay chans_closed]; by rewrite andb_false_r.
Qed.

(** The handler of an ACK that matches nothing, on its way to the user. *)
Definition pending_ack : list hevent := Arrive (MRequest (received "ACK")) :: replicate 4 (Handler 0 false).

Lemma pending_ack_run :
  run_handlers (TxHandlers.CreateLayer nat []) pending_ack = Ok (sample_handlers [AtOffer (received "ACK") None]).
Proof. vm_compute. reflexivity. Qed.

Lemma offer_after_close_witness :
  run_handlers (sample_handlers [AtOffer (received "ACK") None])
    [Other EvClose; ListenEnds; ChannelsClose; Handler 0 false] = Panic SendOnClosed.
Proof.
  exact (offer_after_close nat true (fun _ => "uuid") (fun _ => "rnd") ClientTx.run_spin ServerTx.run_spin nil_spin
    ClientTx.run_spin_laws ServerTx.run_spin_laws nil_spin_idle [] pending_ack
    (sample_handlers [AtOffer (received "ACK") None]) 0 (AtOffer (received "ACK") None) pending_ack_run eq_refl I).
Defined.
