(* ===== verification/AckMatch.v ===== *)
(** * The ACK of a failed INVITE (sip/response.go [CreateAck], transaction/client_tx.go [ack])

    What [CreateAck] puts on the ACK, and what becomes of it at the server: the branch of
    its Via is a new one, so that it never has the key of the INVITE. *)

From S2P Require Import Prelude GoStrings Params Base Uri Header Headers Auth HeaderParse.
From S2P Require Import Message TxKey Transport Fsm TxCommon ClientTx ServerTx TxLayer.
From Stdlib Require Import NArith ZArith Lia.

#[local] Open Scope string_scope.
#[local] Open Scope list_scope.

(** ** The headers of the ACK *)

Definition is_record_route (h : Header) : Prop := match h with HRecordRoute _ => True | _ => False end.

Lemma uri_copy_ok us : Forall uri_ok us -> Forall uri_ok (map Uri_Copy us).
Proof. induction 1 as [|u us Hu _ IH]; constructor; [by rewrite Uri_Copy_id|done]. Qed.

Lemma record_routes_spec l : forall hs,
  headers_ok hs -> Forall is_record_route l -> Forall header_ok l ->
  exists hs', foldM_res record_route_to_route hs l = Ok hs' /\ headers_ok hs'
    /\ forall k, k <> "route" -> entry hs' k = entry hs k.
Proof.
  induction l as [|h l IH]; intros hs Hok Hr Hw; cbn; [by exists hs|].
  inversion Hr as [|? ? Hh Hr']; subst. inversion Hw as [|? ? Hwh Hw']; subst. 
  assert (exists us, h = HRecordRoute us) as [us ->] by (destruct h; try done; eauto).
  cbn [record_route_to_route]. rewrite AddHeader_added by done. cbn [mbind res_bind].
  destruct (IH (added hs (HRoute (map Uri_Copy us)))) as (hs' & -> & Hok' & He); [|done|done|].
  { apply added_ok; [done|]. by apply uri_copy_ok. }
  exists hs'. split; [done|]. split; [done|]. intros k Hk. rewrite He by done. rewrite entry_added.
  change (key_of (HRoute (map Uri_Copy us))) with "route". by rewrite decide_False, app_nil_r.
Qed.

Lemma set_cseq_method_spec m method :
  headers_ok (msg_headers m) ->
  headers_ok (msg_headers (set_cseq_method m method))
  /\ headers_CSeq (msg_headers (set_cseq_method m method)) = (fun c => (c.1, method)) <$> headers_CSeq (msg_headers m)
  /\ (forall k, k <> "cseq" -> entry (msg_headers (set_cseq_method m method)) k = entry (msg_headers m) k)
  /\ dest (set_cseq_method m method) = dest m.
Proof.
  intros Hok. unfold set_cseq_method. destruct (headers_CSeq (msg_headers m)) as [[n mt]|] eqn:Hc; [|by rewrite Hc].
  cbn [msg_headers with_headers]. rewrite headers_CSeq_head in Hc |- *. rewrite set_first_entry, decide_True by done.
  destruct (entry (msg_headers m) "cseq") as [|h l] eqn:E; [done|]. split; [|split; [done|split; [|by destruct m]]].
  - by apply set_first_ok.
  - intros k Hk. by rewrite set_first_entry, decide_False.
Qed.

(** What [CreateAck] makes of a response with a Via: the headers of the response, another
    branch in the top hop, the method ACK. *)
(** The Route of the ACK, from the Route or the Record-Route of the response. *)
Definition copy_route (r : response) (m : message) : res message :=
  match GetHeaders (msg_headers (res_msg r)) "Route" with
  | _ :: _ => CopyHeaders "Route" (res_msg r) m
  | [] => hs ← foldM_res record_route_to_route (msg_headers m) (GetHeaders (msg_headers (res_msg r)) "Record-Route");
          mret (with_headers m hs)
  end.

Lemma copy_route_spec r m :
  headers_ok (msg_headers (res_msg r)) -> headers_ok (msg_headers m) ->
  Forall is_record_route (entry (msg_headers (res_msg r)) "record-route") ->
  exists hs, copy_route r m = Ok (with_headers m hs) /\ headers_ok hs
    /\ forall k, k <> "route" -> entry hs k = entry (msg_headers m) k.
Proof.
  intros Hok Hm Hrr. unfold copy_route. destruct (GetHeaders (msg_headers (res_msg r)) "Route").
  - destruct (record_routes_spec (entry (msg_headers (res_msg r)) "record-route") (msg_headers m)) as (hs & E & Hok3 & He3);
      [done|done| |].
    { apply Forall_forall. intros h Hin. by apply (entry_keys _ _ _ Hok Hin). }
    exists hs. split; [|done]. rewrite GetHeaders_entry.
    change (ToLower "Record-Route") with "record-route". by rewrite E.
  - destruct (CopyHeaders_spec "Route" (res_msg r) m Hok Hm eq_refl) as (hs & E & Hok3 & He3).
    exists hs. split; [exact E|]. split; [done|]. intros k Hk. rewrite He3, decide_False, app_nil_r by done. done.
Qed.

Lemma CreateAck_entries id b r hop hops ps :
  headers_ok (msg_headers (res_msg r)) -> headers_Via (msg_headers (res_msg r)) = Some (hop :: hops) ->
  VParams hop = Some ps -> Forall is_record_route (entry (msg_headers (res_msg r)) "record-route") ->
  exists a, CreateAck id b r = Ok a /\ headers_ok (msg_headers (req_msg a)) /\ req_method a = ACK
    /\ dest (req_msg a) = src (res_msg r)
    /\ headers_Via (msg_headers (req_msg a)) = Some (hop_branch hop ps (GenerateBranch b) :: hops)
    /\ headers_CSeq (msg_headers (req_msg a)) = (fun c => (c.1, ACK)) <$> headers_CSeq (msg_headers (res_msg r))
    /\ (forall n, n ∈ ["from"; "to"; "call-id"] ->
          entry (msg_headers (req_msg a)) n = entry (msg_headers (res_msg r)) n).
Proof.
  intros Hok Hv Hps Hrr. unfold CreateAck.
  set (m0 := SetSipVersion _ _).
  assert (Hm0 : headers_ok (msg_headers m0)) by apply emptyHeaders_ok.
  assert (He0 : forall k, entry (msg_headers m0) k = []) by (intros k; change (entry emptyHeaders k = []); unfold entry; cbn; by rewrite lookup_empty).
  destruct (CopyHeaders_spec "Via" (res_msg r) m0 Hok Hm0 eq_refl) as (h1 & -> & Hok1 & He1). cbn [mbind res_bind].
  destruct (set_branch_spec (with_headers m0 h1) hop hops ps (GenerateBranch b)) as (h2 & -> & Hok2 & Hv2 & He2);
    [done| |done|].
  { rewrite headers_Via_head in Hv |- *. cbn [msg_headers with_headers]. by rewrite He1, He0, decide_True. }
  cbn [mbind res_bind].
  destruct (copy_route_spec r (with_headers m0 h2) Hok Hok2 Hrr) as (h3 & E3 & Hok3 & He3).
  match goal with |- context [mbind _ ?x] => change x with (copy_route r (with_headers m0 h2)) end.
  rewrite E3. cbn [mbind res_bind]. change (with_headers (with_headers m0 h2) h3) with (with_headers m0 h3).
  destruct (CopyHeaders_all ["From"; "To"; "Call-ID"; "CSeq"] (res_msg r) (with_headers m0 h3) Hok Hok3)
    as (h4 & -> & Hok4 & He4).
  { apply (bool_decide_unpack _). vm_compute. exact I. }
  { by repeat constructor. }
  cbn [mbind res_bind mret res_ret]. eexists. split; [reflexivity|].
  destruct (set_cseq_method_spec (with_headers (with_headers m0 h3) h4) ACK Hok4) as (Hok5 & Hc5 & He5 & Hd5).
  assert (Hold : forall k, k <> "via" -> k <> "route" -> entry h3 k = []).
  { intros k Hk1 Hk2. rewrite He3, He2 by done. cbn [msg_headers with_headers].
    by rewrite He1, He0, decide_False by (by intros ->). }
  cbn [req_msg req_method with_msg]. split; [done|]. split; [done|]. split; [by rewrite Hd5|].
  split; [|split].
  - rewrite headers_Via_head in Hv2 |- *. rewrite He5 by done. cbn [msg_headers with_headers].
    rewrite He4, decide_False by (apply (bool_decide_unpack _); vm_compute; exact I). cbn [msg_headers with_headers].
    by rewrite app_nil_r, He3.
  - rewrite Hc5. cbn [msg_headers with_headers]. f_equal. rewrite !headers_CSeq_head, He4.
    cbn [msg_headers with_headers]. by rewrite Hold, decide_True by (done || in_names).
  - intros n Hn. rewrite He5 by (intros ->; revert Hn; apply (bool_decide_unpack _); vm_compute; exact I).
    cbn [msg_headers with_headers]. rewrite He4. cbn [msg_headers with_headers].
    rewrite decide_True by (apply list_elem_of_In in Hn; cbn in Hn; apply list_elem_of_In; cbn; tauto).
    rewrite Hold; [done| |]; intros ->; revert Hn; apply (bool_decide_unpack _); vm_compute; exact I.
Qed.

(** ** At the server *)

(** What sending and parsing leave of a request: its method, its CSeq and the branch of
    its top Via hop.  (Sending may rewrite the transport and the address of the hop.) *)
Record delivered (a ack : request) : Prop := {
  del_method : req_method ack = req_method a;
  del_cseq : headers_CSeq (msg_headers (req_msg ack)) = headers_CSeq (msg_headers (req_msg a));
  del_branch : exists h1 p1 h2 p2,
    headers_ViaHop (msg_headers (req_msg a)) = Some h1 /\ VParams h1 = Some p1
    /\ headers_ViaHop (msg_headers (req_msg ack)) = Some h2 /\ VParams h2 = Some p2
    /\ Get p2 "branch" = Get p1 "branch" /\ no_underscore (VHost h2) = true
}.

Lemma rfc3261_GenerateBranch b : b <> "" -> rfc3261_branch (Some (Some (GenerateBranch b))) = Ok (Some (GenerateBranch b)).
Proof.
  intros Hb. change (GenerateBranch b) with ("z9hG4bK" +:+ b). unfold rfc3261_branch. cbn [deref mbind res_bind].
  change RFC3261BranchMagicCookie with "z9hG4bK".
  assert (Hp : HasPrefix "z9hG4bK" ("z9hG4bK" +:+ b) = true) by (destruct b; reflexivity).
  assert (Ht : TrimPrefix "z9hG4bK" ("z9hG4bK" +:+ b) = b) by (unfold TrimPrefix; rewrite Hp; reflexivity).
  rewrite Hp, Ht. destruct (String.eqb_spec b ""); [done|reflexivity].
Qed.

(** The key of a delivered ACK. *)
Lemma delivered_key id b r a ack hop hops ps n :
  headers_ok (msg_headers (res_msg r)) -> headers_Via (msg_headers (res_msg r)) = Some (hop :: hops) ->
  VParams hop = Some ps -> Forall is_record_route (entry (msg_headers (res_msg r)) "record-route") ->
  headers_CSeq (msg_headers (res_msg r)) = Some (n, INVITE) ->
  CreateAck id b r = Ok a -> delivered a ack -> b <> "" -> no_underscore b = true ->
  request_IsAck ack = true
  /\ exists j, server_id (req_msg ack) = Some j /\ clean_id j = true /\ id_branch j = GenerateBranch b.
Proof.
  intros Hok Hv Hps Hrr Hc Ha [Dm Dc (h1 & p1 & h2 & p2 & Hh1 & Hp1 & Hh2 & Hp2 & Hb & Hhost)] Hne Hclean.
  destruct (CreateAck_entries id b r hop hops ps Hok Hv Hps Hrr) as (a' & Ha' & _ & Hm & _ & Hva & Hca & _).
  rewrite Ha in Ha'. injection Ha' as <-. rewrite Hc in Hca. cbn in Hca.
  split; [unfold request_IsAck; by rewrite Dm, Hm|].
  unfold headers_ViaHop in Hh1. rewrite Hva in Hh1. apply (inj Some) in Hh1. subst h1.
  apply (inj Some) in Hp1. subst p1.
  rewrite Get_Add, decide_True in Hb by done.
  unfold server_id. rewrite Hh2, Dc, Hca. cbn [fst snd]. rewrite Hp2, Hb, rfc3261_GenerateBranch by done.
  eexists. split; [reflexivity|]. split; [|done]. unfold clean_id. cbn [id_branch id_host id_method].
  rewrite Hhost. change (no_underscore (server_method ACK)) with true. rewrite !andb_true_r. exact Hclean.
Qed.

(** C18: the ACK that a client transaction makes for a failure (300 and up) never reaches
    the INVITE transaction of the server: [CreateAck] gives it a branch of its own, as for
    a 2xx, so that its key is not the key of the INVITE.  In a layer whose one waiting
    transaction is that of the INVITE, the ACK goes up without a transaction, and the
    INVITE's transaction is left as it was, to retransmit until its timer H. *)
Theorem failure_ack_unmatched {W : Type} `{TransportLayer W} (A : Type) (uuid rnd : list Message -> string)
    (ServerSpin : bool -> spin_type ServerState ServerInput (serverTx * W))
    (l l0 : layer W A) (i : ref) (id b : string) (r : response) (a ack : request)
    (hop : ViaHop) (hops : list ViaHop) (ps : headerParams) (n : N) (invite : tx_id) :
  headers_ok (msg_headers (res_msg r)) -> headers_Via (msg_headers (res_msg r)) = Some (hop :: hops) ->
  VParams hop = Some ps -> Forall is_record_route (entry (msg_headers (res_msg r)) "record-route") ->
  headers_CSeq (msg_headers (res_msg r)) = Some (n, INVITE) ->
  server_id (res_msg r) = Some invite -> clean_id invite = true ->
  CreateAck id b r = Ok a -> delivered a ack -> b <> "" -> no_underscore b = true ->
  GenerateBranch b <> id_branch invite ->
  transactions A l !! server_key invite = Some i ->
  (forall k j, transactions A l !! k = Some j -> k = server_key invite) -> canceled A l = false -> updateSession A l ack = Ok l0 ->
  MakeServerTxKey (req_msg ack) <> MakeServerTxKey (res_msg r)
  /\ exists l1, handleRequest A uuid rnd ServerSpin l ack = Ok l1
       /\ ups A l1 = ups A l ++ [(ack, None)] /\ heap A l1 = heap A l
       /\ transactions A l1 !! server_key invite = Some i.
Proof.
  intros Hok Hv Hps Hrr Hc Hi Hclean Ha Hd Hb Hbc Hfresh Hwait Hpool Hcan Hu.
  destruct (delivered_key id b r a ack hop hops ps n Hok Hv Hps Hrr Hc Ha Hd Hb Hbc) as (Hack & j & Hj & Hjc & Hjb).
  assert (Hk : server_key j <> server_key invite).
  { intros E. apply (server_key_inj j invite Hjc Hclean) in E. subst j. congruence. }
  rewrite (MakeServerTxKey_id _ _ Hj), (MakeServerTxKey_id _ _ Hi). split; [congruence|].
  assert (Hg : getServerTx A l0 (req_msg ack) = Err "transaction with key '%s' not found").
  { unfold getServerTx. rewrite (MakeServerTxKey_id _ _ Hj). cbn [mbind res_bind]. unfold lookup_tx, pool_get.
    destruct (updateSession_same _ _ _ Hu) as ([_ Hp _] & _). rewrite Hp.
    destruct (transactions A l !! server_key j) as [m|] eqn:E; [|done]. by apply Hpool in E. }
  unfold handleRequest. rewrite Hcan, Hu. cbn [mbind res_bind]. rewrite Hg, Hack.
  destruct (updateSession_same _ _ _ Hu) as ([Hh Hp _] & _ & Hup & _).
  eexists. split; [reflexivity|]. split; [cbn; by rewrite Hup|].
  split; [exact Hh|]. cbn [transactions pass_up]. by rewrite Hp.
Qed.

(** A refused INVITE and its ACK. *)
Definition busy : response :=
  match CreateResponse "id" "tag" (received "INVITE") 486%N with Ok r => r | _ => mkResponse (req_msg (received "INVITE")) 0%N "" [] end.
Definition busy_ack : request :=
  match CreateAck "id" "new" busy with Ok a => a | _ => received "ACK" end.

Definition invite_id : tx_id := mkTxId "z9hG4bKabc" "10.0.0.9" 5060%N "INVITE".

(** The server has answered and waits. *)
Definition busy_layer : layer (list Message) nat :=
  set_pool nat (set_heap nat sample_layer
    [ServerTxn Completed (mkServerTx (mkCommonTx (server_key invite_id) (received "INVITE") (Some busy) [] None false)
       None None [] (Some T1) T1 (Some TimeH) None TimeI None None false)])
    (pool_put ∅ (server_key invite_id) 0).

Definition busy_hop : ViaHop := match headers_Via (msg_headers (res_msg busy)) with Some (hop :: _) => hop | _ => mkViaHop "" "" "" "" None None end.
Definition busy_params : headerParams := default NewParams (VParams busy_hop).
Definition ack_hop : ViaHop := match headers_Via (msg_headers (req_msg busy_ack)) with Some (hop :: _) => hop | _ => busy_hop end.
Definition ack_params : headerParams := default NewParams (VParams ack_hop).

Lemma busy_headers_ok : headers_ok (msg_headers (res_msg busy)).
Proof.
  destruct (CreateResponse_entries "id" "tag" (received "INVITE") 486%N "10.0.0.9:5060" "10.0.0.1:5060"
    (received_ok "INVITE") eq_refl eq_refl) as (hs & E & Hok & _). unfold busy. rewrite E. exact Hok.
Qed.

Lemma busy_ack_made : CreateAck "id" "new" busy = Ok busy_ack.
Proof. vm_compute. reflexivity. Qed.

Lemma busy_ack_delivered : delivered busy_ack busy_ack.
Proof.
  constructor; [done|done|]. exists ack_hop, ack_params, ack_hop, ack_params. by repeat split; vm_compute.
Qed.

Lemma failure_ack_unmatched_witness :
  exists l1, handleRequest nat (fun _ => "uuid") (fun _ => "rnd") ServerTx.run_spin busy_layer busy_ack = Ok l1
    /\ ups nat l1 = [(busy_ack, None)] /\ heap nat l1 = heap nat busy_layer.
Proof.
  assert (Hu : exists l0, updateSession nat busy_layer busy_ack = Ok l0).
  { assert (Hc : is_ok (updateSession nat busy_layer busy_ack) = true) by (vm_compute; reflexivity).
    destruct (updateSession nat busy_layer busy_ack) as [l0| |]; [by exists l0|done..]. }
  destruct Hu as [l0 Hu].
  destruct (failure_ack_unmatched nat (fun _ => "uuid") (fun _ => "rnd") ServerTx.run_spin busy_layer l0 0
    "id" "new" busy busy_ack busy_ack busy_hop [] busy_params 7%N invite_id busy_headers_ok) as (_ & l1 & H1 & H2 & H3 & _);
    [vm_compute; reflexivity|vm_compute; reflexivity| |vm_compute; reflexivity|vm_compute; reflexivity
    |vm_compute; reflexivity|exact busy_ack_made|exact busy_ack_delivered|done|vm_compute; reflexivity|done
    |apply lookup_insert_eq| |reflexivity|exact Hu|].
  - change (entry (msg_headers (res_msg busy)) "record-route") with (@nil Header). constructor.
  - intros k j Hk. change ((<[server_key invite_id := 0]> (∅ : gmap TxKey ref)) !! k = Some j) in Hk.
    apply (lookup_insert_Some (M := gmap TxKey)) in Hk as [[<- _]|[_ Hk]]; [done|].
    by rewrite lookup_empty in Hk.
  - exists l1. split; [exact H1|]. split; [exact H2|exact H3].
Defined.
