(* ===== verification/Challenge.v ===== *)
(** * Answering a challenge (sip/auth.go, [AddAuthHeader] of sip/request.go)

    What a request carries after it was authorized against a 401 response, and that a
    server which knows the password accepts it. *)

From S2P Require Import Prelude GoStrings Params Base Uri Header Headers Auth HeaderParse.
From S2P Require Import HeaderRoundTrip Message.
From Stdlib Require Import NArith ZArith Lia.

#[local] Open Scope string_scope.
#[local] Open Scope list_scope.

(** The credentials for a challenge [ch]. *)
Definition credentials (ch : Authorization) (method uri username password : string) : Authorization :=
  CalcResponse (SetPassword (SetUsername (SetUri (Auth.SetMethod ch method) uri) username) password).

Lemma credentials_key ch method uri username password :
  auth_name ch = "" -> key_of (HAuthorization (credentials ch method uri username password)) = "authorization".
Proof. intros Hn. unfold key_of, credentials. cbn. unfold Authorization_Name. cbn. by rewrite Hn. Qed.

(** The next number of a request, on 32 bits. *)
Definition next_cseq (c : option (N * RequestMethod)) : option (N * RequestMethod) :=
  '(n, m) ← c; Some (to_uint32 (n + 1), m).

Lemma incr_cseq_spec m : headers_CSeq (msg_headers (incr_cseq m)) = next_cseq (headers_CSeq (msg_headers m)).
Proof.
  unfold incr_cseq. destruct (headers_CSeq (msg_headers m)) as [[n mt]|] eqn:E; [|by rewrite E].
  rewrite headers_CSeq_head in E. cbn [msg_headers with_headers]. rewrite headers_CSeq_head, set_first_entry, decide_True by done.
  by destruct (entry (msg_headers m) "cseq") as [|[] l].
Qed.

(** What [AuthorizeRequest] makes of a request that carries no credentials. *)
Record answered (req req' : request) (a : Authorization) (rnd : string) (hop : ViaHop) (hops : list ViaHop)
    (ps : headerParams) : Prop := {
  ans_auth : GetHeaders (msg_headers (req_msg req')) "Authorization" = [HAuthorization a];
  ans_cseq : headers_CSeq (msg_headers (req_msg req')) = next_cseq (headers_CSeq (msg_headers (req_msg req)));
  ans_via : headers_Via (msg_headers (req_msg req')) = Some (hop_branch hop ps (GenerateBranch rnd) :: hops);
  ans_other : forall k, k <> "authorization" -> k <> "cseq" -> k <> "via" ->
    entry (msg_headers (req_msg req')) k = entry (msg_headers (req_msg req)) k;
  ans_tails : tail (entry (msg_headers (req_msg req')) "cseq") = tail (entry (msg_headers (req_msg req)) "cseq")
    /\ tail (entry (msg_headers (req_msg req')) "via") = tail (entry (msg_headers (req_msg req)) "via");
  ans_order : headerOrder (msg_headers (req_msg req')) = headerOrder (msg_headers (req_msg req)) ++ ["authorization"];
  ans_line : req_method req' = req_method req /\ recipient req' = recipient req;
  ans_message : body (req_msg req') = body (req_msg req) /\ sipVersion (req_msg req') = sipVersion (req_msg req)
    /\ src (req_msg req') = src (req_msg req) /\ dest (req_msg req') = dest (req_msg req)
    /\ messID (req_msg req') = messID (req_msg req)
}.

Lemma AuthorizeRequest_answers rnd req r username password u hop hops ps n contents hs ch :
  headers_ok (msg_headers (req_msg req)) ->
  headers_Via (msg_headers (req_msg req)) = Some (hop :: hops) -> VParams hop = Some ps ->
  GetHeaders (msg_headers (req_msg req)) "Authorization" = [] -> recipient req = Some u -> status r = 401%N ->
  GetHeaders (msg_headers (res_msg r)) "WWW-Authenticate" = HGeneric n contents :: hs ->
  ParseAuthorization CreateAuthorization contents = Ok ch ->
  exists req', AddAuthHeader rnd req r username password = Ok req'
    /\ answered req req' (credentials ch (req_method req) (Uri_String u) username password) rnd hop hops ps.
Proof.
  intros Hok Hv Hps Ha Hu Hst Hw Hch.
  destruct (ParseAuthorization_no_panic CreateAuthorization contents) as (ch' & Hch' & Hname & _); [cbn; eauto|].
  rewrite Hch in Hch'. injection Hch' as <-.
  assert (Hother : exists ps, Other ch = Some ps /\ params_ok ps)
    by (eapply ParseAuthorization_ok; [|exact Hch]; cbn; eauto using NewParams_ok).
  set (a := credentials ch (req_method req) (Uri_String u) username password).
  assert (Hkey : key_of (HAuthorization a) = "authorization") by (by apply credentials_key).
  assert (Hadd : AddHeader (msg_headers (req_msg req)) (HAuthorization a) = Ok (added (msg_headers (req_msg req)) (HAuthorization a)))
    by (by apply AddHeader_added).
  set (hs1 := added (msg_headers (req_msg req)) (HAuthorization a)) in *.
  assert (Hok1 : headers_ok hs1) by (apply added_ok; [done|]; exact Hother).
  assert (He1 : forall k, entry hs1 k = entry (msg_headers (req_msg req)) k ++ (if decide (k = "authorization") then [HAuthorization a] else []))
    by (intros k; unfold hs1; by rewrite entry_added, Hkey).
  destruct (set_branch_spec (with_headers (req_msg req) hs1) hop hops ps (GenerateBranch rnd)) as (hs2 & Hb & Hok2 & Hv2 & He2);
    [done| |done|].
  { cbn [msg_headers with_headers]. rewrite headers_Via_head, He1, decide_False, app_nil_r by done. by rewrite <- headers_Via_head. }
  cbn [msg_headers with_headers] in He2.
  destruct (set_branch_rest _ _ _ Hb) as (_ & Ho2 & Ht2). cbn [msg_headers with_headers] in Ho2, Ht2.
  destruct (incr_cseq_rest (with_headers (with_headers (req_msg req) hs1) hs2)) as (Hm3 & Ho3 & Ht3).
  cbn [msg_headers with_headers] in Ho3, Ht3.
  exists (with_msg req (incr_cseq (with_headers (with_headers (req_msg req) hs1) hs2))).
  split.
  - unfold AddAuthHeader, AddAuthInfo, AuthorizeRequest. cbn [AuthUser AuthPassword]. rewrite Hst.
    change (N.eqb 401 401) with true. cbv iota beta. rewrite Hw, Hch. cbn [mbind res_bind]. rewrite Hu. cbn [deref mbind res_bind].
    rewrite Ha. fold (credentials ch (req_method req) (Uri_String u) username password). fold a. rewrite Hadd.
    cbn [mbind res_bind msg_headers with_headers].
    assert (Hhop : exists h, headers_ViaHop hs1 = Some h).
    { unfold headers_ViaHop. rewrite headers_Via_head, He1, decide_False, app_nil_r by done.
      rewrite <- headers_Via_head, Hv. by exists hop. }
    destruct Hhop as [h ->]. by rewrite Hb.
  - rewrite GetHeaders_entry in Ha. change (ToLower "Authorization") with "authorization" in Ha.
    constructor; cbn [req_msg with_msg req_method recipient].
    + rewrite GetHeaders_entry. change (ToLower "Authorization") with "authorization".
      rewrite incr_cseq_other by done. cbn [msg_headers with_headers]. by rewrite He2, He1, Ha.
    + rewrite incr_cseq_spec. f_equal. cbn [msg_headers with_headers].
      by rewrite !headers_CSeq_head, He2, He1, decide_False, app_nil_r by done.
    + rewrite headers_Via_head, incr_cseq_other by done. cbn [msg_headers with_headers]. by rewrite <- headers_Via_head.
    + intros k H1 H2 H3. rewrite incr_cseq_other by done. cbn [msg_headers with_headers].
      by rewrite He2, He1, decide_False, app_nil_r by done.
    + split; [by rewrite Ht3, He2, He1, decide_False, app_nil_r by done|].
      rewrite incr_cseq_other by done. cbn [msg_headers with_headers]. by rewrite Ht2, He1, decide_False, app_nil_r by done.
    + rewrite Ho3, Ho2. unfold hs1, added. cbn [headerOrder]. rewrite Hkey, decide_False; [done|].
      intros [l Hl]. unfold entry in Ha. rewrite Hl in Ha. cbn in Ha. subst l.
      by destruct (entries_ok _ Hok _ _ Hl) as [].
    + done.
    + rewrite Hm3. done.
Qed.

(** The header line at the server. *)
Lemma credentials_parse a :
  auth_name a = "" -> digest_wf a -> TrimSpace (digest_value a) = digest_value a ->
  ParseHeader (Authorization_String a) (Some NewParser_headerParsers) = Ok [HAuthorization (reparsed "authorization" a)].
Proof.
  intros Hn Hw Ht. unfold Authorization_String. rewrite (proj1 Hw). change (String.eqb "digest" "digest") with true.
  cbn [negb]. unfold Authorization_Name. rewrite Hn. change (String.eqb "" "proxy-authorization") with false. cbv iota.
  change (ParseHeader ("Authorization" +:+ ": " +:+ digest_value a) (Some NewParser_headerParsers)
          = Ok [HAuthorization (reparsed "authorization" a)]).
  rewrite ParseHeader_line by done. change (ToLower "Authorization") with "authorization".
  assert (Ht1 : default (list_to_map defaultHeaderParsers) (Some NewParser_headerParsers) !! "authorization"
                = Some parseAuthorization) by (vm_compute; reflexivity).
  rewrite Ht1. by apply parse_digest_value.
Qed.

(** ** The property *)

(** C39: a request without credentials that is authorized against a 401 response.  The new
    request carries one Authorization header, the last one, with the user's name, the realm
    and the nonce of the challenge, the request's URI and the digest of all these with the
    password and the method; the number of its first CSeq is the next one, on 32 bits, and
    its top Via hop has a new branch; method, URI, version, body, addresses, the other hops
    and all other headers are unchanged.  A server that parses the rendered header and
    computes the digest with the password that it has for this user, obtains the response
    in the header, provided that the mode of the challenge is digest, that no field of
    the credentials is empty or has a quote in it, that the line has no white space at its
    ends, and that the word capability occurs nowhere in it, also not in the user's name:
    it would switch the mode that the parser reads. *)
Theorem challenge_answered (rnd : string) (req : request) (r : response) (username password : string)
    (u : Uri) (hop : ViaHop) (hops : list ViaHop) (ps : headerParams) (n contents : string)
    (hs : list Header) (ch : Authorization) :
  headers_ok (msg_headers (req_msg req)) ->
  headers_Via (msg_headers (req_msg req)) = Some (hop :: hops) -> VParams hop = Some ps ->
  GetHeaders (msg_headers (req_msg req)) "Authorization" = [] -> recipient req = Some u -> status r = 401%N ->
  GetHeaders (msg_headers (res_msg r)) "WWW-Authenticate" = HGeneric n contents :: hs ->
  ParseAuthorization CreateAuthorization contents = Ok ch ->
  let a := credentials ch (req_method req) (Uri_String u) username password in
  (exists req', AddAuthHeader rnd req r username password = Ok req' /\ answered req req' a rnd hop hops ps)
  /\ Response a = calcResponse username (Realm ch) password (req_method req) (Uri_String u) (Nonce ch)
  /\ (digest_wf a -> TrimSpace (digest_value a) = digest_value a ->
      exists b, ParseHeader (Authorization_String a) (Some NewParser_headerParsers) = Ok [HAuthorization b]
        /\ Username b = username /\ Realm b = Realm ch /\ Nonce b = Nonce ch
        /\ Response (CalcResponse (Auth.SetMethod (SetPassword b password) (req_method req))) = Response b).
Proof.
  intros Hok Hv Hps Ha Hu Hst Hw Hch a.
  split; [by apply (AuthorizeRequest_answers _ _ _ _ _ _ _ _ _ n contents hs ch)|].
  split; [done|]. intros Hwf Ht.
  destruct (ParseAuthorization_no_panic CreateAuthorization contents) as (ch' & Hch' & Hname & _); [cbn; eauto|].
  rewrite Hch in Hch'. injection Hch' as <-.
  exists (reparsed "authorization" a). split; [by apply credentials_parse|]. done.
Qed.

(** A REGISTER that was challenged. *)
Definition plain_hop : ViaHop := mkViaHop "SIP" "2.0" "UDP" "h" None (Some NewParams).
Definition plain_headers : headers :=
  match newHeaders [HCSeq 4294967295 REGISTER; HVia [plain_hop]] with Ok hs => hs | _ => emptyHeaders end.
Definition plain_register : request :=
  mkRequest (mkMessage plain_headers "" SipVersion "" "" "") REGISTER (Some (USip sample_uri)).

Definition plain_contents : string := "Digest " +:+ quoted "realm" "r" +:+ "," +:+ quoted "nonce" "n".
Definition plain_challenge : Authorization :=
  match ParseAuthorization CreateAuthorization plain_contents with Ok a => a | _ => CreateAuthorization end.

Lemma plain_headers_ok : headers_ok plain_headers.
Proof.
  unfold plain_headers. destruct (newHeaders_built [HCSeq 4294967295 REGISTER; HVia [plain_hop]]) as (hs & -> & Hok & _); [|exact Hok].
  repeat constructor. eexists. split; [reflexivity|]. apply NewParams_ok.
Qed.

Lemma challenge_answered_witness :
  (exists req', AddAuthHeader "b" plain_register (sample_challenge 401%N "WWW-Authenticate") "alice" "pw" = Ok req'
     /\ headers_CSeq (msg_headers (req_msg req')) = Some (0%N, REGISTER))
  /\ exists b, Response (CalcResponse (Auth.SetMethod (SetPassword b "pw") REGISTER)) = Response b /\ Username b = "alice".
Proof.
  destruct (challenge_answered "b" plain_register (sample_challenge 401%N "WWW-Authenticate") "alice" "pw"
    (USip sample_uri) plain_hop [] NewParams "WWW-Authenticate" plain_contents [] plain_challenge plain_headers_ok
    eq_refl eq_refl eq_refl eq_refl eq_refl eq_refl eq_refl) as ((req' & Hr & Hans) & _ & Hv).
  split.
  - exists req'. split; [exact Hr|]. destruct Hans as [_ Hc _ _ _ _ _ _]. rewrite Hc. vm_compute. reflexivity.
  - destruct Hv as (b & _ & Hu & _ & _ & Hb); [repeat split; vm_compute; reflexivity|vm_compute; reflexivity|].
    exists b. split; [exact Hb|exact Hu].
Defined.
