(* ===== verification/ClientSpec.v ===== *)
(** * What a client transaction promises: an abstract specification

    Seen by its user, a client transaction is a list of answers that grows: provisional
    responses, then at most one final one, each the response that just came in.  The
    specification is the step relation [answer_step] on that list; the transaction of
    [ClientTx] refines it, every step of the machine being a step or a stutter of the
    specification.  A call of [Receive] is one step here; ClientRaces.v has the calls that
    overlap.  The second part counts the copies of a request by the clock of its timers. *)

From S2P Require Import Prelude GoStrings Params Base Uri Header Headers Auth HeaderParse.
From S2P Require Import Message TxKey Transport Fsm TxCommon ClientTx.
From Stdlib Require Import NArith ZArith Lia.

#[local] Open Scope string_scope.
#[local] Open Scope list_scope.

(** ** The specification *)

(** Nothing more is passed up once a final response was. *)
Definition open_answers (l : list response) : Prop := Forall (fun r => IsProvisional r = true) l.

Inductive answer_step : option response -> list response -> list response -> Prop :=
  | answer_stutter o l : answer_step o l l
  | answer_pass r l : open_answers l -> answer_step (Some r) l (l ++ [r]).

(** Lists of answers that the specification reaches. *)
Definition answers_reachable (l : list response) : Prop := rtc (fun l1 l2 => exists o, answer_step o l1 l2) [] l.

(** Provisional responses and then at most one more. *)
Definition well_answered (l : list response) : Prop :=
  open_answers l \/ exists ps r, l = ps ++ [r] /\ open_answers ps.

(** ** The events of a transaction *)

Inductive client_event : Type :=
  | ClientReceives (m : Message)
  | ClientTimer (i : ClientInput)
  | ClientCloses.

(** The response that an event brings. *)
Definition event_response (ev : client_event) : option response :=
  match ev with ClientReceives (MResponse r) => Some r | _ => None end.

Section Events.
Context {W : Type} `{TransportLayer W}.
Variable Spin : bool -> spin_type ClientState ClientInput (clientTx * W).

Definition client_step (c : config W) (ev : client_event) : res (config W) :=
  match ev with
  | ClientReceives m => '(c, _) ← Receive Spin c m; mret c
  | ClientTimer i =>
      if decide (i ∈ [InputTimerA; InputTimerB; InputTimerD]) then '(c, _) ← Spin (tx_invite c.2.1) c i; mret c
      else mret c
  | ClientCloses => mret (Close c)
  end.

End Events.

(** ** Lemmas *)

Lemma open_finals l : open_answers l <-> finals l = 0%nat.
Proof.
  unfold open_answers, finals. induction l as [|r l IH]; cbn; [split; [done|by constructor]|].
  rewrite Forall_cons. destruct (IsProvisional r); cbn; [rewrite IH; naive_solver|split; [by intros [? _]|done]].
Qed.

Lemma answers_well l : answers_reachable l -> well_answered l.
Proof.
  revert l. apply (rtc_ind_r well_answered); [left; constructor|].
  intros l1 l2 _ [o Hs] IH. destruct Hs as [|r l Hl]; [done|]. right. by exists l, r.
Qed.

Lemma final_ends l r l' o :
  IsProvisional r = false -> r ∈ l -> answer_step o l l' -> l' = l.
Proof.
  intros Hr Hin Hs. destruct Hs as [|r1 l Hl]; [done|]. exfalso.
  unfold open_answers in Hl. rewrite Forall_forall in Hl. by rewrite (Hl r Hin) in Hr.
Qed.

Section Refinement.
Context {W : Type} `{TransportLayer W}.
Variable takes_done : bool.
Variables uuid rnd : list Message -> string.
#[local] Abbreviation act := (perform takes_done uuid rnd).
Variable Spin : bool -> spin_type ClientState ClientInput (clientTx * W).
Context {Hspin : forall b, FsmSpin (outcomes b) act (Spin b)}.

(** The actions that pass a response up. *)
Definition passes (a : ClientAction) : bool :=
  match a with ActionPassUp | ActionInviteFinal | ActionNonInviteFinal | ActionPassUpDelete => true | _ => false end.

(** They are taken for a response, in a state that waits for one. *)
Lemma passes_waiting b s i s' a :
  outcomes b s i = Some (s', a) -> passes a = true ->
  (s = Calling \/ s = Proceeding) /\ i ∉ [InputTimerA; InputTimerB; InputTimerD].
Proof.
  intros Ho Ha. split.
  - destruct b, s, i; cbn in Ho; try done; injection Ho as <- <-; try done; auto.
  - intros Hi%list_elem_of_In. cbn in Hi.
    destruct Hi as [<-|[<-|[<-|[]]]]; destruct b, s; cbn in Ho; try done; injection Ho as <- <-; done.
Qed.

Lemma delete_responses tx : responses (delete tx) = responses tx.
Proof. unfold delete. by destruct (closed (common tx)). Qed.

Lemma perform_responses a tx w tx' w' n :
  act a (tx, w) = Ok ((tx', w'), n) ->
  responses tx' = responses tx
  \/ (passes a = true /\ exists r, lastResp (common tx) = Some r /\ responses tx' = responses tx ++ [r]).
Proof.
  assert (Hresend : forall d t, resend (with_timerA tx d t) w = Ok (tx', w') -> responses tx' = responses tx).
  { intros d t Hr. by apply resend_inv in Hr as (m & _ & ->). }
  destruct a; cbn; intros Hp.
  - by injection Hp as <- _ _; left.
  - unfold actionInviteResend, Reset in Hp. destruct (timerA tx); [|done]. cbn in Hp.
    apply bind_ok in Hp as ([tx1 w1] & Hp & [= -> -> _]). left. by eapply Hresend.
  - unfold actionNonInviteResend, Reset in Hp. destruct (timerA tx); [|done]. cbn in Hp.
    apply bind_ok in Hp as ([tx1 w1] & Hp & [= -> -> _]). left. by eapply Hresend.
  - apply bind_ok in Hp as (tx1 & Hp & [= <- _ _]).
    destruct (passUp_inv takes_done uuid rnd Spin _ _ Hp) as (_ & _ & _ & _ & [Hr|Hr]); [left|right]; done.
  - apply bind_ok in Hp as (tx1 & Hp & Hp2). apply bind_ok in Hp2 as ([tx2 w2] & Ha & [= <- _ _]).
    apply (ack_inv uuid rnd) in Ha as ->.
    destruct (passUp_inv takes_done uuid rnd Spin _ _ Hp) as (_ & _ & _ & _ & [Hr|Hr]); [left|right]; done.
  - apply bind_ok in Hp as (tx1 & Hp & [= <- _ _]).
    destruct (passUp_inv takes_done uuid rnd Spin _ _ Hp) as (_ & _ & _ & _ & [Hr|Hr]); [left|right]; done.
  - apply bind_ok in Hp as ([tx2 w2] & Ha & [= -> _ _]). apply (ack_inv uuid rnd) in Ha as ->. by left.
  - injection Hp as <- _ _. left. cbn. unfold transportErr. by destruct (lastResp (common tx)).
  - by injection Hp as <- _ _; left.
  - apply bind_ok in Hp as (tx1 & Hp & [= <- _ _]).
    destruct (passUp_inv takes_done uuid rnd Spin _ _ Hp) as (_ & _ & _ & _ & [Hr|Hr]); [left|right]; done.
  - injection Hp as <- _ _. left. apply delete_responses.
Qed.

(** What one input does to the answers. *)
Lemma spin_answers r0 k b s tx w i s' tx' w' e :
  client_inv r0 k s tx -> Spin b (s, (tx, w)) i = Ok ((s', (tx', w')), e) ->
  responses tx' = responses tx
  \/ (i ∉ [InputTimerA; InputTimerB; InputTimerD]
      /\ exists r, lastResp (common tx) = Some r /\ open_answers (responses tx) /\ responses tx' = responses tx ++ [r]).
Proof.
  intros I Hs. apply (spin_inv takes_done uuid rnd Spin) in Hs.
  destruct Hs as [[_ [= -> -> ->]]|(s1 & a & [tx1 w1] & Ho & Hs)]; [by left|].
  assert (Hr : responses tx' = responses tx1 /\ exists n, act a (tx, w) = Ok ((tx1, w1), n)).
  { destruct Hs as [(Hp & [= -> -> ->] & _)|(Hp & [= -> -> ->] & _)]; cbn; rewrite ?delete_responses; eauto. }
  destruct Hr as (Hr & n & Hp). destruct (perform_responses _ _ _ _ _ _ Hp) as [Hq|(Ha & r & Hl & Hq)].
  - left. by rewrite Hr.
  - destruct (passes_waiting _ _ _ _ _ Ho Ha) as [Hw Hi]. right. split; [done|]. exists r.
    split; [done|]. split; [|by rewrite Hr]. apply open_finals. pose proof (inv_finals _ _ _ _ I) as Hf.
    destruct Hw as [-> | ->]; lia.
Qed.


Lemma step_answers r0 c ev c' :
  reachable Spin r0 c -> client_step Spin c ev = Ok c' ->
  answer_step (event_response ev) (responses c.2.1) (responses c'.2.1).
Proof.
  destruct c as [s [tx w]], c' as [s' [tx' w']]. intros Hr Hs.
  apply (client_reachable_inv takes_done uuid rnd Spin) in Hr as (k & _ & I). cbn in I |- *.
  destruct ev as [[r|r]|i|]; cbn [client_step event_response] in *.
  - apply bind_ok in Hs as ([c e] & Hs & [= ->]). cbn in Hs.
    apply bind_ok in Hs as (? & _ & [= _ <- _ _]). constructor.
  - apply bind_ok in Hs as ([c e] & Hs & [= ->]). cbn in Hs.
    assert (I0 : client_inv r0 k s (with_common tx (set_lastResp (common tx) r))) by by destruct I; split.
    destruct (spin_answers _ _ _ _ _ _ _ _ _ _ _ I0 Hs) as [-> |(_ & r1 & [= <-] & Ho & ->)]; [constructor|].
    by apply answer_pass.
  - destruct (decide _) as [Hi|]; [|injection Hs as _ <- _; constructor].
    apply bind_ok in Hs as ([c e] & Hs & [= ->]).
    destruct (spin_answers _ _ _ _ _ _ _ _ _ _ _ I Hs) as [-> |(Hn & _)]; [constructor|done].
  - injection Hs as _ <- _. rewrite delete_responses. constructor.
Qed.

Lemma Init_answers r0 w tx c e :
  NewClientTx w r0 = Ok tx -> Init Spin tx w = Ok (c, e) -> responses c.2.1 = [].
Proof.
  intros Hn Hi. destruct (Send w (MRequest r0)) as [[[w1 m] [e1|]]| |] eqn:Hs.
  - destruct (Init_failure takes_done uuid rnd Spin r0 tx w w1 m e1 Hn Hs) as (tx' & Hi' & _ & _ & Hr & _).
    rewrite Hi' in Hi. by injection Hi as <- _.
  - apply NewClientTx_spec in Hn as (k & rel & _ & ->). unfold Init in Hi. cbn in Hi. rewrite Hs in Hi.
    cbn in Hi. injection Hi as <- _. by repeat case_match.
  - apply NewClientTx_spec in Hn as (k & rel & _ & ->). unfold Init in Hi. cbn in Hi. by rewrite Hs in Hi.
  - apply NewClientTx_spec in Hn as (k & rel & _ & ->). unfold Init in Hi. cbn in Hi. by rewrite Hs in Hi.
Qed.

(** The answers of every reachable configuration are reachable in the specification. *)
Lemma reachable_answers r0 c : reachable Spin r0 c -> answers_reachable (responses c.2.1).
Proof.
  unfold answers_reachable.
  induction 1 as [w tx c e Hn Hi|c msg c' e Hr IH Hs|c i c' e Hr IH Hi Hs|c Hr IH].
  - by rewrite (Init_answers _ _ _ _ _ Hn Hi).
  - eapply rtc_r; [exact IH|]. exists (event_response (ClientReceives msg)).
    apply (step_answers r0); [done|]. cbn. by rewrite Hs.
  - eapply rtc_r; [exact IH|]. exists (event_response (ClientTimer i)).
    apply (step_answers r0); [done|]. cbn. rewrite decide_True by done. by rewrite Hs.
  - eapply rtc_r; [exact IH|]. exists (event_response ClientCloses). by apply (step_answers r0).
Qed.

End Refinement.

(** ** How often timer A fires *)

(** The duration of timer A after [k] firings. *)
Definition arm (invite : bool) (k : nat) : Duration :=
  Nat.iter k (next_timeA invite) (if invite then TimeA else TimeE).

(** The time of the [n]th firing when timer A has been armed for the [k]th time at [t]. *)
Fixpoint fired_at (invite : bool) (k n : nat) (t : Duration) : Duration :=
  match n with O => t | S n => fired_at invite (S k) n (t + arm invite k)%Z end.

(** The number of retransmissions before timer B gives up. *)
Definition retransmissions (invite : bool) : nat := if invite then 6 else 10.

Section Clock.
Context {W : Type} `{TransportLayer W}.
Variable takes_done : bool.
Variables uuid rnd : list Message -> string.
#[local] Abbreviation act := (perform takes_done uuid rnd).
Variable Spin : bool -> spin_type ClientState ClientInput (clientTx * W).
Context {Hspin : forall b, FsmSpin (outcomes b) act (Spin b)}.

(** Timer A fires [n] times, each time when the duration has passed that the transaction
    has armed it with; the clock is read after the last firing. *)
Fixpoint timed_fires (n : nat) (t : Duration) (c : config W) : res (Duration * config W) :=
  match n with
  | O => mret (t, c)
  | S n =>
      d ← deref (timerA c.2.1);
      '(c', _) ← Spin (tx_invite c.2.1) c InputTimerA;
      timed_fires n (t + d)%Z c'
  end.

Lemma timed_run P r0 (Hsend : keeps_sending P r0) n k t tx w :
  P w -> same_request r0 (origin (common tx)) ->
  timeATime tx = arm (IsInvite r0) k -> timerA tx = Some (timeATime tx) ->
  exists tx' w' rs, timed_fires n t (Calling, (tx, w)) = Ok (fired_at (IsInvite r0) k n t, (Calling, (tx', w')))
    /\ sent w' = sent w ++ map MRequest rs /\ length rs = n
    /\ timerA tx' = Some (arm (IsInvite r0) (k + n)) /\ timerB tx' = timerB tx
    /\ closed (common tx') = closed (common tx) /\ errs (common tx') = errs (common tx)
    /\ key (common tx') = key (common tx) /\ tx_invite tx' = IsInvite r0.
Proof.
  revert k t tx w. induction n as [|n IH]; intros k t tx w HP Ho Hd Ht.
  { assert (tx_invite tx = IsInvite r0) by (unfold tx_invite, IsInvite; by rewrite (same_method _ _ Ho)).
    exists tx, w, []. rewrite app_nil_r, Nat.add_0_r. cbn. rewrite Ht, Hd. by repeat split. }
  destruct (Hsend w _ HP Ho) as (w1 & r1 & Hs & HP1).
  pose proof (Send_same _ _ _ _ _ Hs) as Hm. cbn in Hm.
  assert (Hi : tx_invite tx = IsInvite r0) by (unfold tx_invite, IsInvite; by rewrite (same_method _ _ Ho)).
  cbn [timed_fires fst snd]. rewrite Ht.
  cbn [deref mbind res_bind].
  rewrite (timerA_step takes_done uuid rnd Spin tx w _ w1 r1 Ht Hs). cbn [mbind res_bind]. rewrite Hi, Hd.
  destruct (IH (S k) (t + arm (IsInvite r0) k)%Z
    (with_common (with_timerA tx (arm (IsInvite r0) (S k)) (Some (arm (IsInvite r0) (S k))))
       (set_lastErr (set_origin (common tx) (MRequest r1)) None)) w1)
    as (tx' & w' & rs & Hf & Hse & Hl & Hta & Htb & Hc & He & Hk & Hi');
    [exact HP1|etrans; [exact Ho|exact Hm]|reflexivity|reflexivity|].
  exists tx', w', (r1 :: rs). split; [exact Hf|]. rewrite Hse, (Send_logs _ _ _ _ _ Hs), <- app_assoc.
  split; [done|]. split; [cbn; lia|]. rewrite Hta, Htb, Hc, He, Hk.
  by replace (k + S n)%nat with (S k + n)%nat by lia.
Qed.

(** Timer B ends a transaction that waits for a response. *)
Lemma timerB_ends b tx w :
  closed (common tx) = false ->
  exists tx', Spin b (Calling, (tx, w)) InputTimerB = Ok ((Terminated, (tx', w)), None)
    /\ closed (common tx') = true /\ errs (common tx') = errs (common tx) ++ [TxTimeoutError (key (common tx))]
    /\ timerA tx' = None.
Proof.
  intros Hc. rewrite (spin_deletes takes_done uuid rnd Spin b _ _ _ Terminated ActionTimeout
    (stop_timerA (timeoutErr tx)) w); [|by destruct b|done].
  eexists. split; [reflexivity|]. unfold delete, timeoutErr, put_err. cbn. by rewrite Hc.
Qed.

End Clock.

(** The numbers. *)
Lemma fired_before invite n :
  (n <= 35)%nat -> (fired_at invite 0 n 0 < TimeB)%Z <-> (n <= retransmissions invite)%nat.
Proof.
  intros Hn.
  assert (Hc : forallb (fun i => forallb (fun m =>
      Bool.eqb (fired_at i 0 m 0 <? TimeB)%Z (m <=? retransmissions i)%nat) (seq 0 36)) [false; true] = true)
    by (vm_compute; reflexivity).
  rewrite forallb_forall in Hc. specialize (Hc invite ltac:(destruct invite; cbn; auto)).
  rewrite forallb_forall in Hc. specialize (Hc n ltac:(apply in_seq; lia)).
  apply eqb_prop in Hc. by rewrite <- Z.ltb_lt, <- Nat.leb_le, Hc.
Qed.

Lemma arm_positive n : (n <= 35)%nat -> (0 < arm true n)%Z <-> (n <= 34)%nat.
Proof.
  intros Hn. assert (Hc : forallb (fun m => Bool.eqb (0 <? arm true m)%Z (m <=? 34)%nat) (seq 0 36) = true)
    by (vm_compute; reflexivity).
  rewrite forallb_forall in Hc. specialize (Hc n ltac:(apply in_seq; lia)).
  apply eqb_prop in Hc. by rewrite <- Z.ltb_lt, <- Nat.leb_le, Hc.
Qed.

Lemma arm_false k : arm false k = Z.min (T1 * 2 ^ Z.of_nat k) T2.
Proof.
  unfold arm. induction k as [|k IH]; [reflexivity|]. cbn [Nat.iter nat_rect]. unfold Nat.iter in IH. rewrite IH.
  apply double_capped_T1.
Qed.

(** ** The properties *)

(** C5: a client transaction whose calls of [Receive] do not overlap (each runs as one
    step, from storing the response to the end of the machine's run) refines the
    specification of its answers.  Its answers start empty, and in whatever order responses
    come in one by one and timers fire, each event is a step of the specification: nothing
    changes, or the response that just came in is appended, which happens only while no
    final response was passed up.  Hence the user sees provisional responses followed by at
    most one final response.  Calls of other goroutines that do not overlap come to the
    same as calls that run as one step ([ClientRaces.receives_serialise]); calls that
    overlap can pass a final response up twice ([ClientRaces.final_passed_twice]). *)
Theorem client_refines {W : Type} `{TransportLayer W} (takes_done : bool)
    (uuid rnd : list Message -> string) (Spin : bool -> spin_type ClientState ClientInput (clientTx * W))
    (Hspin : forall b, FsmSpin (outcomes b) (perform takes_done uuid rnd) (Spin b)) (r0 : request) :
  (forall w tx c e, NewClientTx w r0 = Ok tx -> Init Spin tx w = Ok (c, e) -> responses c.2.1 = [])
  /\ (forall c ev c', reachable Spin r0 c -> client_step Spin c ev = Ok c' ->
        answer_step (event_response ev) (responses c.2.1) (responses c'.2.1))
  /\ (forall c, reachable Spin r0 c -> well_answered (responses c.2.1)).
Proof.
  split; [|split].
  - intros w tx c e. exact (Init_answers takes_done uuid rnd Spin r0 w tx c e).
  - intros c ev c'. exact (step_answers takes_done uuid rnd Spin r0 c ev c').
  - intros c Hr. apply answers_well. exact (reachable_answers takes_done uuid rnd Spin r0 c Hr).
Qed.

(** Two responses to an INVITE. *)
Lemma client_refines_witness :
  exists c, reachable run_spin (outgoing "INVITE" "") c
    /\ map status (responses c.2.1) = [180%N; 486%N] /\ well_answered (responses c.2.1).
Proof.
  set (c0 := config_of (Calling, (sample_client "INVITE", [])) (Init run_spin (sample_client "INVITE") [])).
  set (c1 := config_of c0 (Receive run_spin c0 (MResponse (sample_reply 180%N)))).
  set (c2 := config_of c1 (Receive run_spin c1 (MResponse (sample_reply 486%N)))).
  assert (Hr : reachable run_spin (outgoing "INVITE" "") c2).
  { apply (reach_receive run_spin _ c1 (MResponse (sample_reply 486%N)) c2 None); [|vm_compute; reflexivity].
    apply (reach_receive run_spin _ c0 (MResponse (sample_reply 180%N)) c1 None); [|vm_compute; reflexivity].
    apply (reach_init run_spin _ [] (sample_client "INVITE") c0 None); vm_compute; reflexivity. }
  assert (Hs : map status (responses c2.2.1) = [180%N; 486%N]) by (vm_compute; reflexivity).
  clearbody c2. exists c2. split; [exact Hr|]. split; [exact Hs|].
  destruct (client_refines true (fun _ => "uuid") (fun _ => "rnd") run_spin run_spin_laws (outgoing "INVITE" ""))
    as (_ & _ & H1). exact (H1 c2 Hr).
Defined.

(** C40: how often a request goes out.  On an unreliable transport that takes the request,
    with each firing of timer A coming when the duration has passed that the transaction
    armed it with, the [n]th firing comes before timer B exactly when [n] is at most 6 for
    an INVITE, whose interval doubles, and at most 10 otherwise, where the interval is
    capped; [n + 1] copies are then out, so 7 and 11 in all, and timer B ends the
    transaction with a timeout error and sends nothing.  The capped interval stays between
    T1 and T2; the one of an INVITE is not capped, and its 35th doubling overflows the 64
    bits of a duration and turns negative, which only timer B prevents. *)
Theorem timerA_bounds {W : Type} `{TransportLayer W} (takes_done : bool)
    (uuid rnd : list Message -> string) (Spin : bool -> spin_type ClientState ClientInput (clientTx * W))
    (Hspin : forall b, FsmSpin (outcomes b) (perform takes_done uuid rnd) (Spin b))
    (P : W -> Prop) (r0 : request) (tx : clientTx) (w : W) (n : nat) :
  keeps_sending P r0 -> P w -> NewClientTx w r0 = Ok tx -> reliable tx = false -> (n <= 35)%nat ->
  exists c0 t tx' w' rs d tx2, Init Spin tx w = Ok (c0, None) /\ timerB c0.2.1 = Some TimeB
    /\ timed_fires Spin n 0%Z c0 = Ok (t, (Calling, (tx', w')))
    /\ sent w' = sent w ++ map MRequest rs /\ length rs = S n
    /\ ((t < TimeB)%Z <-> (n <= if IsInvite r0 then 6 else 10)%nat)
    /\ timerA tx' = Some d
    /\ (if IsInvite r0 then (0 < d)%Z <-> (n <= 34)%nat else (T1 <= d <= T2)%Z)
    /\ Spin (IsInvite r0) (Calling, (tx', w')) InputTimerB = Ok ((Terminated, (tx2, w')), None)
    /\ closed (common tx2) = true /\ errs (common tx2) = [TxTimeoutError (key (common tx))].
Proof.
  intros Hsend HP Hn Hrel Hk. apply NewClientTx_spec in Hn as (key & rel & _ & ->). cbn in Hrel. subst rel.
  destruct (Hsend w r0 HP ltac:(reflexivity)) as (w1 & r1 & Hs & HP1).
  pose proof (Send_same _ _ _ _ _ Hs) as Hm. cbn in Hm.
  rewrite (Init_unreliable Spin key r0 w w1 r1 Hs). set (tx1 := mkClientTx _ _ _ _ _ _ _ _ _).
  destruct (timed_run takes_done uuid rnd Spin P r0 Hsend n 0 0%Z tx1 w1)
    as (tx' & w' & rs & Hf & Hse & Hl & Ha & Hb & Hc & He & Hke & Hi); try done; [by destruct (IsInvite r0)|].
  destruct (timerB_ends takes_done uuid rnd Spin (IsInvite r0) tx' w' Hc) as (tx2 & Ht & Hc2 & He2 & _).
  exists (Calling, (tx1, w1)), (fired_at (IsInvite r0) 0 n 0%Z), tx', w', (r1 :: rs), (arm (IsInvite r0) n), tx2.
  do 2 (split; [done|]). split; [exact Hf|].
  split; [by rewrite Hse, (Send_logs _ _ _ _ _ Hs), <- app_assoc|]. split; [cbn; lia|].
  split; [apply fired_before; done|]. split; [exact Ha|]. split.
  - destruct (IsInvite r0); [by apply arm_positive|]. rewrite arm_false.
    assert (1 <= 2 ^ Z.of_nat n)%Z by (apply (Z.pow_le_mono_r 2 0); lia).
    change T1 with 500000000%Z. change T2 with 4000000000%Z. lia.
  - split; [exact Ht|]. split; [exact Hc2|]. by rewrite He2, He, Hke.
Qed.

(** The seventh copy of an INVITE goes out after 31.5 seconds. *)
Lemma timerA_bounds_witness :
  exists c0 t tx' w' rs, Init run_spin (sample_client "INVITE") [] = Ok (c0, None)
    /\ timed_fires run_spin 6 0%Z c0 = Ok (t, (Calling, (tx', w'))) /\ (t < TimeB)%Z
    /\ w' = map MRequest rs /\ length rs = 7%nat.
Proof.
  destruct (timerA_bounds true (fun _ => "uuid") (fun _ => "rnd") run_spin run_spin_laws (fun _ => True)
    (outgoing "INVITE" "") (sample_client "INVITE") [] 6)
    as (c0 & t & tx' & w' & rs & d & tx2 & H1 & _ & H2 & H3 & H4 & H5 & _).
  - intros w r _ _. exists (w ++ [MRequest r]), r. split; [reflexivity|exact I].
  - exact I.
  - vm_compute. reflexivity.
  - reflexivity.
  - lia.
  - exists c0, t, tx', w', rs. split; [exact H1|]. split; [exact H2|]. split; [apply H5; vm_compute; repeat constructor|].
    split; [exact H3|exact H4].
Defined.
