(* ===== verification/ClientRaces.v ===== *)
(** * The responses of one client transaction, received at the same time (transaction/client_tx.go)

    The transaction layer handles every message in a goroutine of its own, so that several
    calls of [Receive] of one transaction may run at once.  [Receive] stores the response
    under the lock of the transaction, gives the lock up and spins the machine, whose
    actions read back the response that was stored last.  Here a call is a goroutine with
    a program point between the two; [Spin], whose package the repository does not hold,
    stays one step, as in the laws of [FsmSpin].
    As long as no response is stored between the two steps of another call, nothing is
    lost by looking at a call as one step; without this the user may see a final response
    twice, which [ClientSpec.client_refines] excludes for calls that run one by one. *)

From S2P Require Import Prelude GoStrings Params Base Uri Header Headers Auth HeaderParse.
From S2P Require Import Message TxKey Transport Fsm TxCommon ClientTx ClientSpec.
From Stdlib Require Import NArith ZArith Lia.

#[local] Open Scope string_scope.
#[local] Open Scope list_scope.

#[export] Instance ClientAction_eq_dec : EqDecision ClientAction.
Proof. solve_decision. Defined.

(** ** The goroutines *)

(** Where a call of [Receive] with a response is: before the locked section, before
    [Spin], returned with the error of [Spin].  The response stays
    in scope all along. *)
Inductive receive_point : Type :=
  | AtStore (r : response)
  | AtSpin (r : response)
  | Received (r : response) (e : option string).

Inductive race_event : Type :=
  | Arrives (r : response)
  | Runs (n : nat)
  | Fires (i : ClientInput)
  | Closes.

(** The locked section of [Receive]. *)
Definition store_response {W} (r : response) (c : config W) : config W :=
  let '(s, (tx, w)) := c in (s, (with_common tx (set_lastResp (common tx) r), w)).

Definition before_spin (p : receive_point) : bool := match p with AtSpin _ => true | _ => false end.

Definition point_response (p : receive_point) : response :=
  match p with AtStore r | AtSpin r | Received r _ => r end.

(** No call is between its two steps. *)
Definition quiet (l : list receive_point) : Prop := Forall (fun p => before_spin p = false) l.

#[export] Instance quiet_dec l : Decision (quiet l).
Proof. apply Forall_dec. intros p. apply _. Defined.

Section Races.
Context {W : Type} `{TransportLayer W}.
Variable Spin : bool -> spin_type ClientState ClientInput (clientTx * W).

(** One step of a call. *)
Definition receive_step (c : config W) (p : receive_point) : res (config W * receive_point) :=
  match p with
  | AtStore r => mret (store_response r c, AtSpin r)
  | AtSpin r => '(c, e) ← Spin (tx_invite c.2.1) c (input_of r); mret (c, Received r e)
  | Received _ _ => mret (c, p)
  end.

Definition race_state : Type := config W * list receive_point.

Definition race_step (st : race_state) (ev : race_event) : res race_state :=
  let '(c, l) := st in
  match ev with
  | Arrives r => mret (c, l ++ [AtStore r])
  | Runs n =>
      match l !! n with
      | None => mret st
      | Some p => '(c, p) ← receive_step c p; mret (c, <[n := p]> l)
      end
  | Fires i => c ← client_step Spin c (ClientTimer i); mret (c, l)
  | Closes => mret (Close c, l)
  end.

Definition race_run : race_state -> list race_event -> res race_state := foldM_res race_step.

(** A run in which no response is stored while another call is between its two steps. *)
Fixpoint disjoint_run (st : race_state) (evs : list race_event) : bool :=
  match evs with
  | [] => true
  | ev :: evs =>
      match ev with
      | Runs n => match st.2 !! n with Some (AtStore _) => bool_decide (quiet st.2) | _ => true end
      | _ => true
      end
      && match race_step st ev with Ok st => disjoint_run st evs | _ => true end
  end.

Definition client_run (c : config W) (evs : list client_event) : res (config W) :=
  foldM_res (client_step Spin) c evs.

End Races.

Definition arrived (evs : list race_event) : list response :=
  omap (fun ev => match ev with Arrives r => Some r | _ => None end) evs.

(** The timers and [Close], in the order of the run. *)
Definition other_events (evs : list race_event) : list client_event :=
  omap (fun ev => match ev with
                  | Fires i => Some (ClientTimer i)
                  | Closes => Some ClientCloses
                  | _ => None
                  end) evs.

Definition no_response (ev : client_event) : bool := match event_response ev with Some _ => false | None => true end.

(** ** A call that is not disturbed *)

Section Alone.
Context {W : Type} `{TransportLayer W}.
Variable Spin : bool -> spin_type ClientState ClientInput (clientTx * W).

Lemma Receive_stored c r :
  Receive Spin c (MResponse r) = Spin (tx_invite (store_response r c).2.1) (store_response r c) (input_of r).
Proof. by destruct c as [s [tx w]]. Qed.

Lemma undisturbed c l r :
  race_run Spin (c, l) [Arrives r; Runs (length l); Runs (length l)]
  = ('(c', e) ← Receive Spin c (MResponse r); mret (c', l ++ [Received r e])).
Proof.
  rewrite Receive_stored. unfold race_run. cbn [foldM_res race_step mbind res_bind mret res_ret].
  rewrite list_lookup_middle by done. cbn [receive_step mbind res_bind mret res_ret].
  rewrite insert_app_r_alt, Nat.sub_diag by done. unfold race_step.
  change (<[0:=AtSpin r]> [AtStore r]) with [AtSpin r].
  rewrite list_lookup_middle by done. cbn [receive_step].
  destruct (Spin _ _ _) as [[c' e]| |]; try done. cbn [mbind res_bind mret res_ret].
  by rewrite insert_app_r_alt, Nat.sub_diag by done.
Qed.

End Alone.

(** ** What holds in every interleaving *)

(** The states that wait for a final response. *)
Definition waiting (s : ClientState) : bool := match s with Calling | Proceeding => true | _ => false end.

Definition returned_provisional (p : receive_point) : bool :=
  match p with Received r _ => IsProvisional r | _ => false end.

(** The calls with a provisional response that have returned. *)
Definition returned1xx (l : list receive_point) : nat := length (List.filter returned_provisional l).

Definition starts_timerD (a : ClientAction) : bool :=
  match a with ActionInviteFinal | ActionNonInviteFinal => true | _ => false end.

(** The timer that ends an open transaction is armed; a terminated one is closed. *)
Definition timers_armed (s : ClientState) (tx : clientTx) : Prop :=
  if closed (common tx) then True
  else match s with
       | Calling | Proceeding => timerB tx = Some TimeB
       | Completed => timerD tx = Some (timeDTime tx)
       | Terminated => False
       end.

(** The request and the key are those the transaction was made from. *)
Definition identified (r0 : request) (k : TxKey) (tx : clientTx) : Prop :=
  key (common tx) = k /\ same_request r0 (origin (common tx))
  /\ MakeClientTxKey (req_msg (origin (common tx))) = Ok k.

Record race_inv (r0 : request) (k : TxKey) (rs : list response) (s : ClientState) (tx : clientTx)
    (l : list receive_point) : Prop := {
  rinv_calls : map point_response l = rs;
  rinv_last : forall r, lastResp (common tx) = Some r -> r ∈ rs;
  rinv_passed : Forall (fun r => r ∈ rs) (responses tx);
  rinv_count : (length (responses tx) <= returned1xx l + if waiting s then 0 else 1)%nat;
  rinv_timers : timers_armed s tx;
  rinv_identity : identified r0 k tx
}.

Lemma table_waiting b s i s' a :
  outcomes b s i = Some (s', a) ->
  (waiting s' = true -> waiting s = true)
  /\ (passes a = true -> waiting s = true /\ (waiting s' = true -> i = Input1xx)).
Proof.
  intros Ho. destruct b, s, i; cbn in Ho; try done; injection Ho as <- <-; done.
Qed.

Lemma input_1xx r : input_of r = Input1xx -> IsProvisional r = true.
Proof. unfold input_of. by destruct (IsProvisional r), (IsSuccess r). Qed.

Section Invariant.
Context {W : Type} `{TransportLayer W}.
Variable takes_done : bool.
Variables uuid rnd : list Message -> string.
#[local] Abbreviation act := (perform takes_done uuid rnd).
Variable Spin : bool -> spin_type ClientState ClientInput (clientTx * W).
Context {Hspin : forall b, FsmSpin (outcomes b) act (Spin b)}.
Variable r0 : request.

(** What an action leaves as it was: the last response, and the timers but D. *)
Definition keeps (a : ClientAction) (tx tx' : clientTx) : Prop :=
  lastResp (common tx') = lastResp (common tx)
  /\ (a <> ActionDelete -> closed (common tx') = closed (common tx) /\ timerB tx' = timerB tx
      /\ timeDTime tx' = timeDTime tx
      /\ timerD tx' = if starts_timerD a then Some (timeDTime tx) else timerD tx).

Lemma passUp_keeps tx tx' : passUp takes_done tx = Ok tx' ->
  common tx' = common tx /\ timerB tx' = timerB tx /\ timeDTime tx' = timeDTime tx /\ timerD tx' = timerD tx.
Proof. intros (? & ? & ? & ? & _)%(passUp_inv takes_done uuid rnd Spin). auto. Qed.

Lemma put_err_keeps c e : lastResp (put_err c e) = lastResp c /\ closed (put_err c e) = closed c
  /\ key (put_err c e) = key c /\ origin (put_err c e) = origin c.
Proof. unfold put_err. by destruct (closed c) eqn:Hc. Qed.

Lemma resend_keeps a tx w d t tx' w' k :
  starts_timerD a = false -> resend (with_timerA tx d t) w = Ok (tx', w') ->
  keeps a tx tx' /\ (identified r0 k tx -> identified r0 k tx').
Proof.
  intros Ha (m & Hs & ->)%resend_inv. split; [unfold keeps; by rewrite Ha|]. intros (Hk & Ho & Hm).
  cbn in Hs. pose proof (Send_same _ _ _ _ _ Hs) as Hsame. destruct m as [r|]; [|done]. cbn in Hsame.
  split; [done|]. split; [etrans; [exact Ho|done]|]. exact (same_key _ _ Hsame _ Hm).
Qed.

Lemma perform_keeps a tx w tx' w' n k :
  act a (tx, w) = Ok ((tx', w'), n) -> keeps a tx tx' /\ (identified r0 k tx -> identified r0 k tx').
Proof.
  destruct a; cbn [perform]; unfold actionInviteResend, actionNonInviteResend; intros Hp.
  - by injection Hp as <- _ _.
  - apply bind_ok in Hp as ([tx1 w1] & Hp & [= -> -> _]). apply bind_ok in Hp as (t & _ & Hp).
    by eapply resend_keeps.
  - apply bind_ok in Hp as ([tx1 w1] & Hp & [= -> -> _]). apply bind_ok in Hp as (t & _ & Hp).
    by eapply resend_keeps.
  - apply bind_ok in Hp as (tx1 & (Hc & ? & ? & ?)%passUp_keeps & [= <- _ _]).
    unfold keeps, identified. cbn. rewrite Hc. auto 8.
  - apply bind_ok in Hp as (tx1 & (Hc & ? & Hd & ?)%passUp_keeps & Hp). apply bind_ok in Hp as ([tx2 w2] & Ha & [= <- _ _]).
    apply (ack_inv uuid rnd) in Ha as ->. unfold keeps, identified. cbn. rewrite Hc, Hd. auto 8.
  - apply bind_ok in Hp as (tx1 & (Hc & ? & Hd & ?)%passUp_keeps & [= <- _ _]).
    unfold keeps, identified. cbn. rewrite Hc, Hd. auto 8.
  - apply bind_ok in Hp as ([tx2 w2] & Ha & [= -> _ _]). by apply (ack_inv uuid rnd) in Ha as ->.
  - injection Hp as <- _ _. unfold transportErr, keeps, identified. destruct (lastResp (common tx)) eqn:Hl; cbn; [|by rewrite Hl].
    destruct (put_err_keeps (common tx) (TxTransportError (lastErr (common tx)) (key (common tx)))) as (-> & -> & -> & ->).
    by rewrite Hl.
  - injection Hp as <- _ _. unfold timeoutErr, keeps, identified. cbn.
    by destruct (put_err_keeps (common tx) (TxTimeoutError (key (common tx)))) as (-> & -> & -> & ->).
  - apply bind_ok in Hp as (tx1 & (Hc & ? & ? & ?)%passUp_keeps & [= <- _ _]).
    unfold keeps, identified. cbn. rewrite Hc. auto 8.
  - injection Hp as <- _ _. unfold delete, keeps, identified. by destruct (closed (common tx)).
Qed.

Lemma delete_keeps k tx :
  closed (common (delete tx)) = true /\ lastResp (common (delete tx)) = lastResp (common tx)
  /\ (identified r0 k tx -> identified r0 k (delete tx)).
Proof. unfold delete, identified. by destruct (closed (common tx)) eqn:Hc. Qed.

Lemma closed_armed s tx : closed (common tx) = true -> timers_armed s tx.
Proof. unfold timers_armed. by intros ->. Qed.

(** The timers after one entry of a table. *)
Lemma table_timers b s i s' a tx tx' :
  outcomes b s i = Some (s', a) -> a <> ActionDelete -> s' <> Terminated \/ s = Terminated ->
  timers_armed s tx -> keeps a tx tx' -> timers_armed s' tx'.
Proof.
  intros Ho Ha Ht Hi [_ Hk]. destruct (Hk Ha) as (Hc & Hb & Hdt & Hd). unfold timers_armed in *.
  rewrite Hc, Hb, Hdt, Hd. destruct (closed (common tx)); [done|].
  destruct Ht as [Ht|Ht]; destruct b, s, i; cbn in Ho; try done; injection Ho as <- <-; done.
Qed.

(** Entries that lead to the end feed the deletion, or are it. *)
Lemma table_ends b s i a c c' n :
  outcomes b s i = Some (Terminated, a) -> act a c = Ok (c', n) ->
  s = Terminated \/ n = Some InputDelete \/ a = ActionDelete.
Proof.
  intros Ho Hp. destruct c as [tx w].
  destruct b, s, i; cbn in Ho; try done; injection Ho as <-; auto; cbn in Hp.
  all: try (destruct (passUp takes_done tx); [|done..]); cbn in Hp; injection Hp as _ <-; auto.
Qed.

(** What one input does. *)
Record spun (i : ClientInput) (s : ClientState) (tx : clientTx) (s' : ClientState) (tx' : clientTx) : Prop := {
  spun_last : lastResp (common tx') = lastResp (common tx);
  spun_waiting : waiting s' = true -> waiting s = true;
  spun_timers : timers_armed s tx -> timers_armed s' tx';
  spun_identity k : identified r0 k tx -> identified r0 k tx';
  spun_responses : responses tx' = responses tx
    \/ (waiting s = true /\ (waiting s' = true -> i = Input1xx) /\ i ∉ [InputTimerA; InputTimerB; InputTimerD]
        /\ exists r, lastResp (common tx) = Some r /\ responses tx' = responses tx ++ [r])
}.

Lemma spin_spun b s tx w i s' tx' w' e :
  Spin b (s, (tx, w)) i = Ok ((s', (tx', w')), e) -> spun i s tx s' tx'.
Proof.
  intros Hs. apply (spin_inv takes_done uuid rnd Spin) in Hs.
  destruct Hs as [[_ [= -> -> ->]]|(s1 & a & [tx1 w1] & Ho & Hs)]; [constructor; auto|].
  destruct (table_waiting _ _ _ _ _ Ho) as [Hw Hp1].
  assert (Hkeep : forall n, act a (tx, w) = Ok ((tx1, w1), n) ->
    lastResp (common tx1) = lastResp (common tx) /\ (forall k, identified r0 k tx -> identified r0 k tx1)
    /\ (responses tx1 = responses tx \/ (passes a = true
        /\ exists r, lastResp (common tx) = Some r /\ responses tx1 = responses tx ++ [r]))).
  { intros n Hp. split; [by destruct (perform_keeps _ _ _ _ _ _ (key (common tx)) Hp) as [[? _] _]|].
    split; [intros k; by destruct (perform_keeps _ _ _ _ _ _ k Hp)|].
    exact (perform_responses takes_done uuid rnd Spin _ _ _ _ _ _ Hp). }
  assert (Hin : passes a = true -> i ∉ [InputTimerA; InputTimerB; InputTimerD]) by
    (intros Ha; by destruct (passes_waiting _ _ _ _ _ Ho Ha)).
  destruct Hs as [(Hp & [= -> -> ->] & _)|(Hp & [= -> -> ->] & _)];
    destruct (Hkeep _ Hp) as (Hl & Hid & Hr).
  - constructor; try done.
    + intros Ht. destruct (decide (a = ActionDelete)) as [->|Ha].
      * cbn in Hp. injection Hp as <- _. apply closed_armed. by destruct (delete_keeps (key (common tx)) tx).
      * eapply table_timers; [exact Ho|exact Ha| |exact Ht|by apply (perform_keeps _ _ _ _ _ _ (key (common tx)) Hp)].
        destruct (decide (s1 = Terminated)) as [->|]; [|by left].
        destruct (table_ends _ _ _ _ _ _ _ Ho Hp) as [?|[?|?]]; [by right|done..].
    + destruct Hr as [Hr|[Ha Hr]]; [by left|right]. destruct (Hp1 Ha). auto.
  - cbn [fst snd]. destruct (delete_keeps (key (common tx1)) tx1) as (Hc & Hl1 & _). constructor; cbn [waiting]; try done.
    + by rewrite Hl1.
    + intros _. by apply closed_armed.
    + intros k Hk. by apply delete_keeps, Hid.
    + rewrite delete_responses. destruct Hr as [Hr|[Ha Hr]]; [by left|right]. destruct (Hp1 Ha). split_and!; auto; done.
Qed.

Lemma returned_insert l n r e :
  l !! n = Some (AtSpin r) ->
  returned1xx (<[n := Received r e]> l) = (returned1xx l + if IsProvisional r then 1 else 0)%nat.
Proof.
  intros Hn. rewrite (insert_take_drop l n) by (by eapply lookup_lt_Some).
  rewrite <- (take_drop_middle l n _ Hn) at 3. unfold returned1xx. rewrite !List.filter_app, !length_app. cbn.
  destruct (IsProvisional r); cbn; lia.
Qed.

Lemma returned_store l n r : l !! n = Some (AtStore r) -> returned1xx (<[n := AtSpin r]> l) = returned1xx l.
Proof.
  intros Hn. rewrite (insert_take_drop l n) by (by eapply lookup_lt_Some).
  rewrite <- (take_drop_middle l n _ Hn) at 3. unfold returned1xx. by rewrite !List.filter_app, !length_app.
Qed.

Lemma calls_insert l n p p' :
  l !! n = Some p -> point_response p' = point_response p ->
  map point_response (<[n := p']> l) = map point_response l.
Proof.
  intros Hn Hp. change (map point_response) with (fmap (M := list) point_response). rewrite list_fmap_insert, Hp.
  apply list_insert_id. by rewrite list_lookup_fmap, Hn.
Qed.

(** A step of the machine that no call makes. *)
Lemma spun_quiet k rs i s tx s' tx' l :
  spun i s tx s' tx' -> responses tx' = responses tx -> race_inv r0 k rs s tx l -> race_inv r0 k rs s' tx' l.
Proof.
  intros [Hl Hw Ht Hi _] Hr [I1 I2 I3 I4 I5 I6]. constructor; rewrite ?Hl, ?Hr; auto.
  destruct (waiting s'); [rewrite Hw in I4 by done|destruct (waiting s)]; lia.
Qed.

Lemma store_step_inv k rs s tx l n r :
  l !! n = Some (AtStore r) -> race_inv r0 k rs s tx l ->
  race_inv r0 k rs s (with_common tx (set_lastResp (common tx) r)) (<[n := AtSpin r]> l).
Proof.
  intros Hn [I1 I2 I3 I4 I5 I6]. constructor; cbn; try done.
  - by rewrite (calls_insert _ _ _ _ Hn).
  - intros r' [= <-]. rewrite <- I1. apply list_elem_of_fmap. exists (AtStore r). split; [done|].
    by eapply list_elem_of_lookup_2.
  - by rewrite (returned_store _ _ _ Hn).
Qed.

Lemma spin_step_inv k rs s tx w l n r s' tx' w' e :
  l !! n = Some (AtSpin r) -> race_inv r0 k rs s tx l ->
  Spin (tx_invite tx) (s, (tx, w)) (input_of r) = Ok ((s', (tx', w')), e) ->
  race_inv r0 k rs s' tx' (<[n := Received r e]> l).
Proof.
  intros Hn [I1 I2 I3 I4 I5 I6] [Hl Hw Ht Hi Hr]%spin_spun. constructor; auto.
  - by rewrite (calls_insert _ _ _ _ Hn).
  - by rewrite Hl.
  - destruct Hr as [->|(_ & _ & _ & r' & Hl' & ->)]; [done|]. apply Forall_app. split; [done|].
    constructor; [by apply I2|done].
  - rewrite (returned_insert _ _ _ _ Hn). destruct Hr as [->|(Hws & Hp & _ & r' & Hl' & ->)].
    + destruct (waiting s'); [rewrite Hw in I4 by done|destruct (waiting s)]; destruct (IsProvisional r); lia.
    + rewrite length_app. cbn [length]. rewrite Hws in I4.
      destruct (waiting s'); [rewrite (input_1xx r) by auto|destruct (IsProvisional r)]; lia.
Qed.

Lemma arrives_inv k rs s tx l r :
  race_inv r0 k rs s tx l -> race_inv r0 k (rs ++ [r]) s tx (l ++ [AtStore r]).
Proof.
  intros [I1 I2 I3 I4 I5 I6]. constructor; try done.
  - by rewrite map_app, I1.
  - intros r' Hr. apply elem_of_app. auto.
  - eapply Forall_impl; [exact I3|]. intros r' Hr. apply elem_of_app. by left.
  - unfold returned1xx in *. rewrite List.filter_app, length_app. cbn. lia.
Qed.

Lemma timer_event_inv k rs i s tx w l s' tx' w' :
  client_step Spin (s, (tx, w)) (ClientTimer i) = Ok (s', (tx', w')) ->
  race_inv r0 k rs s tx l -> race_inv r0 k rs s' tx' l.
Proof.
  cbn. destruct (decide _) as [Hi|]; [|by intros [= <- <- <-]]. intros Hs I.
  apply bind_ok in Hs as ([[s1 [tx1 w1]] e] & Hs & [= -> -> ->]). apply spin_spun in Hs as Hsp.
  apply (spun_quiet _ _ _ _ _ _ _ _ Hsp); [|done]. destruct (spun_responses _ _ _ _ _ Hsp) as [?|(_ & _ & Hn & _)]; done.
Qed.

Lemma race_step_inv k rs s tx w l ev s' tx' w' l' :
  race_step Spin ((s, (tx, w)), l) ev = Ok ((s', (tx', w')), l') ->
  race_inv r0 k rs s tx l -> race_inv r0 k (rs ++ arrived [ev]) s' tx' l'.
Proof.
  destruct ev as [r|n|i|]; cbn [race_step]; unfold arrived; cbn [omap list_omap]; rewrite ?app_nil_r.
  - intros [= <- <- <- <-]. apply arrives_inv.
  - destruct (l !! n) as [[r|r|r e]|] eqn:Hn; cbn [receive_step].
    + intros [= <- <- <- <-]. by apply store_step_inv.
    + intros Hs I. apply bind_ok in Hs as ([c p] & Hs & [= -> <-]). apply bind_ok in Hs as ([c1 e] & Hs & [= -> <-]).
      by eapply spin_step_inv.
    + intros [= <- <- <- <-]. by rewrite list_insert_id.
    + by intros [= <- <- <- <-].
  - intros Hs I. apply bind_ok in Hs as ([s1 [tx1 w1]] & Hs & [= -> -> -> <-]). by eapply timer_event_inv.
  - intros [= <- <- <- <-] [I1 I2 I3 I4 I5 I6]. destruct (delete_keeps (key (common tx)) tx) as (Hc & Hl & _).
    constructor; rewrite ?Hl, ?delete_responses; try done; [by apply closed_armed|by apply delete_keeps].
Qed.

Lemma race_run_inv k evs rs s tx w l s' tx' w' l' :
  race_run Spin ((s, (tx, w)), l) evs = Ok ((s', (tx', w')), l') ->
  race_inv r0 k rs s tx l -> race_inv r0 k (rs ++ arrived evs) s' tx' l'.
Proof.
  revert rs s tx w l. induction evs as [|ev evs IH]; intros rs s tx w l Hr I.
  { injection Hr as <- <- <- <-. by rewrite app_nil_r. }
  apply bind_ok in Hr as ([[s1 [tx1 w1]] l1] & Hs & Hr).
  assert (Ha : arrived (ev :: evs) = arrived [ev] ++ arrived evs) by (unfold arrived; cbn; by destruct ev).
  rewrite Ha, app_assoc. apply (IH _ _ _ _ _ Hr). by eapply race_step_inv.
Qed.

Lemma Init_last w tx s tx' w' e :
  NewClientTx w r0 = Ok tx -> Init Spin tx w = Ok ((s, (tx', w')), e) -> lastResp (common tx') = None.
Proof.
  intros (k & rel & _ & ->)%NewClientTx_spec Hi. unfold Init in Hi.
  apply bind_ok in Hi as ([[w1 m] [e1|]] & _ & Hi).
  - apply bind_ok in Hi as ([[s1 [tx1 w2]] e2] & Hs & [= -> -> -> _]). apply spin_spun in Hs as [Hl _ _ _ _].
    rewrite Hl. by destruct m.
  - injection Hi as <- <- <- _. repeat case_match; by destruct m.
Qed.

Lemma Init_race w tx s tx' w' e :
  NewClientTx w r0 = Ok tx -> Init Spin tx w = Ok ((s, (tx', w')), e) ->
  exists k, MakeClientTxKey (req_msg r0) = Ok k /\ race_inv r0 k [] s tx' [].
Proof.
  intros Hn Hi. pose proof (Init_answers takes_done uuid rnd Spin r0 w tx _ _ Hn Hi) as Hr. cbn in Hr.
  destruct (Init_inv takes_done uuid rnd Spin r0 w tx s tx' w' e Hn Hi) as (k & Hk & [_ Hc Ht Hkey Ho Hm]).
  exists k. split; [done|]. constructor; rewrite ?Hr; try done.
  - rewrite (Init_last _ _ _ _ _ _ Hn Hi). done.
  - cbn. lia.
  - unfold timers_armed. destruct (closed (common tx')) eqn:Hcl; [done|]. specialize (Ht eq_refl).
    destruct s; try done. by specialize (Hc eq_refl).
Qed.

End Invariant.

(** ** Calls that do not overlap *)

(** The responses of the calls that have returned. *)
Definition returned (l : list receive_point) : list response :=
  omap (fun p => match p with Received r _ => Some r | _ => None end) l.

Lemma quiet_arrives l r : quiet l -> quiet (l ++ [AtStore r]).
Proof. intros Hq. apply Forall_app. split; [done|by constructor]. Qed.

Lemma quiet_lookup l n r : quiet l -> l !! n <> Some (AtSpin r).
Proof. intros Hq Hn. by apply (Forall_lookup_1 _ _ _ _ Hq) in Hn. Qed.

Lemma returned_snoc l r : returned (l ++ [AtStore r]) = returned l.
Proof. unfold returned. rewrite omap_app. cbn. by rewrite app_nil_r. Qed.

Lemma returned_to_spin l n r : l !! n = Some (AtStore r) -> returned (<[n := AtSpin r]> l) = returned l.
Proof.
  intros Hn. rewrite (insert_take_drop l n) by (by eapply lookup_lt_Some).
  rewrite <- (take_drop_middle l n _ Hn) at 3. unfold returned. by rewrite !omap_app.
Qed.

Lemma returned_spun l n r e :
  l !! n = Some (AtSpin r) -> returned (<[n := Received r e]> l) ≡ₚ returned l ++ [r].
Proof.
  intros Hn. rewrite (insert_take_drop l n) by (by eapply lookup_lt_Some).
  rewrite <- (take_drop_middle l n _ Hn) at 3. unfold returned. rewrite !omap_app. cbn.
  rewrite <- app_assoc. apply Permutation_app_head. apply Permutation_cons_append.
Qed.

Section Serial.
Context {W : Type} `{TransportLayer W}.
Variable takes_done : bool.
Variables uuid rnd : list Message -> string.
#[local] Abbreviation act := (perform takes_done uuid rnd).
Variable Spin : bool -> spin_type ClientState ClientInput (clientTx * W).
Context {Hspin : forall b, FsmSpin (outcomes b) act (Spin b)}.

#[local] Abbreviation put r tx := (with_common tx (set_lastResp (common tx) r)).

Lemma delete_put r tx : delete (put r tx) = put r (delete tx).
Proof. unfold delete. cbn. by destruct (closed (common tx)). Qed.

Lemma resend_put r tx w d t :
  resend (with_timerA (put r tx) d t) w = ('(tx, w) ← resend (with_timerA tx d t) w; mret (put r tx, w)).
Proof.
  unfold resend. cbn [common with_timerA with_common origin set_lastResp].
  destruct (Send _ _) as [[[w1 [m|m]] [e|]]| |]; done.
Qed.

Definition timer_action (a : ClientAction) : bool :=
  match a with
  | NO_ACTION | ActionInviteResend | ActionNonInviteResend | ActionTimeout | ActionDelete => true
  | _ => false
  end.

Lemma table_timer_action b s i s' a :
  outcomes b s i = Some (s', a) -> i ∈ [InputTimerA; InputTimerB; InputTimerD] -> timer_action a = true.
Proof.
  intros Ho Hi%list_elem_of_In. destruct Hi as [<-|[<-|[<-|[]]]];
    destruct b, s; cbn in Ho; try done; by injection Ho as <- <-.
Qed.

(** The actions of the timers do not read the last response. *)
Lemma perform_put a r tx w :
  timer_action a = true ->
  act a (put r tx, w) = ('((tx, w), n) ← act a (tx, w); mret ((put r tx, w), n)).
Proof.
  destruct a; try done; intros _; cbn [perform]; unfold actionInviteResend, actionNonInviteResend.
  - cbn [timerA timeATime with_common]. destruct (Reset _ _) as [t| |]; try done. cbn [mbind res_bind].
    rewrite resend_put. by destruct (resend _ w) as [[? ?]| |].
  - cbn [timerA timeATime with_common]. destruct (Reset _ _) as [t| |]; try done. cbn [mbind res_bind].
    rewrite resend_put. by destruct (resend _ w) as [[? ?]| |].
  - unfold timeoutErr, put_err. cbn. by destruct (closed (common tx)).
  - cbn [mbind res_bind mret res_ret]. by rewrite delete_put.
Qed.

Lemma timer_put r c i c' :
  client_step Spin (store_response r c) (ClientTimer i) = Ok c' ->
  exists a', client_step Spin c (ClientTimer i) = Ok a' /\ c' = store_response r a'.
Proof.
  destruct c as [s [tx w]]. cbn [client_step store_response snd fst]. change (tx_invite (put r tx)) with (tx_invite tx).
  set (b := tx_invite tx).
  destruct (decide _) as [Hi|]; [|intros [= <-]; by eexists]. intros Hs.
  apply bind_ok in Hs as ([c1 e] & Hs & [= ->]). apply (spin_inv takes_done uuid rnd Spin) in Hs.
  destruct Hs as [[Ho ->]|(s1 & a & [tx1 w1] & Ho & Hs)].
  { destruct (spin_rejects s (tx, w) i Ho) as [e' ->]. by eexists. }
  pose proof (perform_put a r tx w (table_timer_action _ _ _ _ _ Ho Hi)) as Hput.
  destruct Hs as [(Hp & -> & _)|(Hp & -> & _)]; rewrite Hp in Hput; symmetry in Hput;
    apply bind_ok in Hput as ([[tx2 w2] n] & Ha & [= <- <- ->]).
  - rewrite (spin_stops _ _ _ _ _ _ Ho Ha). by eexists.
  - rewrite (spin_deletes takes_done uuid rnd Spin _ _ _ _ _ _ _ _ Ho Ha).
    cbn [fst snd mbind res_bind mret res_ret]. rewrite delete_put. by eexists.
Qed.

(** The run of whole calls that a run of goroutines amounts to: it is one store behind
    while a call is between its two steps. *)
Definition serial (c : config W) (l : list receive_point) (a : config W) : Prop :=
  (quiet l /\ c = a)
  \/ exists n r, l !! n = Some (AtSpin r) /\ quiet (<[n := Received r None]> l) /\ c = store_response r a.

Lemma serial_unique l n m r r' :
  l !! n = Some (AtSpin r) -> quiet (<[m := Received r' None]> l) -> n = m.
Proof.
  intros Hn Hq. destruct (decide (n = m)) as [|Hne]; [done|]. exfalso.
  apply (quiet_lookup _ n r Hq). by rewrite list_lookup_insert_ne.
Qed.

Lemma quiet_received l n r e e' : quiet (<[n := Received r e]> l) -> quiet (<[n := Received r e']> l).
Proof.
  intros Hq. apply Forall_lookup. intros m p Hm. destruct (decide (n = m)) as [->|Hne].
  - apply list_lookup_insert_Some in Hm as [(_ & <- & _)|[? _]]; done.
  - rewrite list_lookup_insert_ne in Hm by done. apply (Forall_lookup_1 _ _ m p Hq).
    by rewrite list_lookup_insert_ne.
Qed.

(** The calls that an event completes, as an event of the run of whole calls. *)
Lemma serial_step c l a ev c' l' :
  serial c l a -> disjoint_run Spin (c, l) [ev] = true -> race_step Spin (c, l) ev = Ok (c', l') ->
  exists evs a', client_run Spin a evs = Ok a' /\ serial c' l' a'
    /\ returned l' ≡ₚ returned l ++ omap event_response evs /\ List.filter no_response evs = other_events [ev].
Proof.
  intros Hser Hd Hs. destruct ev as [r|n|i|]; cbn [race_step] in Hs.
  - injection Hs as <- <-. exists [], a. split; [done|]. rewrite returned_snoc, app_nil_r. split; [|by split].
    destruct Hser as [[Hq ->]|(n & r' & Hn & Hq & ->)]; [left; split; [by apply quiet_arrives|done]|right].
    exists n, r'. rewrite lookup_app_l, insert_app_l by (by eapply lookup_lt_Some).
    split; [done|]. split; [by apply quiet_arrives|done].
  - destruct (l !! n) as [[r|r|r e]|] eqn:Hn; cbn [receive_step] in Hs.
    + cbn in Hd. rewrite Hn in Hd. apply andb_prop in Hd as [Hq%bool_decide_eq_true _].
      injection Hs as <- <-. exists [], a. split; [done|]. rewrite app_nil_r, returned_to_spin by done.
      split; [|by split]. destruct Hser as [[_ ->]|(m & r' & Hm & _)]; [|by apply quiet_lookup in Hm].
      right. exists n, r. rewrite list_lookup_insert_eq by (by eapply lookup_lt_Some). split; [done|].
      rewrite list_insert_insert, decide_True by done. split; [|done]. by apply Forall_insert.
    + apply bind_ok in Hs as ([c1 p] & Hs & [= -> <-]). apply bind_ok in Hs as ([c2 e] & Hs & [= -> <-]).
      destruct Hser as [[Hq _]|(m & r' & Hm & Hq & ->)]; [by apply quiet_lookup in Hn|].
      pose proof (serial_unique _ _ _ _ _ Hn Hq) as <-. rewrite Hn in Hm. injection Hm as <-.
      exists [ClientReceives (MResponse r)], c'. cbn. rewrite Receive_stored, Hs. split; [done|].
      split; [|split; [by apply returned_spun|done]]. left. split; [|done]. by eapply quiet_received.
    + injection Hs as <- <-. exists [], a. rewrite list_insert_id by done. by rewrite app_nil_r.
    + injection Hs as <- <-. exists [], a. by rewrite app_nil_r.
  - apply bind_ok in Hs as (c1 & Hs & [= -> <-]). exists [ClientTimer i].
    destruct Hser as [[Hq ->]|(n & r' & Hn & Hq & ->)].
    + exists c'. split; [unfold client_run; cbn [foldM_res]; by rewrite Hs|]. split; [by left|by rewrite app_nil_r].
    + apply timer_put in Hs as (a' & Ha & ->). exists a'.
      split; [unfold client_run; cbn [foldM_res]; by rewrite Ha|]. split; [|by rewrite app_nil_r].
      right. by exists n, r'.
  - injection Hs as <- <-. exists [ClientCloses], (Close a). split; [done|]. split; [|by rewrite app_nil_r].
    destruct Hser as [[Hq ->]|(n & r' & Hn & Hq & ->)]; [by left|right]. exists n, r'. split; [done|]. split; [done|].
    destruct a as [s [tx w]]. cbn. by rewrite delete_put.
Qed.

Lemma serial_run c l a evs c' l' :
  serial c l a -> disjoint_run Spin (c, l) evs = true -> race_run Spin (c, l) evs = Ok (c', l') ->
  exists aevs a', client_run Spin a aevs = Ok a' /\ serial c' l' a'
    /\ returned l' ≡ₚ returned l ++ omap event_response aevs /\ List.filter no_response aevs = other_events evs.
Proof.
  revert c l a. induction evs as [|ev evs IH]; intros c l a Hser Hd Hr.
  { injection Hr as <- <-. exists [], a. by rewrite app_nil_r. }
  apply bind_ok in Hr as ([c1 l1] & Hs & Hr). cbn [disjoint_run] in Hd.
  apply andb_prop in Hd as [Hd1 Hd2]. rewrite Hs in Hd2.
  destruct (serial_step c l a ev c1 l1 Hser) as (es & a1 & Ha & Hser1 & Hp1 & Ho1); [|done|].
  { cbn [disjoint_run]. by rewrite Hd1, Hs. }
  destruct (IH _ _ _ Hser1 Hd2 Hr) as (es2 & a2 & Ha2 & Hser2 & Hp2 & Ho2).
  exists (es ++ es2), a2. unfold client_run in *. rewrite foldM_res_app, Ha. split; [done|]. split; [done|].
  split; [by rewrite Hp2, Hp1, omap_app, app_assoc|].
  rewrite List.filter_app, Ho1, Ho2. unfold other_events. cbn. by destruct ev.
Qed.

End Serial.

(** ** A provisional and a final response that overlap *)

Section Overlap.
Context {W : Type} `{TransportLayer W}.
Variable takes_done : bool.
Variables uuid rnd : list Message -> string.
#[local] Abbreviation act := (perform takes_done uuid rnd).
Variable Spin : bool -> spin_type ClientState ClientInput (clientTx * W).
Context {Hspin : forall b, FsmSpin (outcomes b) act (Spin b)}.

Lemma client_run_reachable r0 c evs c' :
  reachable Spin r0 c -> client_run Spin c evs = Ok c' -> reachable Spin r0 c'.
Proof.
  revert c. induction evs as [|ev evs IH]; intros c Hc Hr; [by injection Hr as <-|].
  apply bind_ok in Hr as (c1 & Hs & Hr). apply (IH c1); [|exact Hr]. destruct ev as [m|i|]; cbn in Hs.
  - apply bind_ok in Hs as ([c2 e2] & Hs & [= ->]). by eapply reach_receive.
  - destruct (decide _); [|by injection Hs as <-]. apply bind_ok in Hs as ([c2 e2] & Hs & [= ->]).
    by eapply reach_timer.
  - injection Hs as <-. by apply reach_close.
Qed.

(** [final] is the state after a 2xx. *)
Definition final (invite : bool) : ClientState := if invite then Terminated else Completed.

Lemma spin_1xx b s tx w r :
  waiting s = true -> lastResp (common tx) = Some r -> closed (common tx) = false ->
  exists tx', Spin b (s, (tx, w)) Input1xx = Ok ((Proceeding, (tx', w)), None)
    /\ responses tx' = responses tx ++ [r] /\ common tx' = common tx.
Proof.
  intros Hs Hl Hc. eexists. split; [apply (spin_stops _ _ _ _ ActionPassUp); [by destruct b, s|]|].
  - cbn [perform]. unfold passUp. rewrite Hl, Hc. reflexivity.
  - done.
Qed.

Lemma spin_2xx b s tx w r :
  waiting s = true -> lastResp (common tx) = Some r -> closed (common tx) = false ->
  exists tx', Spin b (s, (tx, w)) Input2xx = Ok ((final b, (tx', w)), None)
    /\ responses tx' = responses tx ++ [r].
Proof.
  intros Hs Hl Hc. destruct b; eexists; split.
  - eapply (spin_deletes takes_done uuid rnd Spin); [by destruct s|].
    cbn [perform]. unfold passUp. rewrite Hl, Hc. reflexivity.
  - by rewrite delete_responses.
  - apply (spin_stops _ _ _ _ ActionNonInviteFinal); [by destruct s|].
    cbn [perform]. unfold passUp. rewrite Hl, Hc. reflexivity.
  - done.
Qed.

(** Both stores come first; each call on its own. *)
Definition overlapping (p f : response) : list race_event :=
  [Arrives p; Arrives f; Runs 0; Runs 1; Runs 0; Runs 1].
Definition one_by_one (p f : response) : list race_event :=
  [Arrives p; Arrives f; Runs 0; Runs 0; Runs 1; Runs 1].

(** What the machine does to the two inputs, with what was last stored before each. *)
Lemma two_spins s tx w r1 r2 :
  waiting s = true -> closed (common tx) = false -> lastResp (common tx) = Some r1 ->
  exists tx1, Spin (tx_invite tx) (s, (tx, w)) Input1xx = Ok ((Proceeding, (tx1, w)), None)
    /\ common tx1 = common tx
    /\ (forall tx1', common tx1' = set_lastResp (common tx) r2 -> responses tx1' = responses tx1 ->
         exists tx2, Spin (tx_invite tx) (Proceeding, (tx1', w)) Input2xx = Ok ((final (tx_invite tx), (tx2, w)), None)
           /\ responses tx2 = responses tx ++ [r1; r2]).
Proof.
  intros Hs Hc Hl. destruct (spin_1xx (tx_invite tx) s tx w r1 Hs Hl Hc) as (tx1 & H1 & Hr1 & Hc1).
  exists tx1. do 2 (split; [done|]). intros tx1' Hc' Hr'.
  destruct (spin_2xx (tx_invite tx) Proceeding tx1' w r2) as (tx2 & H2 & Hr2); rewrite ?Hc'; try done.
  exists tx2. split; [done|]. by rewrite Hr2, Hr', Hr1, <- app_assoc.
Qed.

End Overlap.

(** ** The properties *)

(** C6: whatever responses come in while others are being received, whatever order the
    goroutines run in and whatever the timers and [Close] do: every response the user is
    passed is one that came in, and they are no more than the provisional responses whose
    reception has returned and, once the machine is done waiting, one more; the timer
    that ends an open transaction is armed, a terminated transaction is closed, and its
    key and its request are still those it was made from. *)
Theorem receives_safe {W : Type} `{TransportLayer W} (takes_done : bool)
    (uuid rnd : list Message -> string) (Spin : bool -> spin_type ClientState ClientInput (clientTx * W))
    (Hspin : forall b, FsmSpin (outcomes b) (perform takes_done uuid rnd) (Spin b)) (r0 : request)
    (w : W) (tx : clientTx) (c : config W) (e : option string) (evs : list race_event)
    (s' : ClientState) (tx' : clientTx) (w' : W) (l' : list receive_point) :
  NewClientTx w r0 = Ok tx -> Init Spin tx w = Ok (c, e) ->
  race_run Spin (c, []) evs = Ok ((s', (tx', w')), l') ->
  map point_response l' = arrived evs
  /\ Forall (fun r => r ∈ arrived evs) (responses tx')
  /\ (length (responses tx') <= returned1xx l' + if waiting s' then 0 else 1)%nat
  /\ timers_armed s' tx'
  /\ MakeClientTxKey (req_msg r0) = Ok (key (common tx')) /\ same_request r0 (origin (common tx')).
Proof.
  intros Hn Hi Hr. destruct c as [s [tx0 w0]].
  destruct (Init_race takes_done uuid rnd Spin r0 w tx s tx0 w0 e Hn Hi) as (k & Hk & I).
  destruct (race_run_inv takes_done uuid rnd Spin r0 k evs [] s tx0 w0 [] _ _ _ _ Hr I)
    as [I1 _ I3 I4 I5 (I6 & I7 & _)].
  by rewrite I6.
Qed.

(** The state after a request has gone out, and one after a run. *)
Definition started : config (list Message) :=
  config_of (Calling, (sample_client "INVITE", [])) (Init run_spin (sample_client "INVITE") []).

Definition ran (evs : list race_event) : race_state :=
  match race_run run_spin (started, []) evs with Ok st => st | _ => (started, []) end.

Lemma receives_safe_witness :
  exists tx w l, race_run run_spin (started, []) (overlapping (sample_reply 180%N) (sample_reply 200%N))
      = Ok ((Terminated, (tx, w)), l)
    /\ map status (responses tx) = [200%N; 200%N] /\ returned1xx l = 1%nat
    /\ (length (responses tx) <= returned1xx l + 1)%nat.
Proof.
  set (evs := overlapping (sample_reply 180%N) (sample_reply 200%N)).
  assert (Hr : race_run run_spin (started, []) evs = Ok ((Terminated, ((ran evs).1.2.1, (ran evs).1.2.2)), (ran evs).2))
    by (vm_compute; reflexivity).
  assert (Hs : map status (responses (ran evs).1.2.1) = [200%N; 200%N]) by (vm_compute; reflexivity).
  assert (H1 : returned1xx (ran evs).2 = 1%nat) by (vm_compute; reflexivity).
  exists (ran evs).1.2.1, (ran evs).1.2.2, (ran evs).2.
  split; [exact Hr|]. split; [exact Hs|]. split; [exact H1|].
  assert (Hn : NewClientTx [] (outgoing "INVITE" "") = Ok (sample_client "INVITE")) by (vm_compute; reflexivity).
  assert (Hi : Init run_spin (sample_client "INVITE") [] = Ok (started, None)) by (vm_compute; reflexivity).
  destruct (receives_safe true (fun _ => "uuid") (fun _ => "rnd") run_spin run_spin_laws (outgoing "INVITE" "")
    [] (sample_client "INVITE") started None evs Terminated _ _ _ Hn Hi Hr) as (_ & _ & H2 & _).
  exact H2.
Defined.

(** C8: calls of [Receive] that do not overlap are whole calls.  In a run of goroutines in
    which no response is stored while another call is between its two steps, timers and
    [Close] falling anywhere, the transaction and the transport end as in a run of whole
    calls, in which the same timers fire and [Close] is called in the same order, and each
    response whose call returned is received exactly once; so the user of the transaction
    gets provisional responses and at most one final one. *)
Theorem receives_serialise {W : Type} `{TransportLayer W} (takes_done : bool)
    (uuid rnd : list Message -> string) (Spin : bool -> spin_type ClientState ClientInput (clientTx * W))
    (Hspin : forall b, FsmSpin (outcomes b) (perform takes_done uuid rnd) (Spin b)) (r0 : request)
    (c c' : config W) (evs : list race_event) (l' : list receive_point) :
  reachable Spin r0 c -> disjoint_run Spin (c, []) evs = true ->
  race_run Spin (c, []) evs = Ok (c', l') -> quiet l' ->
  exists aevs, client_run Spin c aevs = Ok c' /\ omap event_response aevs ≡ₚ returned l'
    /\ List.filter no_response aevs = other_events evs /\ well_answered (responses c'.2.1).
Proof.
  intros Hc Hd Hr Hq.
  destruct (serial_run takes_done uuid rnd Spin c [] c evs c' l') as (aevs & a' & Ha & Hser & Hp & Ho);
    [by left; split; [constructor|]|done|done|].
  destruct Hser as [[_ ->]|(n & r & Hn & _)]; [|by apply quiet_lookup in Hn].
  exists aevs. split; [done|]. split; [by rewrite Hp|]. split; [done|].
  apply answers_well, (reachable_answers takes_done uuid rnd Spin r0). by eapply client_run_reachable.
Qed.

(** Timer A fires between the two steps of a call. *)
Lemma receives_serialise_witness :
  let evs := [Arrives (sample_reply 180%N); Runs 0; Fires InputTimerA; Runs 0;
              Arrives (sample_reply 200%N); Runs 1; Runs 1] in
  disjoint_run run_spin (started, []) evs = true
  /\ exists aevs, client_run run_spin started aevs = Ok (ran evs).1
     /\ omap event_response aevs ≡ₚ [sample_reply 180%N; sample_reply 200%N]
     /\ well_answered (responses (ran evs).1.2.1).
Proof.
  intros evs. assert (Hd : disjoint_run run_spin (started, []) evs = true) by (vm_compute; reflexivity).
  split; [exact Hd|].
  destruct (receives_serialise true (fun _ => "uuid") (fun _ => "rnd") run_spin run_spin_laws (outgoing "INVITE" "")
    started (ran evs).1 evs (ran evs).2) as (aevs & H1 & H2 & _ & H3).
  - apply (reach_init run_spin _ [] (sample_client "INVITE") started None); vm_compute; reflexivity.
  - exact Hd.
  - vm_compute. reflexivity.
  - apply (bool_decide_unpack _). vm_compute. exact I.
  - exists aevs. split; [exact H1|]. split; [|exact H3].
    etransitivity; [exact H2|]. vm_compute. reflexivity.
Defined.

(** C30: what overlapping calls do to a transaction that waits for a final response: when a
    provisional response and a 2xx are received one by one, the user is passed both; when
    both are stored before the machine is spun for the first, the user is passed the 2xx
    twice and the provisional response never, and both calls succeed. *)
Theorem final_passed_twice {W : Type} `{TransportLayer W} (takes_done : bool)
    (uuid rnd : list Message -> string) (Spin : bool -> spin_type ClientState ClientInput (clientTx * W))
    (Hspin : forall b, FsmSpin (outcomes b) (perform takes_done uuid rnd) (Spin b))
    (s : ClientState) (tx : clientTx) (w : W) (p f : response) :
  waiting s = true -> closed (common tx) = false -> IsProvisional p = true -> IsSuccess f = true ->
  let done := final (tx_invite tx) in
  (exists tx', race_run Spin ((s, (tx, w)), []) (one_by_one p f)
      = Ok ((done, (tx', w)), [Received p None; Received f None])
    /\ responses tx' = responses tx ++ [p; f])
  /\ (exists tx', race_run Spin ((s, (tx, w)), []) (overlapping p f)
      = Ok ((done, (tx', w)), [Received p None; Received f None])
    /\ responses tx' = responses tx ++ [f; f]).
Proof.
  intros Hs Hc Hp Hf. cbn zeta. pose proof (input_of_1xx _ Hp) as Hp1. pose proof (input_of_2xx _ Hf) as Hf2. split.
  - destruct (two_spins takes_done uuid rnd Spin s (with_common tx (set_lastResp (common tx) p)) w p f Hs Hc eq_refl)
      as (tx1 & H1 & Hc1 & H2).
    destruct (H2 (with_common tx1 (set_lastResp (common tx1) f))) as (tx2 & Hs2 & Hr2); [cbn; by rewrite Hc1|done|].
    exists tx2. split; [|exact Hr2]. unfold race_run, one_by_one. cbn. rewrite Hp1, H1. cbn.
    rewrite Hf2. unfold tx_invite in *. cbn in *. rewrite Hc1 in *. cbn in *. by rewrite Hs2.
  - destruct (two_spins takes_done uuid rnd Spin s (with_common tx (set_lastResp (common tx) f)) w f f Hs Hc eq_refl)
      as (tx1 & H1 & Hc1 & H2).
    destruct (H2 tx1) as (tx2 & Hs2 & Hr2); [cbn; by rewrite Hc1|done|].
    exists tx2. split; [|exact Hr2]. unfold race_run, overlapping. cbn. rewrite Hp1. unfold tx_invite in *.
    cbn in *.
    match goal with |- context [Spin ?b (s, ?t) Input1xx] =>
      change (Spin b (s, t) Input1xx)
        with (Spin (IsInvite (origin (common tx))) (s, (with_common tx (set_lastResp (common tx) f), w)) Input1xx)
    end.
    rewrite H1. cbn. rewrite Hf2. unfold tx_invite. rewrite Hc1. cbn. by rewrite Hs2.
Qed.

Lemma final_passed_twice_witness :
  exists tx', race_run run_spin ((Calling, (sample_client "OPTIONS", [])), [])
      (overlapping (sample_reply 180%N) (sample_reply 200%N))
    = Ok ((Completed, (tx', [])), [Received (sample_reply 180%N) None; Received (sample_reply 200%N) None])
    /\ responses tx' = [sample_reply 200%N; sample_reply 200%N].
Proof.
  destruct (proj2 (final_passed_twice true (fun _ => "uuid") (fun _ => "rnd") run_spin run_spin_laws Calling
    (sample_client "OPTIONS") [] (sample_reply 180%N) (sample_reply 200%N) eq_refl eq_refl eq_refl eq_refl))
    as (tx' & H1 & H2).
  exists tx'. split; [exact H1|exact H2].
Defined.
