(* ===== verification/ServerRaces.v ===== *)
(** * Calls of one server transaction at the same time (transaction/server_tx.go)

    The user answers from callbacks, timer 1xx answers 100 by itself, and the transaction
    layer handles every message in a goroutine of its own: calls of [SendResponse] and
    [Receive] of one transaction may overlap.  Each takes the lock of the transaction for
    the fields it writes, gives it up and spins the machine, whose actions read the
    fields back.  Here a call is a goroutine with a program point between any two of these
    steps; [Spin], whose package the repository does not hold, stays one step, as in the
    laws of [FsmSpin]. *)

From S2P Require Import Prelude GoStrings Params Base Uri Header Headers Auth HeaderParse.
From S2P Require Import Message TxKey Transport Fsm TxCommon ServerTx.
From Stdlib Require Import NArith ZArith Lia.

#[local] Open Scope string_scope.
#[local] Open Scope list_scope.

(** ** The goroutines *)

(** Where a call is: [SendResponse] at its start and before [Spin]; [Receive] at its start,
    before an ACK or a CANCEL is filed, before [Spin]; returned with an error or nil. *)
Inductive call_point : Type :=
  | SendStarts (r : response)
  | SendSpins (r : response)
  | RecvStarts (req : request)
  | RecvFiles (req : request)
  | RecvSpins (i : ServerInput)
  | Returned (e : option string).

Inductive server_event : Type :=
  | Answers (r : response)
  | Arrives (req : request)
  | Timer1xxFires
  | Runs (n : nat)
  | Fires (i : ServerInput)
  | Closes.

(** The locked section of [SendResponse]. *)
Definition store_answer (r : response) (tx : serverTx) : serverTx :=
  with_timer1xx (with_common tx (set_lastResp (common tx) r)) None.

Section Races.
Context {W : Type} `{TransportLayer W}.
Variables uuid rnd : list Message -> string.
Variable Spin : bool -> spin_type ServerState ServerInput (serverTx * W).

(** One step of a call. *)
Definition server_call_step (c : config W) (p : call_point) : res (config W * call_point) :=
  let '(s, (tx, w)) := c in
  match p with
  | SendStarts r =>
      if response_IsCancel r then
        '(w', _, err) ← Send w (MResponse r);
        mret ((s, (tx, w')), Returned err)
      else mret ((s, (store_answer r tx, w)), SendSpins r)
  | SendSpins r => '(c', e) ← Spin (tx_invite tx) c (user_input r); mret (c', Returned e)
  | RecvStarts req =>
      let tx := with_timer1xx tx None in
      if String.eqb (req_method req) (req_method (origin (common tx))) then
        mret ((s, (tx, w)), RecvSpins InputRequest)
      else if request_IsAck req || request_IsCancel req then mret ((s, (tx, w)), RecvFiles req)
      else
        _ ← request_String req;
        mret ((s, (tx, w)), Returned (Some "[serverTx] -> invalid %s correlated to %s"))
  | RecvFiles req =>
      if request_IsAck req then mret ((s, (with_lastAck tx req, w)), RecvSpins InputAck)
      else mret ((s, (with_lastCancel tx req, w)), RecvSpins InputCancel)
  | RecvSpins i => '(c', e) ← Spin (tx_invite tx) c i; mret (c', Returned e)
  | Returned _ => mret (c, p)
  end.

Definition server_state : Type := config W * list call_point.

(** Timer 1xx makes its answer before it calls [SendResponse]; timers G to J spin. *)
Definition server_step (st : server_state) (ev : server_event) : res server_state :=
  let '(c, l) := st in
  match ev with
  | Answers r => mret (c, l ++ [SendStarts r])
  | Arrives req => mret (c, l ++ [RecvStarts req])
  | Timer1xxFires =>
      r ← CreateResponseReason (uuid (sent c.2.2)) (rnd (sent c.2.2)) (origin (common c.2.1)) 100%N "Trying";
      mret (c, l ++ [SendStarts r])
  | Runs n =>
      match l !! n with
      | None => mret st
      | Some p => '(c, p) ← server_call_step c p; mret (c, <[n := p]> l)
      end
  | Fires i =>
      if decide (i ∈ [InputTimerG; InputTimerH; InputTimerI; InputTimerJ]) then
        '(c, _) ← Spin (tx_invite c.2.1) c i; mret (c, l)
      else mret st
  | Closes => mret (Close c, l)
  end.

Definition server_run : server_state -> list server_event -> res server_state := foldM_res server_step.

(** A call that runs to its end. *)
Fixpoint call_run (fuel : nat) (c : config W) (p : call_point) : res (config W * option string) :=
  match p, fuel with
  | Returned e, _ => mret (c, e)
  | _, O => Err "out of fuel"
  | _, S fuel => '(c, p) ← server_call_step c p; call_run fuel c p
  end.

End Races.

(** ** A call that is not disturbed *)

Section Alone.
Context {W : Type} `{TransportLayer W}.
Variable Spin : bool -> spin_type ServerState ServerInput (serverTx * W).

Lemma SendResponse_alone c r : call_run Spin 2 c (SendStarts r) = SendResponse Spin c r.
Proof.
  destruct c as [s [tx w]]. cbn. destruct (response_IsCancel r).
  - by destruct (Send w _) as [[[w' m] e]| |].
  - cbn. change (tx_invite (store_answer r tx)) with (tx_invite tx). by destruct (Spin _ _ _) as [[c e]| |].
Qed.

Lemma Receive_alone c req : call_run Spin 3 c (RecvStarts req) = Receive Spin c (MRequest req).
Proof.
  destruct c as [s [tx w]]. cbn. destruct (String.eqb _ _).
  { cbn. by destruct (Spin _ _ _) as [[c e]| |]. }
  destruct (request_IsAck req) eqn:Ha; cbn; [|destruct (request_IsCancel req)]; cbn; rewrite ?Ha; cbn.
  - by destruct (Spin _ _ _) as [[c e]| |].
  - by destruct (Spin _ _ _) as [[c e]| |].
  - by destruct (request_String req).
Qed.

End Alone.

(** ** What holds in every interleaving *)

Definition passed_up (r : request) : bool := request_IsAck r || request_IsCancel r.

(** [h] holds of the responses handed to [SendResponse], [q] of the requests handed to
    [Receive]. *)
Definition of_call (h : response -> Prop) (q : request -> Prop) (p : call_point) : Prop :=
  match p with
  | SendStarts r | SendSpins r => h r
  | RecvStarts req => q req
  | RecvFiles req => q req /\ passed_up req = true
  | RecvSpins _ | Returned _ => True
  end.

Section Invariant.
Context {W : Type} `{TransportLayer W}.
Variable takes_done : bool.
Variables uuid rnd : list Message -> string.
#[local] Abbreviation act := (perform takes_done uuid rnd).
Variable Spin : bool -> spin_type ServerState ServerInput (serverTx * W).
Context {Hspin : forall b, FsmSpin (outcomes b) act (Spin b)}.

(** What a transaction may send: a response it was handed, or its own answer to a CANCEL
    it was handed. *)
Definition may_send (h : response -> Prop) (q : request -> Prop) (m : Message) : Prop :=
  exists r, m = MResponse r
    /\ (h r \/ exists w cancel code, q cancel /\ request_IsCancel cancel = true
          /\ CreateResponse (uuid w) (rnd w) cancel code = Ok r).

(** [c0] and [w0] are the fields and the transport at the start. *)
Record server_inv (c0 : commonTx) (w0 : W) (h : response -> Prop) (q : request -> Prop) (t : serverTx * W) : Prop := {
  sinv_last : forall r, lastResp (common t.1) = Some r -> h r;
  sinv_ack : forall r, lastAck t.1 = Some r -> q r /\ passed_up r = true;
  sinv_cancel : forall r, lastCancel t.1 = Some r -> q r /\ request_IsCancel r = true;
  sinv_requests : Forall (fun r => q r /\ passed_up r = true) (requests t.1);
  sinv_sent : exists ms, sent t.2 = sent w0 ++ ms /\ Forall (may_send h q) ms;
  sinv_identity : same_identity c0 t
}.

#[local] Ltac same_fields I := destruct I; by constructor.

Lemma sends_inv c0 w0 h q tx w r w' m e :
  may_send h q (MResponse r) -> Send w (MResponse r) = Ok (w', m, e) ->
  server_inv c0 w0 h q (tx, w) -> server_inv c0 w0 h q (tx, w').
Proof.
  intros Hm Hs [I1 I2 I3 I4 (ms & Hw & Hf) I6]. constructor; try done. cbn in Hw |- *.
  rewrite (Send_logs _ _ _ _ _ Hs), Hw. pose proof (Send_same _ _ _ _ _ Hs) as Hsame.
  destruct m as [|r']; [done|]. cbn in Hsame. subst r'. destruct e.
  - exists ms. by rewrite app_nil_r.
  - exists (ms ++ [MResponse r]). rewrite app_assoc. split; [done|]. apply Forall_app. by split; [|constructor].
Qed.

Lemma may_send_handed h q r : h r -> may_send h q (MResponse r).
Proof. intros Hr. exists r. auto. Qed.

Lemma send_last_sends c0 w0 h q tx w tx' w' e :
  server_inv c0 w0 h q (tx, w) -> send_last tx w = Ok (Some (tx', w', e)) -> server_inv c0 w0 h q (tx', w').
Proof.
  unfold send_last. intros I. destruct (lastResp (common tx)) as [r|] eqn:Hl; [|done]. cbn.
  destruct (Send w (MResponse r)) as [[[w1 m] e1]| |] eqn:Hs; try done. intros [= <- <- _].
  assert (I1 : server_inv c0 w0 h q (tx, w1)).
  { eapply sends_inv; [|exact Hs|exact I]. by apply may_send_handed, (sinv_last _ _ _ _ _ I). }
  same_fields I1.
Qed.

Lemma delete_sends c0 w0 h q tx w : server_inv c0 w0 h q (tx, w) -> server_inv c0 w0 h q (delete tx, w).
Proof. intros I. unfold delete. destruct (closed (common tx)); [done|same_fields I]. Qed.

Lemma pass_request_sends c0 w0 h q tx w r :
  q r -> passed_up r = true -> server_inv c0 w0 h q (tx, w) ->
  server_inv c0 w0 h q ((pass_request takes_done tx r).1, w).
Proof.
  intros Hq Hr I. unfold pass_request. destruct (closed (common tx)); [done|]. destruct I as [I1 I2 I3 I4 I5 I6].
  constructor; try done. cbn. apply Forall_app. split; [done|by constructor].
Qed.

Lemma answer_cancel_sends c0 w0 h q tx w cancel code w' :
  q cancel -> request_IsCancel cancel = true -> answer_cancel uuid rnd w cancel code = Ok w' ->
  server_inv c0 w0 h q (tx, w) -> server_inv c0 w0 h q (tx, w').
Proof.
  intros Hq Hc Ha. apply bind_ok in Ha as (r & Hr & Ha). apply bind_ok in Ha as ([[w1 m] e] & Hs & [= ->]).
  eapply sends_inv; [|exact Hs]. exists r. split; [done|]. right. by exists (sent w), cancel, code.
Qed.

Lemma perform_sends c0 w0 h q a t t' n : server_inv c0 w0 h q t -> act a t = Ok (t', n) -> server_inv c0 w0 h q t'.
Proof.
  intros I. destruct t as [tx w]. destruct a; cbn [perform].
  - by intros [= <- _].
  - unfold actionRespond. destruct (send_last tx w) as [[[[tx1 w1] e]|]| |] eqn:E; try done;
      intros [= <- _]; [by eapply send_last_sends|done].
  - unfold actionRespondComplete.
    destruct (send_last tx w) as [[[[tx1 w1] [e|]]|]| |] eqn:E; try done; intros [= <- _]; try done;
      pose proof (send_last_sends _ _ _ _ _ _ _ _ _ I E) as I1; [done|].
    unfold start_timerH, start_timerG. destruct (reliable tx1), (timerG tx1), (timerH _); same_fields I1.
  - unfold actionFinal. destruct (send_last tx w) as [[[[tx1 w1] [e|]]|]| |] eqn:E; try done;
      intros [= <- _]; try done; pose proof (send_last_sends _ _ _ _ _ _ _ _ _ I E) as I1; [done|same_fields I1].
  - intros [= <- _]. unfold transportErr, put_err. destruct (closed (common tx)); same_fields I.
  - intros [= <- _]. by apply delete_sends.
  - unfold actionRespondDelete. pose proof (delete_sends _ _ _ _ _ _ I) as I1.
    destruct (lastResp (common (delete tx))) as [r|] eqn:Hl; [|done]. cbn.
    destruct (Send w _) as [[[w1 m] e]| |] eqn:Hs; try done. intros [= <- _].
    assert (I2 : server_inv c0 w0 h q (delete tx, w1)).
    { eapply sends_inv; [|exact Hs|exact I1]. by apply may_send_handed, (sinv_last _ _ _ _ _ I1). }
    same_fields I2.
  - destruct (actionConfirm takes_done tx) as [tx1 i1] eqn:E. intros [= <- _]. unfold actionConfirm in E.
    destruct (lastAck _) as [ack|] eqn:Ha; [|injection E as <- _; same_fields I].
    apply (f_equal fst) in E. cbn [fst] in E. subst tx1. destruct (sinv_ack _ _ _ _ _ I _ Ha).
    apply pass_request_sends; [done..|same_fields I].
  - unfold actionCancel. destruct (lastCancel tx) as [r|] eqn:Hl; [|by intros [= <- _]].
    destruct (sinv_cancel _ _ _ _ _ I _ Hl) as [Hq Hc].
    destruct (answer_cancel _ _ _ _ _) as [w1| |] eqn:Hs; [|done|by intros [= <- _]].
    pose proof (answer_cancel_sends _ _ _ _ _ _ _ _ _ Hq Hc Hs I) as I1.
    assert (Hp : passed_up r = true) by (unfold passed_up; by rewrite Hc, orb_true_r).
    pose proof (pass_request_sends _ _ _ _ _ _ _ Hq Hp I1) as I2.
    destruct (pass_request takes_done tx r) as [tx1 i1]. by intros [= <- _].
  - unfold actionCancelNotExist. destruct (lastCancel tx) as [r|] eqn:Hl; [|by intros [= <- _]].
    destruct (sinv_cancel _ _ _ _ _ I _ Hl) as [Hq Hc].
    destruct (answer_cancel _ _ _ _ _) as [w1| |] eqn:Hs; [intros [= <- _]|done|by intros [= <- _]].
    by eapply answer_cancel_sends.
Qed.

Lemma spin_sends c0 w0 h q b s t i s' t' e :
  server_inv c0 w0 h q t -> Spin b (s, t) i = Ok ((s', t'), e) -> server_inv c0 w0 h q t'.
Proof.
  apply (spin_preserves (outcomes b) act server_rank (chains_end takes_done uuid rnd b) (Spin b)
    (server_inv c0 w0 h q) (Hspin b)).
  intros a t0 t1 n. apply perform_sends.
Qed.

(** The answer of timer 1xx. *)
Definition trying (c0 : commonTx) (r : response) : Prop :=
  exists w, CreateResponseReason (uuid w) (rnd w) (origin c0) 100%N "Trying" = Ok r.

Definition event_within (h : response -> Prop) (q : request -> Prop) (ev : server_event) : Prop :=
  match ev with Answers r => h r | Arrives req => q req | _ => True end.

Lemma call_step_inv c0 w0 h q s t p s' t' p' :
  of_call h q p -> server_inv c0 w0 h q t -> server_call_step Spin (s, t) p = Ok ((s', t'), p') ->
  of_call h q p' /\ server_inv c0 w0 h q t'.
Proof.
  intros Hp I. destruct t as [tx w]. destruct p as [r|r|req|req|i|e]; cbn [server_call_step of_call] in *.
  - destruct (response_IsCancel r).
    + intros Hs. apply bind_ok in Hs as ([[w1 m] e] & Hs & [= <- <- <-]). split; [done|].
      eapply sends_inv; [by apply may_send_handed|exact Hs|exact I].
    + intros [= <- <- <-]. split; [done|]. destruct I. constructor; try done. by intros r' [= <-].
  - intros Hs. apply bind_ok in Hs as ([[s1 t1] e] & Hs & [= <- <- <-]). split; [done|]. by eapply spin_sends.
  - destruct (String.eqb _ _); [intros [= <- <- <-]; split; [done|same_fields I]|].
    destruct (request_IsAck req || request_IsCancel req) eqn:Hr.
    + intros [= <- <- <-]. split; [done|same_fields I].
    + intros Hs. apply bind_ok in Hs as (? & _ & [= <- <- <-]). split; [done|same_fields I].
  - destruct Hp as [Hq Hr]. destruct (request_IsAck req) eqn:Ha; intros [= <- <- <-]; (split; [done|]);
      destruct I; constructor; try done; intros r' [= <-]; split; try done.
    unfold passed_up in Hr. by rewrite Ha in Hr.
  - intros Hs. apply bind_ok in Hs as ([[s1 t1] e] & Hs & [= <- <- <-]). split; [done|]. by eapply spin_sends.
  - by intros [= <- <- <-].
Qed.

Lemma server_step_inv c0 w0 h q s t l ev s' t' l' :
  (forall r, trying c0 r -> h r) -> event_within h q ev ->
  Forall (of_call h q) l -> server_inv c0 w0 h q t ->
  server_step uuid rnd Spin ((s, t), l) ev = Ok ((s', t'), l') ->
  Forall (of_call h q) l' /\ server_inv c0 w0 h q t'.
Proof.
  intros Ht He Hl I. destruct ev as [r|req| |n|i|]; cbn [server_step].
  - intros [= <- <- <-]. split; [|done]. apply Forall_app. by split; [|constructor].
  - intros [= <- <- <-]. split; [|done]. apply Forall_app. by split; [|constructor].
  - intros Hs. apply bind_ok in Hs as (r & Hr & [= <- <- <-]). split; [|done]. apply Forall_app. split; [done|].
    constructor; [|done]. apply Ht. exists (sent t.2). destruct (sinv_identity _ _ _ _ _ I) as [_ <-]. exact Hr.
  - destruct (l !! n) as [p|] eqn:Hn; [|by intros [= <- <- <-]]. intros Hs.
    apply bind_ok in Hs as ([[s1 t1] p1] & Hs & [= <- <- <-]).
    destruct (call_step_inv _ _ _ _ _ _ _ _ _ _ (Forall_lookup_1 _ _ _ _ Hl Hn) I Hs) as [Hp I1].
    split; [by apply Forall_insert|done].
  - destruct (decide _); [|by intros [= <- <- <-]]. intros Hs.
    apply bind_ok in Hs as ([[s1 t1] e1] & Hs & [= <- <- <-]). split; [done|]. by eapply spin_sends.
  - destruct t as [tx w]. intros [= <- <- <-]. split; [done|by apply delete_sends].
Qed.

Lemma server_run_inv c0 w0 h q evs s t l s' t' l' :
  (forall r, trying c0 r -> h r) -> Forall (event_within h q) evs ->
  Forall (of_call h q) l -> server_inv c0 w0 h q t ->
  server_run uuid rnd Spin ((s, t), l) evs = Ok ((s', t'), l') -> server_inv c0 w0 h q t'.
Proof.
  intros Ht. revert s t l. induction evs as [|ev evs IH]; intros s t l He Hl I Hr.
  { by injection Hr as <- <- <-. }
  apply Forall_cons in He as [He1 He]. apply bind_ok in Hr as ([[s1 t1] l1] & Hs & Hr).
  destruct (server_step_inv _ _ _ _ _ _ _ _ _ _ _ Ht He1 Hl I Hs) as [Hl1 I1].
  by eapply IH.
Qed.

End Invariant.

(** ** Two answers that overlap *)

(** Both store their response first; each on its own. *)
Definition overlapping : list server_event := [Runs 0; Runs 1; Runs 0; Runs 1].
Definition one_by_one : list server_event := [Runs 0; Runs 0; Runs 1; Runs 1].

(** The state after a final answer. *)
Definition final (invite success : bool) : ServerState := if invite && success then Terminated else Completed.

Section Overlap.
Context {W : Type} `{TransportLayer W}.
Variable takes_done : bool.
Variables uuid rnd : list Message -> string.
#[local] Abbreviation act := (perform takes_done uuid rnd).
Variable Spin : bool -> spin_type ServerState ServerInput (serverTx * W).
Context {Hspin : forall b, FsmSpin (outcomes b) act (Spin b)}.

(** A final input sends what was stored last. *)
Lemma spin_final b s tx w r1 r w' m' :
  s = first_state b \/ s = Proceeding -> IsProvisional r1 = false -> lastResp (common tx) = Some r ->
  Send w (MResponse r) = Ok (w', m', None) ->
  exists tx', Spin b (s, (tx, w)) (user_input r1) = Ok ((final b (IsSuccess r1), (tx', w')), None)
    /\ lastResp (common tx') = Some r /\ origin (common tx') = origin (common tx)
    /\ (b = true -> IsSuccess r1 = true -> closed (common tx') = true).
Proof.
  intros Hs Hp Hl Hsend. unfold user_input, final. rewrite Hp.
  assert (Hd : lastResp (common (delete tx)) = Some r /\ origin (common (delete tx)) = origin (common tx)
    /\ closed (common (delete tx)) = true) by (unfold delete; destruct (closed (common tx)) eqn:Hc; auto).
  destruct Hd as (Hd1 & Hd2 & Hd3).
  assert (Hr : act ActionRespondDelete (tx, w) = Ok ((with_common (delete tx) (set_lastErr (common (delete tx)) None), w'), None)).
  { cbn [perform]. unfold actionRespondDelete. rewrite Hd1. cbn. by rewrite Hsend. }
  assert (Hf : act ActionFinal (tx, w)
    = Ok ((with_timerJ (with_common tx (set_lastErr (common tx) None)) (Some TimeJ), w'), None)).
  { cbn [perform]. unfold actionFinal. by rewrite (send_last_ok _ _ _ _ _ Hl Hsend). }
  destruct b; cbn [andb]; destruct (IsSuccess r1); eexists; (split; [|]).
  - eapply (spin_stops _ _ _ _ ActionRespondDelete); [|exact Hr]. by destruct Hs as [->| ->].
  - done.
  - eapply (spin_respond_complete takes_done uuid rnd Spin); [|done|exact Hsend]. by destruct Hs as [->| ->].
  - unfold completed_tx, start_timerH, start_timerG. repeat case_match; done.
  - eapply (spin_stops _ _ _ _ ActionFinal); [|exact Hf]. by destruct Hs as [->| ->].
  - done.
  - eapply (spin_stops _ _ _ _ ActionFinal); [|exact Hf]. by destruct Hs as [->| ->].
  - done.
Qed.

(** After a final answer, what else the user says is dropped. *)
Lemma spin_late b tx w success r :
  Spin b (final b success, (tx, w)) (user_input r) = Ok ((final b success, (tx, w)), None).
Proof.
  apply (spin_quiet takes_done uuid rnd Spin). unfold final, user_input.
  by destruct b, success, (IsProvisional r), (IsSuccess r).
Qed.

End Overlap.

(** ** The properties *)

(** C7: whatever calls of one server transaction overlap, whatever order the goroutines run
    in and whatever the timers and [Close] do: the transaction sends only responses that
    the user handed to [SendResponse], the 100 of timer 1xx, and its own answers to
    CANCEL requests it was handed; it passes up only ACK and CANCEL requests it was
    handed; its key and request stay those it was made from. *)
Theorem answers_safe {W : Type} `{TransportLayer W} (takes_done : bool)
    (uuid rnd : list Message -> string) (Spin : bool -> spin_type ServerState ServerInput (serverTx * W))
    (Hspin : forall b, FsmSpin (outcomes b) (perform takes_done uuid rnd) (Spin b)) (r0 : request)
    (w : W) (tx : serverTx) (evs : list server_event)
    (s' : ServerState) (tx' : serverTx) (w' : W) (l' : list call_point) :
  NewServerTx w r0 = Ok tx ->
  server_run uuid rnd Spin (Init tx w, []) evs = Ok ((s', (tx', w')), l') ->
  MakeServerTxKey (req_msg r0) = Ok (key (common tx')) /\ origin (common tx') = r0
  /\ Forall (fun req => Arrives req ∈ evs /\ passed_up req = true) (requests tx')
  /\ exists ms, sent w' = sent w ++ ms
     /\ Forall (may_send uuid rnd (fun r => Answers r ∈ evs \/ trying uuid rnd (common tx) r)
                 (fun req => Arrives req ∈ evs)) ms.
Proof.
  intros (k & rel & Hk & ->)%NewServerTx_spec Hr. set (c0 := mkCommonTx k r0 None [] None false) in *.
  set (h := fun r => Answers r ∈ evs \/ trying uuid rnd c0 r). set (q := fun req => Arrives req ∈ evs).
  assert (I0 : server_inv uuid rnd c0 w h q (Init (mkServerTx c0 None None [] None 0%Z None None 0%Z None None rel) w).2).
  { unfold Init. destruct rel; cbn; (destruct (tx_invite _); constructor; cbn; try done;
      by exists []; rewrite app_nil_r). }
  destruct (Init _ w) as [s0 t0].
  destruct (server_run_inv takes_done uuid rnd Spin c0 w h q evs s0 t0 [] s' (tx', w') l') as [_ _ _ I4 I5 [I6 I7]];
    try done;
    [by right|apply Forall_forall; intros ev Hev; destruct ev; cbn; [by left|done..]|].
  cbn in *. by rewrite I6, I7.
Qed.

(** Timer 1xx fires while the user answers. *)
Definition ran (evs : list server_event) : server_state :=
  let st := (Init (sample_server "INVITE") [], []) in
  match server_run (fun _ => "uuid") (fun _ => "rnd") run_spin st evs with Ok st => st | _ => st end.

Lemma answers_safe_witness :
  let evs := [Timer1xxFires; Answers (sample_answer 200%N); Runs 1; Runs 0; Runs 1; Runs 0] in
  exists m, (ran evs).1.2.2 = [MResponse m] /\ status m = 100%N
    /\ may_send (fun _ => "uuid") (fun _ => "rnd")
         (fun r => Answers r ∈ evs \/ trying (fun _ => "uuid") (fun _ => "rnd") (common (sample_server "INVITE")) r)
         (fun req => Arrives req ∈ evs) (MResponse m).
Proof.
  intros evs.
  assert (Hn : NewServerTx [] (incoming "INVITE") = Ok (sample_server "INVITE")) by (vm_compute; reflexivity).
  assert (Hr : server_run (fun _ => "uuid") (fun _ => "rnd") run_spin (Init (sample_server "INVITE") [], []) evs
    = Ok (((ran evs).1.1, ((ran evs).1.2.1, (ran evs).1.2.2)), (ran evs).2)) by (vm_compute; reflexivity).
  assert (Hm : map (fun m => match m with MResponse r => status r | MRequest _ => 0%N end) (ran evs).1.2.2 = [100%N])
    by (vm_compute; reflexivity).
  destruct (answers_safe true (fun _ => "uuid") (fun _ => "rnd") run_spin run_spin_laws (incoming "INVITE") []
    (sample_server "INVITE") evs _ _ _ _ Hn Hr) as (_ & _ & _ & ms & Hs & Hf).
  change (sent (ran evs).1.2.2) with (ran evs).1.2.2 in Hs. clear Hr. rewrite Hs in Hm |- *. clear Hs.
  destruct Hf as [|m ms (r & -> & Hr) Hf]; [discriminate Hm|]. cbn in Hm.
  destruct ms; [|discriminate Hm]. injection Hm as Hm. exists r. split; [reflexivity|]. split; [exact Hm|].
  exists r. split; [reflexivity|exact Hr].
Defined.

(** C29: two answers given at the same time.  The first is final.  When the calls run one by
    one, it is sent and the second is dropped.  When both are stored before the machine
    is spun for the first, the second is sent in place of the first, whatever it is - the
    100 of timer 1xx, or a 487 for a 200 - and the machine goes on as if the first had
    been sent: an INVITE that was to be answered with a 2xx is closed, and the response
    it got is never sent again.  Both callers are told that all went well. *)
Theorem answer_replaced {W : Type} `{TransportLayer W} (takes_done : bool)
    (uuid rnd : list Message -> string) (Spin : bool -> spin_type ServerState ServerInput (serverTx * W))
    (Hspin : forall b, FsmSpin (outcomes b) (perform takes_done uuid rnd) (Spin b))
    (s : ServerState) (tx : serverTx) (w w1 w2 : W) (r1 r2 : response) (m1 m2 : Message) :
  let invite := tx_invite tx in
  let over := final invite (IsSuccess r1) in
  let start := ((s, (tx, w)), [SendStarts r1; SendStarts r2]) in
  s = first_state invite \/ s = Proceeding -> IsProvisional r1 = false ->
  response_IsCancel r1 = false -> response_IsCancel r2 = false ->
  Send w (MResponse r1) = Ok (w1, m1, None) -> Send w (MResponse r2) = Ok (w2, m2, None) ->
  (exists tx', server_run uuid rnd Spin start one_by_one = Ok ((over, (tx', w1)), [Returned None; Returned None])
     /\ sent w1 = sent w ++ [MResponse r1])
  /\ (exists tx', server_run uuid rnd Spin start overlapping = Ok ((over, (tx', w2)), [Returned None; Returned None])
     /\ sent w2 = sent w ++ [MResponse r2] /\ lastResp (common tx') = Some r2
     /\ (invite = true -> IsSuccess r1 = true -> closed (common tx') = true)).
Proof.
  cbn zeta. intros Hs Hp Hc1 Hc2 Hs1 Hs2. split.
  - destruct (spin_final takes_done uuid rnd Spin (tx_invite tx) s (store_answer r1 tx) w r1 r1 w1 m1 Hs Hp eq_refl Hs1)
      as (tx1 & H1 & _ & Ho & _).
    exists (store_answer r2 tx1). split; [|exact (answer_logged _ _ _ _ Hs1)].
    unfold server_run, one_by_one. cbn. rewrite Hc1. cbn. change (tx_invite (store_answer r1 tx)) with (tx_invite tx).
    rewrite H1. cbn. rewrite Hc2. cbn. unfold tx_invite at 1. cbn. rewrite Ho.
    change (IsInvite (origin (common (store_answer r1 tx)))) with (tx_invite tx).
    by rewrite (spin_late takes_done uuid rnd Spin).
  - destruct (spin_final takes_done uuid rnd Spin (tx_invite tx) s (store_answer r2 (store_answer r1 tx)) w r1 r2 w2 m2 Hs Hp eq_refl Hs2)
      as (tx1 & H1 & Hl & Ho & Hcl).
    exists tx1. split; [|split; [exact (answer_logged _ _ _ _ Hs2)|done]].
    unfold server_run, overlapping. cbn. rewrite Hc1. cbn. rewrite Hc2. cbn.
    change (tx_invite (store_answer r2 (store_answer r1 tx))) with (tx_invite tx). rewrite H1. cbn. unfold tx_invite at 1.
    rewrite Ho. change (IsInvite (origin (common (store_answer r2 (store_answer r1 tx))))) with (tx_invite tx).
    by rewrite (spin_late takes_done uuid rnd Spin).
Qed.

(** A 200 whose call overlaps the 487 for a CANCEL. *)
Lemma answer_replaced_witness :
  exists tx', server_run (fun _ => "uuid") (fun _ => "rnd") run_spin
      ((Proceeding, (sample_server "INVITE", [])), [SendStarts (sample_answer 200%N); SendStarts (sample_answer 487%N)])
      overlapping = Ok ((Terminated, (tx', [MResponse (sample_answer 487%N)])), [Returned None; Returned None])
    /\ closed (common tx') = true.
Proof.
  destruct (proj2 (answer_replaced true (fun _ => "uuid") (fun _ => "rnd") run_spin run_spin_laws Proceeding
    (sample_server "INVITE") [] [MResponse (sample_answer 200%N)] [MResponse (sample_answer 487%N)]
    (sample_answer 200%N) (sample_answer 487%N) (MResponse (sample_answer 200%N)) (MResponse (sample_answer 487%N))
    (or_introl eq_refl) eq_refl ltac:(vm_compute; reflexivity) ltac:(vm_compute; reflexivity) eq_refl eq_refl))
    as (tx' & H1 & _ & _ & H2).
  exists tx'. split; [exact H1|exact (H2 eq_refl eq_refl)].
Defined.
