(* ===== verification/Service.v ===== *)
(** * Callbacks and the service (callback/default.go, service.go, utils/rand.go)

    The service is what a user of the program sees: it completes the headers of what it is
    asked to send and hands it to the transaction layer, and it runs the callbacks for
    what the transaction layer passes up.  A callback is a value of the user; running one is
    recorded. *)

From S2P Require Import Prelude GoStrings Params Base Uri Header Headers Auth HeaderParse.
From S2P Require Import Message TxKey Fsm Transport TxCommon ClientTx ServerTx TxLayer.
From Stdlib Require Import NArith ZArith Lia.

#[local] Open Scope string_scope.
#[local] Open Scope list_scope.

(** ** Random strings *)

Definition letterBytes : string := "0123456789abcdefghijklmnopqrstuvwxyzABCDEFGHIJKLMNOPQRSTUVWXYZ".

(** The text for the random bytes drawn: each is reduced modulo the length of the
    alphabet. *)
Definition RandString (randomness : string) (isPureNumber : bool) : string :=
  let l := if isPureNumber then 10%nat else String.length letterBytes in
  String.string_of_list_ascii
    (map (fun random => default Ascii.zero (String.get (nat_of_ascii random mod l) letterBytes))
       (String.list_ascii_of_string randomness)).

(** ** Callbacks *)

Section Callbacks.

(** The handlers of requests and of responses. *)
Context {F G : Type}.

Record callback := mkCallback {
  requestHandlers : gmap RequestMethod (option F);  (* the value may be nil *)
  responseHandler : option G
}.

Definition NewCallback : callback := mkCallback ∅ None.

Definition AddRequestHandle (c : callback) (method : RequestMethod) (handler : option F) : callback :=
  mkCallback (<[method := handler]> (requestHandlers c)) (responseHandler c).

(** [None] is a nil map. *)
Definition SetRequestHandle (c : callback) (handlers : option (gmap RequestMethod (option F))) : res callback :=
  match handlers with
  | None => Err "[requestHandle] -> Parameter exception"
  | Some hs => mret (mkCallback hs (responseHandler c))
  end.

Definition SetResponseHandle (c : callback) (handler : option G) : res callback :=
  match handler with
  | None => Err "[responseHandle] -> Parameter exception"
  | Some g => mret (mkCallback (requestHandlers c) (Some g))
  end.

Definition GetRequestHandle (c : callback) (method : RequestMethod) : option (option F) :=
  requestHandlers c !! method.
Definition GetResponseHandle (c : callback) : option G := responseHandler c.

(** [range]: the order in which the map is walked. *)
Definition GetAllowedMethods (range : gmap RequestMethod (option F) -> list RequestMethod) (c : callback)
    : list RequestMethod := range (requestHandlers c).

(** A started handler, with the message and its transaction. *)
Inductive call : Type :=
  | CallRequest (f : F) (r : request) (tx : option ref)
  | CallResponse (g : G) (r : response) (tx : option ref).

(** [inr]: a NotExitCallbackError with the name of the missing callback.  Running a nil
    function panics. *)
Definition DoRequest (c : callback) (r : request) (tx : option ref) : res (call + string) :=
  match GetRequestHandle c (req_method r) with
  | None => mret (inr (req_method r))
  | Some handler => f ← deref handler; mret (inl (CallRequest f r tx))
  end.

Definition DoResponse (c : callback) (r : response) (tx : option ref) : call + string :=
  match GetResponseHandle c with
  | None => inr "response"
  | Some g => inl (CallResponse g r tx)
  end.

End Callbacks.
Arguments callback : clear implicits.
Arguments call : clear implicits.

(** ** Completing a message *)

Definition autoAppendMethods : list RequestMethod := ["INVITE"; "REGISTER"; "OPTIONS"; "REFER"; "NOTIFY"].

Definition has_header (hs : headers) (name : string) : bool :=
  match GetHeaders hs name with [] => false | _ => true end.

Definition add_missing (hs : headers) (name : string) (h : Header) : res headers :=
  if has_header hs name then mret hs else AddHeader hs h.

(** The method that decides whether Allow and Supported are added. *)
Definition auto_method (m : Message) : RequestMethod :=
  match m with
  | MRequest r => req_method r
  | MResponse r =>
      match headers_CSeq (msg_headers (res_msg r)) with
      | Some (_, method) => if IsProvisional r then "" else method
      | None => ""
      end
  end.
Definition auto_status (m : Message) : StatusCode :=
  match m with MRequest _ => 0%N | MResponse r => status r end.

(** Writing to the parameters of the From header. *)
Definition add_from_tag (hs : headers) (rnd : string) : res headers :=
  match headers_From hs with
  | None => mret hs
  | Some from =>
      ps ← deref (HParams from);
      if Has ps "tag" then mret hs
      else mret (set_first hs "from"
                  (HFrom (mkAddress (DisplayName from) (Address from) (Some (Add ps "tag" (Some rnd))))))
  end.

(** The headers that [autoFillMessageHeaderAndSend] leaves in a message with these
    methods allowed; [rnd] is the random tag. *)
Definition fill_headers (allowed : list RequestMethod) (rnd : string) (method : RequestMethod) (code : StatusCode)
    (hs : headers) : res headers :=
  hs ← (if ((code =? 405)%N || (0 <? String.length method)%nat) && bool_decide (method ∈ autoAppendMethods)
        then hs ← add_missing hs "Allow" (HAllow allowed); add_missing hs "Supported" (HSupported [])
        else mret hs);
  hs ← add_missing hs "User-Agent" (HUserAgent "GSIP");
  add_from_tag hs rnd.

Definition message_of (m : Message) : message :=
  match m with MRequest r => req_msg r | MResponse r => res_msg r end.
Definition with_message (m : Message) (x : message) : Message :=
  match m with MRequest r => MRequest (with_msg r x) | MResponse r => MResponse (with_res_msg r x) end.

Definition autoFillMessageHeaderAndSend (allowed : list RequestMethod) (rnd : string) (m : Message) : res Message :=
  hs ← fill_headers allowed rnd (auto_method m) (auto_status m) (msg_headers (message_of m));
  mret (with_message m (with_headers (message_of m) hs)).

(** ** The service *)

Section Service.
Context {W : Type} `{TransportLayer W}.
Variables A F G : Type.
(** The parameters of the transaction layer. *)
Variables uuid rnd : list Message -> string.
Variable ClientSpin : bool -> spin_type ClientState ClientInput (clientTx * W).
Variable ServerSpin : bool -> spin_type ServerState ServerInput (serverTx * W).
(** Random bytes for a tag, and the order of the handlers. *)
Variable random : list Message -> string.
Variable range : gmap RequestMethod (option F) -> list RequestMethod.

(** [close_chan]: the channel [close], [None] when it is nil, else whether it is closed;
    [once]: [Close] was called; [running]: the handlers started; [requests_taken] and
    [responses_taken]: how much of what the transaction layer passed up was received. *)
Record service := mkService {
  Callback : callback F G;
  tx : TxLayer.layer W A;
  close_chan : option bool;
  once : bool;
  running : list (call F G);
  requests_taken : nat;
  responses_taken : nat
}.

(** [newService] makes no channel. *)
Definition newService (c : callback F G) (w : W) : service :=
  mkService c (TxLayer.CreateLayer A w) None false [] 0 0.

Definition with_tx (s : service) (l : TxLayer.layer W A) : service :=
  mkService (Callback s) l (close_chan s) (once s) (running s) (requests_taken s) (responses_taken s).
Definition started (s : service) (c : call F G) : service :=
  mkService (Callback s) (tx s) (close_chan s) (once s) (running s ++ [c]) (requests_taken s) (responses_taken s).

(** The receive on [close] is ready when the channel is not nil and closed. *)
Definition close_ready (s : service) : bool := match close_chan s with Some b => b | None => false end.

Definition service_Send (s : service) (m : Message) : res (service * option string) :=
  if close_ready s then mret (s, Some "[G.SIP] -> G.SIP Service Closed")
  else
    let w := sent (tpl A (tx s)) in
    m ← autoFillMessageHeaderAndSend (GetAllowedMethods range (Callback s)) (RandString (random w) true) m;
    '(l, err) ← TxLayer.layer_Send A ClientSpin ServerSpin (tx s) m;
    mret (with_tx s l, err).

(** A request that the transaction layer passed up, with its transaction. *)
Definition service_handleRequest (s : service) (r : request) (t : option ref) : res service :=
  d ← DoRequest (Callback s) r t;
  match d with
  | inl c => mret (started s c)
  | inr _ =>
      let w := sent (tpl A (tx s)) in
      response ← CreateResponseReason (uuid w) (RandString (random w) true) r 405%N "Method Not Allowed";
      '(s, _) ← service_Send s (MResponse response);
      mret s
  end.

Definition service_handleResponse (s : service) (r : response) (t : option ref) : service :=
  match DoResponse (Callback s) r t with
  | inl c => started s c
  | inr _ => s
  end.

(** [stop] and [Close]: the layers are closed, then the channel. *)
Definition service_stop (s : service) : res service :=
  if close_ready s then mret s
  else match close_chan s with
       | None => Panic CloseOfNil
       | Some _ => mret (mkService (Callback s) (TxLayer.Close A (tx s)) (Some true) (once s) (running s)
                              (requests_taken s) (responses_taken s))
       end.

Definition service_Close (s : service) : res service :=
  if once s then mret s
  else service_stop (mkService (Callback s) (tx s) (close_chan s) true (running s)
                       (requests_taken s) (responses_taken s)).

(** [Run] waits for the channel; [None]: it does not return. *)
Definition service_Run (s : service) : option string :=
  if close_ready s then Some "[G.SIP] -> G.SIP Service Closed" else None.

Definition service_Session (s : service) (k : string) : option (session A) := layer_Session A (tx s) k.

Definition service_String (s : service) : string := "g.sip".

(** What happens to a service: the user sends or closes it, the goroutine of [start] takes
    the next message that the transaction layer passed up, the layer itself moves. *)
Inductive service_event : Type :=
  | UserSends (m : Message)
  | UserCloses
  | TakesRequest
  | TakesResponse
  | LayerMoves (ev : TxLayer.event).

Definition count_request (s : service) : service :=
  mkService (Callback s) (tx s) (close_chan s) (once s) (running s) (S (requests_taken s)) (responses_taken s).
Definition count_response (s : service) : service :=
  mkService (Callback s) (tx s) (close_chan s) (once s) (running s) (requests_taken s) (S (responses_taken s)).

Definition service_step (s : service) (ev : service_event) : res service :=
  match ev with
  | UserSends m => fst <$> service_Send s m
  | UserCloses => service_Close s
  | TakesRequest =>
      match ups A (tx s) !! requests_taken s with
      | Some (r, t) => service_handleRequest (count_request s) r t
      | None => mret s
      end
  | TakesResponse =>
      match ups_resp A (tx s) !! responses_taken s with
      | Some (r, t) => mret (service_handleResponse (count_response s) r t)
      | None => mret s
      end
  | LayerMoves ev => with_tx s <$> TxLayer.layer_step A uuid rnd ClientSpin ServerSpin (tx s) ev
  end.

Definition service_run (s : service) (evs : list service_event) : res service := foldM_res service_step s evs.

End Service.

(** ** Credentials and SIP addresses *)

Definition CreateAuthInfo (username password : string) : DefaultAuthorized :=
  mkDefaultAuthorized (Some username) (Some password).

Definition CreateSipUri (user domain : string) : SipUri :=
  let '(u, p) := match index_byte ":" user with
                 | None => (Str user, None)
                 | Some i => (Str (str_take i user), Some (Str (str_drop (S i) user)))
                 end in
  let addr := match index_byte ":" domain with
              | None => mkAddr domain None
              | Some i => mkAddr (str_take i domain)
                            (match Atoi (str_drop (S i) domain) with Ok n => Some (to_uint16 n) | _ => None end)
              end in
  mkSipUri false (Some u) p addr (Some NewParams) (Some NewParams).

(** ** Lemmas *)

(** *** Random strings *)

Lemma RandString_length r b : String.length (RandString r b) = String.length r.
Proof.
  unfold RandString. revert b. induction r as [|c r IH]; intros b; [done|]. cbn. by rewrite <- (IH b) at 1.
Qed.

(** Every letter of the alphabet comes up for some byte, but not equally often: 256 is no
    multiple of the length. *)
Lemma RandString_biased :
  let count l c := length (filter (fun n => n mod l = c)%nat (seq 0 256)) in
  count 62%nat 0%nat = 5%nat /\ count 62%nat 61%nat = 4%nat /\ count 10%nat 0%nat = 26%nat /\ count 10%nat 9%nat = 25%nat.
Proof. vm_compute. done. Qed.

(** *** SIP addresses *)

(** User and password, host and port: the parts come out as they went in, the port
    modulo 2^16. *)
Lemma CreateSipUri_parts (user password host : string) (port : N) :
  sforall (fun a => negb (Ascii.eqb ":" a)) user = true -> sforall (fun a => negb (Ascii.eqb ":" a)) host = true ->
  (Z.of_N port < 2 ^ 63)%Z ->
  CreateSipUri (user +:+ ":" +:+ password) (host +:+ ":" +:+ itoa port)
  = mkSipUri false (Some (Str user)) (Some (Str password)) (mkAddr host (Some (to_uint16 (Z.of_N port)))) (Some NewParams) (Some NewParams)
  /\ CreateSipUri user host = mkSipUri false (Some (Str user)) None (mkAddr host None) (Some NewParams) (Some NewParams).
Proof.
  intros Hu Hh Hp. unfold CreateSipUri. split.
  - change (":" +:+ password) with (String ":" password). change (":" +:+ itoa port) with (String ":" (itoa port)).
    rewrite !index_byte_app by done. rewrite !str_take_app, !str_drop_S_app. by rewrite Atoi_itoa.
  - unfold index_byte. by rewrite !index_by_none.
Qed.

(** *** Completion *)

(** The From header with a tag. *)
Definition tagged_from (rnd : string) (from : AddressHeader) : AddressHeader :=
  match HParams from with
  | Some ps => if Has ps "tag" then from
               else mkAddress (DisplayName from) (Address from) (Some (Add ps "tag" (Some rnd)))
  | None => from
  end.

Lemma tagged_from_tagged rnd rnd' from : tagged_from rnd' (tagged_from rnd from) = tagged_from rnd from.
Proof.
  unfold tagged_from. destruct (HParams from) as [ps|] eqn:E; [|by rewrite E].
  destruct (Has ps "tag") eqn:Et; [by rewrite E, Et|]. cbn.
  assert (Hh : Has (Add ps "tag" (Some rnd)) "tag" = true).
  { unfold Has. apply bool_decide_true. change (is_Some (Get (Add ps "tag" (Some rnd)) "tag")).
    rewrite Get_Add, decide_True by done. eauto. }
  by rewrite Hh.
Qed.

Lemma add_from_tag_spec hs rnd :
  headers_ok hs ->
  exists hs', add_from_tag hs rnd = Ok hs' /\ headers_ok hs'
    /\ (forall k, k <> "from" -> entry hs' k = entry hs k)
    /\ headers_From hs' = tagged_from rnd <$> headers_From hs
    /\ tail (entry hs' "from") = tail (entry hs "from")
    /\ ((tagged_from rnd <$> headers_From hs) = headers_From hs -> hs' = hs).
Proof.
  intros Hok. unfold add_from_tag. destruct (headers_From hs) as [from|] eqn:E; [|by exists hs].
  pose proof (headers_From_ok _ _ Hok E) as [Ha (ps & Hps & Hpok)].
  rewrite Hps. cbn [deref mbind res_bind]. cbn [fmap option_fmap option_map]. unfold tagged_from. rewrite Hps.
  destruct (Has ps "tag") eqn:Et; [by exists hs|].
  eexists. split; [reflexivity|]. split; [|split; [|split; [|split]]].
  - apply set_first_ok; [done| |done]. split; [done|]. cbn. eauto using Add_ok.
  - intros k Hk. by rewrite set_first_entry, decide_False.
  - rewrite headers_From_head in E |- *. rewrite set_first_entry, decide_True by done.
    destruct (entry hs "from") as [|h l]; [done|]. done.
  - rewrite set_first_entry, decide_True by done. by destruct (entry hs "from").
  - intros He. exfalso. injection He as He. rewrite <- He in Hps. cbn in Hps. injection Hps as Hps.
    assert (Hg : Has ps "tag" = true).
    { rewrite <- Hps. unfold Has. apply bool_decide_true. change (is_Some (Get (Add ps "tag" (Some rnd)) "tag")).
      rewrite Get_Add, decide_True by done. eauto. }
    congruence.
Qed.

(** Membership in a list of literals. *)
Ltac in_literals := apply (bool_decide_unpack _); vm_compute; exact I.

(** What a message gets under a key when it has nothing there: a User-Agent, and Allow and
    Supported for the five methods. *)
Definition standard_header (allowed : list RequestMethod) (method : RequestMethod) (k : string) : list Header :=
  if decide (k = "user-agent") then [HUserAgent "GSIP"]
  else if decide (method ∈ ["INVITE"; "REGISTER"; "OPTIONS"; "REFER"; "NOTIFY"]) then
    if decide (k = "allow") then [HAllow allowed] else if decide (k = "supported") then [HSupported []] else []
  else [].

(** [hs'] is [hs] with the headers of [fill] for the keys under which it had none. *)
Record completes (fill : string -> list Header) (hs hs' : headers) : Prop := {
  comp_ok : headers_ok hs';
  comp_entry : forall k, entry hs' k = match entry hs k with [] => fill k | l => l end;
  comp_same : (forall k, fill k <> [] -> entry hs k <> []) -> hs' = hs
}.

Lemma completes_nil hs : headers_ok hs -> completes (fun _ => []) hs hs.
Proof. intros Hok. split; try done. intros k. by destruct (entry hs k). Qed.

Lemma completes_ext f g hs hs' : (forall k, f k = g k) -> completes f hs hs' -> completes g hs hs'.
Proof.
  intros Hfg [O E S]. split; [done|intros k; by rewrite E, Hfg|].
  intros Hk. apply S. intros k. rewrite Hfg. apply Hk.
Qed.

Lemma completes_app f1 f2 hs h1 h2 :
  completes f1 hs h1 -> completes f2 h1 h2 ->
  completes (fun k => match f1 k with [] => f2 k | l => l end) hs h2.
Proof.
  intros [O1 E1 S1] [O2 E2 S2]. split; [done| |].
  - intros k. rewrite E2, E1. destruct (entry hs k); [by destruct (f1 k)|done].
  - intros Hk. assert (Hs : h1 = hs) by (apply S1; intros k Hn; apply Hk; by destruct (f1 k)).
    subst. apply S2. intros k Hn. apply Hk. by destruct (f1 k).
Qed.

Lemma add_missing_completes hs name h :
  headers_ok hs -> header_ok h -> key_of h = ToLower name ->
  exists hs', add_missing hs name h = Ok hs'
    /\ completes (fun k => if decide (k = key_of h) then [h] else []) hs hs'.
Proof.
  intros Hok Hh Hk. unfold add_missing, has_header. rewrite GetHeaders_entry, <- Hk.
  destruct (entry hs (key_of h)) as [|x l] eqn:E.
  - exists (added hs h). rewrite AddHeader_added by done. split; [done|]. split.
    + by apply added_ok.
    + intros k. rewrite entry_added. destruct (decide (k = key_of h)) as [->|]; [by rewrite E|].
      rewrite app_nil_r. by destruct (entry hs k).
    + intros Hn. exfalso. apply (Hn (key_of h)); [by rewrite decide_True|done].
  - exists hs. split; [done|]. split; [done| |done]. intros k. destruct (entry hs k) eqn:Ek; [|done].
    rewrite decide_False; [done|]. intros ->. by rewrite E in Ek.
Qed.

(** The table decides: its methods are not empty. *)
Lemma table_condition (method : RequestMethod) (code : StatusCode) :
  ((code =? 405)%N || (0 <? String.length method)%nat) && bool_decide (method ∈ autoAppendMethods)
  = bool_decide (method ∈ autoAppendMethods).
Proof.
  destruct (decide (method ∈ autoAppendMethods)) as [Hm|Hm];
    [rewrite (bool_decide_true _ Hm)|by rewrite (bool_decide_false _ Hm), andb_false_r].
  rewrite andb_true_r. apply orb_true_intro. right. apply Nat.ltb_lt.
  unfold autoAppendMethods in Hm. rewrite list_elem_of_In in Hm. cbn in Hm.
  destruct Hm as [<-|[<-|[<-|[<-|[<-|[]]]]]]; cbn; lia.
Qed.

Lemma standard_of_parts allowed method k :
  match (if decide (method ∈ autoAppendMethods) then
     match (if decide (k = "allow") then [HAllow allowed] else []) with
     | [] => if decide (k = "supported") then [HSupported []] else [] | l => l end else []) with
  | [] => if decide (k = key_of (HUserAgent "GSIP")) then [HUserAgent "GSIP"] else []
  | l => l
  end = standard_header allowed method k.
Proof.
  unfold standard_header. change (key_of (HUserAgent "GSIP")) with "user-agent". fold autoAppendMethods.
  destruct (decide (k = "user-agent")) as [-> |]; [by destruct (decide (method ∈ _))|].
  destruct (decide (method ∈ _)); [|done]. destruct (decide (k = "allow")); [done|].
  by destruct (decide (k = "supported")).
Qed.

Lemma standard_not_nil allowed allowed' method k :
  standard_header allowed method k <> [] -> standard_header allowed' method k <> [].
Proof. unfold standard_header. by repeat case_decide. Qed.

Lemma not_standard allowed method k :
  k ∉ ["allow"; "supported"; "user-agent"] -> standard_header allowed method k = [].
Proof.
  intros Hk. rewrite list_elem_of_In in Hk. cbn in Hk. unfold standard_header.
  destruct (decide (k = "user-agent")) as [->|]; [exfalso; auto|]. destruct (decide (method ∈ _)); [|done].
  destruct (decide (k = "allow")) as [->|]; [exfalso; auto|].
  destruct (decide (k = "supported")) as [->|]; [exfalso; auto|done].
Qed.

Lemma fill_headers_spec allowed rnd method code hs :
  headers_ok hs ->
  exists h1 hs', fill_headers allowed rnd method code hs = Ok hs'
    /\ completes (standard_header allowed method) hs h1 /\ headers_ok hs'
    /\ (forall k, k <> "from" -> entry hs' k = entry h1 k)
    /\ headers_From hs' = tagged_from rnd <$> headers_From hs
    /\ tail (entry hs' "from") = tail (entry h1 "from")
    /\ ((tagged_from rnd <$> headers_From hs) = headers_From hs -> hs' = h1).
Proof.
  intros Hok. unfold fill_headers. rewrite table_condition.
  assert (H1 : exists h0, (if bool_decide (method ∈ autoAppendMethods)
              then h ← add_missing hs "Allow" (HAllow allowed); add_missing h "Supported" (HSupported [])
              else mret hs) = Ok h0
              /\ completes (fun k => if decide (method ∈ autoAppendMethods) then
                   match (if decide (k = "allow") then [HAllow allowed] else []) with
                   | [] => if decide (k = "supported") then [HSupported []] else [] | l => l end else []) hs h0).
  { destruct (decide (method ∈ autoAppendMethods)) as [Hm|Hm];
      [rewrite (bool_decide_true _ Hm)|rewrite (bool_decide_false _ Hm); eexists; split; [done|by apply completes_nil]].
    destruct (add_missing_completes hs "Allow" (HAllow allowed) Hok I eq_refl) as (ha & -> & Ca).
    cbn [mbind res_bind]. pose proof Ca as [Oa _ _].
    destruct (add_missing_completes ha "Supported" (HSupported []) Oa I eq_refl) as (hb & -> & Cb).
    eexists. split; [reflexivity|]. exact (completes_app _ _ _ _ _ Ca Cb). }
  destruct H1 as (h0 & -> & C0). cbn [mbind res_bind]. pose proof C0 as [O0 _ _].
  destruct (add_missing_completes h0 "User-Agent" (HUserAgent "GSIP") O0 I eq_refl) as (h1 & -> & C1).
  cbn [mbind res_bind]. pose proof (completes_app _ _ _ _ _ C0 C1) as C.
  apply (completes_ext _ (standard_header allowed method)) in C; [|apply standard_of_parts].
  pose proof C as [O1 E1 _]. destruct (add_from_tag_spec h1 rnd O1) as (hs' & -> & Ho & He & Hf & Ht & Hs).
  assert (Hfrom : headers_From h1 = headers_From hs).
  { rewrite !headers_From_head, E1, not_standard by in_literals. by destruct (entry hs "from"). }
  rewrite Hfrom in Hf, Hs. exists h1, hs'. split_and!; try done.
Qed.

Lemma auto_method_from m hs :
  entry hs "cseq" = entry (msg_headers (message_of m)) "cseq" ->
  auto_method (with_message m (with_headers (message_of m) hs)) = auto_method m.
Proof.
  intros He. destruct m as [r|r]; [done|]. cbn in *. rewrite !headers_CSeq_head, He. by destruct r.
Qed.

Lemma auto_status_with m x : auto_status (with_message m x) = auto_status m.
Proof. by destruct m. Qed.

Lemma message_of_with m hs : message_of (with_message m (with_headers (message_of m) hs)) = with_headers (message_of m) hs.
Proof. by destruct m. Qed.

(** *** Dispatch *)

Section Dispatch.
Context {W : Type} `{TransportLayer W}.
Context {A F G : Type}.
Variable takes_done : bool.
Variables uuid rnd : list Message -> string.
Variable ClientSpin : bool -> spin_type ClientState ClientInput (clientTx * W).
Variable ServerSpin : bool -> spin_type ServerState ServerInput (serverTx * W).
Context {Hserver : forall b, FsmSpin (ServerTx.outcomes b) (ServerTx.perform takes_done uuid rnd) (ServerSpin b)}.
Variable random : list Message -> string.
Variable range : gmap RequestMethod (option F) -> list RequestMethod.

(** A final response to a transaction other than INVITE, through the layer. *)
Lemma sendResponse_final (P : W -> Prop) (l : TxLayer.layer W A) i s stx r :
  canceled A l = false -> getServerTx A l (res_msg r) = Ok (i, (s, stx)) ->
  s = Trying \/ s = Proceeding -> IsInvite (origin (ServerTx.common stx)) = false ->
  IsProvisional r = false -> IsSuccess r = false -> response_IsCancel r = false ->
  keeps_answering P r -> P (tpl A l) ->
  exists l', TxLayer.layer_Send A ClientSpin ServerSpin l (MResponse r) = Ok (l', None)
    /\ sent (tpl A l') = sent (tpl A l) ++ [MResponse r].
Proof.
  intros Hc Hg Hs Hi Hp Hsu Hcan Hsend HP. cbn [TxLayer.layer_Send]. unfold sendResponse. rewrite Hc, Hg.
  unfold handleSession. rewrite Hsu. cbn [mbind res_bind mret res_ret].
  destruct (Hsend _ HP) as (w1 & m1 & Hs1 & _).
  rewrite (SendResponse_spin ServerSpin) by done. change (tx_invite _) with (IsInvite (origin (ServerTx.common stx))).
  rewrite Hi.
  erewrite (spin_stops _ _ _ _ ActionFinal).
  2:{ unfold user_input. rewrite Hp, Hsu. by destruct Hs as [-> | ->]. }
  2:{ cbn [ServerTx.perform]. unfold actionFinal. by rewrite (send_last_ok _ _ r w1 m1) by done. }
  cbn [mbind res_bind]. eexists. split; [reflexivity|]. exact (answer_logged _ _ _ _ Hs1).
Qed.

End Dispatch.

(** The answer 405, as made and as completed. *)
Lemma complete_405 allowed id rnd req n from sr de :
  headers_ok (msg_headers (req_msg req)) -> headers_CSeq (msg_headers (req_msg req)) = Some (n, req_method req) ->
  headers_From (msg_headers (req_msg req)) = Some from -> (forall t, tagged_from t from = from) ->
  request_Source req = Ok sr -> request_Destination req = Ok de -> req_method req <> CANCEL ->
  exists r0 r, CreateResponseReason id rnd req 405%N "Method Not Allowed" = Ok r0
    /\ autoFillMessageHeaderAndSend allowed rnd (MResponse r0) = Ok (MResponse r)
    /\ status r = 405%N /\ MakeServerTxKey (res_msg r) = MakeServerTxKey (req_msg req)
    /\ response_IsCancel r = false.
Proof.
  intros Hok Hcs Hfrom Htag Hs Hd Hm. unfold CreateResponseReason.
  destruct (fill_response_spec rnd req (SetStatusCode (SetReason (newResponse id (sipVersion (req_msg req)))
    "Method Not Allowed") 405%N) sr de Hok Hs Hd) as (hs & -> & Hhs & He & _ & _).
  cbn [SetStatusCode SetReason newResponse status reason previous res_msg messID sipVersion].
  set (r0 := mkResponse _ _ _ _).
  destruct (fill_headers_spec allowed rnd (auto_method (MResponse r0)) 405%N hs Hhs)
    as (h1 & hs' & Hf & [_ X1 _] & Ho & He' & Hfrom' & _ & Hsame).
  assert (Hf0 : headers_From hs = Some from) by (rewrite headers_From_head in Hfrom |- *; by rewrite He by in_literals).
  assert (hs' = h1) as -> by (apply Hsame; rewrite Hf0; cbn; by rewrite Htag).
  assert (Hkeep : forall k, k ∈ ["via"; "from"; "call-id"; "cseq"] -> entry h1 k = entry (msg_headers (req_msg req)) k).
  { intros k Hk. rewrite X1, not_standard, He.
    - by destruct (entry (msg_headers (req_msg req)) k).
    - apply list_elem_of_In. apply list_elem_of_In in Hk. cbn in *. tauto.
    - apply list_elem_of_In in Hk. rewrite list_elem_of_In. cbn in *.
      by destruct Hk as [<-|[<-|[<-|[<-|[]]]]]; intros [|[|[|[]]]]. }
  exists r0, (with_res_msg r0 (with_headers (res_msg r0) h1)). split; [done|].
  split; [|split; [done|split]].
  - unfold autoFillMessageHeaderAndSend. cbn [auto_status message_of]. change (status r0) with 405%N.
    change (msg_headers (res_msg r0)) with hs. by rewrite Hf.
  - by apply MakeServerTxKey_ext.
  - unfold response_IsCancel. cbn [with_res_msg res_msg msg_headers with_headers].
    assert (Hc : headers_CSeq h1 = Some (n, req_method req)).
    { rewrite headers_CSeq_head in Hcs |- *. rewrite Hkeep; [done|]. apply (bool_decide_unpack _). vm_compute. exact I. }
    rewrite Hc. by apply String.eqb_neq.
Qed.

(** ** Properties *)



(** A request that makes a transaction, when the service takes it next. *)
Lemma request_taken {W : Type} `{TransportLayer W} (A F G : Type) (uuid rnd : list Message -> string)
    (ClientSpin : bool -> spin_type ClientState ClientInput (clientTx * W))
    (ServerSpin : bool -> spin_type ServerState ServerInput (serverTx * W))
    (random : list Message -> string) (range : gmap RequestMethod (option F) -> list RequestMethod)
    (s : service A F G) (l0 : TxLayer.layer W A) (req : request) (stx : serverTx) (e : string) :
  let l := tx A F G s in
  canceled A l = false -> requests_taken A F G s = length (ups A l) ->
  updateSession A l req = Ok l0 -> getServerTx A l0 (req_msg req) = Err e ->
  request_IsAck req = false -> request_IsCancel req = false -> NewServerTx (tpl A l0) req = Ok stx ->
  exists l1 stx1,
    service_run A F G uuid rnd ClientSpin ServerSpin random range s [LayerMoves (EvReceive (MRequest req)); TakesRequest]
    = service_handleRequest A F G uuid ClientSpin ServerSpin random range
        (count_request A F G (with_tx A F G s l1)) req (Some (length (heap A l)))
    /\ lookup_tx A l1 (key (ServerTx.common stx))
       = Some (length (heap A l), ServerTxn (first_state (ServerTx.tx_invite stx)) stx1)
    /\ ServerTx.common stx1 = ServerTx.common stx /\ tpl A l1 = tpl A l /\ canceled A l1 = false.
Proof.
  intros l Hc Htaken Hu Hg Ha Hcan Hn.
  destruct (handleRequest_new uuid rnd ServerSpin l l0 req stx e Hc Hu Hg Ha Hcan Hn)
    as (l1 & stx1 & Hr & Hup & Hlk & Hcom & _ & Htpl & Hc1).
  exists l1, stx1. split; [|done]. unfold service_run.
  cbn [foldM_res service_step layer_step handleMessage]. change (tx A F G s) with l. rewrite Hr.
  cbn [fmap res_fmap mbind res_bind with_tx tx requests_taken]. rewrite Hup, Htaken, list_lookup_middle by done.
  by destruct (service_handleRequest _ _ _ _ _ _ _ _ _ _ _).
Qed.

(** C21: a request that matches no transaction, other than INVITE, ACK and CANCEL, whose
    method has no callback and whose From header has a tag, over a transport that takes
    the answer: the transaction layer makes a transaction and passes the request up, the
    service takes it, starts no callback, and sends one response with status 405 through
    that transaction, for the same transaction key. *)
Theorem unknown_method_405 {W : Type} `{TransportLayer W} (A F G : Type) (takes_done : bool)
    (uuid rnd : list Message -> string)
    (ClientSpin : bool -> spin_type ClientState ClientInput (clientTx * W))
    (ServerSpin : bool -> spin_type ServerState ServerInput (serverTx * W))
    (Hserver : forall b, FsmSpin (ServerTx.outcomes b) (ServerTx.perform takes_done uuid rnd) (ServerSpin b))
    (random : list Message -> string) (range : gmap RequestMethod (option F) -> list RequestMethod)
    (P : W -> Prop) (s : service A F G) (l0 : TxLayer.layer W A) (req : request) (stx : serverTx)
    (e sr de : string) (n : N) (from : AddressHeader) :
  let l := tx A F G s in
  close_ready A F G s = false -> canceled A l = false -> requests_taken A F G s = length (ups A l) ->
  GetRequestHandle (Callback A F G s) (req_method req) = None ->
  updateSession A l req = Ok l0 -> getServerTx A l0 (req_msg req) = Err e ->
  IsInvite req = false -> request_IsAck req = false -> request_IsCancel req = false ->
  headers_CSeq (msg_headers (req_msg req)) = Some (n, req_method req) ->
  NewServerTx (tpl A l0) req = Ok stx -> headers_ok (msg_headers (req_msg req)) ->
  headers_From (msg_headers (req_msg req)) = Some from -> (forall t, tagged_from t from = from) ->
  request_Source req = Ok sr -> request_Destination req = Ok de ->
  (forall r, keeps_answering P r) -> P (tpl A l) ->
  exists s' r,
    service_run A F G uuid rnd ClientSpin ServerSpin random range s [LayerMoves (EvReceive (MRequest req)); TakesRequest] = Ok s'
    /\ sent (tpl A (tx A F G s')) = sent (tpl A l) ++ [MResponse r] /\ status r = 405%N
    /\ running A F G s' = running A F G s
    /\ MakeServerTxKey (res_msg r) = MakeServerTxKey (req_msg req).
Proof.
  intros l Hcl Hc Htaken Hnone Hu Hg Hi Ha Hcan Hcs Hn Hok Hfrom Htag Hs Hd Hsend HP.
  destruct (request_taken A F G uuid rnd ClientSpin ServerSpin random range s l0 req stx e Hc Htaken Hu Hg Ha Hcan Hn)
    as (l1 & stx1 & Hrun & Hlk & Hcom & Htpl & Hc1).
  apply NewServerTx_spec in Hn as (k & rel & Hk & ->). cbn [ServerTx.common key origin ServerTx.tx_invite] in *.
  destruct (complete_405 (GetAllowedMethods range (Callback A F G s))
              (uuid (sent (tpl A l1))) (RandString (random (sent (tpl A l1))) true) req n from sr de
              Hok Hcs Hfrom Htag Hs Hd) as (r0 & r & Hr0 & Hr1 & Hst & Hkey & Hcan').
  { by intros Hm; unfold request_IsCancel in Hcan; rewrite Hm in Hcan. }
  assert (Hg1 : getServerTx A l1 (res_msg r) = Ok (length (heap A l), (first_state (IsInvite req), stx1))).
  { apply getServerTx_inv. exists k. split; [by rewrite Hkey|exact Hlk]. }
  rewrite Hi in Hg1.
  destruct (sendResponse_final takes_done uuid rnd ClientSpin ServerSpin P l1 _ _ _ r Hc1 Hg1
              (or_introl eq_refl)) as (l2 & Hl2 & Hs2); try done.
  { by rewrite Hcom. } { by unfold IsProvisional; rewrite Hst. } { by unfold IsSuccess; rewrite Hst. }
  { by rewrite Htpl. }
  eexists _, r. split; [|split; [|split; [exact Hst|split; [|by rewrite Hkey]]]].
  - rewrite Hrun. unfold service_handleRequest, DoRequest. cbn [count_request Callback with_tx]. rewrite Hnone.
    cbn [mbind res_bind mret res_ret tx count_request with_tx]. rewrite Hr0. cbn [mbind res_bind].
    unfold service_Send. change (close_ready A F G _) with (close_ready A F G s). rewrite Hcl.
    cbn [Callback tx count_request with_tx]. rewrite Hr1. cbn [mbind res_bind]. rewrite Hl2. reflexivity.
  - cbn. rewrite Hs2. by rewrite Htpl.
  - done.
Qed.

Definition sample_service : service (W := list Message) nat nat nat :=
  newService nat nat nat (AddRequestHandle NewCallback "INFO" (Some 3)) [].

(** A received request whose sender tagged it. *)
Definition tagged (method : string) : request :=
  let m := req_msg (received method) in
  with_msg (received method)
    (with_headers m (match add_from_tag (msg_headers m) "77" with Ok hs => hs | _ => emptyHeaders end)).

Definition tagged_sender (method : string) : AddressHeader :=
  default (mkAddress None None None) (headers_From (msg_headers (req_msg (tagged method)))).

Lemma tagged_ok method : headers_ok (msg_headers (req_msg (tagged method))).
Proof.
  destruct (add_from_tag_spec (msg_headers (req_msg (received method))) "77" (received_ok method))
    as (hs & E & Hok & _). unfold tagged. cbn zeta. by rewrite E.
Qed.

Lemma tagged_sender_kept method t : tagged_from t (tagged_sender method) = tagged_sender method.
Proof.
  destruct (add_from_tag_spec (msg_headers (req_msg (received method))) "77" (received_ok method))
    as (hs & E & _ & _ & Hf & _). unfold tagged_sender, tagged. cbn zeta. rewrite E. cbn [with_msg with_headers req_msg msg_headers].
  rewrite Hf. destruct (headers_From _) as [from|]; [|done]. apply tagged_from_tagged.
Qed.

Lemma unknown_method_405_witness :
  exists s' r,
    service_run nat nat nat (fun _ => "uuid") (fun _ => "rnd") ClientTx.run_spin ServerTx.run_spin (fun _ => "r") (fun _ => [])
      sample_service [LayerMoves (EvReceive (MRequest (tagged "MESSAGE"))); TakesRequest] = Ok s'
    /\ sent (tpl nat (tx nat nat nat s')) = [MResponse r] /\ status r = 405%N.
Proof.
  set (stx := mkServerTx (mkCommonTx (server_key (mkTxId "z9hG4bKabc" "10.0.0.9" 5060%N "MESSAGE")) (tagged "MESSAGE")
                None [] None false) None None [] None 0%Z None None 0%Z None None false).
  assert (Hu : updateSession nat (tx nat nat nat sample_service) (tagged "MESSAGE") = Ok (tx nat nat nat sample_service))
    by (vm_compute; reflexivity).
  assert (Hg : getServerTx nat (tx nat nat nat sample_service) (req_msg (tagged "MESSAGE"))
               = Err "transaction with key '%s' not found") by (vm_compute; reflexivity).
  assert (Hn : NewServerTx (tpl nat (tx nat nat nat sample_service)) (tagged "MESSAGE") = Ok stx)
    by (vm_compute; reflexivity).
  assert (Hf : headers_From (msg_headers (req_msg (tagged "MESSAGE"))) = Some (tagged_sender "MESSAGE"))
    by (vm_compute; reflexivity).
  assert (Hnone : GetRequestHandle (Callback nat nat nat sample_service) (req_method (tagged "MESSAGE")) = None)
    by (vm_compute; reflexivity).
  destruct (unknown_method_405 nat nat nat true (fun _ => "uuid") (fun _ => "rnd") ClientTx.run_spin ServerTx.run_spin
    ServerTx.run_spin_laws (fun _ => "r") (fun _ => []) (fun _ => True) sample_service
    (tx nat nat nat sample_service) (tagged "MESSAGE") stx _ "10.0.0.9:5060" "10.0.0.1:5060" 7%N (tagged_sender "MESSAGE")
    eq_refl eq_refl eq_refl Hnone Hu Hg eq_refl eq_refl eq_refl eq_refl Hn (tagged_ok "MESSAGE") Hf
    (tagged_sender_kept "MESSAGE") eq_refl eq_refl) as (s' & r & H1 & H2 & H3 & _).
  - intros r w _. eexists _, _. split; [reflexivity|exact I].
  - exact I.
  - exists s', r. split; [exact H1|]. split; [exact H2|exact H3].
Defined.

(** a registered callback is started, once, with the request and its transaction, and
    nothing is sent; the last callback registered for a method counts. *)
Theorem callback_started {W : Type} `{TransportLayer W} (A F G : Type) (uuid : list Message -> string)
    (ClientSpin : bool -> spin_type ClientState ClientInput (clientTx * W))
    (ServerSpin : bool -> spin_type ServerState ServerInput (serverTx * W))
    (random : list Message -> string) (range : gmap RequestMethod (option F) -> list RequestMethod)
    (s : service A F G) (c : callback F G) (method : RequestMethod) (f : F) (r : request) (t : option ref) :
  Callback A F G s = AddRequestHandle c method (Some f) -> req_method r = method ->
  service_handleRequest A F G uuid ClientSpin ServerSpin random range s r t
  = Ok (started A F G s (CallRequest f r t)).
Proof.
  intros Hc Hm. unfold service_handleRequest, DoRequest, GetRequestHandle.
  rewrite Hc, Hm. cbn [AddRequestHandle requestHandlers]. by rewrite lookup_insert_eq.
Qed.

Lemma callback_started_witness :
  service_handleRequest nat nat nat (fun _ => "uuid") ClientTx.run_spin ServerTx.run_spin (fun _ => "r") (fun _ => [])
    sample_service (tagged "INFO") None
  = Ok (started nat nat nat sample_service (CallRequest 3 (tagged "INFO") None)).
Proof. apply (callback_started nat nat nat) with (c := NewCallback) (method := "INFO"); reflexivity. Defined.

(** ** Closing a service *)

Section CloseService.
Context {W : Type} `{TransportLayer W} (A F G : Type).
Variables uuid rnd random : list Message -> string.
Variable ClientSpin : bool -> spin_type ClientState ClientInput (clientTx * W).
Variable ServerSpin : bool -> spin_type ServerState ServerInput (serverTx * W).
Variable range : gmap RequestMethod (option F) -> list RequestMethod.

(** No operation makes the channel. *)
Lemma Send_close_chan s m s' err :
  service_Send A F G ClientSpin ServerSpin random range s m = Ok (s', err) ->
  close_chan A F G s' = close_chan A F G s /\ once A F G s' = once A F G s.
Proof.
  unfold service_Send. destruct (close_ready _ _ _ _).
  - intros E. apply (inj Ok) in E. by simplify_eq.
  - intros E. apply bind_ok in E as (m' & _ & E). apply bind_ok in E as ([l o] & _ & E).
    apply (inj Ok) in E. by simplify_eq.
Qed.

Lemma step_close_chan s ev s' :
  close_chan A F G s = None -> ev <> UserCloses ->
  service_step A F G uuid rnd ClientSpin ServerSpin random range s ev = Ok s' ->
  close_chan A F G s' = None /\ once A F G s' = once A F G s.
Proof.
  intros Hn Hev. destruct ev as [m| | | |ev]; cbn [service_step].
  - intros E. unfold fmap, res_fmap in E. destruct (service_Send _ _ _ _ _ _ _ _ _) as [[s2 o]|e|k] eqn:Es; try done.
    apply (inj Ok) in E as <-. apply Send_close_chan in Es as [H1 H2]. cbn [fst]. by rewrite H1, H2.
  - done.
  - destruct (ups A _ !! _) as [[r t]|]; [|intros E; apply (inj Ok) in E as <-; done].
    unfold service_handleRequest. intros E. apply bind_ok in E as ([c|e] & _ & E).
    + apply (inj Ok) in E as <-. done.
    + apply bind_ok in E as (resp & _ & E). apply bind_ok in E as ([s2 o] & Es & E).
      apply (inj Ok) in E as <-. apply Send_close_chan in Es as [H1 H2]. cbn [fst]. by rewrite H1, H2.
  - destruct (ups_resp A _ !! _) as [[r t]|]; intros E; apply (inj Ok) in E as <-; [|done].
    unfold service_handleResponse. by destruct (DoResponse _ _ _).
  - intros E. unfold fmap, res_fmap in E. destruct (TxLayer.layer_step _ _ _ _ _ _ _) as [l|e|k]; try done.
    by apply (inj Ok) in E as <-.
Qed.

(** a service is never closed cleanly: [newService] makes no channel [close], so
    whatever happened before, the first [Close], when the layers below it are closed, ends
    in a panic (closing a nil channel),
    until then nothing that was sent was refused as closed, and [Run], which waits for
    that channel, does not return. *)
Theorem service_close_panics (c : callback F G) (w : W) (evs : list service_event) (s : service A F G) :
  Forall (fun ev => ev <> UserCloses) evs ->
  service_run A F G uuid rnd ClientSpin ServerSpin random range (newService A F G c w) evs = Ok s ->
  close_ready A F G s = false /\ service_Run A F G s = None
  /\ service_run A F G uuid rnd ClientSpin ServerSpin random range (newService A F G c w) (evs ++ [UserCloses])
     = Panic CloseOfNil.
Proof.
  intros Hev Hrun.
  assert (Hs : close_chan A F G s = None /\ once A F G s = false).
  { revert Hrun. unfold service_run. assert (H0 : close_chan A F G (newService A F G c w) = None) by done.
    assert (H1 : once A F G (newService A F G c w) = false) by done.
    revert H0 H1. generalize (newService A F G c w). induction Hev as [|ev evs Hne _ IH]; intros s0 H0 H1 Hrun.
    - apply (inj Ok) in Hrun. by subst.
    - cbn [foldM_res] in Hrun. apply bind_ok in Hrun as (s1 & E & Hrun).
      apply step_close_chan in E as [E1 E2]; [|done..]. apply IH in Hrun; [done|done|by rewrite E2]. }
  destruct Hs as [Hn Ho]. split; [by unfold close_ready; rewrite Hn|].
  split; [by unfold service_Run, close_ready; rewrite Hn|].
  unfold service_run in *. rewrite foldM_res_app, Hrun. cbn [mbind res_bind foldM_res service_step].
  unfold service_Close, service_stop, close_ready. by rewrite Ho; cbn [close_chan]; rewrite Hn.
Qed.

End CloseService.

Lemma service_close_panics_witness :
  service_run nat nat nat (fun _ => "uuid") (fun _ => "rnd") ClientTx.run_spin ServerTx.run_spin (fun _ => "r") (fun _ => [])
    (newService nat nat nat NewCallback []) [TakesRequest; UserCloses] = Panic CloseOfNil.
Proof.
  apply (service_close_panics nat nat nat (fun _ => "uuid") (fun _ => "rnd") (fun _ => "r") ClientTx.run_spin ServerTx.run_spin
           (fun _ => []) NewCallback [] [TakesRequest] (newService nat nat nat NewCallback [])).
  - by repeat constructor.
  - reflexivity.
Defined.
