(* ===== verification/Options.v ===== *)
(** * Configuration (options.go, transport/options.go, utils/helpers.go)

    The options of a service and of its transport layer, in the order in which they are
    applied, and the search for an address of the host.  An option is a value of an
    inductive type for each function of the program that makes one. *)

From S2P Require Import Prelude GoStrings Params Base Uri Header Headers Auth HeaderParse.
From S2P Require Import Message TxKey Fsm Transport TxCommon ClientTx ServerTx TxLayer Service.
From Stdlib Require Import NArith Lia.

#[local] Open Scope string_scope.
#[local] Open Scope list_scope.

(** ** IP addresses *)

(** net.IP: 4 or 16 bytes, or something else; no bytes is nil. *)
Definition IP : Type := list N.

(** [To4]: the 4 bytes of an IPv4 address, also in its 16 byte form. *)
Definition To4 (ip : IP) : option IP :=
  if (length ip =? 4)%nat then Some ip
  else if (length ip =? 16)%nat && bool_decide (take 12 ip = replicate 10 0%N ++ [255; 255]%N)
  then Some (drop 12 ip) else None.

Definition IsLoopback (ip : IP) : bool :=
  match To4 ip with
  | Some ip4 => match ip4 with b :: _ => (b =? 127)%N | [] => false end
  | None => bool_decide (ip = replicate 15 0%N ++ [1%N])
  end.

(** An address of an interface. *)
Inductive iface_addr : Type := IPNet (ip : IP) | IPAddr (ip : IP) | OtherAddr.

(** An interface with its flags; asking for its addresses may fail. *)
Record iface := mkIface { FlagUp : bool; FlagLoopback : bool; Addrs : list iface_addr + string }.

Definition addr_ip (a : iface_addr) : IP := match a with IPNet ip | IPAddr ip => ip | OtherAddr => [] end.

(** The inner loop: the first address that can be used. *)
Fixpoint first_ip (addrs : list iface_addr) : option IP :=
  match addrs with
  | [] => None
  | a :: addrs =>
      let ip := addr_ip a in
      if bool_decide (ip = []) || IsLoopback ip then first_ip addrs
      else match To4 ip with
           | Some ip => Some ip
           | None => first_ip addrs
           end
  end.

Fixpoint search_ip (interfaces : list iface) : IP + string :=
  match interfaces with
  | [] => inr "server not connected to any network"
  | i :: interfaces =>
      if negb (FlagUp i) || FlagLoopback i then search_ip interfaces
      else match Addrs i with
           | inr err => inr err
           | inl addrs => match first_ip addrs with Some ip => inl ip | None => search_ip interfaces end
           end
  end.

(** [Interfaces]: what the operating system answers. *)
Definition GetLocalRealIp (Interfaces : list iface + string) : IP + string :=
  match Interfaces with inr err => inr err | inl l => search_ip l end.

(** ** The transport layer *)

(** The resolver: the one of the package, or one that asks this server. *)
Inductive resolver : Type := DefaultResolver | ServerResolver (dns : string).

Record tp_options := mkTpOptions { localIP : option IP; dnsResolver : option resolver }.

Inductive tp_option : Type := LocalAddr (localhost : string) | DnsResolverConfig (dns : string).

Definition DefaultAddress : IP := [127; 0; 0; 1]%N.

Section Options.

(** The answer of the resolver for a host. *)
Variable ResolveIPAddr : string -> IP + string.
Variable Interfaces : list iface + string.
(** Whether [Panicf] of a configured logger panics, as its name says. *)
Variable Panicf_panics : bool.

(** [logger]: a logger was configured; without one [logger.Panicf] does nothing, and the
    address is set to nil. *)
Definition apply_tp (logger : bool) (o : tp_options) (opt : tp_option) : res tp_options :=
  match opt with
  | LocalAddr localhost =>
      if String.eqb localhost "" then mret o
      else match ResolveIPAddr localhost with
           | inl ip => mret (mkTpOptions (Some ip) (dnsResolver o))
           | inr _ => if logger && Panicf_panics then Panic Panicked
                      else mret (mkTpOptions None (dnsResolver o))
           end
  | DnsResolverConfig dns =>
      if String.eqb dns "" then mret o else mret (mkTpOptions (localIP o) (Some (ServerResolver dns)))
  end.

Definition tp_newOptions (logger : bool) (opts : list tp_option) : res tp_options :=
  o ← foldM_res (apply_tp logger) (mkTpOptions None None) opts;
  let o := match localIP o with
           | Some _ => o
           | None => mkTpOptions (Some (match GetLocalRealIp Interfaces with inl ip => ip | inr _ => DefaultAddress end))
                       (dnsResolver o)
           end in
  mret (match localIP o with Some _ => o | None => mkTpOptions (localIP o) (Some DefaultResolver) end).

(** [Init] of the transport layer. *)
Definition tp_Init (logger : bool) (o : tp_options) (opts : list tp_option) : res tp_options :=
  o ← foldM_res (apply_tp logger) o opts;
  o ← match localIP o with None => apply_tp logger o (LocalAddr "") | Some _ => mret o end;
  match dnsResolver o with None => apply_tp logger o (DnsResolverConfig "") | Some _ => mret o end.

(** ** The service *)

Section ServiceOptions.
Context {F G : Type}.

(** The options of a service; those of the logger only matter in that one is configured. *)
Inductive option_of : Type :=
  | RequestCallback (handlers : option (gmap RequestMethod (option F)))
  | ResponseCallback (handler : option G)
  | AddRequestCallback (method : RequestMethod) (handler : option F)
  | TransportOption (localhost : string)
  | DnsConfig (dns : string)
  | LoggerConfig.

(** The variables of the program that the options change: [DefaultCallback], which every
    service uses, whether there is a logger, and the options of the service's own transport
    layer. *)
Record configuration := mkConfiguration {
  DefaultCallback : callback F G;
  logger : bool;
  tp_opts : tp_options
}.

(** The error of setting a handler is logged only. *)
Definition apply_option (c : configuration) (opt : option_of) : res configuration :=
  let keep (r : res (callback F G)) :=
    mkConfiguration (match r with Ok cb => cb | _ => DefaultCallback c end) (logger c) (tp_opts c) in
  match opt with
  | RequestCallback hs => mret (keep (SetRequestHandle (DefaultCallback c) hs))
  | ResponseCallback g => mret (keep (SetResponseHandle (DefaultCallback c) g))
  | AddRequestCallback method f => mret (keep (mret (AddRequestHandle (DefaultCallback c) method f)))
  | TransportOption localhost =>
      o ← tp_Init (logger c) (tp_opts c) [LocalAddr localhost];
      mret (mkConfiguration (DefaultCallback c) (logger c) o)
  | DnsConfig dns =>
      o ← tp_Init (logger c) (tp_opts c) [DnsResolverConfig dns];
      mret (mkConfiguration (DefaultCallback c) (logger c) o)
  | LoggerConfig => mret (mkConfiguration (DefaultCallback c) true (tp_opts c))
  end.

(** A new service, in a program with these callbacks and this logger. *)
Definition newOptions (callbacks : callback F G) (log : bool) (opts : list option_of) : res configuration :=
  tp ← tp_newOptions log [];
  foldM_res apply_option (mkConfiguration callbacks log tp) opts.

End ServiceOptions.
End Options.
Arguments option_of : clear implicits.
Arguments configuration : clear implicits.

(** ** Lemmas *)

(** The addresses that can be used: IPv4, no loopback. *)
Definition usable_ips (addrs : list iface_addr) : list IP :=
  omap (fun a => if bool_decide (addr_ip a = []) || IsLoopback (addr_ip a) then None else To4 (addr_ip a)) addrs.

Lemma first_ip_head addrs : first_ip addrs = head (usable_ips addrs).
Proof.
  unfold usable_ips. induction addrs as [|a addrs IH]; [done|]. cbn.
  destruct (bool_decide _ || IsLoopback _); [done|]. by destruct (To4 (addr_ip a)).
Qed.

(** The interfaces that are searched. *)
Definition searched (i : iface) : bool := FlagUp i && negb (FlagLoopback i).

Lemma search_ip_spec interfaces addrs :
  map Addrs (List.filter searched interfaces) = map inl addrs ->
  search_ip interfaces
  = match head (concat (map usable_ips addrs)) with
    | Some ip => inl ip
    | None => inr "server not connected to any network"
    end.
Proof.
  revert addrs. induction interfaces as [|i l IH]; intros addrs H; [by destruct addrs|]. cbn in H |- *.
  unfold searched in H. destruct (FlagUp i), (FlagLoopback i); cbn in H |- *; try by apply IH.
  destruct addrs as [|a addrs]; [done|]. injection H as -> H. rewrite first_ip_head. cbn.
  destruct (usable_ips a) as [|ip ips]; [by apply IH|done].
Qed.

Lemma usable_ips_ok addrs ip : ip ∈ usable_ips addrs -> length ip = 4%nat /\ IsLoopback ip = false.
Proof.
  unfold usable_ips. rewrite list_elem_of_omap. intros (a & _ & H).
  destruct (bool_decide _) eqn:E1; [done|]. destruct (IsLoopback (addr_ip a)) eqn:E2; [done|]. cbn in H.
  assert (Hl : length ip = 4%nat).
  { unfold To4 in H. destruct (length (addr_ip a) =? 4)%nat eqn:E4.
    - injection H as <-. by apply Nat.eqb_eq.
    - destruct (length (addr_ip a) =? 16)%nat eqn:E16; [|done]. cbn [andb] in H.
      destruct (bool_decide (take 12 (addr_ip a) = _)); [|discriminate].
      injection H as <-. apply Nat.eqb_eq in E16. rewrite length_drop, E16. done. }
  split; [done|]. unfold IsLoopback in E2 |- *. rewrite H in E2.
  assert (Ht : To4 ip = Some ip) by (unfold To4; by rewrite Hl). by rewrite Ht.
Qed.

(** the address of the host: when every interface that is up and no loopback lists its
    addresses, the search finds the first IPv4 address among them that is no loopback
    address, in the order of the interfaces, and reports an error when there is none;
    what it finds has four bytes and is no loopback address. *)
Theorem GetLocalRealIp_spec (interfaces : list iface) (addrs : list (list iface_addr)) :
  map Addrs (List.filter searched interfaces) = map inl addrs ->
  GetLocalRealIp (inl interfaces)
    = match head (concat (map usable_ips addrs)) with
      | Some ip => inl ip
      | None => inr "server not connected to any network"
      end
  /\ (forall ip, GetLocalRealIp (inl interfaces) = inl ip -> length ip = 4%nat /\ IsLoopback ip = false).
Proof.
  intros H. cbn [GetLocalRealIp]. rewrite (search_ip_spec _ _ H). split; [done|]. intros ip.
  destruct (head _) as [ip'|] eqn:E; [|done]. intros [= <-].
  destruct (concat _) as [|x l] eqn:Ec; [done|]. injection E as ->.
  assert (Hin : ip' ∈ concat (map usable_ips addrs)) by (rewrite Ec; left).
  apply list_elem_of_In, in_concat in Hin as (l' & Hl & Hi).
  apply in_map_iff in Hl as (a & <- & _). apply list_elem_of_In in Hi. by apply usable_ips_ok in Hi.
Qed.

Definition sample_interfaces : list iface :=
  [mkIface true true (inl [IPNet [127; 0; 0; 1]%N]);
   mkIface false false (inr "down");
   mkIface true false (inl [IPNet (replicate 15 0%N ++ [1%N]); IPAddr (replicate 10 0%N ++ [255; 255; 10; 0; 0; 1]%N)])].

Lemma GetLocalRealIp_spec_witness : GetLocalRealIp (inl sample_interfaces) = inl [10; 0; 0; 1]%N.
Proof.
  apply (GetLocalRealIp_spec sample_interfaces
    [[IPNet (replicate 15 0%N ++ [1%N]); IPAddr (replicate 10 0%N ++ [255; 255; 10; 0; 0; 1]%N)]]). reflexivity.
Defined.

Section OptionLemmas.
Variable ResolveIPAddr : string -> IP + string.
Variable Interfaces : list iface + string.
Variable Panicf_panics : bool.

(** A new transport layer has an address, and no resolver unless one is configured: the
    test for the resolver looks at the address. *)
Lemma tp_newOptions_default logger :
  exists ip, tp_newOptions ResolveIPAddr Interfaces Panicf_panics logger [] = Ok (mkTpOptions (Some ip) None).
Proof. unfold tp_newOptions. cbn. eauto. Qed.

(** An address that cannot be resolved leaves the layer without one: what [Init] does
    about it has no effect. *)
Lemma unresolved_address o localhost e :
  localhost <> "" -> ResolveIPAddr localhost = inr e ->
  tp_Init ResolveIPAddr Panicf_panics false o [LocalAddr localhost] = Ok (mkTpOptions None (dnsResolver o)).
Proof.
  intros Hl He. unfold tp_Init. cbn [foldM_res apply_tp]. apply String.eqb_neq in Hl. rewrite Hl, He. cbn.
  by destruct (dnsResolver o).
Qed.

(** All services share the callbacks: a handler configured for one answers for every
    service, and the one configured last counts. *)
Lemma callbacks_shared {F G} (callbacks : callback F G) log opts method f c1 opts2 method2 f2 c2 :
  opts = [AddRequestCallback method (Some f)] -> opts2 = [AddRequestCallback method2 (Some f2)] ->
  newOptions ResolveIPAddr Interfaces Panicf_panics callbacks log opts = Ok c1 ->
  newOptions ResolveIPAddr Interfaces Panicf_panics (DefaultCallback c1) (logger c1) opts2 = Ok c2 ->
  GetRequestHandle (DefaultCallback c2) method = Some (Some (if decide (method = method2) then f2 else f))
  /\ GetRequestHandle (DefaultCallback c2) method2 = Some (Some f2).
Proof.
  intros -> -> E1 E2. unfold newOptions in *. destruct (tp_newOptions_default log) as [ip Hip]. rewrite Hip in E1.
  cbn in E1. injection E1 as <-. cbn [logger DefaultCallback] in E2. rewrite Hip in E2. cbn in E2. injection E2 as <-.
  cbn. unfold GetRequestHandle. cbn. split; [|by rewrite lookup_insert_eq].
  destruct (decide (method = method2)) as [->|Hne]; [by rewrite lookup_insert_eq|].
  by rewrite lookup_insert_ne, lookup_insert_eq.
Qed.

End OptionLemmas.
