(* ===== verification/EndToEnd.v ===== *)
(** * From the socket to the callback

    The parts put together: a connection of the pool reads bytes, its handler passes up
    the messages, the pool hands them to the transport layer, this one to the transaction
    layer, and the service starts the callback.  Each part runs with its own interleaving;
    the runs are joined where one part hands a message to the next. *)

From S2P Require Import Prelude GoStrings Params Base Uri Header Headers Auth HeaderParse HeaderRoundTrip.
From S2P Require Import Message Parser MessageRoundTrip ParserLife ConnHandler Pool ListenHandler ConnPool.
From S2P Require Import TxKey Fsm Transport NoticeLoop TxCommon ClientTx ServerTx TxLayer Service.
From Stdlib Require Import NArith ZArith Lia.

#[local] Open Scope string_scope.
#[local] Open Scope list_scope.

(** ** Joining the parts *)

(** The messages among what a handler or the pool passes up, and among the notices of the
    transport layer. *)
Definition up_messages (ups : list upward) : list Message :=
  omap (fun u => match u with UpMessage m => Some m | UpError _ => None end) ups.
Definition notice_messages (ns : list notice) : list Message :=
  omap (fun n => match n with inl m => Some m | inr _ => None end) ns.

(** The segments that arrive on a connection are these texts, cut anywhere on a stream and
    one by one in datagrams, and read as these messages. *)
Definition arrive (uuid : nat -> string) (c : connection) (segments texts : list string) (msgs : list Message) : Prop :=
  if Streamed c
  then sends_all uuid 0 texts msgs /\ join "" segments = join "" texts /\ Forall (fun d => blank d = false) segments
  else segments = texts /\ renders_all uuid 0 texts msgs.

(** ** Lemmas *)

Lemma up_messages_of_parser ups msgs : omap of_parser ups = map Output msgs -> up_messages ups = msgs.
Proof.
  revert msgs. unfold up_messages. induction ups as [|u ups IH]; intros msgs; cbn; [by destruct msgs|].
  destruct u as [m|[|e|e]]; cbn; [|by apply IH..|by destruct msgs].
  destruct msgs as [|m' msgs]; [done|]. intros [= -> H]. f_equal. by apply IH.
Qed.

Lemma arrive_parsed uuid c segments texts msgs :
  arrive uuid c segments texts msgs ->
  Forall (fun d => blank d = false) segments
  /\ exists p1 k p', writes (NewParser (Streamed c)) segments = Ok p1
       /\ nsteps uuid k p1 (map Output msgs) p' /\ parse_step uuid p' = Ok None.
Proof.
  unfold arrive. destruct (Streamed c) eqn:Hc.
  - intros (Hs & Hj & Hb). split; [done|].
    destruct (streamed_steps uuid 0 texts msgs segments Hs (NewParser true)) as (p1 & k & Hw & Hn); try done. eauto 10.
  - intros [-> Hs]. split; [by eapply renders_not_blank|].
    destruct (datagrams_steps uuid 0 texts msgs Hs (NewParser false)) as (p1 & k & Hw & Hn); [done..|]. eauto 10.
Qed.

(** The one message that arrives carries what its text was rendered from. *)
Lemma arrive_carried uuid c segments texts req :
  arrive uuid c segments texts [MRequest req] -> exists text, texts = [text] /\ carried text (MRequest req).
Proof.
  unfold arrive. intros H. assert (Hr : renders_all uuid 0 texts [MRequest req]).
  { destruct (Streamed c); [|by destruct H]. destruct H as (H & _). by apply sends_all_renders. }
  inversion Hr as [|n msg text out texts' outs Ht Hrest]; subst. inversion Hrest; subst.
  exists text. split; [done|]. by eapply renders_carried.
Qed.

(** When no other connection hands anything over. *)
Lemma taken_from_alone i (outs : list (@pool_out upward)) :
  (forall j x, Took j x ∈ outs -> j = i) -> taken_from i outs = Pool.taken outs.
Proof.
  unfold taken_from, Pool.taken. induction outs as [|o outs IH]; intros H; [done|]. cbn.
  destruct o as [j x|x]; [|apply IH; intros j' x' Hin; apply (H j' x'); by right].
  rewrite (H j x) by left. rewrite decide_True by done. f_equal. apply IH. intros j' x' Hin. apply (H j' x'). by right.
Qed.

(** The messages of the connection, all the way to the transaction layer. *)
Lemma messages_to_layer uuid (p p' : ConnectionPool.connectionPool) c t now i es outs h texts msgs nes nups l :
  pool_ok p -> loop p = Listening -> Pool.heap p !! i = Some (CreateConnectionHandler c t now) -> open c = true ->
  pool_run (HP := connection_PoolHandler uuid) "connection" p es outs p' -> loop p' = Listening ->
  Pool.heap p' !! i = Some h -> quiet uuid h -> (forall j x, Took j x ∈ outs -> j = i) ->
  arrive uuid c (read_by i es) texts msgs ->
  notice_run (start_notice ∅) nes nups l -> NoticeLoop.cancel l = false -> held l = [] ->
  notice_messages (received_notices nes) = up_messages (passed outs) ->
  notice_messages nups = msgs.
Proof.
  intros Hp Hl Hi Ho Hr Hl' Hh Hq Halone Har Hn Hc Hheld Hmsgs.
  destruct (pool_run_handler _ _ _ _ _ Hr Hp _ _ Hi) as (evs & h' & H1 & H2 & Hf).
  rewrite Hh in H1. injection H1 as <-. specialize (Hf _ read_of eq_refl).
  change (omap read_of evs) with (segments evs) in Hf. fold (read_by i es) in Hf. rewrite <- Hf in Har.
  destruct (arrive_parsed _ _ _ _ _ Har) as (Hb & p1 & k & pe & Hw & Hk & Hend). rewrite <- (written_all evs Hb) in Hw.
  assert (Ht : up_messages (Pool.taken outs) = msgs).
  { apply up_messages_of_parser. rewrite <- (taken_from_alone i) by done.
    eapply quiet_delivered; [apply item_run_handler, H2|done..]. }
  destruct (pool_fifo _ _ _ _ _ Hr) as (lost & Hfifo & Hlost). unfold in_passing, loop_over in *.
  rewrite Hl, Hl' in *. rewrite Hlost, !app_nil_r in Hfifo by done. cbn [app] in Hfifo.
  destruct (run_facts _ _ _ _ Hn) as (_ & _ & _ & Hall). specialize (Hall Hc).
  rewrite Hheld, app_nil_r in Hall. cbn in Hall. by rewrite Hall, Hmsgs, <- Hfifo.
Qed.

(** ** Property *)


(** A BYE request on a TCP connection, in two segments. *)
Definition bye_text : string := match request_String wire_request with Ok (s, _) => s | _ => "" end.
Definition bye : request := received_request counted 0 wire_request wire_uri.
Definition bye_events : list (@pool_event connectionHandler ConnHandler.event) :=
  lift_events 0 (reading counted (sample_handler false) (cut 150 bye_text)).

(** The pool offers what it passes up, and the transaction layer takes it. *)
Definition offered (us : list upward) : list notice_event :=
  flat_map (fun u => [Receives (match u with UpMessage m => inl m | UpError _ => inr "error" end); TakenUp]) us.

Lemma offered_run us :
  exists nups, notice_run (start_notice ∅) (offered us) nups (start_notice ∅)
    /\ notice_messages (received_notices (offered us)) = up_messages us.
Proof.
  induction us as [|u us (nups & IH & Hm)]; [exists []; split; [constructor|done]|].
  exists ((match u with UpMessage m => inl m | UpError _ => inr "error" end) :: nups). split.
  - eapply step_quiet; [reflexivity|]. eapply step_up; [reflexivity|]. exact IH.
  - unfold offered in *. cbn [flat_map app]. unfold notice_messages, up_messages, received_notices in *. cbn.
    destruct u as [m|e]; cbn; [by rewrite <- Hm|exact Hm].
Qed.

Lemma bye_run :
  exists outs p h, pool_run (HP := connection_PoolHandler counted) "connection" sample_pool bye_events outs p
    /\ Pool.loop p = Listening /\ Pool.heap p !! 0%nat = Some h /\ quiet counted h
    /\ (forall j x, Took j x ∈ outs -> j = 0%nat).
Proof.
  assert (Ht : match run_pool (HP := connection_PoolHandler counted) "connection" sample_pool bye_events with
               | Some (outs, p) =>
                   match Pool.loop p with Listening => true | _ => false end
                   && match Pool.heap p !! 0%nat with Some h => is_quiet counted h | None => false end
                   && forallb (fun o => match o with Took j _ => Nat.eqb j 0 | _ => true end) outs
               | None => false
               end = true) by (vm_compute; reflexivity).
  destruct (run_pool _ _ _) as [[outs p]|] eqn:E; [|done].
  apply andb_prop in Ht as [[Hl Hq]%andb_prop Ho].
  destruct (Pool.heap p !! 0%nat) as [h|] eqn:Eh; [|done]. exists outs, p, h.
  split; [by apply run_pool_run|]. split; [by destruct (Pool.loop p)|]. split; [done|].
  split; [by apply is_quiet_spec|]. intros j x Hin. rewrite forallb_forall in Ho.
  apply list_elem_of_In, Ho in Hin. by apply Nat.eqb_eq.
Qed.

Definition bye_service : service (W := list Message) nat nat nat :=
  newService nat nat nat (AddRequestHandle NewCallback "BYE" (Some 3)) [].


(** ** A request and its answer *)

Lemma renders_request_headers ids n r text rs :
  renders ids n (MRequest r) text (MRequest rs) ->
  msg_headers (req_msg rs) = msg_headers (req_msg r) /\ headers_ok (msg_headers (req_msg rs)) /\ req_method rs = req_method r.
Proof. intros ((Hok & _) & u & r' & _ & _ & [= ->]). by split. Qed.

Lemma renders_response_headers ids n r text rc :
  renders ids n (MResponse r) text (MResponse rc) ->
  msg_headers (res_msg rc) = msg_headers (res_msg r) /\ status rc = status r.
Proof. intros (_ & _ & _ & [= ->]). by split. Qed.

(** C10: a request and its answer over the wire: a request that was sent is on the wire
    with its method, body and headers but Via and Contact unchanged; whatever peer reads its
    text and answers what it read with [CreateResponse], when the text of the answer is
    read on this side, the transaction layer finds the transaction of the request for it,
    still with the request as it went out, and gives the answer to this transaction. *)
Theorem answer_finds_transaction {W : Type} `{TransportLayer W} (A : Type)
    (ClientSpin : bool -> spin_type ClientState ClientInput (clientTx * W))
    (l l' : TxLayer.layer W A) (r : request) :
  sendRequest A ClientSpin l r = Ok (l', None) -> request_IsAck r = false -> canceled A l' = false ->
  exists r' stx, sent (tpl A l') = sent (tpl A l) ++ [MRequest r'] /\ same_request r r'
    /\ origin (ClientTx.common stx) = r'
    /\ forall ids ids' n n' text answer rs resp rc id tag code sr de,
         renders ids n (MRequest r') text (MRequest rs) ->
         request_Source rs = Ok sr -> request_Destination rs = Ok de -> CreateResponse id tag rs code = Ok resp ->
         renders ids' n' (MResponse resp) answer (MResponse rc) ->
         status rc = code /\ getClientTx A l' (res_msg rc) = Ok (length (TxLayer.heap A l), (Calling, stx))
         /\ handleResponse A ClientSpin l' rc
            = ('(c, _) ← ClientTx.Receive ClientSpin (Calling, (stx, tpl A l')) (MResponse rc);
               mret (store_client A l' (length (TxLayer.heap A l)) c)).
Proof.
  intros Hsend Hack Hc. destruct (sendRequest_sent ClientSpin l r l' Hsend Hack) as (r' & stx & k & H1 & H2 & Hk & Ho & Hl & _).
  exists r', stx. split; [done|]. split; [done|]. split; [done|].
  intros ids ids' n n' text answer rs resp rc id tag code sr de Hreq Hs Hd Hresp Hans.
  destruct (renders_request_headers _ _ _ _ _ Hreq) as (Hh & Hok & _).
  destruct (renders_response_headers _ _ _ _ _ Hans) as (Hh' & Hst).
  destruct (CreateResponse_entries id tag rs code sr de Hok Hs Hd) as (hs & Hcr & _ & He & _).
  rewrite Hresp in Hcr. apply (inj Ok) in Hcr. subst resp. cbn [res_msg msg_headers status] in Hh', Hst.
  assert (Hg : getClientTx A l' (res_msg rc) = Ok (length (TxLayer.heap A l), (Calling, stx))).
  { apply getClientTx_inv. exists k. split; [|done]. rewrite <- (same_key _ _ H2 _ Hk). apply MakeClientTxKey_ext.
    intros x Hx. rewrite Hh', <- Hh. apply He.
    apply list_elem_of_In in Hx. apply list_elem_of_In. cbn in *. tauto. }
  split; [done|]. split; [done|]. unfold handleResponse. by rewrite Hc, Hg.
Qed.

(** The BYE request of the samples, its answer by the peer, and what comes back. *)
Definition bye_layer : TxLayer.layer (list Message) nat := CreateLayer nat [].

Definition bye_answer : response :=
  match CreateResponse "id" "77" (received_request counted 0 wire_request wire_uri) 200%N with
  | Ok r => r
  | _ => mkResponse emptyMessage 0%N "" []
  end.

Lemma bye_answer_created :
  CreateResponse "id" "77" (received_request counted 0 wire_request wire_uri) 200%N = Ok bye_answer.
Proof.
  unfold bye_answer. destruct (CreateResponse _ _ _ _) as [r|e|k] eqn:E; [done|vm_compute in E; discriminate E..].
Qed.

Lemma bye_received_ok : headers_ok (msg_headers (req_msg (received_request counted 0 wire_request wire_uri))).
Proof. exact (proj1 (wire_headers_wf 0 "" eq_refl eq_refl)). Qed.

Lemma bye_source : request_Source (received_request counted 0 wire_request wire_uri) = Ok "10.0.0.1:5060".
Proof. vm_compute. reflexivity. Qed.
Lemma bye_destination : request_Destination (received_request counted 0 wire_request wire_uri) = Ok "example.com:5061".
Proof. vm_compute. reflexivity. Qed.

Definition bye_answer_text : string := match response_String bye_answer with Ok s => s | _ => "" end.

Lemma bye_answer_renders :
  renders counted 0 (MResponse bye_answer) bye_answer_text (MResponse (received_response counted 0 bye_answer)).
Proof.
  unfold bye_answer_text. destruct (response_String bye_answer) as [t| |] eqn:E; [|vm_compute in E; discriminate E..].
  split; [|split; [repeat split; vm_compute; reflexivity|by split]].
  destruct (CreateResponse_entries "id" "77" _ 200%N "10.0.0.1:5060" "example.com:5061" bye_received_ok bye_source bye_destination)
    as (hs & Hcr & Hok & _).
  rewrite bye_answer_created in Hcr. apply (inj Ok) in Hcr. split; [by rewrite Hcr|].
  assert (HH : Headers (msg_headers (res_msg bye_answer)) = take 5 (wire_list 0)) by (vm_compute; reflexivity).
  cbn [msg_of]. rewrite HH. apply Forall_take, wire_list_wf; reflexivity.
Qed.

Lemma bye_sent :
  match sendRequest nat ClientTx.run_spin bye_layer wire_request with
  | Ok (l', None) => sent (tpl nat l') = [MRequest wire_request] /\ canceled nat l' = false
  | _ => False
  end.
Proof. vm_compute. split; reflexivity. Qed.

Lemma answer_finds_transaction_witness :
  exists l' stx, sendRequest nat ClientTx.run_spin bye_layer wire_request = Ok (l', None)
    /\ getClientTx nat l' (res_msg (received_response counted 0 bye_answer)) = Ok (0%nat, (Calling, stx)).
Proof.
  pose proof bye_sent as Ht.
  destruct (sendRequest nat ClientTx.run_spin bye_layer wire_request) as [[l' [|]]| |] eqn:E; [done| |done..].
  destruct Ht as [Hs Hc].
  destruct (answer_finds_transaction nat ClientTx.run_spin bye_layer l' wire_request E eq_refl Hc)
    as (r' & stx & H1 & _ & _ & Hall).
  rewrite Hs in H1. change (sent (tpl nat bye_layer)) with (@nil Message) in H1. injection H1 as <-.
  exists l', stx. split; [reflexivity|].
  exact (proj1 (proj2 (Hall counted counted 0%nat 0%nat bye_text bye_answer_text
    (received_request counted 0 wire_request wire_uri) bye_answer (received_response counted 0 bye_answer) "id" "77" 200%N
    "10.0.0.1:5060" "example.com:5061" (sends_renders _ _ _ _ _ (wire_request_sends 0)) bye_source bye_destination
    bye_answer_created bye_answer_renders))).
Defined.
