(* ===== verification/Wire.v ===== *)
(** * From an answer to the wire

    The transport layer of Transport.v over the UDP protocol of Protocols.v: where an
    answer to a received request is written, and when it cannot be. *)

From S2P Require Import Prelude GoStrings Params Base Uri Header Headers Auth HeaderParse HeaderRoundTrip.
From S2P Require Import Message Parser MessageRoundTrip ParserLife ConnHandler Pool ListenHandler ConnPool.
From S2P Require Import TxKey Transport Protocols EndToEnd.
From Stdlib Require Import NArith ZArith Lia.

#[local] Open Scope string_scope.
#[local] Open Scope list_scope.

(** ** The layer over the protocol *)

Section Wire.
Variable ResolveAddr : string -> string -> endpoint + string.
Variable net_write : connection -> option endpoint -> string -> option string.
Variable range : gmap string nat -> list (string * nat).
(** The UDP protocol at the start, and the other protocols. *)
Variable udp0 : udpProtocol.
Variable others : string -> list (string * Addr * Message) -> Addr -> Message -> res (option string).

(** The UDP protocol after what the layer has sent. *)
Definition udp_after (out : list (string * Addr * Message)) : udpProtocol :=
  foldl (fun u x => let '(nw, a, m) := x in
                    if String.eqb nw "UDP" then match udp_Send ResolveAddr net_write range u a m with
                                                | Ok (u', _) => u'
                                                | _ => u
                                                end
                    else u) udp0 out.

Definition wire_Send (nw : string) (out : list (string * Addr * Message)) (a : Addr) (m : Message) : res (option string) :=
  if String.eqb nw "UDP" then snd <$> udp_Send ResolveAddr net_write range (udp_after out) a m else others nw out a m.

Lemma udp_Send_connections u a m u' e :
  udp_Send ResolveAddr net_write range u a m = Ok (u', e) -> udp_connections u' = udp_connections u.
Proof.
  unfold udp_Send. destruct (String.eqb _ _); [intros E; apply (inj Ok) in E; by simplify_eq|].
  destruct (udp_resolveAddr _ _) as [x|x]; [|intros E; apply (inj Ok) in E; by simplify_eq].
  intros E. apply bind_ok in E as (port & _ & E).
  destruct (udp_connection _ _ _) as [c|y|k]; [|apply (inj Ok) in E; by simplify_eq|done].
  apply bind_ok in E as (c' & _ & E). apply bind_ok in E as (text & _ & E).
  destruct (net_write _ _ _); apply (inj Ok) in E; by simplify_eq.
Qed.

Lemma udp_after_connections out : udp_connections (udp_after out) = udp_connections udp0.
Proof.
  unfold udp_after. generalize udp0. induction out as [|[[nw a] m] out IH]; intros u; [done|]. cbn [foldl].
  rewrite IH. destruct (String.eqb nw "UDP"); [|done].
  destruct (udp_Send _ _ _ u a m) as [[u' e]|e|k] eqn:E; [|done..]. by apply udp_Send_connections in E.
Qed.

Lemma udp_after_sent out a m u' :
  udp_Send ResolveAddr net_write range (udp_after out) a m = Ok (u', None) -> udp_after (out ++ [("UDP", a, m)]) = u'.
Proof. intros E. unfold udp_after in *. rewrite foldl_app. cbn [foldl]. by rewrite String.eqb_refl, E. Qed.

(** A response that [CreateResponse] makes has the Via hop and the addresses of its
    request. *)
Lemma created_response id tag rs code resp sr de :
  headers_ok (msg_headers (req_msg rs)) -> request_Source rs = Ok sr -> request_Destination rs = Ok de ->
  CreateResponse id tag rs code = Ok resp ->
  headers_ViaHop (msg_headers (res_msg resp)) = headers_ViaHop (msg_headers (req_msg rs))
  /\ dest (res_msg resp) = sr /\ src (res_msg resp) = de.
Proof.
  intros Hok Hs Hd Hr. destruct (CreateResponse_entries id tag rs code sr de Hok Hs Hd) as (hs & Hr' & _ & He & _).
  rewrite Hr in Hr'. apply (inj Ok) in Hr'. subst resp. cbn. split; [|done].
  unfold headers_ViaHop. rewrite !headers_Via_head, He; [done|]. apply (bool_decide_unpack _). vm_compute. exact I.
Qed.

(** The socket of this port can be used. *)
Definition socket_at (u : udpProtocol) (port : string) (h : connectionHandler) : Prop :=
  view (udp_connections u) !! ("udp:0.0.0.0:" +:+ port) = Some h.

(** C11: an answer over UDP: a response that [CreateResponse] makes for a received request
    is written once, whole, through the socket of the port that the request was addressed
    to, to the address that the source of the request (its Via header, corrected by
    received and rport) resolves to. *)
Theorem answer_on_the_wire (localIP : string) (LookupSRV : string -> string -> list (string * Port))
    (tpl : layer) (rs : request) (id tag : string) (code : StatusCode) (resp : response) (hop : ViaHop)
    (sr de dhost port text : string) (target : Addr) (a : endpoint) (h : connectionHandler) :
  (forall hm, range hm ≡ₚ map_to_list hm) ->
  pool_ok (udp_connections udp0) -> pcancel (udp_connections udp0) = false ->
  canceled tpl = false -> headers_ok (msg_headers (req_msg rs)) ->
  headers_ViaHop (msg_headers (req_msg rs)) = Some hop ->
  protocolPool_get (protocols tpl) (Header.Transport hop) = Some (Some CreateUdpProtocol) ->
  request_Source rs = Ok sr -> request_Destination rs = Ok de -> CreateResponse id tag rs code = Ok resp ->
  NewTargetFromAddr sr = Ok target -> Host target <> "" -> udp_resolveAddr ResolveAddr target = inl a ->
  SplitHostPort de = Ok (dhost, port) -> socket_at udp0 port h ->
  response_String resp = Ok text -> net_write (conn h) (Some a) text = None ->
  exists tpl', layer_Send localIP LookupSRV wire_Send tpl (MResponse resp) = Ok (tpl', MResponse resp, None)
    /\ udp_written (udp_after (outbox tpl')) = udp_written (udp_after (outbox tpl)) ++ [(Key (conn h), Some a, text)].
Proof.
  intros Hrange Hp Hpc Hc Hok Hhop Hproto Hs Hd Hresp Ht Hth Ha Hport Hsock Htext Hw.
  destruct (created_response id tag rs code resp sr de Hok Hs Hd Hresp) as (Hv & Hdest & Hsrc).
  set (u := udp_after (outbox tpl)).
  assert (Hu : udp_connections u = udp_connections udp0) by apply udp_after_connections.
  assert (Hsend : udp_Send ResolveAddr net_write range u target (MResponse resp)
    = Ok (mkUdpProtocol (udp_connections u) (udp_written u ++ [(Key (conn h), Some a, text)]), None)).
  { unfold udp_Send. rewrite (proj2 (String.eqb_neq _ _) Hth), Ha. unfold source_port. cbn [Source mbind res_bind mret res_ret].
    rewrite Hsrc, Hport, udp_connection_view by (rewrite ?Hu; done). rewrite Hu. unfold socket_at in Hsock. rewrite Hsock.
    cbn [deref mbind res_bind mret res_ret Message_String]. rewrite Htext. cbn [mbind res_bind]. by rewrite Hw. }
  eexists. split.
  - unfold layer_Send. rewrite Hc, Hv, Hhop. unfold send_response. rewrite Hproto. unfold response_Destination. rewrite Hdest.
    destruct (String.eqb_spec sr "") as [->|_]; [done|]. cbn [negb mbind res_bind mret res_ret]. rewrite Ht.
    cbn [deref mbind res_bind]. unfold wire_Send. change (Network CreateUdpProtocol) with "UDP". rewrite String.eqb_refl.
    fold u. rewrite Hsend. reflexivity.
  - cbn [accept outbox]. change (Network CreateUdpProtocol) with "UDP".
    by rewrite (udp_after_sent _ _ _ _ Hsend).
Qed.

(** The destination of a request is the host and port of its address, as text. *)
Lemma parse_datagram_dest ids hp n startLine lines b method u version rs :
  isRequest startLine = true -> ParseRequestLine startLine = Ok (method, USip u, version) ->
  parse_datagram ids hp n startLine lines b = Ok (Output (MRequest rs)) ->
  dest (req_msg rs) = Addr_String (FDomain u).
Proof.
  intros Hr Hp. unfold parse_datagram, start_message. rewrite Hr, Hp. cbn [mbind res_bind mret res_ret Domain].
  intros E. apply bind_ok in E as (msg & Ha & E). unfold after_headers in Ha. apply bind_ok in Ha as (hdrs & _ & Ha).
  unfold add_headers in Ha. apply bind_ok in Ha as (hs & _ & Ha). apply (inj Ok) in Ha. subst msg.
  apply (inj Ok) in E. injection E as E. destruct (String.eqb _ _); cbn in E; by injection E as <-.
Qed.

Lemma CreateResponse_source id tag req code resp de :
  CreateResponse id tag req code = Ok resp -> request_Destination req = Ok de -> src (res_msg resp) = de.
Proof.
  unfold CreateResponse, fill_response. intros E Hd.
  apply bind_ok in E as (m1 & _ & E). apply bind_ok in E as (m2 & _ & E). rewrite Hd in E. cbn [mbind res_bind] in E.
  apply bind_ok in E as (d & _ & E). apply (inj Ok) in E. by subst resp.
Qed.

(** a request whose address has no port cannot be answered over UDP: whatever headers
    and body its datagram has, sending any response that [CreateResponse] makes for it
    panics, whoever it goes to (the port of the response's source is empty, no socket
    has this key, and the first of all connections is nil). *)
Theorem portless_answer_panics (ids : nat -> string) (n : nat) (startLine b : string) (lines : list string)
    (method version : string) (u : SipUri) (rs : request) (id tag : string) (code : StatusCode) (resp : response)
    (target : Addr) (a : endpoint) :
  (forall hm, range hm ≡ₚ map_to_list hm) ->
  pool_ok (udp_connections udp0) -> pcancel (udp_connections udp0) = false -> Length (udp_connections udp0) <> 0%nat ->
  view (udp_connections udp0) !! "udp:0.0.0.0:" = None ->
  isRequest startLine = true -> ParseRequestLine startLine = Ok (method, USip u, version) ->
  APort (FDomain u) = None -> Host (FDomain u) <> "" -> sforall (fun c => negb (Ascii.eqb ":" c)) (Host (FDomain u)) = true ->
  parse_datagram ids NewParser_headerParsers n startLine lines b = Ok (Output (MRequest rs)) ->
  CreateResponse id tag rs code = Ok resp ->
  Host target <> "" -> udp_resolveAddr ResolveAddr target = inl a ->
  udp_Send ResolveAddr net_write range udp0 target (MResponse resp) = Panic NilDereference.
Proof.
  intros Hrange Hp Hpc Hlen Hnone Hreq Hline Hport Hhost Hcolon Hparse Hresp Hth Ha.
  pose proof (parse_datagram_dest _ _ _ _ _ _ _ _ _ _ Hreq Hline Hparse) as Hdest.
  assert (Haddr : Addr_String (FDomain u) = Host (FDomain u)) by (unfold Addr_String; by rewrite Hport).
  assert (Hd : request_Destination rs = Ok (Host (FDomain u))).
  { unfold request_Destination. rewrite Hdest, Haddr. by rewrite (proj2 (String.eqb_neq _ _) Hhost). }
  assert (Hsplit : SplitHostPort (Host (FDomain u)) = Err "missing port in address").
  { unfold SplitHostPort. by rewrite last_index_byte_none. }
  unfold udp_Send. rewrite (proj2 (String.eqb_neq _ _) Hth), Ha. unfold source_port. cbn [Source mbind res_bind mret res_ret].
  rewrite (CreateResponse_source _ _ _ _ _ _ Hresp Hd), Hsplit, udp_connection_view by done.
  change ("udp:0.0.0.0:" +:+ "") with "udp:0.0.0.0:". rewrite Hnone. by rewrite (proj2 (Nat.eqb_neq _ _) Hlen).
Qed.

End Wire.

(** The BYE request of the samples, answered from the socket on port 5061. *)
Definition no_others (nw : string) (out : list (string * Addr * Message)) (a : Addr) (m : Message) : res (option string) :=
  mret (Some "no route").

Definition bye_hop : ViaHop := sample_hop "10.0.0.1".

Lemma bye_socket :
  match view (udp_connections (udp_at 5061%N)) !! "udp:0.0.0.0:5061" with
  | Some h => Key (conn h) = "udp:0.0.0.0:5061" /\ open (conn h) = true
  | None => False
  end.
Proof. vm_compute. split; reflexivity. Qed.

Lemma bye_answer_String : response_String bye_answer = Ok bye_answer_text.
Proof.
  unfold bye_answer_text. destruct (response_String bye_answer) as [t| |] eqn:E; [done|vm_compute in E; discriminate E..].
Qed.

Lemma bye_hop_Via : headers_ViaHop (msg_headers (req_msg (received_request counted 0 wire_request wire_uri))) = Some bye_hop.
Proof. vm_compute. reflexivity. Qed.

Lemma answer_on_the_wire_witness :
  exists tpl', layer_Send "10.0.0.1" no_srv (wire_Send sample_resolve sample_write map_to_list (udp_at 5061%N) no_others)
                 both_protocols (MResponse bye_answer) = Ok (tpl', MResponse bye_answer, None)
    /\ udp_written (udp_after sample_resolve sample_write map_to_list (udp_at 5061%N) (outbox tpl'))
       = [("udp:0.0.0.0:5061", Some (mkEndpoint "10.0.0.1:5060" 5060%N), bye_answer_text)].
Proof.
  pose proof bye_socket as Hs. destruct (view (udp_connections (udp_at 5061%N)) !! "udp:0.0.0.0:5061") as [h|] eqn:E; [|done].
  destruct Hs as [Hk Ho].
  destruct (answer_on_the_wire sample_resolve sample_write map_to_list (udp_at 5061%N) no_others "10.0.0.1" no_srv both_protocols
    (received_request counted 0 wire_request wire_uri) "id" "77" 200%N bye_answer bye_hop "10.0.0.1:5060" "example.com:5061"
    "example.com" "5061" bye_answer_text (mkAddr "10.0.0.1" (Some 5060%N)) (mkEndpoint "10.0.0.1:5060" 5060%N) h
    (fun _ => reflexivity _) (udp_at_ok _) eq_refl eq_refl bye_received_ok bye_hop_Via eq_refl bye_source bye_destination
    bye_answer_created eq_refl ltac:(discriminate) eq_refl eq_refl E bye_answer_String) as (tpl' & H1 & H2).
  - unfold sample_write. by rewrite Ho.
  - exists tpl'. split; [exact H1|]. rewrite H2, Hk. reflexivity.
Defined.

(** A REGISTER request to an address without a port. *)
Definition portless_line : string := "REGISTER sip:example.com SIP/2.0".
Definition portless_lines : list string :=
  ["Via: SIP/2.0/UDP 10.0.0.9:5060;branch=z9hG4bK1"; "From: <sip:a@example.com>;tag=1"; "To: <sip:a@example.com>";
   "Call-ID: c"; "CSeq: 1 REGISTER"].

Definition portless_request : request :=
  match parse_datagram counted NewParser_headerParsers 0 portless_line portless_lines "" with
  | Ok (Output (MRequest rs)) => rs
  | _ => wire_request
  end.

Lemma portless_parsed :
  parse_datagram counted NewParser_headerParsers 0 portless_line portless_lines "" = Ok (Output (MRequest portless_request)).
Proof. vm_compute. reflexivity. Qed.

Definition portless_answer : response :=
  match CreateResponse "id" "77" portless_request 405%N with Ok r => r | _ => bye_answer end.

Lemma portless_answered : CreateResponse "id" "77" portless_request 405%N = Ok portless_answer.
Proof. vm_compute. reflexivity. Qed.

Definition portless_uri : SipUri :=
  match ParseRequestLine portless_line with Ok (_, USip u, _) => u | _ => emptySipUri end.

Lemma portless_line_parsed : ParseRequestLine portless_line = Ok ("REGISTER", USip portless_uri, "SIP/2.0").
Proof. vm_compute. reflexivity. Qed.

Lemma udp_at_sockets :
  Length (udp_connections (udp_at 5060%N)) = 1%nat /\ view (udp_connections (udp_at 5060%N)) !! "udp:0.0.0.0:" = None.
Proof. vm_compute. split; reflexivity. Qed.

Lemma portless_answer_panics_witness :
  udp_Send sample_resolve sample_write map_to_list (udp_at 5060%N) sample_target (MResponse portless_answer)
  = Panic NilDereference.
Proof.
  destruct udp_at_sockets as [Hl Hn].
  apply (portless_answer_panics sample_resolve sample_write map_to_list (udp_at 5060%N) counted 0 portless_line "" portless_lines
    "REGISTER" "SIP/2.0" portless_uri portless_request "id" "77" 405%N portless_answer sample_target
    (mkEndpoint "10.0.0.2:5060" 5060%N)
    (fun _ => reflexivity _) (udp_at_ok _) eq_refl ltac:(by rewrite Hl) Hn eq_refl portless_line_parsed eq_refl
    ltac:(discriminate) eq_refl portless_parsed portless_answered ltac:(discriminate) eq_refl).
Defined.
