(* ===== verification/WireTcp.v ===== *)
(** * From an answer to the wire, over TCP

    The transport layer of Transport.v over the TCP protocol of Protocols.v (transport.go,
    tcp.go): the connection that carries the answer to a received request.  An accepted
    connection is in the pool under the address of its peer (listener_handler.go), and the
    answer looks one up under the address its Via header resolves to: only when the two
    agree does it go back the way the request came. *)

From S2P Require Import Prelude GoStrings Params Base Uri Header Headers Auth HeaderParse HeaderRoundTrip.
From S2P Require Import Message Parser MessageRoundTrip ParserLife ConnHandler Pool ListenHandler ConnPool.
From S2P Require Import TxKey Transport Protocols EndToEnd Wire.
From Stdlib Require Import NArith ZArith Lia.

#[local] Open Scope string_scope.
#[local] Open Scope list_scope.

(** ** The connection for an address *)

Section Connection.
Variable DialTCP : string -> endpoint -> baseConn + string.

(** The connection of the pool, or the one that is dialled. *)
Definition tcp_connection (t : tcpProtocol) (a : endpoint) : option connection :=
  let key := "tcp:" +:+ ep_text a in
  match view (tcp_connections t) !! key with
  | Some h => Some (conn h)
  | None =>
      match DialTCP (ToLower (Network CreateTcpProtocol)) a with
      | inl b => Some (CreateConnection key b)
      | inr _ => None
      end
  end.

(** The pool afterwards. *)
Definition tcp_sockets (t : tcpProtocol) (a : endpoint) (now : Z) : gmap string connectionHandler :=
  let key := "tcp:" +:+ ep_text a in
  match view (tcp_connections t) !! key, tcp_connection t a with
  | None, Some c => <[key := CreateConnectionHandler c SockTTL now]> (view (tcp_connections t))
  | _, _ => view (tcp_connections t)
  end.

Lemma conn_Put_fresh (p : ConnectionPool.connectionPool) c ttl now :
  pool_ok p -> pcancel p = false -> Key c <> "" -> view p !! Key c = None ->
  exists p', ConnectionPool.Put p c ttl now = Ok p'.
Proof.
  intros Hp Hc Hk Hv. unfold ConnectionPool.Put, Pool.Put, guarded. rewrite Hc, (proj2 (String.eqb_neq _ _) Hk).
  pose proof (pool_put_spec (Item := upward) "connection" p (Key c) (CreateConnectionHandler c ttl now) Hp) as Hs.
  destruct (pool_put _ _ _ _) as [p'|e|k]; [by eexists| |done]. rewrite Hv in Hs. by destruct Hs.
Qed.

Lemma getOrCreateConnection_total t a now c :
  pool_ok (tcp_connections t) -> pcancel (tcp_connections t) = false -> tcp_connection t a = Some c ->
  exists t', getOrCreateConnection DialTCP t a now = Ok (t', c) /\ tcp_written t' = tcp_written t
    /\ pool_ok (tcp_connections t') /\ pcancel (tcp_connections t') = false
    /\ view (tcp_connections t') = tcp_sockets t a now.
Proof.
  intros Hp Hpc Hcon. unfold tcp_sockets. rewrite Hcon. unfold tcp_connection in Hcon.
  unfold getOrCreateConnection. set (key := "tcp:" +:+ ep_text a) in *.
  pose proof (conn_Get_view _ key Hp Hpc (tcp_key_nonempty _)) as Hg.
  destruct (view (tcp_connections t) !! key) as [h|] eqn:Eh.
  - injection Hcon as <-. rewrite Hg. by exists t.
  - destruct Hg as [e ->]. destruct (DialTCP _ a) as [b|]; [|done]. injection Hcon as <-.
    destruct (conn_Put_fresh (tcp_connections t) (CreateConnection key b) SockTTL now Hp Hpc (tcp_key_nonempty _) Eh)
      as [p Hput].
    rewrite Hput. cbn [mbind res_bind mret res_ret]. eexists. split; [reflexivity|].
    destruct (conn_Put_spec _ _ _ _ _ Hp Hput) as (Hok & Hpc' & _ & _ & Hv). by split_and!.
Qed.

End Connection.

(** ** The layer over the protocol *)

Section WireTcp.
Variable ResolveAddr : string -> string -> endpoint + string.
Variable DialTCP : string -> endpoint -> baseConn + string.
Variable net_write : connection -> option endpoint -> string -> option string.
(** The clock, as a function of what was sent before. *)
Variable now : list (string * Addr * Message) -> Z.
(** The TCP protocol at the start, and the other protocols. *)
Variable tcp0 : tcpProtocol.
Variable others : string -> list (string * Addr * Message) -> Addr -> Message -> res (option string).

(** The TCP protocol after what the layer has sent. *)
Fixpoint tcp_after (out : list (string * Addr * Message)) (before : list (string * Addr * Message)) (t : tcpProtocol)
    : tcpProtocol :=
  match out with
  | [] => t
  | (nw, a, m) :: out' =>
      tcp_after out' (before ++ [(nw, a, m)])
        (if String.eqb nw "TCP" then match tcp_Send ResolveAddr DialTCP net_write t a m (now before) with
                                     | Ok (t', _) => t'
                                     | _ => t
                                     end
         else t)
  end.

Definition tcp_now (out : list (string * Addr * Message)) : tcpProtocol := tcp_after out [] tcp0.

Definition tcp_wire_Send (nw : string) (out : list (string * Addr * Message)) (a : Addr) (m : Message)
    : res (option string) :=
  if String.eqb nw "TCP" then snd <$> tcp_Send ResolveAddr DialTCP net_write (tcp_now out) a m (now out)
  else others nw out a m.

Lemma tcp_after_app out1 out2 before t :
  tcp_after (out1 ++ out2) before t = tcp_after out2 (before ++ out1) (tcp_after out1 before t).
Proof.
  revert before t. induction out1 as [|[[nw a] m] out1 IH]; intros before t; cbn [app tcp_after].
  - by rewrite app_nil_r.
  - by rewrite IH, <- app_assoc.
Qed.

Lemma tcp_now_sent out a m t' :
  tcp_Send ResolveAddr DialTCP net_write (tcp_now out) a m (now out) = Ok (t', None) ->
  tcp_now (out ++ [("TCP", a, m)]) = t'.
Proof. intros E. unfold tcp_now in *. rewrite tcp_after_app. cbn [tcp_after app]. by rewrite String.eqb_refl, E. Qed.

Lemma tcp_Send_total t target m a c text z :
  pool_ok (tcp_connections t) -> pcancel (tcp_connections t) = false -> Host target <> "" ->
  tcp_resolveAddr ResolveAddr target = inl a -> tcp_connection DialTCP t a = Some c ->
  Message_String m = Ok text -> net_write c None text = None ->
  exists t', tcp_Send ResolveAddr DialTCP net_write t target m z = Ok (t', None)
    /\ tcp_written t' = tcp_written t ++ [(Key c, None, text)]
    /\ view (tcp_connections t') = tcp_sockets DialTCP t a z.
Proof.
  intros Hp Hpc Hh Ha Hc Ht Hw. unfold tcp_Send. rewrite (proj2 (String.eqb_neq _ _) Hh), Ha.
  destruct (getOrCreateConnection_total DialTCP t a z c Hp Hpc Hc) as (t1 & Hg & Hw1 & _ & _ & Hv).
  rewrite Hg, Ht. cbn [mbind res_bind]. rewrite Hw. eexists. split; [reflexivity|]. cbn. by rewrite Hw1.
Qed.

(** C12: an answer over TCP: a response that [CreateResponse] makes for a received request
    is written once, whole, to the connection of the pool whose peer is the address that
    the source of the request - what its Via header says, not where it came from -
    resolves to; when the pool has none, a new connection to this address is dialled, put
    into the pool under this address with the time to live of a socket, and written to.  So whichever connection the request came through, if
    its peer is not this address, it is neither written to nor changed. *)
Theorem answer_over_tcp (localIP : string) (LookupSRV : string -> string -> list (string * Port))
    (tpl : layer) (rs : request) (id tag : string) (code : StatusCode) (resp : response) (hop : ViaHop)
    (sr de text : string) (target : Addr) (a : endpoint) (c : connection) :
  let t := tcp_now (outbox tpl) in
  pool_ok (tcp_connections t) -> pcancel (tcp_connections t) = false ->
  canceled tpl = false -> headers_ok (msg_headers (req_msg rs)) ->
  headers_ViaHop (msg_headers (req_msg rs)) = Some hop ->
  protocolPool_get (protocols tpl) (Header.Transport hop) = Some (Some CreateTcpProtocol) ->
  request_Source rs = Ok sr -> request_Destination rs = Ok de -> CreateResponse id tag rs code = Ok resp ->
  NewTargetFromAddr sr = Ok target -> Host target <> "" -> tcp_resolveAddr ResolveAddr target = inl a ->
  tcp_connection DialTCP t a = Some c -> response_String resp = Ok text -> net_write c None text = None ->
  exists tpl', layer_Send localIP LookupSRV tcp_wire_Send tpl (MResponse resp) = Ok (tpl', MResponse resp, None)
    /\ tcp_written (tcp_now (outbox tpl')) = tcp_written t ++ [(Key c, None, text)]
    /\ (forall h, view (tcp_connections t) !! ("tcp:" +:+ ep_text a) = Some h -> c = conn h)
    /\ (view (tcp_connections t) !! ("tcp:" +:+ ep_text a) = None ->
          exists b, DialTCP "tcp" a = inl b /\ c = CreateConnection ("tcp:" +:+ ep_text a) b)
    /\ (exists h, view (tcp_connections (tcp_now (outbox tpl'))) !! ("tcp:" +:+ ep_text a) = Some h /\ conn h = c
          /\ (view (tcp_connections t) !! ("tcp:" +:+ ep_text a) = None ->
              h = CreateConnectionHandler c SockTTL (now (outbox tpl))))
    /\ forall peer, peer <> ep_text a ->
         view (tcp_connections (tcp_now (outbox tpl'))) !! ("tcp:" +:+ peer) = view (tcp_connections t) !! ("tcp:" +:+ peer).
Proof.
  intros t Hp Hpc Hc Hok Hhop Hproto Hs Hd Hresp Ht Hth Ha Hcon Htext Hw.
  destruct (created_response id tag rs code resp sr de Hok Hs Hd Hresp) as (Hv & Hdest & _).
  destruct (tcp_Send_total t target (MResponse resp) a c text (now (outbox tpl)) Hp Hpc Hth Ha Hcon Htext Hw)
    as (t' & Hsend & Hwr & Hview).
  exists (accept tpl CreateTcpProtocol target (MResponse resp)). cbn [accept outbox].
  change (Network CreateTcpProtocol) with "TCP". rewrite (tcp_now_sent _ _ _ _ Hsend).
  split; [|split; [done|split; [|split; [|split]]]].
  - unfold layer_Send. rewrite Hc, Hv, Hhop. unfold send_response. rewrite Hproto. unfold response_Destination. rewrite Hdest.
    destruct (String.eqb_spec sr "") as [->|_]; [done|]. cbn [negb mbind res_bind mret res_ret]. rewrite Ht.
    cbn [deref mbind res_bind]. unfold tcp_wire_Send. change (Network CreateTcpProtocol) with "TCP".
    rewrite String.eqb_refl. fold t. rewrite Hsend. reflexivity.
  - intros h Hh. unfold tcp_connection in Hcon. rewrite Hh in Hcon. by injection Hcon.
  - intros Hn. unfold tcp_connection in Hcon. rewrite Hn in Hcon.
    change (ToLower (Network CreateTcpProtocol)) with "tcp" in Hcon. destruct (DialTCP "tcp" a) as [b|]; [|done].
    injection Hcon as <-. by exists b.
  - rewrite Hview. unfold tcp_sockets. rewrite Hcon. unfold tcp_connection in Hcon.
    destruct (view (tcp_connections t) !! ("tcp:" +:+ ep_text a)) as [h|] eqn:Eh.
    + exists h. injection Hcon as <-. by split_and!.
    + exists (CreateConnectionHandler c SockTTL (now (outbox tpl))). by rewrite lookup_insert_eq.
  - intros peer Hpeer. rewrite Hview. unfold tcp_sockets. rewrite Hcon.
    destruct (view (tcp_connections t) !! ("tcp:" +:+ ep_text a)); [done|]. apply lookup_insert_ne.
    intros Heq. apply Hpeer. by injection Heq.
Qed.

End WireTcp.

(** *** A request from 10.0.0.9, port 40000, whose Via header names port 5060 *)

Definition tcp_hop : ViaHop :=
  mkViaHop "SIP" "2.0" "TCP" "10.0.0.9" (Some 5060%N) (Some (Add NewParams "branch" (Some "z9hG4bK776"))).

Definition tcp_list : list Header :=
  [HVia [tcp_hop]; HFrom sample_address; HTo sample_address; HCallID "abc@host"; HCSeq 7 "BYE"].

Definition tcp_headers : headers := match newHeaders tcp_list with Ok hs => hs | _ => emptyHeaders end.

Lemma tcp_headers_ok : headers_ok tcp_headers.
Proof.
  assert (Haok : address_ok sample_address).
  { destruct sample_address_wf as (_ & (u & Hu & Hwu & _) & ps & Hps & Hp & _). split; [|eauto].
    exists (USip u). split; [done|]. destruct Hwu as (_ & _ & _ & us & hs & E1 & E2 & O1 & O2 & _). split; eauto. }
  assert (Hhop : hop_ok tcp_hop) by (eexists; split; [reflexivity|]; apply Add_ok, NewParams_ok).
  assert (Hok : Forall header_ok tcp_list).
  { repeat (apply Forall_cons; split); try exact I; try exact Haok; try exact Hhop; by apply Forall_nil. }
  unfold tcp_headers. by destruct (newHeaders_built tcp_list Hok) as (hs & -> & Hhs & _).
Qed.

Definition tcp_request : request :=
  mkRequest (mkMessage tcp_headers "" SipVersion "" "" "10.0.0.1:5060") "BYE" None.
Definition tcp_answer : response :=
  match CreateResponse "id" "77" tcp_request 200%N with Ok r => r | _ => bye_answer end.
Definition tcp_answer_text : string := match response_String tcp_answer with Ok s => s | _ => "" end.

(** The connection that the listener accepted. *)
Definition accepted_connection : connection :=
  CreateConnection "tcp:10.0.0.9:40000" (mkBaseConn "tcp" "10.0.0.1:5060" "10.0.0.9:40000" false).
Definition tcp_start : tcpProtocol := pipe_connection new_tcp accepted_connection 0.

Lemma tcp_start_ok : pool_ok (tcp_connections tcp_start).
Proof.
  unfold tcp_start, pipe_connection. destruct (ConnectionPool.Put _ _ _ _) as [p| |] eqn:E; [|apply CreatePool_ok..].
  by apply conn_Put_spec in E; [destruct E|apply CreatePool_ok].
Qed.

Lemma tcp_accepted :
  match view (tcp_connections tcp_start) !! "tcp:10.0.0.9:40000" with
  | Some h => Key (conn h) = "tcp:10.0.0.9:40000" /\ open (conn h) = true
  | None => False
  end /\ view (tcp_connections tcp_start) !! "tcp:10.0.0.9:5060" = None.
Proof. vm_compute. split; [split; reflexivity|reflexivity]. Qed.

(** The answer leaves through a new connection, to the port of the Via header. *)
Lemma answer_over_tcp_witness :
  exists tpl', layer_Send "10.0.0.1" no_srv (tcp_wire_Send sample_resolve sample_dial sample_write (fun _ => 0%Z) tcp_start no_others)
                 both_protocols (MResponse tcp_answer) = Ok (tpl', MResponse tcp_answer, None)
    /\ tcp_written (tcp_now sample_resolve sample_dial sample_write (fun _ => 0%Z) tcp_start (outbox tpl'))
       = [("tcp:10.0.0.9:5060", None, tcp_answer_text)].
Proof.
  destruct (answer_over_tcp sample_resolve sample_dial sample_write (fun _ => 0%Z) tcp_start no_others "10.0.0.1" no_srv
    both_protocols tcp_request "id" "77" 200%N tcp_answer tcp_hop "10.0.0.9:5060" "10.0.0.1:5060" tcp_answer_text
    (mkAddr "10.0.0.9" (Some 5060%N)) (mkEndpoint "10.0.0.9:5060" 5060%N)
    (CreateConnection "tcp:10.0.0.9:5060" (mkBaseConn "tcp" "10.0.0.1:40000" "10.0.0.9:5060" false)))
    as (tpl' & H1 & H2 & _).
  - exact tcp_start_ok.
  - reflexivity.
  - reflexivity.
  - exact tcp_headers_ok.
  - vm_compute. reflexivity.
  - vm_compute. reflexivity.
  - vm_compute. reflexivity.
  - reflexivity.
  - vm_compute. reflexivity.
  - vm_compute. reflexivity.
  - discriminate.
  - vm_compute. reflexivity.
  - vm_compute. reflexivity.
  - vm_compute. reflexivity.
  - reflexivity.
  - exists tpl'. split; [exact H1|exact H2].
Defined.
